(** * generate-json.js: front matter, Markdown rendering and post collection

    A shallow embedding of [src/generate-json.js] and the properties its
    specification states about it.

    JavaScript strings are sequences of UTF-16 code units; they are modelled
    as lists of [N].  The regular expressions of the source are kept as
    syntax trees and run by a backtracking matcher written in the
    continuation style of the ECMAScript specification, so every pattern of
    the source appears below as it is written there. *)

From Stdlib Require Import NArith ZArith List Bool Ascii String Lia Permutation Sorted.
From stdpp Require Import base option list gmap.

Local Open Scope N_scope.
Local Open Scope list_scope.

(** ** Strings *)

Definition char : Type := N.
Definition str : Type := list char.

(** [U "abc"] is the JavaScript string literal ["abc"] (ASCII only). *)
Definition U (s : string) : str :=
  map N_of_ascii (list_ascii_of_string s).

Definition LF : char := 10.
Definition CR : char := 13.
Definition DQ : char := 34.   (* the double quote *)
Definition SQ : char := 39.   (* the single quote *)

(** [unlines] joins lines with a line feed, [quoted] puts a text between
    double quotes; both only help writing documents down. *)
Fixpoint join (sep : str) (l : list str) : str :=
  match l with
  | [] => []
  | [x] => x
  | x :: l' => x ++ sep ++ join sep l'
  end.

Definition unlines (l : list str) : str := join [LF] l.
Definition quoted (s : str) : str := DQ :: s ++ [DQ].

Definition str_eqb (a b : str) : bool := bool_decide (a = b).

(** Character classes of ECMAScript regular expressions (no [u] and no
    [i] flag). *)
Definition in_range (lo hi c : char) : bool := (lo <=? c) && (c <=? hi).

(** LineTerminator: LF, CR, LS, PS. *)
Definition is_line_terminator (c : char) : bool :=
  (c =? 10) || (c =? 13) || (c =? 0x2028) || (c =? 0x2029).

(** [\s]: WhiteSpace and LineTerminator. *)
Definition is_space (c : char) : bool :=
  (c =? 9) || (c =? 10) || (c =? 11) || (c =? 12) || (c =? 13) || (c =? 32)
  || (c =? 0xA0) || (c =? 0x1680) || in_range 0x2000 0x200A c
  || (c =? 0x2028) || (c =? 0x2029) || (c =? 0x202F) || (c =? 0x205F)
  || (c =? 0x3000) || (c =? 0xFEFF).

(** [\d] and [\w]. *)
Definition is_digit (c : char) : bool := in_range 48 57 c.
Definition is_word (c : char) : bool :=
  in_range 97 122 c || in_range 65 90 c || is_digit c || (c =? 95).

(** [.] without the [s] flag. *)
Definition is_dot (c : char) : bool := negb (is_line_terminator c).

(** [[\s\S]]. *)
Definition is_any (c : char) : bool := is_space c || negb (is_space c).

(** ** Regular expressions *)

Inductive regex : Type :=
| Eps : regex                          (* the empty pattern *)
| Cls : (char -> bool) -> regex          (* one character of a class *)
| Seq : regex -> regex -> regex
| Alt : regex -> regex -> regex
| Star : bool -> regex -> regex          (* [r*] when [true], [r*?] when [false] *)
| Grp : nat -> regex -> regex            (* capturing group number [n] *)
| Bol : regex                          (* [^] *)
| Eol : regex.                         (* [$] *)

(** A pattern written as a sequence of parts. *)
Fixpoint Cat (l : list regex) : regex :=
  match l with
  | [] => Eps
  | [r] => r
  | r :: l' => Seq r (Cat l')
  end.

Definition Chr (c : char) : regex := Cls (N.eqb c).

Fixpoint lits (s : str) : regex :=
  match s with
  | [] => Eps
  | c :: s' => Seq (Chr c) (lits s')
  end.

(** [Lit "abc"] matches the literal text. *)
Definition Lit (s : string) : regex := lits (U s).

(** [r?], [r+], [r+?], [r{n}]. *)
Definition Opt (r : regex) : regex := Alt r Eps.
Definition Plus (greedy : bool) (r : regex) : regex := Seq r (Star greedy r).
Fixpoint Times (n : nat) (r : regex) : regex :=
  match n with
  | O => Eps
  | S n' => Seq r (Times n' r)
  end.

(** The matcher state: the code unit before the current position ([None] at
    the start of the input), the input from the current position on, and the
    captures made so far, most recent first. *)
Record mstate : Type := MState {
  prev : option char;
  rest : str;
  caps : list (nat * str)
}.

Definition at_bol (multiline : bool) (x : mstate) : bool :=
  match prev x with
  | None => true
  | Some c => multiline && is_line_terminator c
  end.

Definition at_eol (multiline : bool) (x : mstate) : bool :=
  match rest x with
  | [] => true
  | c :: _ => multiline && is_line_terminator c
  end.

Definition capture (i : nat) (x y : mstate) : mstate :=
  MState (prev y) (rest y)
         ((i, take (length (rest x) - length (rest y)) (rest x)) :: caps y).

Definition cont : Type := mstate -> option mstate.

(** RepeatMatcher with min = 0 and max = infinity: an iteration that
    consumes nothing is rejected.  [n] bounds the number of iterations by
    the length of the remaining input, which every iteration shortens. *)
Fixpoint star_loop (body : cont -> cont) (greedy : bool) (k : cont)
    (n : nat) (x : mstate) : option mstate :=
  match n with
  | O => k x
  | S n' =>
      let iter :=
        body (fun y =>
                if (length (rest y) <? length (rest x))%nat
                then star_loop body greedy k n' y
                else None) x in
      if greedy
      then match iter with Some z => Some z | None => k x end
      else match k x with Some z => Some z | None => iter end
  end.

Fixpoint matcher (multiline : bool) (r : regex) (k : cont) (x : mstate)
    : option mstate :=
  match r with
  | Eps => k x
  | Cls p =>
      match rest x with
      | c :: s => if p c then k (MState (Some c) s (caps x)) else None
      | [] => None
      end
  | Seq a b => matcher multiline a (matcher multiline b k) x
  | Alt a b =>
      match matcher multiline a k x with
      | Some z => Some z
      | None => matcher multiline b k x
      end
  | Star greedy a =>
      star_loop (matcher multiline a) greedy k (length (rest x)) x
  | Grp i a => matcher multiline a (fun y => k (capture i x y)) x
  | Bol => if at_bol multiline x then k x else None
  | Eol => if at_eol multiline x then k x else None
  end.

(** The result of a match: the matched text, the captures and the input
    after the match. *)
Record rmatch : Type := RMatch {
  whole : str;
  groups : list (nat * str);
  after : str
}.

(** Capture [i]; a group that took no part in the match reads as the empty
    string, as [$i] does in a replacement pattern. *)
Fixpoint group (i : nat) (g : list (nat * str)) : str :=
  match g with
  | [] => []
  | (j, s) :: g' => if (i =? j)%nat then s else group i g'
  end.

(** One attempt at the current position. *)
Definition exec (multiline : bool) (r : regex) (p : option char) (s : str)
    : option rmatch :=
  match matcher multiline r Some (MState p s []) with
  | Some y => Some (RMatch (take (length s - length (rest y)) s) (caps y) (rest y))
  | None => None
  end.

(** [RegExp.prototype.exec] without the [g] flag: the first position, from
    the left, where the pattern matches. *)
Fixpoint search (multiline : bool) (r : regex) (p : option char) (s : str)
    : option rmatch :=
  match exec multiline r p s with
  | Some mt => Some mt
  | None =>
      match s with
      | [] => None
      | c :: s' => search multiline r (Some c) s'
      end
  end.

Definition test (multiline : bool) (r : regex) (s : str) : bool :=
  match search multiline r None s with Some _ => true | None => false end.

(** [s.replace(/r/g, f)]: matches are looked for from left to right, each
    search starting where the previous match ended (one further after an
    empty match).  [skip] counts the code units of the current match that
    are still to be passed over. *)
Fixpoint replace_go (multiline : bool) (r : regex) (f : rmatch -> str)
    (skip : nat) (p : option char) (s : str) : str :=
  match skip with
  | S n =>
      match s with
      | [] => []
      | c :: s' => replace_go multiline r f n (Some c) s'
      end
  | O =>
      match exec multiline r p s with
      | Some mt =>
          f mt ++
          match s with
          | [] => []
          | c :: s' =>
              match length (whole mt) with
              | O => c :: replace_go multiline r f O (Some c) s'
              | S n => replace_go multiline r f n (Some c) s'
              end
          end
      | None =>
          match s with
          | [] => []
          | c :: s' => c :: replace_go multiline r f O (Some c) s'
          end
      end
  end.

Definition replace_all (multiline : bool) (r : regex) (f : rmatch -> str)
    (s : str) : str :=
  replace_go multiline r f O None s.

(** [s.replace(/r/, f)] without the [g] flag: the first match only. *)
Fixpoint replace_first_go (multiline : bool) (r : regex) (f : rmatch -> str)
    (p : option char) (s : str) : str :=
  match exec multiline r p s with
  | Some mt => f mt ++ after mt
  | None =>
      match s with
      | [] => []
      | c :: s' => c :: replace_first_go multiline r f (Some c) s'
      end
  end.

Definition replace_first (multiline : bool) (r : regex) (f : rmatch -> str)
    (s : str) : str :=
  replace_first_go multiline r f None s.

(** [s.split(/r/)] for a pattern without capturing groups.  [cur] is the
    piece being collected; no match is attempted at the end of the input. *)
Fixpoint split_go (multiline : bool) (r : regex) (skip : nat)
    (p : option char) (cur : str) (s : str) : list str :=
  match s with
  | [] => [cur]
  | c :: s' =>
      match skip with
      | S n => split_go multiline r n (Some c) cur s'
      | O =>
          match exec multiline r p s with
          | Some mt =>
              match length (whole mt) with
              | O =>
                  match cur with
                  | [] => split_go multiline r O (Some c) [c] s'
                  | _ => cur :: split_go multiline r O (Some c) [c] s'
                  end
              | S n => cur :: split_go multiline r n (Some c) [] s'
              end
          | None => split_go multiline r O (Some c) (cur ++ [c]) s'
          end
      end
  end.

Definition split_re (multiline : bool) (r : regex) (s : str) : list str :=
  match s with
  | [] => match exec multiline r None [] with Some _ => [] | None => [[]] end
  | _ => split_go multiline r O None [] s
  end.

(** [s.split("\n")], a one-character string separator. *)
Fixpoint split_char (sep : char) (s : str) : list str :=
  match s with
  | [] => [[]]
  | c :: s' =>
      if c =? sep then [] :: split_char sep s'
      else match split_char sep s' with
           | [] => [[c]]
           | l :: ls => (c :: l) :: ls
           end
  end.

(** [s.trim()]. *)
Fixpoint trim_start (s : str) : str :=
  match s with
  | c :: s' => if is_space c then trim_start s' else s
  | [] => []
  end.

Definition trim_end (s : str) : str := rev (trim_start (rev s)).
Definition trim (s : str) : str := trim_end (trim_start s).

(** [s.startsWith(p)] and [s.endsWith(p)]. *)
Fixpoint starts_with (p s : str) : bool :=
  match p, s with
  | [], _ => true
  | a :: p', b :: s' => (a =? b) && starts_with p' s'
  | _ :: _, [] => false
  end.

Definition ends_with (p s : str) : bool := starts_with (rev p) (rev s).

(** [s.replace(p, EMPTY)] with a string pattern: only the first occurrence of
    [p] is removed. *)
Fixpoint remove_first (p s : str) : str :=
  if starts_with p s then drop (length p) s
  else match s with
       | [] => []
       | c :: s' => c :: remove_first p s'
       end.

(** [a < b] on strings: lexicographic on code units. *)
Fixpoint str_ltb (a b : str) : bool :=
  match a, b with
  | _, [] => false
  | [], _ :: _ => true
  | x :: a', y :: b' => (x <? y) || ((x =? y) && str_ltb a' b')
  end.

(** ** JSON.parse

    The built-in [JSON.parse], modelled after the JSON grammar of ECMA-404
    that the language specification prescribes.  A number keeps the text it
    was written with, since no property below reads its value. *)

#[warnings="-register-all"]
Inductive json : Type :=
| JNull : json
| JBool : bool -> json
| JNum : str -> json
| JStr : str -> json
| JArr : list json -> json
| JObj : list (str * json) -> json.

Definition is_json_ws (c : char) : bool :=
  (c =? 9) || (c =? 10) || (c =? 13) || (c =? 32).

Fixpoint skip_ws (s : str) : str :=
  match s with
  | c :: s' => if is_json_ws c then skip_ws s' else s
  | [] => []
  end.

Definition is_hex (c : char) : bool :=
  is_digit c || in_range 97 102 c || in_range 65 70 c.

Definition hex_val (c : char) : N :=
  if is_digit c then c - 48
  else if in_range 97 102 c then c - 87
  else c - 55.

(** The character an escape [\e] stands for ([\u] is handled apart). *)
Definition unescape (e : char) : option char :=
  if e =? 34 then Some 34          (* the escaped double quote *)
  else if e =? 92 then Some 92     (* \\ *)
  else if e =? 47 then Some 47     (* \/ *)
  else if e =? 98 then Some 8      (* \b *)
  else if e =? 102 then Some 12    (* \f *)
  else if e =? 110 then Some 10    (* \n *)
  else if e =? 114 then Some 13    (* \r *)
  else if e =? 116 then Some 9     (* \t *)
  else None.

(** The characters of a string literal after its opening quote, up to and
    including the closing quote. *)
Fixpoint parse_chars (s : str) : option (str * str) :=
  match s with
  | [] => None
  | c :: t =>
      if c =? 34 then Some ([], t)
      else if c =? 92 then
        match t with
        | [] => None
        | e :: t1 =>
            if e =? 117 then
              match t1 with
              | h1 :: h2 :: h3 :: h4 :: t2 =>
                  if is_hex h1 && is_hex h2 && is_hex h3 && is_hex h4 then
                    match parse_chars t2 with
                    | Some (cs, r) =>
                        Some (((hex_val h1 * 16 + hex_val h2) * 16
                               + hex_val h3) * 16 + hex_val h4 :: cs, r)
                    | None => None
                    end
                  else None
              | _ => None
              end
            else
              match unescape e with
              | Some c' =>
                  match parse_chars t1 with
                  | Some (cs, r) => Some (c' :: cs, r)
                  | None => None
                  end
              | None => None
              end
        end
      else if c <? 32 then None
      else
        match parse_chars t with
        | Some (cs, r) => Some (c :: cs, r)
        | None => None
        end
  end.

Fixpoint span_digits (s : str) : str * str :=
  match s with
  | c :: t =>
      if is_digit c then let '(ds, r) := span_digits t in (c :: ds, r)
      else ([], s)
  | [] => ([], [])
  end.

(** A number: an optional minus sign, an integer part without leading
    zero, an optional fraction and an optional exponent. *)
Definition parse_int (s : str) : option (str * str) :=
  match s with
  | c :: t =>
      if c =? 48 then Some ([c], t)
      else if in_range 49 57 c
           then let '(ds, r) := span_digits t in Some (c :: ds, r)
           else None
  | [] => None
  end.

Definition parse_frac (s : str) : option (str * str) :=
  match s with
  | c :: t =>
      if c =? 46 then
        match span_digits t with
        | ([], _) => None
        | (ds, r) => Some (c :: ds, r)
        end
      else Some ([], s)
  | [] => Some ([], [])
  end.

Definition parse_exp (s : str) : option (str * str) :=
  match s with
  | c :: t =>
      if (c =? 101) || (c =? 69) then
        let '(sg, t') :=
          match t with
          | d :: t1 => if (d =? 43) || (d =? 45) then ([d], t1) else ([], t)
          | [] => ([], t)
          end in
        match span_digits t' with
        | ([], _) => None
        | (ds, r) => Some (c :: sg ++ ds, r)
        end
      else Some ([], s)
  | [] => Some ([], [])
  end.

Definition parse_number (s : str) : option (str * str) :=
  let '(sg, s1) :=
    match s with
    | c :: t => if c =? 45 then ([c], t) else ([], s)
    | [] => ([], s)
    end in
  match parse_int s1 with
  | Some (i, s2) =>
      match parse_frac s2 with
      | Some (f, s3) =>
          match parse_exp s3 with
          | Some (e, s4) => Some (sg ++ i ++ f ++ e, s4)
          | None => None
          end
      | None => None
      end
  | None => None
  end.

(** The outcome of parsing one construct: a value and the input left, a
    syntax error, or the recursion bound reached (which
    [JSON_parse_never_out_of_fuel] shows not to happen). *)
Inductive pres (A : Type) : Type :=
| POk : A -> str -> pres A
| PErr : pres A
| PFuel : pres A.
Arguments POk {A} _ _.
Arguments PErr {A}.
Arguments PFuel {A}.

Definition expect (w : str) (v : json) (s : str) : pres json :=
  if starts_with w s then POk v (drop (length w) s) else PErr.

Fixpoint parse_value (fuel : nat) (s : str) : pres json :=
  match fuel with
  | O => PFuel
  | S fuel' =>
      match skip_ws s with
      | [] => PErr
      | c :: t =>
          if c =? 91 then                                   (* [ *)
            match skip_ws t with
            | d :: t' =>
                if d =? 93 then POk (JArr []) t'            (* ] *)
                else
                  match parse_elements fuel' t with
                  | POk l r => POk (JArr l) r
                  | PErr => PErr
                  | PFuel => PFuel
                  end
            | [] => PErr
            end
          else if c =? 123 then                             (* { *)
            match skip_ws t with
            | d :: t' =>
                if d =? 125 then POk (JObj []) t'           (* } *)
                else
                  match parse_members fuel' t with
                  | POk l r => POk (JObj l) r
                  | PErr => PErr
                  | PFuel => PFuel
                  end
            | [] => PErr
            end
          else if c =? 34 then
            match parse_chars t with
            | Some (cs, r) => POk (JStr cs) r
            | None => PErr
            end
          else if c =? 116 then expect (U "true") (JBool true) (c :: t)
          else if c =? 102 then expect (U "false") (JBool false) (c :: t)
          else if c =? 110 then expect (U "null") JNull (c :: t)
          else
            match parse_number (c :: t) with
            | Some (lexeme, r) => POk (JNum lexeme) r
            | None => PErr
            end
      end
  end

(** One or more values separated by commas, then the closing bracket. *)
with parse_elements (fuel : nat) (s : str) : pres (list json) :=
  match fuel with
  | O => PFuel
  | S fuel' =>
      match parse_value fuel' s with
      | POk v r =>
          match skip_ws r with
          | c :: t =>
              if c =? 44 then
                match parse_elements fuel' t with
                | POk l r' => POk (v :: l) r'
                | PErr => PErr
                | PFuel => PFuel
                end
              else if c =? 93 then POk [v] t
              else PErr
          | [] => PErr
          end
      | PErr => PErr
      | PFuel => PFuel
      end
  end

(** One or more [string : value] members separated by commas, then the
    closing brace. *)
with parse_members (fuel : nat) (s : str) : pres (list (str * json)) :=
  match fuel with
  | O => PFuel
  | S fuel' =>
      match skip_ws s with
      | q :: t =>
          if q =? 34 then
            match parse_chars t with
            | Some (key, r0) =>
                match skip_ws r0 with
                | c0 :: t0 =>
                    if c0 =? 58 then
                      match parse_value fuel' t0 with
                      | POk v r =>
                          match skip_ws r with
                          | c :: t1 =>
                              if c =? 44 then
                                match parse_members fuel' t1 with
                                | POk l r' => POk ((key, v) :: l) r'
                                | PErr => PErr
                                | PFuel => PFuel
                                end
                              else if c =? 125 then POk [(key, v)] t1
                              else PErr
                          | [] => PErr
                          end
                      | PErr => PErr
                      | PFuel => PFuel
                      end
                    else PErr
                | [] => PErr
                end
            | None => PErr
            end
          else PErr
      | [] => PErr
      end
  end.

(** [JSON.parse(s)]: [None] stands for the SyntaxError it throws. *)
Definition JSON_parse (s : str) : option json :=
  match parse_value (2 * length s + 2) s with
  | POk v r => match skip_ws r with [] => Some v | _ :: _ => None end
  | PErr => None
  | PFuel => None
  end.

(** ** Values, objects and outcomes *)

(** What the front-matter parser stores under a key: a boolean, a string or
    an array (a flow array holds whatever JSON values were written in it, a
    block array holds strings). *)
Inductive value : Type :=
| VBool : bool -> value
| VStr : str -> value
| VArr : list json -> value.

Inductive error : Type :=
| SyntaxError : error      (* thrown by JSON.parse *)
| ProcessExit1 : error.    (* process.exit(1) *)

Inductive result (A : Type) : Type :=
| Ok : A -> result A
| Throw : error -> result A.
Arguments Ok {A} _.
Arguments Throw {A} _.

(** [data[key] = v] on the object literal [{}].  An assignment to
    [__proto__] goes to the accessor inherited from Object.prototype and
    creates no own property; the prototype it may install (an array) has
    none of the properties the program reads, so it is not tracked. *)
Definition obj_set (key : str) (v : value) (data : gmap str value)
    : gmap str value :=
  if str_eqb key (U "__proto__") then data else <[key := v]> data.

(** ToBoolean. *)
Definition truthy (v : value) : bool :=
  match v with
  | VBool b => b
  | VStr s => match s with [] => false | _ :: _ => true end
  | VArr _ => true
  end.

(** [data.key || default], where a missing key reads as [undefined]. *)
Definition or_default (o : option value) (d : value) : value :=
  match o with
  | Some v => if truthy v then v else d
  | None => d
  end.

(** ** parseFrontMatter *)

(** The patterns of the source are quoted in the comments with a blank
    between a star and a closing parenthesis that follows it.

    [/^---\r?\n([\s\S]*?)\r?\n---\r?\n?([\s\S]* )$/] *)
Definition FM_REGEX : regex :=
  Cat [Bol; Lit "---"; Opt (Chr CR); Chr LF;
       Grp 1 (Star false (Cls is_any));
       Opt (Chr CR); Chr LF; Lit "---"; Opt (Chr CR); Opt (Chr LF);
       Grp 2 (Star true (Cls is_any)); Eol].

(** [/^(\w[\w-]* ):\s*(.* )/] *)
Definition KEY_REGEX : regex :=
  Cat [Bol;
       Grp 1 (Seq (Cls is_word)
                  (Star true (Cls (fun c => is_word c || (c =? 45)))));
       Chr 58; Star true (Cls is_space); Grp 2 (Star true (Cls is_dot))].

(** [line.match(/^(\w[\w-]* ):\s*(.* )/)] *)
Definition keyMatch (line : str) : option rmatch :=
  search false KEY_REGEX None line.

(** [/^\s+-\s+/] *)
Definition ITEM_REGEX : regex :=
  Cat [Bol; Plus true (Cls is_space); Chr 45; Plus true (Cls is_space)].

(** [/^[Q']|[Q']$/g], where Q stands for the double quote character. *)
Definition is_quote (c : char) : bool := (c =? DQ) || (c =? SQ).
Definition QUOTE_REGEX : regex :=
  Alt (Seq Bol (Cls is_quote)) (Seq (Cls is_quote) Eol).

(** [/^\d{4}-\d{2}-\d{2}$/] *)
Definition DATE_REGEX : regex :=
  Cat [Bol; Times 4 (Cls is_digit); Chr 45; Times 2 (Cls is_digit); Chr 45;
       Times 2 (Cls is_digit); Eol].

(** [s.replace(/^[Q']|[Q']$/g, EMPTY)], the replacement being the empty
    string. *)
Definition strip_quotes (s : str) : str :=
  replace_all false QUOTE_REGEX (fun _ => []) s.

(** [lines[i].match(/^\s+-\s+/)] *)
Definition is_item (line : str) : bool := test false ITEM_REGEX line.

(** [lines[i].replace(/^\s+-\s+/, EMPTY).replace(/^[Q']|[Q']$/g, EMPTY)] *)
Definition item_of (line : str) : json :=
  JStr (strip_quotes (replace_first false ITEM_REGEX (fun _ => []) line)).

(** The value stored for a non-empty [rest]; [None] is the SyntaxError of
    JSON.parse.  A text that starts with a bracket parses to an array or
    not at all (see [JSON_parse_bracket]), so the other values of
    JSON.parse are grouped with the error only to make the match total. *)
Definition scalar_of (rest : str) : option value :=
  if starts_with (U "[") rest then
    match JSON_parse (replace_all false (Chr SQ) (fun _ => [DQ]) rest) with
    | Some (JArr items) => Some (VArr items)
    | _ => None
    end
  else if str_eqb rest (U "true") then Some (VBool true)
  else if str_eqb rest (U "false") then Some (VBool false)
  else if test false DATE_REGEX rest then Some (VStr rest)
  else Some (VStr (strip_quotes rest)).

(** The [while (i < lines.length)] loop; the list is [lines] from index
    [i] on.  The inner loop [items] collects the lines of a block array and
    hands the first line that is not an item back to the outer loop. *)
Fixpoint scan (lines : list str) (data : gmap str value)
    : result (gmap str value) :=
  match lines with
  | [] => Ok data
  | line :: more =>
      match keyMatch line with
      | None => scan more data
      | Some km =>
          let key := group 1 (groups km) in
          let rest := trim (group 2 (groups km)) in
          match rest with
          | [] =>
              (fix items (ms : list str) (arr : list json) {struct ms}
                 : result (gmap str value) :=
                 match ms with
                 | m :: ms' =>
                     if is_item m then items ms' (arr ++ [item_of m])
                     else scan ms (obj_set key (VArr arr) data)
                 | [] => Ok (obj_set key (VArr arr) data)
                 end) more []
          | _ :: _ =>
              match scalar_of rest with
              | Some v => scan more (obj_set key v data)
              | None => Throw SyntaxError
              end
          end
      end
  end.

Record front_matter : Type := FrontMatter {
  fm_data : gmap str value;
  fm_content : str
}.

Definition parseFrontMatter (raw : str) : result front_matter :=
  match search false FM_REGEX None raw with
  | None => Ok (FrontMatter ∅ raw)
  | Some m =>
      let yamlBlock := group 1 (groups m) in
      let markdownContent := group 2 (groups m) in
      match scan (split_char LF yamlBlock) ∅ with
      | Ok data => Ok (FrontMatter data markdownContent)
      | Throw e => Throw e
      end
  end.

(** ** escapeHtml and markdownToHtml *)

Definition escapeHtml (s : str) : str :=
  replace_all false (Chr 62) (fun _ => U "&gt;")
    (replace_all false (Chr 60) (fun _ => U "&lt;")
       (replace_all false (Chr 38) (fun _ => U "&amp;") s)).

(** [/```(\w* )\n([\s\S]*?)```/g] *)
Definition CODE_BLOCK_REGEX : regex :=
  Cat [Lit "```"; Grp 1 (Star true (Cls is_word)); Chr LF;
       Grp 2 (Star false (Cls is_any)); Lit "```"].

Definition code_block (m : rmatch) : str :=
  let lang := group 1 (groups m) in
  let code := group 2 (groups m) in
  U "<pre><code"
  ++ match lang with
     | [] => []
     | _ :: _ => U " class=" ++ quoted (U "language-" ++ lang)
     end
  ++ U ">" ++ escapeHtml (trim code) ++ U "</code></pre>".

(** [/`([^`]+)`/g] *)
Definition INLINE_CODE_REGEX : regex :=
  Cat [Chr 96; Grp 1 (Plus true (Cls (fun c => negb (c =? 96)))); Chr 96].

(** [/^#{n}\s+(.+)$/gm] *)
Definition HEADING_REGEX (n : nat) : regex :=
  Cat [Bol; Times n (Chr 35); Plus true (Cls is_space);
       Grp 1 (Plus true (Cls is_dot)); Eol].

(** [/\*\*\*(.+?)\*\*\*/g], [/\*\*(.+?)\*\*/g] and [/\*(.+?)\*/g] *)
Definition EMPHASIS_REGEX (n : nat) : regex :=
  Cat [Times n (Chr 42); Grp 1 (Plus false (Cls is_dot)); Times n (Chr 42)].

(** [/^[-*]\s+(.+)$/gm] *)
Definition LIST_ITEM_REGEX : regex :=
  Cat [Bol; Cls (fun c => (c =? 45) || (c =? 42)); Plus true (Cls is_space);
       Grp 1 (Plus true (Cls is_dot)); Eol].

(** [/^---$/gm] *)
Definition RULE_REGEX : regex := Cat [Bol; Lit "---"; Eol].

(** [/\[([^\]]+)\]\(([^)]+)\)/g] *)
Definition LINK_REGEX : regex :=
  Cat [Chr 91; Grp 1 (Plus true (Cls (fun c => negb (c =? 93)))); Chr 93;
       Chr 40; Grp 2 (Plus true (Cls (fun c => negb (c =? 41)))); Chr 41].

(** [/(<li>.*<\/li>\n?)+/g]: the group, and the pattern. *)
Definition LI_LINE : regex :=
  Grp 1 (Cat [Lit "<li>"; Star true (Cls is_dot); Lit "</li>"; Opt (Chr LF)]).

Definition LI_RUN_REGEX : regex := Plus true LI_LINE.

(** [/\n{2,}/] *)
Definition BLANK_LINES_REGEX : regex :=
  Cat [Chr LF; Chr LF; Star true (Chr LF)].

(** [/^<(h[1-6]|ul|ol|li|pre|hr|blockquote)/] *)
Definition BLOCK_TAG_REGEX : regex :=
  Cat [Bol; Chr 60;
       Grp 1 (Alt (Seq (Chr 104) (Cls (in_range 49 54)))
             (Alt (Lit "ul") (Alt (Lit "ol") (Alt (Lit "li")
             (Alt (Lit "pre") (Alt (Lit "hr") (Lit "blockquote")))))))].

(** [<tag>$1</tag>] *)
Definition tagged (tag : string) (m : rmatch) : str :=
  U "<" ++ U tag ++ U ">" ++ group 1 (groups m) ++ U "</" ++ U tag ++ U ">".

(** The chain of replacements that builds [html], in the order of the
    source. *)
Definition inline_passes (md : str) : str :=
  let s := replace_all false CODE_BLOCK_REGEX code_block md in
  let s := replace_all false INLINE_CODE_REGEX
             (fun m => U "<code>" ++ escapeHtml (group 1 (groups m))
                       ++ U "</code>") s in
  let s := replace_all true (HEADING_REGEX 4) (tagged "h4") s in
  let s := replace_all true (HEADING_REGEX 3) (tagged "h3") s in
  let s := replace_all true (HEADING_REGEX 2) (tagged "h2") s in
  let s := replace_all true (HEADING_REGEX 1) (tagged "h1") s in
  let s := replace_all false (EMPHASIS_REGEX 3)
             (fun m => U "<strong><em>" ++ group 1 (groups m)
                       ++ U "</em></strong>") s in
  let s := replace_all false (EMPHASIS_REGEX 2) (tagged "strong") s in
  let s := replace_all false (EMPHASIS_REGEX 1) (tagged "em") s in
  let s := replace_all true LIST_ITEM_REGEX (tagged "li") s in
  let s := replace_all true RULE_REGEX (fun _ => U "<hr>") s in
  replace_all false LINK_REGEX
    (fun m => U "<a href=" ++ quoted (group 2 (groups m)) ++ U ">"
              ++ group 1 (groups m) ++ U "</a>") s.

(** Wrap consecutive [<li>] tags in [<ul>]. *)
Definition wrap_lists (html : str) : str :=
  replace_all false LI_RUN_REGEX
    (fun m => U "<ul>" ++ whole m ++ U "</ul>") html.

(** The callback of [map] in the paragraph pass. *)
Definition paragraph (block : str) : str :=
  let block := trim block in
  match block with
  | [] => []
  | _ :: _ =>
      if test false BLOCK_TAG_REGEX block then block
      else U "<p>" ++ replace_all false (Chr LF) (fun _ => U " ") block
           ++ U "</p>"
  end.

Definition wrap_paragraphs (html : str) : str :=
  join [LF] (map paragraph (split_re false BLANK_LINES_REGEX html)).

Definition markdownToHtml (md : str) : str :=
  wrap_paragraphs (wrap_lists (inline_passes md)).

(** ** generateJson *)

(** A post object; every field holds a JavaScript value. *)
Record post : Type := Post {
  title : value;
  slug : value;
  date : value;
  summary : value;
  tags : value;
  featured : value;
  content : value
}.

(** [Array.isArray(data.tags) ? data.tags : []] *)
Definition array_or_empty (o : option value) : value :=
  match o with
  | Some (VArr l) => VArr l
  | _ => VArr []
  end.

(** [data.key === true] *)
Definition is_true (o : option value) : bool :=
  match o with
  | Some (VBool true) => true
  | _ => false
  end.

(** [Array.prototype.sort] leaves the sequence of calls of the comparison
    function to the implementation.  The model is an insertion sort: the
    elements are inserted one by one, from left to right, each before the
    first element it is to precede ([comparefn(x, y) < 0]).  For a
    comparison function that answers as a total order does, as [by_date]
    does on distinct dates that are strings, every sort gives the same
    result; the order among posts of equal date is the choice of the model,
    and no property below depends on it. *)
Fixpoint sort_insert {A : Type} (comparefn : A -> A -> Z) (x : A) (l : list A)
    : list A :=
  match l with
  | [] => [x]
  | y :: l' =>
      if (comparefn x y <? 0)%Z then x :: l
      else y :: sort_insert comparefn x l'
  end.

Definition Array_sort {A : Type} (comparefn : A -> A -> Z) (l : list A)
    : list A :=
  fold_left (fun acc x => sort_insert comparefn x acc) l [].

Section Collector.

(** [x < y] when [x] and [y] are not both strings goes through ToPrimitive
    and ToNumber, hence through floating point numbers; it is left
    open. *)
Variable lt_mixed : value -> value -> bool.

(** [a < b] *)
Definition js_lt (a b : value) : bool :=
  match a, b with
  | VStr x, VStr y => str_ltb x y
  | _, _ => lt_mixed a b
  end.

(** [(a, b) => (a.date < b.date ? 1 : -1)] *)
Definition by_date (a b : post) : Z :=
  if js_lt (date a) (date b) then 1%Z else (-1)%Z.

(** The callback of [files.map]: [None] is the [null] returned for a
    draft. *)
Definition process_file (file : str * str) : result (option post) :=
  let '(filename, raw) := file in
  match parseFrontMatter raw with
  | Throw e => Throw e
  | Ok fm =>
      let data := fm_data fm in
      if is_true (data !! U "draft") then Ok None
      else
        Ok (Some {|
          title := or_default (data !! U "title") (VStr []);
          slug := or_default (data !! U "slug")
                    (VStr (remove_first (U ".md") filename));
          date := or_default (data !! U "date") (VStr []);
          summary := or_default (data !! U "summary") (VStr []);
          tags := array_or_empty (data !! U "tags");
          featured := VBool (is_true (data !! U "featured"));
          content := VStr (markdownToHtml (fm_content fm))
        |})
  end.

(** [files.map(...)]: the first exception ends the run. *)
Fixpoint map_files (files : list (str * str)) : result (list (option post)) :=
  match files with
  | [] => Ok []
  | f :: files' =>
      match process_file f with
      | Throw e => Throw e
      | Ok p =>
          match map_files files' with
          | Throw e => Throw e
          | Ok ps => Ok (p :: ps)
          end
      end
  end.

(** [.filter(Boolean)]: a post object is truthy, [null] is not. *)
Definition filter_Boolean (l : list (option post)) : list post :=
  omap id l.

(** [generateJson], up to the array [posts] that the chain of [map],
    [filter] and [sort] builds: [dir] is the listing of the posts
    directory, file names with their contents, or [None] when the directory
    does not exist; the result is the sorted array, which the program then
    serialises and writes.  The calls that follow, [mkdirSync],
    [JSON.stringify] and [writeFileSync], are not part of the model, and
    neither are the limits of an engine on the depth of its stack.
    [Throw ProcessExit1] is the call [process.exit(1)] and
    [Throw SyntaxError] the exception of [JSON.parse], which nothing
    catches: either ends the process with status 1, and the two are kept
    apart to tell where the run ends. *)
Definition generateJson (dir : option (list (str * str)))
    : result (list post) :=
  match dir with
  | None => Throw ProcessExit1
  | Some entries =>
      let files := List.filter (fun f => ends_with (U ".md") (fst f)) entries in
      match map_files files with
      | Throw e => Throw e
      | Ok ps => Ok (Array_sort by_date (filter_Boolean ps))
      end
  end.

End Collector.

(** * Definitions for the statements and the proofs *)

(** ** The matcher on a run of one class *)

(** [p*] followed by the continuation [k], written as a recursion on the
    input: the longest run first, then the shorter ones. *)
Fixpoint greedy_run (p : char -> bool) (k : cont) (pr : option char) (s : str)
    (cs : list (nat * str)) : option mstate :=
  match s with
  | c :: t =>
      if p c then
        match greedy_run p k (Some c) t cs with
        | Some z => Some z
        | None => k (MState pr s cs)
        end
      else k (MState pr s cs)
  | [] => k (MState pr [] cs)
  end.

(** [p*?] followed by [k]: the shortest run first. *)
Fixpoint lazy_run (p : char -> bool) (k : cont) (pr : option char) (s : str)
    (cs : list (nat * str)) : option mstate :=
  match k (MState pr s cs) with
  | Some z => Some z
  | None =>
      match s with
      | c :: t => if p c then lazy_run p k (Some c) t cs else None
      | [] => None
      end
  end.

(** The code unit before the position reached after [w]. *)
Definition last_or (p : option char) (w : str) : option char :=
  match last w with Some c => Some c | None => p end.

(** The pattern has no [^]. *)
Fixpoint no_bol (r : regex) : bool :=
  match r with
  | Bol => false
  | Seq a b | Alt a b => no_bol a && no_bol b
  | Star _ a | Grp _ a => no_bol a
  | Eps | Cls _ | Eol => true
  end.

(** Two states, two results or two continuations that differ in the
    previous code unit only. *)
Definition same_ahead (x y : mstate) : Prop :=
  rest x = rest y /\ caps x = caps y.

Definition same_result (a b : option mstate) : Prop :=
  match a, b with
  | Some x, Some y => same_ahead x y
  | None, None => True
  | _, _ => False
  end.

Definition same_cont (k k' : cont) : Prop :=
  forall x y, same_ahead x y -> same_result (k x) (k' y).

(** Every match of [r] begins with the code unit [c]. *)
Definition first_char (ml : bool) (r : regex) (c : char) : Prop :=
  forall k pr s cs, head s <> Some c -> matcher ml r k (MState pr s cs) = None.

(** [p] occurs in [s], and the number of places at which it does. *)
Fixpoint occurs (p s : str) : bool :=
  starts_with p s
  || match s with
     | [] => false
     | _ :: t => occurs p t
     end.

Fixpoint count_occurrences (p s : str) : nat :=
  (if starts_with p s then 1 else 0)
  + match s with
    | [] => 0
    | _ :: t => count_occurrences p t
    end.

(** ** JSON.parse *)

(** The recursion bound is not reached, and a value that is parsed takes at
    least one code unit. *)
Definition fuel_ok {A : Type} (p : pres A) (s : str) : Prop :=
  p <> PFuel /\ forall v r, p = POk v r -> (length r < length s)%nat.

(** ** The front matter *)

(** The inner loop on its own: the items of the block array that starts the
    list, and the lines left for the outer loop. *)
Fixpoint block_items (ms : list str) : list json * list str :=
  match ms with
  | m :: ms' =>
      if is_item m
      then let '(arr, r) := block_items ms' in (item_of m :: arr, r)
      else ([], ms)
  | [] => ([], [])
  end.

(** The value stored under [key] by the front matter of [raw], if any. *)
Definition parsed_key (raw key : str) : option value :=
  match parseFrontMatter raw with
  | Ok fm => fm_data fm !! key
  | Throw _ => None
  end.

(** What [strip_quotes] computes, said without a pattern: a quote character
    at the start is removed, and so is one at the end. *)
Definition drop_leading_quote (s : str) : str :=
  match s with
  | c :: t => if is_quote c then t else s
  | [] => []
  end.

Fixpoint drop_trailing_quote (s : str) : str :=
  match s with
  | [] => []
  | c :: t =>
      match t with
      | [] => if is_quote c then [] else [c]
      | _ :: _ => c :: drop_trailing_quote t
      end
  end.

Definition unquote (s : str) : str :=
  drop_trailing_quote (drop_leading_quote s).

(** The specification's reading of the quotes: one layer of matching quotes
    around the text is removed, anything else is left as it is. *)
Definition strip_matching_quotes (s : str) : str :=
  match s with
  | c :: t =>
      if is_quote c then
        match last t with
        | Some d => if d =? c then removelast t else s
        | None => s
        end
      else s
  | [] => []
  end.

(** The text begins with a quote character, ends with one, begins with a
    white space character. *)
Definition starts_quoted (s : str) : bool :=
  match s with c :: _ => is_quote c | [] => false end.

Definition ends_quoted (s : str) : bool :=
  match last s with Some c => is_quote c | None => false end.

Definition starts_space (s : str) : bool :=
  match s with c :: _ => is_space c | [] => false end.

(** The documents [FM_REGEX] matches: a first line [---], then, after at
    least one more line feed, a line that starts with [---]. *)
Definition block_shape (raw : str) : Prop :=
  exists cr yaml tail,
    (cr = [] \/ cr = [CR]) /\
    raw = U "---" ++ cr ++ LF :: yaml ++ LF :: U "---" ++ tail.

(** The text after the opening delimiter line, [---] followed by a line
    feed or by a carriage return and a line feed. *)
Definition after_opening (raw : str) : option str :=
  if starts_with (U "---" ++ [LF]) raw then Some (drop 4 raw)
  else if starts_with (U "---" ++ [CR; LF]) raw then Some (drop 5 raw)
  else None.

(** The same as a test: the opening delimiter line and, after it, a line
    feed followed by [---], whatever comes next on that line. *)
Definition has_block (raw : str) : bool :=
  match after_opening raw with
  | Some t => occurs (LF :: U "---") t
  | None => false
  end.

(** The specification's reading of a front-matter block: the lines of the
    document, a carriage return at the end of a line apart, begin with a
    line [---] and have another line [---] after it. *)
Definition chomp_cr (l : str) : str :=
  match last l with
  | Some c => if c =? CR then removelast l else l
  | None => l
  end.

Definition delimited_block (raw : str) : bool :=
  match map chomp_cr (split_char LF raw) with
  | first :: others =>
      str_eqb first (U "---")
      && existsb (fun l => str_eqb l (U "---")) others
  | [] => false
  end.

(** ** Posts *)

(** The comparison of values that are not both strings, fixed to an
    arbitrary choice for the examples; their dates are all strings, so it
    is never consulted. *)
Definition lt_unordered (a b : value) : bool := false.

(** [data.key] is missing or falsy, so that [data.key || default] is the
    default. *)
Definition unset (parsed : option value) : bool :=
  match parsed with
  | Some v => negb (truthy v)
  | None => true
  end.


(** The date of a post when it is a string. *)
Definition date_text (p : post) : str :=
  match date p with VStr s => s | _ => [] end.

Definition has_string_date (p : post) : Prop := exists s, date p = VStr s.

(** [a] may come before [b]: its date is not less than the date of [b]. *)
Definition date_desc (a b : post) : Prop :=
  str_ltb (date_text a) (date_text b) = false.

(** The order the specification describes: dates compare as strings, and a
    string that is missing or is not a date is greater than every date. *)
Definition claimed_date_lt (a b : str) : bool :=
  match test false DATE_REGEX a, test false DATE_REGEX b with
  | true, false => true
  | false, true => false
  | _, _ => str_ltb a b
  end.

(** No element is less than one that comes after it. *)
Fixpoint descending_by (lt : str -> str -> bool) (l : list post) : bool :=
  match l with
  | [] => true
  | p :: l' =>
      forallb (fun q => negb (lt (date_text p) (date_text q))) l'
      && descending_by lt l'
  end.

(** The files that are processed. *)
Definition md_files (entries : list (str * str)) : list (str * str) :=
  List.filter (fun f => ends_with (U ".md") (fst f)) entries.

(** ** List items *)

(** A line [<li>b</li>]. *)
Definition li_line (b : str) : str := U "<li>" ++ b ++ U "</li>".

(** The lines of the items [b], [bs], one line feed between two of them,
    followed by [tail]. *)
Fixpoint run_text (b : str) (bs : list str) (tail : str) : str :=
  li_line b ++
  match bs with
  | [] => tail
  | b' :: bs' => LF :: run_text b' bs' tail
  end.

(** What may follow the last line of a run: the end of the input, or a line
    feed and a text that does not go on with another item. *)
Definition run_end (tail : str) : bool :=
  match tail with
  | [] => true
  | c :: post => (c =? LF) && negb (starts_with (U "<li>") post)
  end.

(** An item made of word characters, at least one. *)
Definition plain_item (t : str) : bool :=
  match t with [] => false | _ :: _ => forallb is_word t end.

(** The lines [- t] of the items, and the lines [<li>t</li>]. *)
Definition item_lines (items : list str) : str :=
  unlines (map (fun t => U "- " ++ t) items).

Definition li_lines (items : list str) : str :=
  unlines (map li_line items).

(** ** Example documents *)

(** The file [a.md] of the specification, with the flow array written
    [[x, y]] as it stands there. *)
Definition doc_a : str :=
  unlines [U "---"; U "title: Hello"; U "date: 2024-01-01"; U "tags: [x, y]";
           U "---"; U "# Hi"; U ""; U "Some **bold** text."].

(** The same file with the items of the flow array between double quotes,
    and the post object the specification gives for it. *)
Definition doc_a_json : str :=
  unlines [U "---"; U "title: Hello"; U "date: 2024-01-01";
           U "tags: [" ++ quoted (U "x") ++ U ", " ++ quoted (U "y") ++ U "]";
           U "---"; U "# Hi"; U ""; U "Some **bold** text."].

Definition post_a : post := {|
  title := VStr (U "Hello");
  slug := VStr (U "a");
  date := VStr (U "2024-01-01");
  summary := VStr (U "");
  tags := VArr [JStr (U "x"); JStr (U "y")];
  featured := VBool false;
  content := VStr (U "<h1>Hi</h1>" ++ [LF]
                   ++ U "<p>Some <strong>bold</strong> text.</p>")
|}.

(** A flow array that is not closed. *)
Definition doc_unparseable : str :=
  unlines [U "---"; U "title: t"; U "tags: [unparseable"; U "---"; U "body"].

(** [title: Qabc] and [title: Qabc'], with Q the double quote. *)
Definition doc_leading_quote : str :=
  unlines [U "---"; U "title: " ++ DQ :: U "abc"; U "---"; U "body"].

Definition doc_mixed_quotes : str :=
  unlines [U "---"; U "title: " ++ DQ :: U "abc" ++ [SQ]; U "---"; U "body"].

(** A block that is never closed, followed by a line of four dashes. *)
Definition doc_four_dashes : str :=
  unlines [U "---"; U "title: x"; U "----"; U "body"].

(** [tags: [QaQ, QbQ]], the block array with the items [a] and [b], and
    the block array with the items [QaQ] and ['b'] (Q the double quote). *)
Definition doc_flow : str :=
  unlines [U "---";
           U "tags: [" ++ quoted (U "a") ++ U ", " ++ quoted (U "b") ++ U "]";
           U "---"; U "body"].

Definition doc_block : str :=
  unlines [U "---"; U "tags:"; U "  - a"; U "  - b"; U "---"; U "body"].

Definition doc_block_quoted : str :=
  unlines [U "---"; U "tags:"; U "  - " ++ quoted (U "a"); U "  - 'b'";
           U "---"; U "body"].


(** A post with the given date. *)
Definition doc_dated (d : str) : str :=
  unlines [U "---"; U "date: " ++ d; U "---"; U "body"].

(** The three posts of the specification: two dated ones and one without
    a date. *)
Definition three_posts : list (str * str) :=
  [(U "a.md", doc_dated (U "2024-01-01"));
   (U "b.md", doc_dated (U "2024-06-01"));
   (U "c.md", U "no date here")].


(** ** Escaping *)

(** What [escapeHtml] writes for one code unit. *)
Definition escape_char (c : char) : str :=
  if c =? 38 then U "&amp;"
  else if c =? 60 then U "&lt;"
  else if c =? 62 then U "&gt;"
  else [c].

(** The code units [escapeHtml] rewrites: the ampersand and the two angle
    brackets. *)
Definition is_html_special (c : char) : bool :=
  (c =? 38) || (c =? 60) || (c =? 62).

(** ** The lines of the front matter *)

(** The lines of the front-matter block, when there is one. *)
Definition block_lines (raw : str) : list str :=
  match search false FM_REGEX None raw with
  | Some m => split_char LF (group 1 (groups m))
  | None => []
  end.

(** [rest.replace(/'/g, Q)], with Q the double quote. *)
Definition to_double_quotes (rest : str) : str :=
  replace_all false (Chr SQ) (fun _ => [DQ]) rest.

(** The line is a [key: value] line on which JSON.parse throws: its value
    starts with a bracket and is not, its single quotes replaced by double
    quotes, a JSON array. *)
Definition malformed_flow (line : str) : bool :=
  match keyMatch line with
  | Some km =>
      let rest := trim (group 2 (groups km)) in
      starts_with (U "[") rest
      && match JSON_parse (to_double_quotes rest) with
         | Some (JArr _) => false
         | _ => true
         end
  | None => false
  end.

(** The line is a [key: value] line for [key]. *)
Definition sets_key (key line : str) : bool :=
  match keyMatch line with
  | Some km => str_eqb (group 1 (groups km)) key
  | None => false
  end.

(** The value a key line stores, [after] being the lines that follow it:
    the items of the block array that starts there when the line has no
    value, the value read from the text otherwise. *)
Definition line_value (line : str) (after : list str) : option value :=
  match keyMatch line with
  | Some km =>
      match trim (group 2 (groups km)) with
      | [] => Some (VArr (fst (block_items after)))
      | c :: rest => scalar_of (c :: rest)
      end
  | None => None
  end.

(** A key as the key pattern reads it: a word character, then word
    characters and hyphens. *)
Definition is_key (key : str) : bool :=
  match key with
  | c :: ks => is_word c && forallb (fun d : char => is_word d || (d =? 45)) ks
  | [] => false
  end.

(** The shape the date pattern tests: four digits, a hyphen, two digits, a
    hyphen, two digits. *)
Definition date_shape (s : str) : bool :=
  match s with
  | [y1; y2; y3; y4; h1; m1; m2; h2; d1; d2] =>
      is_digit y1 && is_digit y2 && is_digit y3 && is_digit y4 && (h1 =? 45)
      && is_digit m1 && is_digit m2 && (h2 =? 45) && is_digit d1 && is_digit d2
  | _ => false
  end.

(** ** Flow arrays *)

(** A code unit that stands for itself in an item of a flow array: no
    control character, no quote character and no backslash. *)
Definition flow_plain (c : char) : bool :=
  (32 <=? c) && negb (c =? DQ) && negb (c =? SQ) && negb (c =? 92).

(** The text of a flow array: the items between quote characters [q],
    a comma and a blank between two of them, the whole between brackets. *)
Definition flow_text (q : char) (items : list str) : str :=
  U "[" ++ join (U ", ") (map (fun t => q :: t ++ [q]) items) ++ U "]".

(** ** Markdown *)

(** A code unit of running text: no line terminator, no backtick, no
    asterisk, no left bracket and no left angle bracket. *)
Definition text_char (c : char) : bool :=
  is_dot c && negb ((c =? 96) || (c =? 42) || (c =? 91) || (c =? 60)).

(** What a line of text begins with: no white space, no number sign and no
    hyphen. *)
Definition line_start (c : char) : bool :=
  negb (is_space c) && negb ((c =? 35) || (c =? 45)).

Definition ends_space (s : str) : bool :=
  match last s with Some c => is_space c | None => false end.

(** A line of text: running text, not empty, that does not end with a
    white space character. *)
Definition text_line (l : str) : bool :=
  match l with
  | [] => false
  | c :: _ => forallb text_char l && line_start c && negb (ends_space l)
  end.

(** A paragraph of text: one line or more. *)
Definition text_paragraph (ls : list str) : bool :=
  match ls with
  | [] => false
  | _ :: _ => forallb text_line ls
  end.

(** Blank lines between two paragraphs: two line feeds and [k] more. *)
Definition blank_lines (k : nat) : str := LF :: LF :: repeat LF k.

(** A paragraph as [markdownToHtml] renders it: its lines, a blank between
    two of them, in a [p] element. *)
Definition p_element (ls : list str) : str :=
  U "<p>" ++ join (U " ") ls ++ U "</p>".

(** The code units that begin a construct anchored at the start of a line:
    the number sign, the hyphen and the asterisk. *)
Definition starts_markup (c : char) : bool :=
  (c =? 35) || (c =? 45) || (c =? 42).

(** No line of [s] begins with a code unit of the class [q]; [start] tells
    whether [s] begins at the start of a line. *)
Fixpoint no_line_starts (q : char -> bool) (start : bool) (s : str) : bool :=
  match s with
  | [] => true
  | c :: s' => negb (start && q c) && no_line_starts q (is_line_terminator c) s'
  end.

(** The position after the code unit [p] is the start of a line. *)
Definition at_start (p : option char) : bool :=
  match p with
  | None => true
  | Some c => is_line_terminator c
  end.

(** A heading line: [n] number signs, a blank and the text. *)
Definition heading_line (n : nat) (t : str) : str := repeat 35 n ++ 32 :: t.

(** The text of a heading: running text, not empty, that does not begin
    with a white space character. *)
Definition heading_text (t : str) : bool :=
  match t with
  | [] => false
  | c :: _ => forallb text_char t && negb (is_space c)
  end.

(** The element [<hn>t</hn>]. *)
Definition h_element (n : nat) (t : str) : str :=
  U "<h" ++ [48 + N.of_nat n] ++ U ">" ++ t ++ U "</h" ++ [48 + N.of_nat n] ++ U ">".

(** The replacements of [inline_passes] in five stages: code, headings,
    emphasis, list items and rules, links. *)
Definition code_passes (s : str) : str :=
  replace_all false INLINE_CODE_REGEX
    (fun m => U "<code>" ++ escapeHtml (group 1 (groups m)) ++ U "</code>")
    (replace_all false CODE_BLOCK_REGEX code_block s).

Definition heading_passes (s : str) : str :=
  replace_all true (HEADING_REGEX 1) (tagged "h1")
    (replace_all true (HEADING_REGEX 2) (tagged "h2")
       (replace_all true (HEADING_REGEX 3) (tagged "h3")
          (replace_all true (HEADING_REGEX 4) (tagged "h4") s))).

Definition emphasis_passes (s : str) : str :=
  replace_all false (EMPHASIS_REGEX 1) (tagged "em")
    (replace_all false (EMPHASIS_REGEX 2) (tagged "strong")
       (replace_all false (EMPHASIS_REGEX 3)
          (fun m => U "<strong><em>" ++ group 1 (groups m) ++ U "</em></strong>")
          s)).

Definition line_passes (s : str) : str :=
  replace_all true RULE_REGEX (fun _ => U "<hr>")
    (replace_all true LIST_ITEM_REGEX (tagged "li") s).

Definition link_pass (s : str) : str :=
  replace_all false LINK_REGEX
    (fun m => U "<a href=" ++ quoted (group 2 (groups m)) ++ U ">"
              ++ group 1 (groups m) ++ U "</a>") s.

(** The text before a construct in a line, and the text after it: running
    text that, when it is not empty, begins as a line of text does, for the
    one, and does not end with a white space character, for the other. *)
Definition text_before (pre : str) : bool :=
  forallb text_char pre
  && match pre with [] => true | c :: _ => line_start c end.

Definition text_after (post : str) : bool :=
  forallb text_char post && negb (ends_space post).

(** [n] asterisks, and the element that text between [n] asterisks on each
    side becomes. *)
Definition stars (n : nat) : str := repeat 42 n.

Definition em_element (n : nat) (t : str) : str :=
  match n with
  | 1%nat => U "<em>" ++ t ++ U "</em>"
  | 2%nat => U "<strong>" ++ t ++ U "</strong>"
  | _ => U "<strong><em>" ++ t ++ U "</em></strong>"
  end.

(** A link [[t](u)] and the element it becomes. *)
Definition link_text (t u : str) : str := U "[" ++ t ++ U "](" ++ u ++ U ")".

Definition a_element (t u : str) : str :=
  U "<a href=" ++ quoted u ++ U ">" ++ t ++ U "</a>".

(** The text of a link and its target: running text, not empty, without a
    right bracket for the one and without a right parenthesis for the
    other. *)
Definition link_part (close : char) (t : str) : bool :=
  match t with
  | [] => false
  | _ :: _ => forallb (fun c : char => text_char c && negb (c =? close)) t
  end.

(** Code between backticks: not empty, on one line, without a backtick, an
    asterisk or a left bracket. *)
Definition code_char (c : char) : bool :=
  is_dot c && negb ((c =? 96) || (c =? 42) || (c =? 91)).

Definition code_text (c : str) : bool :=
  match c with
  | [] => false
  | _ :: _ => forallb code_char c
  end.

(** The text inside an inline construct: running text, not empty. *)
Definition span_text (t : str) : bool :=
  match t with
  | [] => false
  | _ :: _ => forallb text_char t
  end.

(** Code between two backticks, and the element it becomes. *)
Definition code_span (c : str) : str := 96 :: c ++ [96].

Definition code_element (c : str) : str :=
  U "<code>" ++ escapeHtml c ++ U "</code>".

(** Code between two fences: no backtick, no asterisk and no left bracket,
    no line that begins with a number sign or a hyphen, no empty line, and
    no white space at its start or at its end. *)
Definition block_code (c : str) : bool :=
  forallb (fun d : char => negb ((d =? 96) || (d =? 42) || (d =? 91))) c
  && no_line_starts starts_markup true c
  && negb (occurs [LF; LF] c)
  && negb (starts_space c) && negb (ends_space c).

(** A fenced code block: the opening fence with the language, the code on
    lines of its own and the closing fence. *)
Definition code_fence (lang c : str) : str :=
  U "```" ++ lang ++ LF :: c ++ LF :: U "```".

(** The element a fenced code block becomes. *)
Definition language_class (lang : str) : str :=
  match lang with
  | [] => []
  | _ :: _ => U " class=" ++ quoted (U "language-" ++ lang)
  end.

Definition pre_element (lang c : str) : str :=
  U "<pre><code" ++ language_class lang ++ U ">" ++ escapeHtml c
  ++ U "</code></pre>".

(** A line of [n] hyphens. *)
Definition hyphens (n : nat) : str := repeat 45 n.

(** An HTML tag written in the text: what is between the angle brackets is
    running text that does not begin with one of the letters h, u, o, l, p
    and b, with which the names of the block elements begin. *)
Definition html_tag (body : str) : str := 60 :: body ++ [62].

Definition tag_body (body : str) : bool :=
  match body with
  | [] => false
  | x :: _ =>
      forallb text_char body
      && negb ((x =? 104) || (x =? 117) || (x =? 111) || (x =? 108)
               || (x =? 112) || (x =? 98))
  end.

(** A block of a document: a heading line, or a paragraph of text. *)
Inductive block : Type :=
| Heading (n : nat) (t : str)
| Paragraph (ls : list str).

(** The headings are of level one to four. *)
Definition block_ok (b : block) : bool :=
  match b with
  | Heading n t => (1 <=? n)%nat && (n <=? 4)%nat && heading_text t
  | Paragraph ls => text_paragraph ls
  end.

(** The Markdown of a block, and the HTML it becomes. *)
Definition block_text (b : block) : str :=
  match b with
  | Heading n t => heading_line n t
  | Paragraph ls => join [LF] ls
  end.

Definition block_html (b : block) : str :=
  match b with
  | Heading n t => h_element n t
  | Paragraph ls => p_element ls
  end.

(** One line feed and [m] more. *)
Definition line_feeds (m : nat) : str := LF :: repeat LF m.

(** A document: its blocks, two line feeds and [k] more between two of
    them. *)
Definition document (k : nat) (bs : list block) : str :=
  join (blank_lines k) (map block_text bs).

(** A block once the headings of the levels above [k] are replaced. *)
Definition stage (k : nat) (b : block) : str :=
  match b with
  | Heading n t => if (k <? n)%nat then h_element n t else heading_line n t
  | Paragraph ls => join [LF] ls
  end.

(** The text after a line: nothing, or a line feed and more. *)
Definition line_end (tail : str) : bool :=
  match tail with
  | [] => true
  | c :: _ => c =? LF
  end.

(** The lines of a block once its heading is replaced. *)
Definition html_lines (b : block) : list str :=
  match b with
  | Heading n t => [h_element n t]
  | Paragraph ls => ls
  end.

(** A line that is not empty, holds no line feed and neither begins nor
    ends with white space. *)
Definition solid (l : str) : bool :=
  match l with
  | [] => false
  | _ :: _ =>
      forallb (fun d : char => negb (d =? LF)) l
      && negb (starts_space l) && negb (ends_space l)
  end.

(** The lines of a text with Windows line ends: lines of text and empty
    lines, the first and the last of them lines of text. *)
Definition text_or_empty (l : str) : bool :=
  match l with
  | [] => true
  | _ :: _ => text_line l
  end.

Definition crlf_lines (ls : list str) : bool :=
  forallb text_or_empty ls
  && match ls with l :: _ => text_line l | [] => false end
  && match last ls with Some l => text_line l | None => false end.

(** ** Items of a block array, drafts and Windows line ends *)

(** An item as it is written: bare, or between two quote characters. *)
Definition written (q : option char) (t : str) : str :=
  match q with
  | None => t
  | Some c => c :: t ++ [c]
  end.

(** White space that is not empty. *)
Definition is_blank (s : str) : bool :=
  match s with
  | [] => false
  | _ :: _ => forallb is_space s
  end.

(** An item line: the indentation, a hyphen, white space and the item. *)
Definition item_line (indent gap : str) (it : option char * str) : str :=
  indent ++ 45 :: gap ++ written (fst it) (snd it).

(** The items for which the two ways of writing an array are compared: the
    text holds no control character, no line terminator, no quote character
    and no backslash; a bare item does not begin with white space. *)
Definition item_ok (it : option char * str) : bool :=
  forallb (fun c : char => flow_plain c && is_dot c) (snd it)
  && match fst it with
     | Some q => is_quote q
     | None => negb (starts_space (snd it))
     end.


(** The lines of a file with Windows line ends. *)
Definition winlines (l : list str) : str := join [CR; LF] l.

(** The documents [doc_flow], [doc_block] and [doc_block_quoted] with
    Windows line ends. *)
Definition doc_flow_crlf : str :=
  winlines [U "---";
            U "tags: [" ++ quoted (U "a") ++ U ", " ++ quoted (U "b") ++ U "]";
            U "title: t"; U "---"; U "body"].

Definition doc_block_crlf : str :=
  winlines [U "---"; U "tags:"; U "  - a"; U "  - b"; U "title: t"; U "---";
            U "body"].

Definition doc_block_quoted_crlf : str :=
  winlines [U "---"; U "tags:"; U "  - " ++ quoted (U "a"); U "  - 'b'";
            U "title: t"; U "---"; U "body"].

(** A block array followed by another entry. *)
Definition doc_block_then_title : str :=
  unlines [U "---"; U "tags:"; U "  - a"; U "  - b"; U "title: Hello"; U "---";
           U "body"].


(** * Lemmas *)

(** ** Runs of one character class *)

Lemma star_loop_greedy ml p k n pr s cs :
  (length s <= n)%nat ->
  star_loop (matcher ml (Cls p)) true k n (MState pr s cs) = greedy_run p k pr s cs.
Proof.
  revert pr s. induction n as [|n IH]; intros pr s Hn.
  - destruct s; [reflexivity | simpl in Hn; lia].
  - destruct s as [|c t]; [reflexivity|].
    simpl in Hn. cbn [star_loop matcher rest greedy_run caps].
    destruct (p c); [|reflexivity].
    replace (length t <? length (c :: t))%nat with true
      by (symmetry; apply Nat.ltb_lt; simpl; lia).
    rewrite IH by lia. reflexivity.
Qed.

Lemma matcher_star_greedy ml p k pr s cs :
  matcher ml (Star true (Cls p)) k (MState pr s cs) = greedy_run p k pr s cs.
Proof. apply star_loop_greedy. reflexivity. Qed.

Lemma star_loop_lazy ml p k n pr s cs :
  (length s <= n)%nat ->
  star_loop (matcher ml (Cls p)) false k n (MState pr s cs) = lazy_run p k pr s cs.
Proof.
  revert pr s. induction n as [|n IH]; intros pr s Hn.
  - destruct s; [|simpl in Hn; lia]. cbn. destruct (k _); reflexivity.
  - destruct s as [|c t].
    + cbn. destruct (k _); reflexivity.
    + simpl in Hn. cbn [star_loop matcher rest lazy_run caps].
      destruct (k _); [reflexivity|].
      destruct (p c); [|reflexivity].
      replace (length t <? length (c :: t))%nat with true
        by (symmetry; apply Nat.ltb_lt; simpl; lia).
      rewrite IH by lia. reflexivity.
Qed.

Lemma matcher_star_lazy ml p k pr s cs :
  matcher ml (Star false (Cls p)) k (MState pr s cs) = lazy_run p k pr s cs.
Proof. apply star_loop_lazy. reflexivity. Qed.

Lemma is_any_true c : is_any c = true.
Proof. unfold is_any. destruct (is_space c); reflexivity. Qed.

(** Decides goals about character classes by comparing code units. *)
Ltac class_cases :=
  repeat match goal with
    | H : context [N.eqb ?a ?b] |- _ => destruct (N.eqb_spec a b); try lia
    | H : context [N.leb ?a ?b] |- _ => destruct (N.leb_spec a b); try lia
    | |- context [N.eqb ?a ?b] => destruct (N.eqb_spec a b); try lia
    | |- context [N.leb ?a ?b] => destruct (N.leb_spec a b); try lia
    end;
  simpl in *; try congruence; try lia.

Lemma is_word_not_space c : is_word c = true -> is_space c = false.
Proof.
  unfold is_word, is_space, is_digit, in_range. intros H. class_cases.
Qed.

Lemma is_word_is_dot c : is_word c = true -> is_dot c = true.
Proof.
  unfold is_word, is_dot, is_line_terminator, is_digit, in_range. intros H. class_cases.
Qed.

(** ** Patterns anchored at the start of the input *)

Lemma exec_bol_inside r c s : exec false (Seq Bol r) (Some c) s = None.
Proof. reflexivity. Qed.

Lemma search_bol_inside r c s : search false (Seq Bol r) (Some c) s = None.
Proof.
  revert c. induction s as [|d s IH]; intros c; cbn [search]; rewrite exec_bol_inside; auto.
Qed.

Lemma search_bol r s :
  search false (Seq Bol r) None s = exec false (Seq Bol r) None s.
Proof.
  destruct s as [|c s]; cbn [search].
  - destruct (exec _ _ _ _); reflexivity.
  - destruct (exec _ _ _ _); [reflexivity|]. apply search_bol_inside.
Qed.

Lemma keyMatch_exec line : keyMatch line = exec false KEY_REGEX None line.
Proof. apply search_bol. Qed.

Lemma search_item line :
  search false ITEM_REGEX None line = exec false ITEM_REGEX None line.
Proof. apply search_bol. Qed.

Lemma is_item_exec line :
  is_item line = match exec false ITEM_REGEX None line with Some _ => true | None => false end.
Proof. unfold is_item, test. rewrite search_item. reflexivity. Qed.

(** A line that starts an entry begins with a word character, and so is
    never an item of a block array. *)
Lemma keyMatch_head line km :
  keyMatch line = Some km -> exists c t, line = c :: t /\ is_word c = true.
Proof.
  rewrite keyMatch_exec. destruct line as [|c t]; [discriminate|].
  unfold exec, KEY_REGEX. cbn [Cat matcher at_bol prev rest].
  destruct (is_word c) eqn:Hc; [eauto | discriminate].
Qed.

Lemma keyMatch_not_item line km : keyMatch line = Some km -> is_item line = false.
Proof.
  intros H. apply keyMatch_head in H as (c & t & -> & Hc).
  rewrite is_item_exec. unfold exec, ITEM_REGEX, Plus.
  cbn [Cat matcher at_bol prev rest].
  rewrite (is_word_not_space _ Hc). reflexivity.
Qed.

(** ** The line loop *)

Lemma scan_items key data ms arr :
  (fix items (ms : list str) (arr : list json) {struct ms}
     : result (gmap str value) :=
     match ms with
     | m :: ms' =>
         if is_item m then items ms' (arr ++ [item_of m])
         else scan ms (obj_set key (VArr arr) data)
     | [] => Ok (obj_set key (VArr arr) data)
     end) ms arr =
  scan (snd (block_items ms))
       (obj_set key (VArr (arr ++ fst (block_items ms))) data).
Proof.
  revert arr. induction ms as [|m ms IH]; intros arr.
  - cbn. rewrite app_nil_r. reflexivity.
  - cbn [block_items]. destruct (is_item m) eqn:Hm.
    + rewrite IH. destruct (block_items ms) as [a r]. cbn [fst snd].
      rewrite <- app_assoc. reflexivity.
    + cbn [fst snd]. rewrite app_nil_r. reflexivity.
Qed.

(** One iteration of the outer loop. *)
Lemma scan_cons line more data :
  scan (line :: more) data =
  match keyMatch line with
  | None => scan more data
  | Some km =>
      match trim (group 2 (groups km)) with
      | [] =>
          scan (snd (block_items more))
               (obj_set (group 1 (groups km)) (VArr (fst (block_items more))) data)
      | c :: rest =>
          match scalar_of (c :: rest) with
          | Some v => scan more (obj_set (group 1 (groups km)) v data)
          | None => Throw SyntaxError
          end
      end
  end.
Proof.
  cbn [scan]. destruct (keyMatch line) as [km|]; [|reflexivity].
  destruct (trim _) as [|c rest]; [|reflexivity].
  apply scan_items.
Qed.

Lemma scan_nil data : scan [] data = Ok data.
Proof. reflexivity. Qed.

Lemma block_items_length ms : (length (snd (block_items ms)) <= length ms)%nat.
Proof.
  induction ms as [|m ms IH]; cbn [block_items]; [cbn; lia|].
  destruct (is_item m); [|cbn; lia].
  destruct (block_items ms). cbn [snd length] in *. lia.
Qed.

Lemma block_items_app ms line l2 :
  is_item line = false ->
  block_items (ms ++ line :: l2) =
  (fst (block_items ms), snd (block_items ms) ++ line :: l2).
Proof.
  intros Hl. induction ms as [|m ms IH]; cbn [block_items app].
  - rewrite Hl. reflexivity.
  - destruct (is_item m); [|reflexivity].
    rewrite IH. destruct (block_items ms). reflexivity.
Qed.

(** A line that starts an entry is always reached by the outer loop: the
    lines before it are processed on their own. *)
Lemma scan_app_key l1 line l2 data km :
  keyMatch line = Some km ->
  scan (l1 ++ line :: l2) data =
  match scan l1 data with
  | Ok d => scan (line :: l2) d
  | Throw e => Throw e
  end.
Proof.
  intros Hk. pose proof (keyMatch_not_item _ _ Hk) as Hi.
  remember (length l1) as n eqn:Hn. revert l1 data Hn.
  induction n as [n IH] using lt_wf_ind. intros l1 data Hn.
  destruct l1 as [|a l1]; [reflexivity|].
  cbn [app]. rewrite !(scan_cons a).
  destruct (keyMatch a) as [ka|].
  - destruct (trim _) as [|c rest].
    + rewrite (block_items_app _ _ _ Hi). cbn [fst snd].
      apply (IH (length (snd (block_items l1)))); [|reflexivity].
      subst n. pose proof (block_items_length l1). cbn [length]. lia.
    + destruct (scalar_of _); [|reflexivity].
      apply (IH (length l1)); [subst n; cbn; lia | reflexivity].
  - apply (IH (length l1)); [subst n; cbn; lia | reflexivity].
Qed.

(** ** Stripping quotes *)

Lemma exec_quote_start c t :
  exec false QUOTE_REGEX None (c :: t) =
  if is_quote c then Some (RMatch [c] [] t) else None.
Proof.
  unfold exec, QUOTE_REGEX. cbn [matcher at_bol prev rest caps].
  destruct (is_quote c); [|reflexivity]. cbn [rest caps].
  replace (length (c :: t) - length t)%nat with 1%nat by (simpl; lia).
  reflexivity.
Qed.

Lemma exec_quote_inside p c t :
  exec false QUOTE_REGEX (Some p) (c :: t) =
  if is_quote c then match t with [] => Some (RMatch [c] [] []) | _ :: _ => None end
  else None.
Proof.
  unfold exec, QUOTE_REGEX. cbn [matcher at_bol at_eol prev rest caps andb].
  destruct (is_quote c); [|reflexivity]. destruct t; reflexivity.
Qed.

Lemma exec_quote_nil p : exec false QUOTE_REGEX p [] = None.
Proof. unfold exec, QUOTE_REGEX. cbn. destruct p; reflexivity. Qed.

Lemma replace_quote_inside p s :
  replace_go false QUOTE_REGEX (fun _ => []) 0 (Some p) s = drop_trailing_quote s.
Proof.
  revert p. induction s as [|c t IH]; intros p.
  - cbn [replace_go]. rewrite exec_quote_nil. reflexivity.
  - cbn [replace_go drop_trailing_quote]. rewrite exec_quote_inside.
    destruct (is_quote c), t as [|d t]; cbn [app length whole]; try reflexivity;
      rewrite IH; reflexivity.
Qed.

Theorem strip_quotes_unquote s : strip_quotes s = unquote s.
Proof.
  unfold strip_quotes, replace_all, unquote.
  destruct s as [|c t].
  - cbn [replace_go]. rewrite exec_quote_nil. reflexivity.
  - cbn [replace_go drop_leading_quote]. rewrite exec_quote_start.
    destruct (is_quote c) eqn:Hc; cbn [app length whole].
    + apply replace_quote_inside.
    + rewrite replace_quote_inside. cbn [drop_trailing_quote].
      rewrite Hc. destruct t; reflexivity.
Qed.

Lemma drop_trailing_quote_app s q :
  is_quote q = true -> drop_trailing_quote (s ++ [q]) = s.
Proof.
  intros Hq. induction s as [|c t IH].
  - cbn. rewrite Hq. reflexivity.
  - change ((c :: t) ++ [q]) with (c :: (t ++ [q])).
    cbn [drop_trailing_quote]. rewrite IH.
    destruct t; reflexivity.
Qed.

Lemma drop_trailing_quote_id s :
  match last s with Some q => is_quote q = false | None => True end ->
  drop_trailing_quote s = s.
Proof.
  induction s as [|c t IH]; [reflexivity|].
  destruct t as [|d t]; cbn [drop_trailing_quote].
  - cbn. intros ->. reflexivity.
  - intros H. f_equal. apply IH. exact H.
Qed.

(** ** The front-matter delimiter pattern *)

Lemma matcher_chr ml c k pr s cs z :
  matcher ml (Chr c) k (MState pr s cs) = Some z ->
  exists t, s = c :: t /\ k (MState (Some c) t cs) = Some z.
Proof.
  cbn [Chr matcher rest caps]. destruct s as [|d t]; [discriminate|].
  destruct (N.eqb_spec c d); [subst; eauto | discriminate].
Qed.

Lemma matcher_lits ml w k pr s cs z :
  matcher ml (lits w) k (MState pr s cs) = Some z ->
  exists t pr', s = w ++ t /\ k (MState pr' t cs) = Some z.
Proof.
  revert pr s. induction w as [|c w IH]; intros pr s H.
  - exists s, pr. split; [reflexivity | exact H].
  - cbn [lits] in H. change (matcher ml (Seq ?a ?b) k) with (matcher ml a (matcher ml b k)) in H.
    apply matcher_chr in H as (t & -> & H).
    apply IH in H as (t' & pr' & -> & H). eauto.
Qed.

Lemma matcher_opt_chr ml c k pr s cs z :
  matcher ml (Opt (Chr c)) k (MState pr s cs) = Some z ->
  exists w t pr', (w = [] \/ w = [c]) /\ s = w ++ t /\ k (MState pr' t cs) = Some z.
Proof.
  unfold Opt. cbn [matcher].
  destruct (matcher ml (Chr c) k _) eqn:E.
  - intros [= ->]. apply matcher_chr in E as (t & -> & E).
    exists [c], t, (Some c). auto.
  - intros H. exists [], s, pr. auto.
Qed.

Lemma lazy_run_sound p k pr s cs z :
  lazy_run p k pr s cs = Some z ->
  exists w t pr', s = w ++ t /\ k (MState pr' t cs) = Some z.
Proof.
  revert pr. induction s as [|c s IH]; intros pr; cbn [lazy_run].
  - destruct (k _) eqn:E; [|discriminate]. intros [= ->]. exists [], [], pr. auto.
  - destruct (k _) eqn:E.
    + intros [= ->]. exists [], (c :: s), pr. auto.
    + destruct (p c); [|discriminate]. intros H.
      apply IH in H as (w & t & pr' & -> & H). exists (c :: w), t, pr'. auto.
Qed.

Lemma search_FM raw :
  search false FM_REGEX None raw = exec false FM_REGEX None raw.
Proof. apply search_bol. Qed.

Lemma FM_REGEX_sound raw m :
  search false FM_REGEX None raw = Some m -> block_shape raw.
Proof.
  rewrite search_FM. unfold FM_REGEX, exec. cbn [Cat]. intros H.
  destruct (matcher _ _ _ _) as [z|] eqn:E; [clear H | discriminate].
  cbn [matcher at_bol prev] in E.
  fold (matcher false) in E.
  unfold Lit in E.
  apply matcher_lits in E as (t1 & p1 & -> & E).
  change (matcher false (Seq ?a ?b) ?k) with (matcher false a (matcher false b k)) in E.
  apply matcher_opt_chr in E as (cr & t2 & p2 & Hcr & -> & E).
  change (matcher false (Seq ?a ?b) ?k) with (matcher false a (matcher false b k)) in E.
  apply matcher_chr in E as (t3 & -> & E).
  change (matcher false (Seq ?a ?b) ?k) with (matcher false a (matcher false b k)) in E.
  cbn [matcher] in E. fold (matcher false) in E.
  change (star_loop _ false ?k (length (rest ?x)) ?x)
    with (matcher false (Star false (Cls is_any)) k x) in E.
  rewrite matcher_star_lazy in E.
  apply lazy_run_sound in E as (yaml & t4 & p4 & -> & E).
  unfold capture in E. cbn [rest prev caps] in E.
  apply matcher_opt_chr in E as (cr' & t5 & p5 & Hcr' & -> & E).
  change (matcher false (Seq ?a ?b) ?k) with (matcher false a (matcher false b k)) in E.
  apply matcher_chr in E as (t6 & -> & E).
  change (matcher false (Seq ?a ?b) ?k) with (matcher false a (matcher false b k)) in E.
  apply matcher_lits in E as (t7 & p7 & -> & E).
  exists cr, (yaml ++ cr'), t7. split; [exact Hcr|].
  rewrite <- !app_assoc. reflexivity.
Qed.

(** ** JSON.parse never reaches its recursion bound *)

Lemma skip_ws_length s : (length (skip_ws s) <= length s)%nat.
Proof.
  induction s as [|c s IH]; cbn [skip_ws]; [lia|].
  destruct (is_json_ws c); cbn [length]; lia.
Qed.

Lemma parse_chars_length s cs r :
  parse_chars s = Some (cs, r) -> (length r < length s)%nat.
Proof.
  remember (length s) as n eqn:Hn. revert s cs r Hn.
  induction n as [n IH] using lt_wf_ind. intros s cs r Hn.
  destruct s as [|c t]; [discriminate|]. cbn [parse_chars].
  destruct (c =? 34).
  { intros [= <- <-]. subst n. cbn. lia. }
  destruct (c =? 92).
  - destruct t as [|e t1]; [discriminate|].
    destruct (e =? 117).
    + destruct t1 as [|h1 [|h2 [|h3 [|h4 t2]]]]; try discriminate.
      destruct (_ && _); [|discriminate].
      destruct (parse_chars t2) as [[cs' r']|] eqn:E; [|discriminate].
      intros [= <- <-]. apply (IH (length t2)) in E; subst n; cbn in *; lia.
    + destruct (unescape e); [|discriminate].
      destruct (parse_chars t1) as [[cs' r']|] eqn:E; [|discriminate].
      intros [= <- <-]. apply (IH (length t1)) in E; subst n; cbn in *; lia.
  - destruct (c <? 32); [discriminate|].
    destruct (parse_chars t) as [[cs' r']|] eqn:E; [|discriminate].
    intros [= <- <-]. apply (IH (length t)) in E; subst n; cbn in *; lia.
Qed.

Lemma span_digits_length s : (length (snd (span_digits s)) <= length s)%nat.
Proof.
  induction s as [|c s IH]; cbn [span_digits]; [cbn; lia|].
  destruct (is_digit c); [|cbn; lia].
  destruct (span_digits s). cbn [snd length] in *. lia.
Qed.

Lemma parse_number_length s l r :
  parse_number s = Some (l, r) -> (length r < length s)%nat.
Proof.
  unfold parse_number.
  assert (Hint : forall s1 i s2, parse_int s1 = Some (i, s2) ->
                                 (length s2 < length s1)%nat).
  { intros s1 i s2. unfold parse_int. destruct s1 as [|c t]; [discriminate|].
    destruct (c =? 48); [intros [= <- <-]; cbn; lia|].
    destruct (in_range 49 57 c); [|discriminate].
    pose proof (span_digits_length t). destruct (span_digits t).
    intros [= <- <-]. cbn [snd length] in *. lia. }
  assert (Hfrac : forall s1 f s2, parse_frac s1 = Some (f, s2) ->
                                  (length s2 <= length s1)%nat).
  { intros s1 f s2. unfold parse_frac. destruct s1 as [|c t]; [intros [= <- <-]; lia|].
    destruct (c =? 46); [|intros [= <- <-]; lia].
    pose proof (span_digits_length t). destruct (span_digits t) as [[|d ds] r'];
      [discriminate|]. intros [= <- <-]. cbn [snd length] in *. lia. }
  assert (Hexp : forall s1 e s2, parse_exp s1 = Some (e, s2) ->
                                 (length s2 <= length s1)%nat).
  { intros s1 e s2. unfold parse_exp. destruct s1 as [|c t]; [intros [= <- <-]; lia|].
    destruct (_ || _); [|intros [= <- <-]; lia].
    destruct t as [|d t1]; [cbn; discriminate|].
    destruct (_ || _).
    - pose proof (span_digits_length t1).
      destruct (span_digits t1) as [[|? ?] ?]; [discriminate|].
      intros [= <- <-]. cbn [snd length] in *. lia.
    - pose proof (span_digits_length (d :: t1)).
      destruct (span_digits (d :: t1)) as [[|? ?] ?]; [discriminate|].
      intros [= <- <-]. cbn [snd length] in *. lia. }
  destruct s as [|c t].
  - cbn. discriminate.
  - destruct (c =? 45).
    + destruct (parse_int t) as [[i s2]|] eqn:Ei; [|discriminate].
      destruct (parse_frac s2) as [[f s3]|] eqn:Ef; [|discriminate].
      destruct (parse_exp s3) as [[e s4]|] eqn:Ee; [|discriminate].
      intros [= <- <-]. apply Hint in Ei. apply Hfrac in Ef. apply Hexp in Ee.
      cbn [length]. lia.
    + destruct (parse_int (c :: t)) as [[i s2]|] eqn:Ei; [|discriminate].
      destruct (parse_frac s2) as [[f s3]|] eqn:Ef; [|discriminate].
      destruct (parse_exp s3) as [[e s4]|] eqn:Ee; [|discriminate].
      intros [= <- <-]. apply Hint in Ei. apply Hfrac in Ef. apply Hexp in Ee.
      lia.
Qed.

Lemma expect_length w v s j r :
  w <> [] -> expect w v s = POk j r -> (length r < length s)%nat.
Proof.
  unfold expect. intros Hw. destruct (starts_with w s) eqn:E; [|discriminate].
  intros [= <- <-]. rewrite length_drop.
  destruct w; [congruence|]. destruct s; [discriminate|]. cbn. lia.
Qed.

Lemma expect_fuel w v s : expect w v s <> PFuel.
Proof. unfold expect. destruct (starts_with w s); discriminate. Qed.

Lemma fuel_ok_err {A : Type} (s : str) : fuel_ok (@PErr A) s.
Proof. split; [discriminate | intros v r; discriminate]. Qed.

Lemma fuel_ok_ok {A : Type} (v : A) (r s : str) :
  (length r < length s)%nat -> fuel_ok (POk v r) s.
Proof. intros H. split; [discriminate | intros v' r' [= <- <-]; exact H]. Qed.

Lemma parse_fuel n :
  (forall s, (2 * length s + 1 <= n)%nat -> fuel_ok (parse_value n s) s) /\
  (forall s, (2 * length s + 2 <= n)%nat -> fuel_ok (parse_elements n s) s) /\
  (forall s, (2 * length s + 2 <= n)%nat -> fuel_ok (parse_members n s) s).
Proof.
  induction n as [|f (IHv & IHe & IHm)].
  { repeat split; intros; lia. }
  split; [|split]; intros s Hs.
  - cbn [parse_value]. pose proof (skip_ws_length s) as Hws.
    destruct (skip_ws s) as [|c t]; [apply fuel_ok_err|]. cbn [length] in Hws.
    destruct (c =? 91).
    { pose proof (skip_ws_length t) as Hwt.
      destruct (skip_ws t) as [|d t']; [apply fuel_ok_err|]. cbn [length] in Hwt.
      destruct (d =? 93); [apply fuel_ok_ok; lia|].
      destruct (IHe t) as [Hf Hl]; [lia|].
      destruct (parse_elements f t) as [l r| |]; [|apply fuel_ok_err|congruence].
      apply fuel_ok_ok. specialize (Hl l r eq_refl). lia. }
    destruct (c =? 123).
    { pose proof (skip_ws_length t) as Hwt.
      destruct (skip_ws t) as [|d t']; [apply fuel_ok_err|]. cbn [length] in Hwt.
      destruct (d =? 125); [apply fuel_ok_ok; lia|].
      destruct (IHm t) as [Hf Hl]; [lia|].
      destruct (parse_members f t) as [l r| |]; [|apply fuel_ok_err|congruence].
      apply fuel_ok_ok. specialize (Hl l r eq_refl). lia. }
    destruct (c =? 34).
    { destruct (parse_chars t) as [[cs r]|] eqn:E; [|apply fuel_ok_err].
      apply parse_chars_length in E. apply fuel_ok_ok. lia. }
    assert (Hexp : forall w v, w <> [] -> fuel_ok (expect w v (c :: t)) s).
    { intros w v Hw. split; [apply expect_fuel|].
      intros j r E. apply expect_length in E; [cbn [length] in E; lia | exact Hw]. }
    destruct (c =? 116); [apply Hexp; discriminate|].
    destruct (c =? 102); [apply Hexp; discriminate|].
    destruct (c =? 110); [apply Hexp; discriminate|].
    destruct (parse_number (c :: t)) as [[l r]|] eqn:E; [|apply fuel_ok_err].
    apply parse_number_length in E. cbn [length] in E. apply fuel_ok_ok. lia.
  - cbn [parse_elements].
    destruct (IHv s) as [Hf Hl]; [lia|].
    destruct (parse_value f s) as [v r| |]; [|apply fuel_ok_err|congruence].
    specialize (Hl v r eq_refl).
    pose proof (skip_ws_length r) as Hwr.
    destruct (skip_ws r) as [|c t]; [apply fuel_ok_err|]. cbn [length] in Hwr.
    destruct (c =? 44).
    { destruct (IHe t) as [Hf' Hl']; [lia|].
      destruct (parse_elements f t) as [l r'| |]; [|apply fuel_ok_err|congruence].
      apply fuel_ok_ok. specialize (Hl' l r' eq_refl). lia. }
    destruct (c =? 93); [apply fuel_ok_ok; lia | apply fuel_ok_err].
  - cbn [parse_members]. pose proof (skip_ws_length s) as Hws.
    destruct (skip_ws s) as [|q t]; [apply fuel_ok_err|]. cbn [length] in Hws.
    destruct (q =? 34); [|apply fuel_ok_err].
    destruct (parse_chars t) as [[key r0]|] eqn:E; [|apply fuel_ok_err].
    apply parse_chars_length in E.
    pose proof (skip_ws_length r0) as Hw0.
    destruct (skip_ws r0) as [|c0 t0]; [apply fuel_ok_err|]. cbn [length] in Hw0.
    destruct (c0 =? 58); [|apply fuel_ok_err].
    destruct (IHv t0) as [Hf Hl]; [lia|].
    destruct (parse_value f t0) as [v r| |]; [|apply fuel_ok_err|congruence].
    specialize (Hl v r eq_refl).
    pose proof (skip_ws_length r) as Hwr.
    destruct (skip_ws r) as [|c t1]; [apply fuel_ok_err|]. cbn [length] in Hwr.
    destruct (c =? 44).
    { destruct (IHm t1) as [Hf' Hl']; [lia|].
      destruct (parse_members f t1) as [l r'| |]; [|apply fuel_ok_err|congruence].
      apply fuel_ok_ok. specialize (Hl' l r' eq_refl). lia. }
    destruct (c =? 125); [apply fuel_ok_ok; lia | apply fuel_ok_err].
Qed.

(** The recursion bound of [JSON_parse] is never reached: [None] is always
    a syntax error. *)
Lemma JSON_parse_never_out_of_fuel s :
  parse_value (2 * length s + 2) s <> PFuel.
Proof. apply (parse_fuel (2 * length s + 2)). lia. Qed.

(** A text that starts with a bracket parses to an array or not at all. *)
Lemma JSON_parse_bracket t j :
  JSON_parse (91 :: t) = Some j -> exists items, j = JArr items.
Proof.
  unfold JSON_parse.
  destruct (2 * length _ + 2)%nat as [|f] eqn:Hf; [discriminate|].
  cbn [parse_value skip_ws is_json_ws N.eqb orb Pos.eqb].
  change (91 =? 91) with true. cbv iota.
  destruct (skip_ws t) as [|d t']; [discriminate|].
  destruct (d =? 93).
  - destruct (skip_ws t'); [|discriminate]. intros [= <-]. eauto.
  - destruct (parse_elements f t) as [l r| |]; try discriminate.
    destruct (skip_ws r); [|discriminate]. intros [= <-]. eauto.
Qed.

Lemma replace_quote_bracket t :
  replace_all false (Chr SQ) (fun _ => [DQ]) (91 :: t) =
  91 :: replace_go false (Chr SQ) (fun _ => [DQ]) 0 (Some 91) t.
Proof. reflexivity. Qed.

(** So [scalar_of] loses nothing by grouping the other values of JSON.parse
    with its error. *)
Lemma scalar_of_bracket rest j :
  starts_with (U "[") rest = true ->
  JSON_parse (replace_all false (Chr SQ) (fun _ => [DQ]) rest) = Some j ->
  exists items, j = JArr items.
Proof.
  destruct rest as [|c t]; [discriminate|].
  cbn [U starts_with]. change (U "[") with [91].
  cbn [starts_with]. destruct (N.eqb_spec 91 c); [subst c | discriminate].
  intros _. rewrite replace_quote_bracket. apply JSON_parse_bracket.
Qed.

(** ** The order on strings *)

Lemma str_ltb_irrefl a : str_ltb a a = false.
Proof.
  induction a as [|x a IH]; [reflexivity|]. cbn [str_ltb].
  rewrite N.ltb_irrefl, N.eqb_refl, IH. reflexivity.
Qed.

Lemma str_ltb_nil_r a : str_ltb a [] = false.
Proof. destruct a; reflexivity. Qed.

Lemma str_ltb_cons x a y b :
  str_ltb (x :: a) (y :: b) = true <-> x < y \/ (x = y /\ str_ltb a b = true).
Proof.
  cbn [str_ltb]. rewrite orb_true_iff, andb_true_iff, N.ltb_lt, N.eqb_eq. tauto.
Qed.

Lemma str_ltb_trans a b c :
  str_ltb a b = true -> str_ltb b c = true -> str_ltb a c = true.
Proof.
  revert b c. induction a as [|x a IH]; intros [|y b] [|z c]; try discriminate; auto.
  rewrite !str_ltb_cons. intros [H1|[-> H1]] [H2|[-> H2]]; eauto.
  - left. lia.
Qed.

Lemma str_ltb_total a b :
  str_ltb a b = false -> str_ltb b a = false -> a = b.
Proof.
  revert b. induction a as [|x a IH]; intros [|y b]; try discriminate; auto.
  intros H1 H2.
  destruct (N.lt_trichotomy x y) as [H|[H|H]].
  - assert (str_ltb (x :: a) (y :: b) = true) by (apply str_ltb_cons; auto). congruence.
  - subst y. f_equal. apply IH.
    + destruct (str_ltb a b) eqn:E; [|reflexivity].
      assert (str_ltb (x :: a) (x :: b) = true) by (apply str_ltb_cons; auto). congruence.
    + destruct (str_ltb b a) eqn:E; [|reflexivity].
      assert (str_ltb (x :: b) (x :: a) = true) by (apply str_ltb_cons; auto). congruence.
  - assert (str_ltb (y :: b) (x :: a) = true) by (apply str_ltb_cons; auto). congruence.
Qed.

(** [a >= b] and [b >= c] give [a >= c]. *)
Lemma str_geb_trans a b c :
  str_ltb a b = false -> str_ltb b c = false -> str_ltb a c = false.
Proof.
  intros H1 H2. destruct (str_ltb a c) eqn:E; [|reflexivity].
  destruct (str_ltb c b) eqn:E2.
  - rewrite (str_ltb_trans _ _ _ E E2) in H1. discriminate.
  - rewrite (str_ltb_total _ _ H2 E2) in H1. congruence.
Qed.

(** ** Sorting *)

Lemma sort_insert_perm {A : Type} (cmp : A -> A -> Z) x l :
  Permutation (sort_insert cmp x l) (x :: l).
Proof.
  induction l as [|y l IH]; cbn [sort_insert]; [reflexivity|].
  destruct (cmp x y <? 0)%Z; [reflexivity|].
  rewrite IH. apply perm_swap.
Qed.

Lemma fold_insert_perm {A : Type} (cmp : A -> A -> Z) l acc :
  Permutation (fold_left (fun acc x => sort_insert cmp x acc) l acc) (acc ++ l).
Proof.
  revert acc. induction l as [|x l IH]; intros acc; cbn [fold_left].
  - rewrite app_nil_r. reflexivity.
  - rewrite IH, sort_insert_perm. apply Permutation_middle.
Qed.

Lemma Array_sort_perm {A : Type} (cmp : A -> A -> Z) l :
  Permutation (Array_sort cmp l) l.
Proof. apply (fold_insert_perm cmp l []). Qed.

Section SortedBy.
Context {A : Type} (cmp : A -> A -> Z) (P : A -> Prop) (R : A -> A -> Prop).
Hypothesis R_before : forall x y, P x -> P y -> (cmp x y <? 0)%Z = true -> R x y.
Hypothesis R_after : forall x y, P x -> P y -> (cmp x y <? 0)%Z = false -> R y x.
Hypothesis R_trans : forall x y z, R x y -> R y z -> R x z.

Lemma sort_insert_sorted x l :
  P x -> Forall P l -> StronglySorted R l ->
  StronglySorted R (sort_insert cmp x l).
Proof.
  intros Hx Hl Hs. induction Hs as [|y l Hs IH Hy]; cbn [sort_insert].
  - repeat constructor.
  - apply Forall_cons_iff in Hl as [Py Pl].
    destruct (cmp x y <? 0)%Z eqn:E.
    + constructor; [constructor; assumption|].
      constructor; [eauto|].
      eapply Forall_impl; [exact Hy|]. cbn. eauto.
    + constructor; [auto|].
      rewrite (sort_insert_perm cmp x l). constructor; [eauto | exact Hy].
Qed.

Lemma fold_insert_sorted l acc :
  Forall P l -> Forall P acc -> StronglySorted R acc ->
  StronglySorted R (fold_left (fun acc x => sort_insert cmp x acc) l acc).
Proof.
  revert acc. induction l as [|x l IH]; intros acc Hl Ha Hs; [exact Hs|].
  apply Forall_cons_iff in Hl as [Px Pl]. cbn [fold_left]. apply IH; auto.
  - rewrite (sort_insert_perm cmp x acc). constructor; assumption.
  - apply sort_insert_sorted; assumption.
Qed.

Lemma Array_sort_sorted l :
  Forall P l -> StronglySorted R (Array_sort cmp l).
Proof. intros Hl. apply fold_insert_sorted; [assumption | constructor | constructor]. Qed.
End SortedBy.

(** ** Throwing *)

(** The only exception of the line loop is the SyntaxError of JSON.parse. *)
Lemma scan_throw lines data e : scan lines data = Throw e -> e = SyntaxError.
Proof.
  remember (length lines) as n eqn:Hn. revert lines data Hn.
  induction n as [n IH] using lt_wf_ind. intros lines data Hn.
  destruct lines as [|line more]; [discriminate|].
  rewrite scan_cons. cbn [length] in Hn.
  destruct (keyMatch line) as [km|].
  - destruct (trim _) as [|c rest].
    + apply (IH (length (snd (block_items more)))); [|reflexivity].
      pose proof (block_items_length more). lia.
    + destruct (scalar_of _); [|congruence].
      apply (IH (length more)); [lia | reflexivity].
  - apply (IH (length more)); [lia | reflexivity].
Qed.

Lemma parseFrontMatter_throw raw e :
  parseFrontMatter raw = Throw e -> e = SyntaxError.
Proof.
  unfold parseFrontMatter. destruct (search _ _ _ _); [|discriminate].
  destruct (scan _ _) eqn:E; [discriminate|].
  intros [= <-]. eapply scan_throw, E.
Qed.

Lemma process_file_throw f e : process_file f = Throw e -> e = SyntaxError.
Proof.
  destruct f as [filename raw]. unfold process_file.
  destruct (parseFrontMatter raw) eqn:E.
  - destruct (is_true _); discriminate.
  - intros [= <-]. eapply parseFrontMatter_throw, E.
Qed.


(** One file that throws makes the whole [map] throw. *)
Lemma map_files_In_throw files f e :
  In f files -> process_file f = Throw e -> map_files files = Throw SyntaxError.
Proof.
  intros Hin Hf. induction files as [|g files IH]; [destruct Hin|].
  cbn [map_files]. destruct (process_file g) eqn:E.
  - destruct Hin as [->|Hin]; [congruence|]. rewrite (IH Hin). reflexivity.
  - f_equal. eapply process_file_throw, E.
Qed.


Lemma map_files_Forall2 files ps :
  map_files files = Ok ps ->
  Forall2 (fun f p => process_file f = Ok p) files ps.
Proof.
  revert ps. induction files as [|f files IH]; intros ps; cbn [map_files].
  - intros [= <-]. constructor.
  - destruct (process_file f) as [p|] eqn:E; [|discriminate].
    destruct (map_files files) as [qs|]; [|discriminate].
    intros [= <-]. constructor; auto.
Qed.

(** ** Quoted strings *)

Lemma unquote_plain s :
  starts_quoted s = false -> ends_quoted s = false -> unquote s = s.
Proof.
  unfold unquote, starts_quoted, ends_quoted. intros Hs He.
  destruct s as [|c t]; [reflexivity|]. cbn [drop_leading_quote]. rewrite Hs.
  apply drop_trailing_quote_id. destruct (last (c :: t)); [exact He | exact I].
Qed.

Lemma unquote_both q1 q2 mid :
  is_quote q1 = true -> is_quote q2 = true -> unquote (q1 :: mid ++ [q2]) = mid.
Proof.
  intros H1 H2. unfold unquote. cbn [drop_leading_quote]. rewrite H1.
  apply drop_trailing_quote_app, H2.
Qed.

Lemma unquote_leading q mid :
  is_quote q = true -> ends_quoted mid = false -> unquote (q :: mid) = mid.
Proof.
  intros H1 H2. unfold unquote. cbn [drop_leading_quote]. rewrite H1.
  apply drop_trailing_quote_id. unfold ends_quoted in H2.
  destruct (last mid); [exact H2 | exact I].
Qed.

Lemma unquote_trailing s q :
  starts_quoted s = false -> is_quote q = true -> unquote (s ++ [q]) = s.
Proof.
  intros H1 H2. unfold unquote. destruct s as [|c t].
  - cbn. rewrite H2. reflexivity.
  - cbn [app drop_leading_quote]. cbn in H1. rewrite H1.
    apply (drop_trailing_quote_app (c :: t)), H2.
Qed.

Lemma obj_set_lookup key v data :
  key <> U "__proto__" -> obj_set key v data !! key = Some v.
Proof.
  intros Hk. unfold obj_set, str_eqb. rewrite bool_decide_eq_false_2 by exact Hk.
  apply lookup_insert_eq.
Qed.

Lemma scalar_of_string rest :
  starts_with (U "[") rest = false ->
  rest <> U "true" -> rest <> U "false" ->
  test false DATE_REGEX rest = false ->
  scalar_of rest = Some (VStr (unquote rest)).
Proof.
  intros Hb Ht Hf Hd. unfold scalar_of, str_eqb. rewrite Hb, Hd.
  rewrite !bool_decide_eq_false_2 by assumption.
  rewrite strip_quotes_unquote. reflexivity.
Qed.

(** ** Documents without a front-matter block *)

Lemma starts_with_app p t : starts_with p (p ++ t) = true.
Proof.
  induction p as [|c p IH]; [reflexivity|]. cbn. rewrite N.eqb_refl. exact IH.
Qed.

Lemma occurs_app p w t : occurs p (w ++ p ++ t) = true.
Proof.
  induction w as [|c w IH].
  - destruct p as [|c p]; [destruct t; reflexivity|].
    change ([] ++ (c :: p) ++ t) with (c :: (p ++ t)). cbn [occurs].
    change (c :: (p ++ t)) with ((c :: p) ++ t).
    rewrite (starts_with_app (c :: p) t). reflexivity.
  - cbn [app occurs]. rewrite IH. apply orb_true_r.
Qed.

Lemma block_shape_has_block raw : block_shape raw -> has_block raw = true.
Proof.
  intros (cr & yaml & tail & [-> | ->] & ->); unfold has_block, after_opening.
  - change (U "---" ++ [] ++ LF :: yaml ++ LF :: U "---" ++ tail)
      with ((U "---" ++ [LF]) ++ yaml ++ (LF :: U "---") ++ tail).
    rewrite starts_with_app.
    change (drop 4 ((U "---" ++ [LF]) ++ ?x)) with x.
    apply occurs_app.
  - change (U "---" ++ [CR] ++ LF :: yaml ++ LF :: U "---" ++ tail)
      with ((U "---" ++ [CR; LF]) ++ yaml ++ (LF :: U "---") ++ tail).
    rewrite starts_with_app.
    change (starts_with (U "---" ++ [LF]) ((U "---" ++ [CR; LF]) ++ ?x)) with false.
    change (drop 5 ((U "---" ++ [CR; LF]) ++ ?x)) with x.
    apply occurs_app.
Qed.

(** ** Running a pattern on a partly known input *)

Lemma matcher_Seq ml a b k x :
  matcher ml (Seq a b) k x = matcher ml a (matcher ml b k) x.
Proof. reflexivity. Qed.

Lemma matcher_Cls_cons ml p k pr c s cs :
  matcher ml (Cls p) k (MState pr (c :: s) cs) =
  if p c then k (MState (Some c) s cs) else None.
Proof. reflexivity. Qed.

Lemma matcher_Cls_nil ml p k pr cs :
  matcher ml (Cls p) k (MState pr [] cs) = None.
Proof. reflexivity. Qed.

Lemma matcher_Grp ml i a k x :
  matcher ml (Grp i a) k x = matcher ml a (fun y => k (capture i x y)) x.
Proof. reflexivity. Qed.

Lemma matcher_Alt ml a b k x :
  matcher ml (Alt a b) k x =
  match matcher ml a k x with Some z => Some z | None => matcher ml b k x end.
Proof. reflexivity. Qed.

Lemma matcher_Eps ml k x : matcher ml Eps k x = k x.
Proof. reflexivity. Qed.

Lemma matcher_Bol ml k x :
  matcher ml Bol k x = if at_bol ml x then k x else None.
Proof. reflexivity. Qed.

Lemma matcher_Eol ml k x :
  matcher ml Eol k x = if at_eol ml x then k x else None.
Proof. reflexivity. Qed.

(** Evaluates a class applied to a known code unit. *)
Ltac eval_class :=
  repeat match goal with
    | |- context [?p (Npos ?c)] =>
        lazymatch type of p with char -> bool => idtac | N -> bool => idtac end;
        let b := eval vm_compute in (p (Npos c)) in
        lazymatch b with
        | true => change (p (Npos c)) with true
        | false => change (p (Npos c)) with false
        end
    end.

(** One step of the matcher on the pattern at its head. *)
Ltac mstep :=
  repeat first
    [ rewrite matcher_Seq
    | rewrite matcher_Cls_cons
    | rewrite matcher_Cls_nil
    | rewrite matcher_star_greedy
    | rewrite matcher_star_lazy
    | rewrite matcher_Grp
    | rewrite matcher_Eps
    | rewrite matcher_Bol
    | rewrite matcher_Eol
    | progress unfold Chr
    | progress cbn [greedy_run lazy_run at_bol at_eol prev rest caps andb]
    | progress eval_class
    | progress cbv iota ].

(** ** The fields of a post object *)


(** ** The order of the output *)

Lemma str_ltb_asym a b : str_ltb a b = true -> str_ltb b a = false.
Proof.
  intros H. destruct (str_ltb b a) eqn:E; [|reflexivity].
  rewrite <- (str_ltb_irrefl a). symmetry. eapply str_ltb_trans; eassumption.
Qed.

Lemma str_ltb_nil_l s : str_ltb [] s = false -> s = [].
Proof. destruct s; [reflexivity | discriminate]. Qed.

Lemma by_date_before lt_mixed x y :
  has_string_date x -> has_string_date y ->
  (by_date lt_mixed x y <? 0)%Z = true -> date_desc x y.
Proof.
  intros [a Ha] [b Hb]. unfold by_date, date_desc, date_text, js_lt.
  rewrite Ha, Hb. destruct (str_ltb a b); [discriminate | reflexivity].
Qed.

Lemma by_date_after lt_mixed x y :
  has_string_date x -> has_string_date y ->
  (by_date lt_mixed x y <? 0)%Z = false -> date_desc y x.
Proof.
  intros [a Ha] [b Hb]. unfold by_date, date_desc, date_text, js_lt.
  rewrite Ha, Hb. destruct (str_ltb a b) eqn:E; [|discriminate].
  intros _. apply str_ltb_asym, E.
Qed.

Lemma date_desc_trans x y z : date_desc x y -> date_desc y z -> date_desc x z.
Proof. unfold date_desc. apply str_geb_trans. Qed.

Lemma StronglySorted_app_r {A : Type} (R : A -> A -> Prop) l1 l2 :
  StronglySorted R (l1 ++ l2) -> StronglySorted R l2.
Proof.
  induction l1 as [|x l1 IH]; [auto|]. cbn [app]. intros H.
  apply StronglySorted_inv in H as [H _]. auto.
Qed.

(** ** Drafts *)



(** ** Replacing: general facts *)

Lemma last_or_cons p c w : last_or p (c :: w) = last_or (Some c) w.
Proof.
  unfold last_or. destruct w as [|d w]; [reflexivity|].
  change (last (c :: d :: w)) with (last (d :: w)).
  destruct (last (d :: w)) eqn:E; [reflexivity|].
  apply last_None in E. discriminate.
Qed.

Lemma replace_go_skip ml r f p w s :
  replace_go ml r f (length w) p (w ++ s) = replace_go ml r f 0 (last_or p w) s.
Proof.
  revert p. induction w as [|c w IH]; intros p; [reflexivity|].
  cbn [length app replace_go]. rewrite IH, last_or_cons. reflexivity.
Qed.

Lemma take_app_sub {A : Type} (w t : list A) :
  take (length (w ++ t) - length t) (w ++ t) = w.
Proof.
  rewrite length_app. replace (length w + length t - length t)%nat with (length w) by lia.
  apply take_app_length.
Qed.

(** A match of the text [w] at the current position. *)
Lemma exec_rest ml r p w t y :
  matcher ml r Some (MState p (w ++ t) []) = Some y -> rest y = t ->
  exec ml r p (w ++ t) = Some (RMatch w (caps y) t).
Proof.
  intros H Hy. unfold exec. rewrite H, Hy, take_app_sub. reflexivity.
Qed.

Lemma replace_go_match ml r f p w t cs :
  w <> [] ->
  exec ml r p (w ++ t) = Some (RMatch w cs t) ->
  replace_go ml r f 0 p (w ++ t)
  = f (RMatch w cs t) ++ replace_go ml r f 0 (last_or p w) t.
Proof.
  intros Hw He. destruct w as [|c w]; [congruence|].
  cbn [app replace_go]. cbn [app] in He. rewrite He. cbn [whole length].
  rewrite replace_go_skip, last_or_cons. reflexivity.
Qed.

Lemma replace_go_nomatch ml r f p c s :
  exec ml r p (c :: s) = None ->
  replace_go ml r f 0 p (c :: s) = c :: replace_go ml r f 0 (Some c) s.
Proof. intros He. cbn [replace_go]. rewrite He. reflexivity. Qed.

(** ** Patterns without [^] do not look behind *)

Lemma star_loop_same body body' greedy k k' n :
  (forall h h', same_cont h h' -> same_cont (body h) (body' h')) ->
  same_cont k k' ->
  same_cont (fun x => star_loop body greedy k n x)
            (fun x => star_loop body' greedy k' n x).
Proof.
  intros Hb Hk. induction n as [|n IH]; intros x y Hxy; cbn [star_loop].
  - apply Hk, Hxy.
  - assert (Hiter : same_result
      (body (fun z => if (length (rest z) <? length (rest x))%nat
                      then star_loop body greedy k n z else None) x)
      (body' (fun z => if (length (rest z) <? length (rest y))%nat
                       then star_loop body' greedy k' n z else None) y)).
    { apply Hb; [|exact Hxy]. intros z z' Hz.
      destruct Hz as [Hr Hc], Hxy as [Hr' Hc']. rewrite Hr, Hr'.
      destruct (_ <? _)%nat; [|exact I]. apply IH. split; assumption. }
    pose proof (Hk x y Hxy) as Hkx.
    destruct greedy.
    + destruct (body _ x), (body' _ y); cbn in Hiter; try contradiction; auto.
    + destruct (k x), (k' y); cbn in Hkx; try contradiction; auto.
Qed.

Lemma matcher_same ml r :
  no_bol r = true ->
  forall k k', same_cont k k' -> same_cont (matcher ml r k) (matcher ml r k').
Proof.
  induction r as [|p|a IHa b IHb|a IHa b IHb|g a IHa|i a IHa| |];
    cbn [no_bol]; intros Hr k k' Hk x y Hxy; cbn [matcher].
  - apply Hk, Hxy.
  - destruct Hxy as [Hr' Hc]. rewrite Hr', Hc.
    destruct (rest y) as [|c s]; [exact I|].
    destruct (p c); [|exact I]. apply Hk. split; reflexivity.
  - apply andb_true_iff in Hr as [Ha Hb]. apply IHa; auto.
  - apply andb_true_iff in Hr as [Ha Hb].
    pose proof (IHa Ha k k' Hk x y Hxy) as H1.
    pose proof (IHb Hb k k' Hk x y Hxy) as H2.
    destruct (matcher ml a k x), (matcher ml a k' y); cbn in H1;
      try contradiction; auto.
  - pose proof Hxy as [Hr' _]. rewrite Hr'.
    apply star_loop_same; auto.
  - apply IHa; auto. intros z z' [Hz Hc]. apply Hk.
    destruct Hxy as [Hr' Hc']. unfold capture, same_ahead. cbn.
    rewrite Hz, Hc, Hr'. auto.
  - discriminate.
  - destruct Hxy as [Hr' Hc]. unfold at_eol. rewrite Hr'.
    destruct (match rest y with [] => true | c :: _ => ml && is_line_terminator c end);
      [|exact I].
    apply Hk. split; assumption.
Qed.

Lemma exec_no_bol ml r p p' s :
  no_bol r = true -> exec ml r p s = exec ml r p' s.
Proof.
  intros Hr. unfold exec.
  pose proof (matcher_same ml r Hr Some Some) as H.
  specialize (H (fun x y Hxy => Hxy) (MState p s []) (MState p' s [])
                (conj eq_refl eq_refl)).
  destruct (matcher ml r Some (MState p s [])) as [y|],
           (matcher ml r Some (MState p' s [])) as [y'|]; cbn in H;
    try contradiction; [|reflexivity].
  destruct H as [-> ->]. reflexivity.
Qed.

Lemma replace_go_no_bol ml r f n p p' s :
  no_bol r = true -> replace_go ml r f n p s = replace_go ml r f n p' s.
Proof.
  intros Hr. revert n p p'. induction s as [|c s IH]; intros n p p'.
  - destruct n; cbn [replace_go]; [|reflexivity].
    rewrite (exec_no_bol ml r p p' [] Hr). reflexivity.
  - destruct n; cbn [replace_go]; [|reflexivity].
    rewrite (exec_no_bol ml r p p' (c :: s) Hr). reflexivity.
Qed.

(** ** Runs of list items *)

Lemma LI_RUN_unfold : LI_RUN_REGEX = Seq LI_LINE (Star true LI_LINE).
Proof. reflexivity. Qed.

Lemma greedy_run_skip p k pr w t cs z :
  forallb p w = true ->
  greedy_run p k (last_or pr w) t cs = Some z ->
  greedy_run p k pr (w ++ t) cs = Some z.
Proof.
  revert pr. induction w as [|c w IH]; intros pr Hw H; [exact H|].
  cbn [forallb] in Hw. apply andb_true_iff in Hw as [Hc Hw].
  cbn [app greedy_run]. rewrite Hc.
  rewrite (IH (Some c)); [reflexivity | exact Hw |].
  rewrite <- last_or_cons with (p := pr). exact H.
Qed.

Lemma li_line_fail k pr s cs :
  starts_with (U "<li>") s = false ->
  matcher false LI_LINE k (MState pr s cs) = None.
Proof.
  intros Hs. unfold LI_LINE, Lit. cbn [Cat]. rewrite matcher_Grp, matcher_Seq.
  destruct (matcher _ _ _ _) eqn:E; [|reflexivity].
  apply matcher_lits in E as (t & pr' & -> & _).
  rewrite starts_with_app in Hs. discriminate.
Qed.

(** One iteration of the group on a line of the run. *)
Lemma li_line_step (k : cont) pr b t cs :
  forallb is_dot b = true ->
  (t = [] \/ exists post, t = LF :: post) ->
  (forall y, rest y = tl t -> k y <> None) ->
  exists y, rest y = tl t
            /\ matcher false LI_LINE k (MState pr (li_line b ++ t) cs) = k y.
Proof.
  intros Hb Ht Hk. unfold LI_LINE, li_line, Lit, Opt, Chr.
  rewrite <- !app_assoc.
  change (U "<li>" ++ b ++ U "</li>" ++ t)
    with (60 :: 108 :: 105 :: 62 :: (b ++ [60; 47; 108; 105; 62] ++ t)).
  change (U "<li>") with [60; 108; 105; 62].
  change (U "</li>") with [60; 47; 108; 105; 62].
  cbn [Cat lits]. unfold Chr. mstep.
  set (x := MState pr _ cs).
  destruct Ht as [-> | [post ->]].
  - exists (capture 1 x (MState (Some 62) [] cs)). split; [reflexivity|].
    destruct (k (capture 1 x (MState (Some 62) [] cs))) as [z|] eqn:Ez;
      [|exfalso; refine (Hk _ _ Ez); reflexivity].
    apply greedy_run_skip; [exact Hb|].
    cbn [app]. mstep. rewrite matcher_Alt. mstep. exact Ez.
  - exists (capture 1 x (MState (Some LF) post cs)). split; [reflexivity|].
    destruct (k (capture 1 x (MState (Some LF) post cs))) as [z|] eqn:Ez;
      [|exfalso; refine (Hk _ _ Ez); reflexivity].
    apply greedy_run_skip; [exact Hb|].
    cbn [app]. unfold LF in *. mstep. rewrite matcher_Alt. mstep.
    rewrite Ez. reflexivity.
Qed.

Lemma run_end_cases tail :
  run_end tail = true ->
  (tail = [] \/ exists post, tail = LF :: post)
  /\ starts_with (U "<li>") (tl tail) = false.
Proof.
  destruct tail as [|c post]; cbn [run_end tl].
  - intros _. split; [auto | reflexivity].
  - intros H. apply andb_true_iff in H as [Hc Hp]. apply N.eqb_eq in Hc as ->.
    split; [eauto|]. destruct (starts_with _ post); [discriminate | reflexivity].
Qed.

(** The loop stops where no further item follows. *)
Lemma li_loop_stop n pr s cs :
  starts_with (U "<li>") s = false ->
  star_loop (matcher false LI_LINE) true Some n (MState pr s cs)
  = Some (MState pr s cs).
Proof.
  intros Hs. destruct n as [|n]; [reflexivity|].
  cbn [star_loop]. rewrite li_line_fail by exact Hs. reflexivity.
Qed.

Lemma li_line_length b : length (li_line b) = (9 + length b)%nat.
Proof. unfold li_line. rewrite !length_app. cbn. lia. Qed.

Lemma run_text_length b bs tail :
  (length (tl tail) < length (run_text b bs tail))%nat.
Proof.
  revert b. induction bs as [|b' bs IH]; intros b; cbn [run_text];
    rewrite length_app, li_line_length.
  - destruct tail; cbn [tl length]; lia.
  - specialize (IH b'). cbn [length]. lia.
Qed.

(** The loop takes all the lines of a run. *)
Lemma li_loop_run bs : forall b tail n pr cs,
  forallb is_dot b = true ->
  Forall (fun b' => forallb is_dot b' = true) bs ->
  run_end tail = true ->
  (length (run_text b bs tail) <= n)%nat ->
  exists z,
    star_loop (matcher false LI_LINE) true Some n (MState pr (run_text b bs tail) cs)
    = Some z
    /\ rest z = tl tail.
Proof.
  induction bs as [|b' bs IH]; intros b tail n pr cs Hb Hbs Hend Hn.
  - destruct (run_end_cases tail Hend) as [Hcases Hstop].
    destruct n as [|n]; [cbn [run_text] in Hn; rewrite length_app, li_line_length in Hn;
                         lia|].
    cbn [star_loop run_text rest].
    destruct (li_line_step
                (fun y => if (length (rest y) <? length (li_line b ++ tail))%nat
                          then star_loop (matcher false LI_LINE) true Some n y
                          else None) pr b tail cs Hb Hcases) as (y & Hy & ->).
    + intros [py ry cy] Hy. cbn [rest] in Hy |- *. subst ry.
      pose proof (run_text_length b [] tail) as Hl. cbn [run_text] in Hl.
      apply Nat.ltb_lt in Hl. rewrite Hl.
      rewrite li_loop_stop by exact Hstop. discriminate.
    + destruct y as [py ry cy]. cbn [rest] in Hy |- *. subst ry.
      pose proof (run_text_length b [] tail) as Hl. cbn [run_text] in Hl.
      apply Nat.ltb_lt in Hl. rewrite Hl.
      rewrite li_loop_stop by exact Hstop. eauto.
  - apply Forall_cons_iff in Hbs as [Hb' Hbs].
    destruct n as [|n]; [cbn [run_text] in Hn; rewrite length_app, li_line_length in Hn;
                         lia|].
    cbn [star_loop run_text rest].
    assert (Hlt : (length (run_text b' bs tail)
                   < length (li_line b ++ LF :: run_text b' bs tail))%nat).
    { rewrite length_app. cbn [length]. lia. }
    assert (Hfuel : (length (run_text b' bs tail) <= n)%nat).
    { cbn [run_text] in Hn. rewrite length_app in Hn. cbn [length] in Hn. lia. }
    destruct (li_line_step
                (fun y => if (length (rest y)
                              <? length (li_line b ++ LF :: run_text b' bs tail))%nat
                          then star_loop (matcher false LI_LINE) true Some n y
                          else None) pr b (LF :: run_text b' bs tail) cs Hb)
      as (y & Hy & ->).
    + eauto.
    + intros [py ry cy] Hy. cbn [rest tl] in Hy |- *. subst ry.
      apply Nat.ltb_lt in Hlt. rewrite Hlt.
      destruct (IH b' tail n py cy Hb' Hbs Hend Hfuel) as (z & -> & _). discriminate.
    + destruct y as [py ry cy]. cbn [rest tl] in Hy |- *. subst ry.
      apply Nat.ltb_lt in Hlt. rewrite Hlt.
      destruct (IH b' tail n py cy Hb' Hbs Hend Hfuel) as (z & -> & Hz). eauto.
Qed.

(** The text of a run and what is left after it. *)
Lemma run_text_split b bs tail :
  run_text b bs tail = run_text b bs (take 1 tail) ++ tl tail.
Proof.
  revert b. induction bs as [|b' bs IH]; intros b; cbn [run_text].
  - rewrite <- app_assoc. f_equal. destruct tail; reflexivity.
  - rewrite (IH b'). rewrite <- app_assoc. reflexivity.
Qed.

(** The whole pattern on a run: one match, of all its lines. *)
Lemma exec_li_run p b bs tail :
  forallb is_dot b = true ->
  Forall (fun b' => forallb is_dot b' = true) bs ->
  run_end tail = true ->
  exists cs,
    exec false LI_RUN_REGEX p (run_text b bs tail)
    = Some (RMatch (run_text b bs (take 1 tail)) cs (tl tail)).
Proof.
  intros Hb Hbs Hend.
  assert (exists z, matcher false LI_RUN_REGEX Some (MState p (run_text b bs tail) [])
                    = Some z /\ rest z = tl tail) as (z & Hz & Hr).
  { rewrite LI_RUN_unfold, matcher_Seq.
    destruct bs as [|b' bs].
    - destruct (run_end_cases tail Hend) as [Hcases Hstop]. cbn [run_text].
      destruct (li_line_step (matcher false (Star true LI_LINE) Some)
                  p b tail [] Hb Hcases) as (y & Hy & ->).
      + intros [py ry cy] Hy. cbn [rest] in Hy. subst ry. cbn [matcher rest].
        rewrite li_loop_stop by exact Hstop. discriminate.
      + destruct y as [py ry cy]. cbn [rest] in Hy. subst ry. cbn [matcher rest].
        rewrite li_loop_stop by exact Hstop. eauto.
    - apply Forall_cons_iff in Hbs as [Hb' Hbs]. cbn [run_text].
      destruct (li_line_step (matcher false (Star true LI_LINE) Some)
                  p b (LF :: run_text b' bs tail) [] Hb) as (y & Hy & ->).
      + eauto.
      + intros [py ry cy] Hy. cbn [rest tl] in Hy. subst ry. cbn [matcher rest].
        destruct (li_loop_run bs b' tail _ py cy Hb' Hbs Hend (Nat.le_refl _))
          as (z & -> & _). discriminate.
      + destruct y as [py ry cy]. cbn [rest tl] in Hy. subst ry. cbn [matcher rest].
        destruct (li_loop_run bs b' tail _ py cy Hb' Hbs Hend (Nat.le_refl _))
          as (z & -> & Hz). eauto. }
  exists (caps z). rewrite (run_text_split b bs tail) at 1.
  apply exec_rest; [|exact Hr].
  rewrite <- run_text_split. exact Hz.
Qed.

Lemma exec_li_fail p s :
  starts_with (U "<li>") s = false -> exec false LI_RUN_REGEX p s = None.
Proof.
  intros Hs. unfold exec. rewrite LI_RUN_unfold, matcher_Seq.
  rewrite li_line_fail by exact Hs. reflexivity.
Qed.

(** An occurrence of [<li>] cannot start in a text that has none and end
    in one that begins with [<]. *)
Lemma starts_li_app w s :
  starts_with (U "<li>") w = false ->
  (s = [] \/ exists s', s = 60 :: s') ->
  w <> [] ->
  starts_with (U "<li>") (w ++ s) = false.
Proof.
  change (U "<li>") with [60; 108; 105; 62].
  intros Hw Hs Hne.
  destruct w as [|c1 [|c2 [|c3 [|c4 w]]]]; [congruence| | | |exact Hw];
    destruct Hs as [-> | [s' ->]]; cbn [starts_with app] in Hw |- *;
    eval_class; rewrite ?andb_false_r; try reflexivity; try exact Hw.
Qed.

Lemma replace_li_pre f p pre s :
  occurs (U "<li>") pre = false ->
  (s = [] \/ exists s', s = 60 :: s') ->
  replace_go false LI_RUN_REGEX f 0 p (pre ++ s)
  = pre ++ replace_go false LI_RUN_REGEX f 0 (last_or p pre) s.
Proof.
  intros Hpre Hs. revert p. induction pre as [|c pre IH]; intros p; [reflexivity|].
  cbn [occurs] in Hpre. apply orb_false_iff in Hpre as [Hc Hpre].
  cbn [app]. rewrite replace_go_nomatch.
  - rewrite (IH Hpre), last_or_cons. reflexivity.
  - apply exec_li_fail. apply (starts_li_app (c :: pre) s Hc Hs). discriminate.
Qed.

Lemma exec_li_nil p : exec false LI_RUN_REGEX p [] = None.
Proof. apply exec_li_fail. reflexivity. Qed.

(** A text without any item is left as it is. *)
Lemma wrap_lists_no_li s : occurs (U "<li>") s = false -> wrap_lists s = s.
Proof.
  intros Hs. unfold wrap_lists, replace_all.
  rewrite <- (app_nil_r s) at 1. rewrite replace_li_pre by auto.
  cbn [replace_go]. rewrite exec_li_nil. apply app_nil_r.
Qed.

Lemma run_text_head b bs tail : exists s', run_text b bs tail = 60 :: s'.
Proof. destruct bs; cbn [run_text]; unfold li_line; eexists; reflexivity. Qed.

(** Every run of item lines is wrapped in one list, and the text after it
    is treated on its own. *)
Lemma wrap_lists_run pre b bs tail :
  occurs (U "<li>") pre = false ->
  forallb is_dot b = true ->
  Forall (fun b' => forallb is_dot b' = true) bs ->
  run_end tail = true ->
  wrap_lists (pre ++ run_text b bs tail)
  = pre ++ U "<ul>" ++ run_text b bs (take 1 tail) ++ U "</ul>"
    ++ wrap_lists (tl tail).
Proof.
  intros Hpre Hb Hbs Hend. unfold wrap_lists, replace_all.
  rewrite replace_li_pre; [|exact Hpre|right; apply run_text_head].
  f_equal.
  destruct (exec_li_run (last_or None pre) b bs tail Hb Hbs Hend) as [cs He].
  rewrite (run_text_split b bs tail) in He |- *.
  rewrite (replace_go_match _ _ _ _ _ _ cs); [| |exact He].
  - cbn [whole]. rewrite <- !app_assoc. do 3 f_equal.
    apply replace_go_no_bol. reflexivity.
  - destruct (run_text_head b bs (take 1 tail)) as [s' ->]. discriminate.
Qed.

(** ** Patterns that cannot match *)

Lemma replace_absent ml r f c p s :
  first_char ml r c ->
  forallb (fun d => negb (d =? c)) s = true ->
  replace_go ml r f 0 p s = s.
Proof.
  intros Hr. revert p. induction s as [|d s IH]; intros p Hs.
  - cbn [replace_go]. unfold exec. rewrite Hr; [reflexivity | discriminate].
  - cbn [forallb] in Hs. apply andb_true_iff in Hs as [Hd Hs].
    rewrite replace_go_nomatch; [rewrite IH by exact Hs; reflexivity|].
    unfold exec. rewrite Hr; [reflexivity|]. cbn. intros [= ->].
    rewrite N.eqb_refl in Hd. discriminate.
Qed.

Lemma replace_all_absent ml r f c s :
  first_char ml r c ->
  forallb (fun d => negb (d =? c)) s = true ->
  replace_all ml r f s = s.
Proof. apply replace_absent. Qed.

(** Writes the literal texts of the pattern in the goal as code units. *)
Ltac eval_lits :=
  unfold Lit, Chr;
  repeat match goal with
    | |- context [U ?x] =>
        let v := eval vm_compute in (U x) in change (U x) with v
    end;
  cbn [lits].

(** Proves [first_char] for a pattern whose first part, after an optional
    [^], is the literal [c]. *)
Ltac first_char_tac :=
  intros k pr s cs Hs;
  cbn [Cat Times]; eval_lits;
  destruct s as [|d s];
  [ mstep; try reflexivity; destruct (at_bol _ _); reflexivity
  | mstep;
    repeat match goal with
      | |- context [N.eqb ?a d] =>
          destruct (N.eqb_spec a d); [subst d; exfalso; apply Hs; reflexivity|]
      end;
    try reflexivity; destruct (at_bol _ _); reflexivity ].

Lemma first_char_code_block : first_char false CODE_BLOCK_REGEX 96.
Proof. unfold CODE_BLOCK_REGEX. first_char_tac. Qed.

Lemma first_char_inline_code : first_char false INLINE_CODE_REGEX 96.
Proof. unfold INLINE_CODE_REGEX. first_char_tac. Qed.

Lemma first_char_heading n : first_char true (HEADING_REGEX (S n)) 35.
Proof. unfold HEADING_REGEX. first_char_tac. Qed.

Lemma first_char_emphasis n : first_char false (EMPHASIS_REGEX (S n)) 42.
Proof. unfold EMPHASIS_REGEX. first_char_tac. Qed.

Lemma first_char_rule : first_char true RULE_REGEX 45.
Proof. unfold RULE_REGEX. first_char_tac. Qed.

Lemma first_char_link : first_char false LINK_REGEX 91.
Proof. unfold LINK_REGEX. first_char_tac. Qed.

(** ** Lines of plain list items *)

Lemma forallb_word_dot t : forallb is_word t = true -> forallb is_dot t = true.
Proof.
  induction t as [|c t IH]; [reflexivity|]. cbn [forallb].
  intros H. apply andb_true_iff in H as [Hc Ht].
  rewrite (is_word_is_dot _ Hc), IH by exact Ht. reflexivity.
Qed.

Lemma tagged_li t w r :
  tagged "li" (RMatch w [(1%nat, t)] r) = li_line t.
Proof. reflexivity. Qed.

(** The pattern of list items on a line [- t], at the start of a line. *)
Lemma exec_list_item p t r :
  (p = None \/ p = Some LF) ->
  plain_item t = true ->
  (r = [] \/ exists more, r = LF :: more) ->
  exec true LIST_ITEM_REGEX p (U "- " ++ t ++ r)
  = Some (RMatch (U "- " ++ t) [(1%nat, t)] r).
Proof.
  intros Hp Ht Hr. destruct t as [|c t]; [discriminate|].
  cbn [plain_item forallb] in Ht. apply andb_true_iff in Ht as [Hc Ht].
  assert (Hy : exists y,
    matcher true LIST_ITEM_REGEX Some (MState p (U "- " ++ (c :: t) ++ r) []) = Some y
    /\ rest y = r
    /\ caps y = [(1%nat, take (length ((c :: t) ++ r) - length r) ((c :: t) ++ r))]).
  { unfold LIST_ITEM_REGEX, Plus. cbn [Cat].
    change (U "- " ++ (c :: t) ++ r) with (45 :: 32 :: c :: (t ++ r)).
    rewrite matcher_Seq, matcher_Bol.
    replace (at_bol true (MState p (45 :: 32 :: c :: t ++ r) [])) with true
      by (destruct Hp as [-> | ->]; reflexivity).
    mstep. cbv beta. mstep.
    rewrite (is_word_not_space _ Hc), (is_word_is_dot _ Hc).
    cbn [orb].
    set (x := MState (Some 32) (c :: t ++ r) []).
    set (k := fun y : mstate => matcher true Eol Some (capture 1 x y)).
    assert (Hk : forall q, k (MState q r []) = Some (capture 1 x (MState q r []))).
    { intros q. unfold k. rewrite matcher_Eol. unfold at_eol. cbn [capture rest].
      destruct Hr as [-> | [more ->]]; reflexivity. }
    assert (Hrun : greedy_run is_dot k (Some c) (t ++ r) []
                   = Some (capture 1 x (MState (last_or (Some c) t) r []))).
    { apply greedy_run_skip; [apply forallb_word_dot, Ht|].
      destruct Hr as [-> | [more ->]]; cbn [greedy_run]; [apply Hk|].
      change (is_dot LF) with false. cbv iota. apply Hk. }
    change (greedy_run is_dot _ (Some c) (t ++ r) [])
      with (greedy_run is_dot k (Some c) (t ++ r) []).
    rewrite Hrun. eexists. split; [reflexivity|]. split; reflexivity. }
  destruct Hy as (y & Hm & Hrest & Hcaps).
  change (U "- " ++ (c :: t) ++ r) with ((U "- " ++ c :: t) ++ r) in *.
  rewrite (exec_rest _ _ _ _ _ _ Hm Hrest), Hcaps, take_app_sub. reflexivity.
Qed.

Lemma exec_list_item_other p c s :
  negb ((c =? 45) || (c =? 42)) = true ->
  exec true LIST_ITEM_REGEX p (c :: s) = None.
Proof.
  intros Hc. apply negb_true_iff in Hc.
  unfold exec, LIST_ITEM_REGEX. cbn [Cat]. mstep. cbv beta. rewrite Hc.
  destruct (at_bol _ _); reflexivity.
Qed.

Lemma exec_list_item_nil p : exec true LIST_ITEM_REGEX p [] = None.
Proof.
  unfold exec, LIST_ITEM_REGEX. cbn [Cat]. mstep.
  destruct (at_bol _ _); reflexivity.
Qed.

Lemma replace_list_items items : forall p,
  (p = None \/ p = Some LF) ->
  Forall (fun t => plain_item t = true) items ->
  replace_go true LIST_ITEM_REGEX (tagged "li") 0 p (item_lines items)
  = li_lines items.
Proof.
  unfold item_lines, li_lines, unlines.
  induction items as [|t items IH]; intros p Hp Hall.
  - cbn [map join replace_go]. rewrite exec_list_item_nil. reflexivity.
  - apply Forall_cons_iff in Hall as [Ht Hall].
    destruct items as [|t' items].
    + cbn [map join].
      rewrite <- (app_nil_r (U "- " ++ t)).
      rewrite (replace_go_match _ _ _ _ _ _ [(1%nat, t)]).
      * cbn [replace_go]. rewrite exec_list_item_nil, tagged_li. apply app_nil_r.
      * discriminate.
      * rewrite <- app_assoc. apply exec_list_item; auto.
    + change (join [LF] (map (fun t0 => U "- " ++ t0) (t :: t' :: items)))
        with ((U "- " ++ t) ++ LF :: join [LF] (map (fun t0 => U "- " ++ t0) (t' :: items))).
      change (join [LF] (map li_line (t :: t' :: items)))
        with (li_line t ++ LF :: join [LF] (map li_line (t' :: items))).
      rewrite (replace_go_match _ _ _ _ _ _ [(1%nat, t)]).
      * rewrite tagged_li. f_equal.
        rewrite replace_go_nomatch by (apply exec_list_item_other; reflexivity).
        f_equal. apply IH; auto.
      * discriminate.
      * rewrite <- app_assoc. apply exec_list_item; eauto.
Qed.

(** ** The paragraph pass on a single block *)

Lemma exec_blank_lines_fail p s :
  starts_with [LF; LF] s = false -> exec false BLANK_LINES_REGEX p s = None.
Proof.
  intros Hs. unfold exec, BLANK_LINES_REGEX, LF in *. cbn [Cat].
  destruct s as [|c [|d s]]; mstep; try reflexivity.
  - destruct (10 =? c); reflexivity.
  - cbn [starts_with] in Hs. destruct (10 =? c); [|reflexivity].
    destruct (10 =? d); [discriminate | reflexivity].
Qed.

Lemma split_go_none cur s : forall p,
  occurs [LF; LF] s = false ->
  split_go false BLANK_LINES_REGEX 0 p cur s = [cur ++ s].
Proof.
  revert cur. induction s as [|c s IH]; intros cur p Hs.
  - cbn. rewrite app_nil_r. reflexivity.
  - cbn [occurs] in Hs. apply orb_false_iff in Hs as [Hc Hs].
    cbn [split_go]. rewrite exec_blank_lines_fail by exact Hc.
    rewrite IH by exact Hs. rewrite <- app_assoc. reflexivity.
Qed.

Lemma split_re_none s :
  s <> [] -> occurs [LF; LF] s = false -> split_re false BLANK_LINES_REGEX s = [s].
Proof.
  intros Hne Hs. destruct s as [|c s]; [congruence|].
  unfold split_re. apply (split_go_none [] (c :: s) None Hs).
Qed.

Lemma trim_end_app s c : is_space c = false -> trim_end (s ++ [c]) = s ++ [c].
Proof.
  intros Hc. unfold trim_end. rewrite rev_app_distr. cbn [rev app trim_start].
  rewrite Hc. cbn [rev]. rewrite rev_involutive. reflexivity.
Qed.

(** A block that is a list passes through the paragraph pass. *)
Lemma paragraph_ul s :
  paragraph (U "<ul>" ++ s ++ U "</ul>") = U "<ul>" ++ s ++ U "</ul>".
Proof.
  unfold paragraph.
  assert (Htrim : trim (U "<ul>" ++ s ++ U "</ul>") = U "<ul>" ++ s ++ U "</ul>").
  { unfold trim. change (U "<ul>" ++ s ++ U "</ul>")
      with (60 :: 117 :: 108 :: 62 :: s ++ U "</ul>").
    cbn [trim_start]. change (is_space 60) with false. cbv iota.
    change (60 :: 117 :: 108 :: 62 :: s ++ U "</ul>")
      with ((60 :: 117 :: 108 :: 62 :: s) ++ [60; 47; 117; 108] ++ [62]).
    rewrite app_assoc. apply trim_end_app. reflexivity. }
  rewrite Htrim.
  change (U "<ul>" ++ s ++ U "</ul>") with (60 :: 117 :: 108 :: 62 :: s ++ U "</ul>").
  cbv iota.
  assert (Htest : test false BLOCK_TAG_REGEX (60 :: 117 :: 108 :: 62 :: s ++ U "</ul>") = true).
  { unfold test. cbn [search]. unfold exec, BLOCK_TAG_REGEX. cbn [Cat]. eval_lits.
    mstep. rewrite matcher_Alt. mstep. rewrite matcher_Alt. mstep. reflexivity. }
  rewrite Htest. reflexivity.
Qed.

(** ** Rendering a list of plain items *)

Lemma li_lines_run t items tail :
  li_lines (t :: items) ++ tail = run_text t items tail.
Proof.
  unfold li_lines, unlines. revert t.
  induction items as [|t' items IH]; intros t; [reflexivity|].
  change (join [LF] (map li_line (t :: t' :: items)))
    with (li_line t ++ LF :: join [LF] (map li_line (t' :: items))).
  cbn [run_text]. rewrite <- app_assoc. cbn [app]. rewrite IH. reflexivity.
Qed.

Lemma plain_item_word t : plain_item t = true -> forallb is_word t = true.
Proof. destruct t; [discriminate | auto]. Qed.

(** The code units of the lines of plain items are among the word
    characters and the units of the markup around them. *)
Lemma item_lines_chars (q : char -> bool) items :
  (forall c, is_word c = true -> q c = true) ->
  q 45 = true -> q 32 = true -> q LF = true ->
  Forall (fun t => plain_item t = true) items ->
  forallb q (item_lines items) = true.
Proof.
  intros Hw H45 H32 HLF Hall. unfold item_lines, unlines.
  induction Hall as [|t items Ht Hall IH]; [reflexivity|].
  assert (Hline : forallb q (U "- " ++ t) = true).
  { change (U "- " ++ t) with (45 :: 32 :: t).
    cbn [forallb]. rewrite H45, H32. cbn [andb].
    apply plain_item_word in Ht. clear -Ht Hw.
    induction t as [|c t IHt]; [reflexivity|]. cbn [forallb] in *.
    apply andb_true_iff in Ht as [Hc Ht]. rewrite (Hw _ Hc), IHt by exact Ht. reflexivity. }
  destruct items as [|t' items]; [exact Hline|].
  change (join [LF] (map (fun t0 => U "- " ++ t0) (t :: t' :: items)))
    with ((U "- " ++ t) ++ LF :: join [LF] (map (fun t0 => U "- " ++ t0) (t' :: items))).
  rewrite forallb_app. cbn [forallb]. rewrite Hline, HLF, IH. reflexivity.
Qed.

Lemma li_line_chars (q : char -> bool) t :
  (forall c, is_word c = true -> q c = true) ->
  forallb q (U "<li>" ++ U "</li>") = true ->
  forallb is_word t = true ->
  forallb q (li_line t) = true.
Proof.
  intros Hw Hq Ht. unfold li_line. rewrite !forallb_app in *.
  apply andb_true_iff in Hq as [-> ->]. cbn [andb]. rewrite andb_true_r.
  induction t as [|c t IHt]; [reflexivity|]. cbn [forallb] in *.
  apply andb_true_iff in Ht as [Hc Ht]. rewrite (Hw _ Hc), IHt by exact Ht. reflexivity.
Qed.

Lemma li_lines_chars (q : char -> bool) items :
  (forall c, is_word c = true -> q c = true) ->
  forallb q (U "<li>" ++ U "</li>") = true -> q LF = true ->
  Forall (fun t => plain_item t = true) items ->
  forallb q (li_lines items) = true.
Proof.
  intros Hw Hq HLF Hall. unfold li_lines, unlines.
  induction Hall as [|t items Ht Hall IH]; [reflexivity|].
  pose proof (li_line_chars q t Hw Hq (plain_item_word _ Ht)) as Hline.
  destruct items as [|t' items]; [exact Hline|].
  change (join [LF] (map li_line (t :: t' :: items)))
    with (li_line t ++ LF :: join [LF] (map li_line (t' :: items))).
  rewrite forallb_app. cbn [forallb]. rewrite Hline, HLF, IH. reflexivity.
Qed.

Lemma is_word_neq c d :
  is_word d = false -> is_word c = true -> negb (c =? d) = true.
Proof.
  intros Hd Hc. destruct (N.eqb_spec c d); [congruence | reflexivity].
Qed.

Lemma inline_passes_items items :
  Forall (fun t => plain_item t = true) items ->
  inline_passes (item_lines items) = li_lines items.
Proof.
  intros Hall. unfold inline_passes.
  assert (Hno : forall d, is_word d = false -> negb (45 =? d) = true ->
                          negb (32 =? d) = true -> negb (LF =? d) = true ->
                          forallb (fun c => negb (c =? d)) (item_lines items) = true).
  { intros d Hd H1 H2 H3. apply item_lines_chars; auto. intros c. apply is_word_neq, Hd. }
  rewrite (replace_all_absent _ _ _ 96 _ first_char_code_block) by (apply Hno; reflexivity).
  rewrite (replace_all_absent _ _ _ 96 _ first_char_inline_code) by (apply Hno; reflexivity).
  rewrite (replace_all_absent _ _ _ 35 _ (first_char_heading 3)) by (apply Hno; reflexivity).
  rewrite (replace_all_absent _ _ _ 35 _ (first_char_heading 2)) by (apply Hno; reflexivity).
  rewrite (replace_all_absent _ _ _ 35 _ (first_char_heading 1)) by (apply Hno; reflexivity).
  rewrite (replace_all_absent _ _ _ 35 _ (first_char_heading 0)) by (apply Hno; reflexivity).
  rewrite (replace_all_absent _ _ _ 42 _ (first_char_emphasis 2)) by (apply Hno; reflexivity).
  rewrite (replace_all_absent _ _ _ 42 _ (first_char_emphasis 1)) by (apply Hno; reflexivity).
  rewrite (replace_all_absent _ _ _ 42 _ (first_char_emphasis 0)) by (apply Hno; reflexivity).
  unfold replace_all at 3. rewrite replace_list_items by auto.
  assert (Hno' : forall d, is_word d = false ->
                           forallb (fun c => negb (c =? d)) (U "<li>" ++ U "</li>") = true ->
                           negb (LF =? d) = true ->
                           forallb (fun c => negb (c =? d)) (li_lines items) = true).
  { intros d Hd H1 H2. apply li_lines_chars; auto. intros c. apply is_word_neq, Hd. }
  rewrite (replace_all_absent _ _ _ 45 _ first_char_rule) by (apply Hno'; reflexivity).
  rewrite (replace_all_absent _ _ _ 91 _ first_char_link) by (apply Hno'; reflexivity).
  reflexivity.
Qed.

Lemma occurs_blank_skip w s :
  forallb (fun d => negb (d =? LF)) w = true ->
  occurs [LF; LF] (w ++ s) = occurs [LF; LF] s.
Proof.
  induction w as [|c w IH]; [reflexivity|]. cbn [forallb app]. intros H.
  apply andb_true_iff in H as [Hc Hw]. apply negb_true_iff in Hc.
  cbn [occurs starts_with]. rewrite N.eqb_sym, Hc. cbn [andb orb]. auto.
Qed.

Lemma run_text_no_blank t items tail :
  Forall (fun t => plain_item t = true) (t :: items) ->
  forallb (fun d => negb (d =? LF)) tail = true ->
  occurs [LF; LF] (run_text t items tail) = false.
Proof.
  intros Hall Htail. revert t Hall.
  assert (Hline : forall t, plain_item t = true ->
                            forallb (fun d => negb (d =? LF)) (li_line t) = true).
  { intros t Ht. apply li_line_chars; [|reflexivity|apply plain_item_word, Ht].
    intros c. apply is_word_neq. reflexivity. }
  induction items as [|t' items IH]; intros t Hall;
    apply Forall_cons_iff in Hall as [Ht Hall]; cbn [run_text].
  - rewrite occurs_blank_skip by auto.
    rewrite <- (app_nil_r tail). rewrite occurs_blank_skip by auto. reflexivity.
  - rewrite occurs_blank_skip by auto.
    destruct (run_text_head t' items tail) as [s' Hs'].
    cbn [occurs]. rewrite IH by exact Hall. rewrite Hs'. reflexivity.
Qed.

(** Any number of consecutive lines [- t] of plain items renders to one
    list with one element for each. *)
Lemma markdownToHtml_items t items :
  Forall (fun t => plain_item t = true) (t :: items) ->
  markdownToHtml (item_lines (t :: items))
  = U "<ul>" ++ li_lines (t :: items) ++ U "</ul>".
Proof.
  intros Hall. unfold markdownToHtml. rewrite inline_passes_items by exact Hall.
  pose proof Hall as Hall'. apply Forall_cons_iff in Hall' as [Ht Hitems].
  assert (Hwrap : wrap_lists (li_lines (t :: items))
                  = U "<ul>" ++ li_lines (t :: items) ++ U "</ul>").
  { assert (Hdot : forallb is_dot t = true)
      by apply forallb_word_dot, plain_item_word, Ht.
    assert (Hdots : Forall (fun b => forallb is_dot b = true) items).
    { eapply Forall_impl; [exact Hitems|]. intros b Hb.
      apply forallb_word_dot, plain_item_word, Hb. }
    pose proof (wrap_lists_run [] t items [] eq_refl Hdot Hdots eq_refl) as H.
    cbn [app take tl] in H. change (wrap_lists []) with (@nil char) in H.
    rewrite <- !li_lines_run, !app_nil_r in H. exact H. }
  rewrite Hwrap. unfold wrap_paragraphs.
  rewrite split_re_none.
  - cbn [map join]. apply paragraph_ul.
  - discriminate.
  - rewrite li_lines_run.
    rewrite (occurs_blank_skip (U "<ul>")) by reflexivity.
    apply run_text_no_blank; [exact Hall | reflexivity].
Qed.

(** ** The delimiter pattern matches every document with a block *)

Lemma starts_with_spec p s : starts_with p s = true -> s = p ++ drop (length p) s.
Proof.
  revert s. induction p as [|a p IH]; intros s; [reflexivity|].
  destruct s as [|b s]; [discriminate|]. cbn [starts_with length drop app].
  intros H. apply andb_true_iff in H as [Hab Hp]. apply N.eqb_eq in Hab as ->.
  f_equal. apply IH, Hp.
Qed.

Lemma occurs_spec p s : occurs p s = true -> exists w t, s = w ++ p ++ t.
Proof.
  induction s as [|c s IH]; cbn [occurs]; intros H.
  - rewrite orb_false_r in H. apply starts_with_spec in H. exists [], (drop (length p) []).
    exact H.
  - apply orb_true_iff in H as [H|H].
    + apply starts_with_spec in H. exists [], (drop (length p) (c :: s)). exact H.
    + destruct (IH H) as (w & t & ->). exists (c :: w), t. reflexivity.
Qed.

Lemma has_block_shape raw : has_block raw = true -> block_shape raw.
Proof.
  unfold has_block, after_opening, block_shape.
  destruct (starts_with (U "---" ++ [LF]) raw) eqn:E1.
  - intros H. apply starts_with_spec in E1. apply occurs_spec in H as (w & t & Ht).
    exists [], w, t. split; [auto|]. rewrite E1. cbn [length app U] in Ht |- *.
    change (length (U "---" ++ [LF])) with 4%nat. rewrite Ht. reflexivity.
  - destruct (starts_with (U "---" ++ [CR; LF]) raw) eqn:E2; [|discriminate].
    intros H. apply starts_with_spec in E2. apply occurs_spec in H as (w & t & Ht).
    exists [CR], w, t. split; [auto|]. rewrite E2.
    change (length (U "---" ++ [CR; LF])) with 5%nat. rewrite Ht. reflexivity.
Qed.

Lemma lazy_run_complete p (k : cont) pr w t cs :
  forallb p w = true ->
  (forall pr', k (MState pr' t cs) <> None) ->
  lazy_run p k pr (w ++ t) cs <> None.
Proof.
  intros Hw Hk. revert pr. induction w as [|c w IH]; intros pr.
  - cbn [app]. destruct t as [|d t]; cbn [lazy_run];
      specialize (Hk pr); destruct (k _); congruence.
  - cbn [forallb] in Hw. apply andb_true_iff in Hw as [Hc Hw].
    cbn [app lazy_run]. destruct (k _); [discriminate|].
    rewrite Hc. apply IH, Hw.
Qed.

Lemma greedy_run_total p (k : cont) pr s cs :
  (forall pr', k (MState pr' [] cs) <> None) ->
  forallb p s = true ->
  greedy_run p k pr s cs <> None.
Proof.
  intros Hk. revert pr. induction s as [|c s IH]; intros pr Hs; cbn [greedy_run].
  - apply Hk.
  - cbn [forallb] in Hs. apply andb_true_iff in Hs as [Hc Hs]. rewrite Hc.
    specialize (IH (Some c) Hs). destruct (greedy_run p k (Some c) s cs); congruence.
Qed.

Lemma forallb_any s : forallb is_any s = true.
Proof. induction s as [|c s IH]; [reflexivity|]. cbn. rewrite is_any_true. exact IH. Qed.

Lemma matcher_Opt ml r k x :
  matcher ml (Opt r) k x =
  match matcher ml r k x with Some z => Some z | None => k x end.
Proof. reflexivity. Qed.

(** What follows the closing dashes always matches. *)
Lemma FM_tail_matches x pr s cs :
  matcher false
    (Cat [Opt (Chr CR); Opt (Chr LF); Grp 2 (Star true (Cls is_any)); Eol])
    Some (MState pr s ((1%nat, x) :: cs)) <> None.
Proof.
  assert (Hrest : forall pr' s',
    matcher false (Seq (Grp 2 (Star true (Cls is_any))) Eol) Some
      (MState pr' s' ((1%nat, x) :: cs)) <> None).
  { intros pr' s'. mstep. apply greedy_run_total; [|apply forallb_any].
    intros q. mstep. discriminate. }
  assert (Hlf : forall pr' s',
    matcher false (Seq (Opt (Chr LF)) (Seq (Grp 2 (Star true (Cls is_any))) Eol)) Some
      (MState pr' s' ((1%nat, x) :: cs)) <> None).
  { intros pr' s'. rewrite matcher_Seq, matcher_Opt.
    destruct (matcher false (Chr LF) _ _); [discriminate|].
    apply Hrest. }
  cbn [Cat]. rewrite matcher_Seq, matcher_Opt.
  destruct (matcher false (Chr CR) _ _); [discriminate|].
  apply Hlf.
Qed.

Lemma FM_REGEX_complete raw :
  has_block raw = true -> search false FM_REGEX None raw <> None.
Proof.
  intros H. apply has_block_shape in H as (cr & yaml & tail & Hcr & ->).
  rewrite search_FM. unfold exec.
  destruct (matcher false FM_REGEX Some _) eqn:E; [discriminate|]. exfalso.
  revert E. unfold FM_REGEX, CR, LF in *. cbn [Cat]. eval_lits. cbn [app].
  assert (Hlazy : forall (k : cont) pr,
    (forall y, rest y = 10 :: 45 :: 45 :: 45 :: tail -> caps y = [] ->
               exists x, k y = matcher false
                 (Cat [Opt (Cls (N.eqb 13)); Cls (N.eqb 10);
                       Cls (N.eqb 45); Cls (N.eqb 45); Cls (N.eqb 45);
                       Opt (Cls (N.eqb 13)); Opt (Cls (N.eqb 10));
                       Grp 2 (Star true (Cls is_any)); Eol])
                 Some (MState (prev y) (rest y) ((1%nat, x) :: caps y))) ->
    lazy_run is_any k pr (yaml ++ 10 :: 45 :: 45 :: 45 :: tail) [] <> None).
  { intros k pr Hk. apply lazy_run_complete; [apply forallb_any|].
    intros pr'. destruct (Hk (MState pr' (10 :: 45 :: 45 :: 45 :: tail) []) eq_refl eq_refl)
      as [x ->].
    cbn [Cat prev rest caps]. rewrite matcher_Seq, matcher_Opt. mstep.
    apply (FM_tail_matches x (Some 45) tail []). }
  assert (Hk : forall x0 y,
    rest y = 10 :: 45 :: 45 :: 45 :: tail -> caps y = [] ->
    exists x,
      matcher false
        (Seq (Opt (Cls (N.eqb 13)))
           (Seq (Cls (N.eqb 10))
              (Seq (Seq (Cls (N.eqb 45)) (Seq (Cls (N.eqb 45)) (Seq (Cls (N.eqb 45)) Eps)))
                 (Seq (Opt (Cls (N.eqb 13)))
                    (Seq (Opt (Cls (N.eqb 10)))
                       (Seq (Grp 2 (Star true (Cls is_any))) Eol))))))
        Some (capture 1 x0 y)
      = matcher false
          (Cat [Opt (Cls (N.eqb 13)); Cls (N.eqb 10);
                Cls (N.eqb 45); Cls (N.eqb 45); Cls (N.eqb 45);
                Opt (Cls (N.eqb 13)); Opt (Cls (N.eqb 10));
                Grp 2 (Star true (Cls is_any)); Eol])
          Some (MState (prev y) (rest y) ((1%nat, x) :: caps y))).
  { intros x0 y Hy Hc. eexists. unfold capture. reflexivity. }
  rewrite matcher_Seq. mstep. rewrite matcher_Opt.
  destruct Hcr as [-> | ->]; cbn [app]; mstep.
  - intros E. eapply Hlazy; [|exact E]. intros y. apply Hk.
  - destruct (lazy_run _ _ _ _ _) eqn:E; [discriminate|].
    exfalso. eapply Hlazy; [|exact E]. intros y. apply Hk.
Qed.

(** ** The default slug when [.md] occurs once *)

Lemma starts_md_app w :
  starts_with (U ".md") w = false -> w <> [] ->
  starts_with (U ".md") (w ++ U ".md") = false.
Proof.
  change (U ".md") with [46; 109; 100]. intros Hw Hne.
  destruct w as [|c1 [|c2 [|c3 w]]]; [congruence| | |exact Hw];
    cbn [starts_with app] in Hw |- *; eval_class;
    rewrite ?andb_false_r; reflexivity.
Qed.

(** For a file name in which [.md] occurs as the extension only, the
    default slug is the name without the extension. *)
Lemma remove_first_extension base :
  occurs (U ".md") base = false ->
  remove_first (U ".md") (base ++ U ".md") = base.
Proof.
  induction base as [|c base IH]; intros H; [reflexivity|].
  cbn [occurs] in H. apply orb_false_iff in H as [Hc Hb].
  change ((c :: base) ++ U ".md") with (c :: (base ++ U ".md")).
  cbn [remove_first].
  change (c :: (base ++ U ".md")) with ((c :: base) ++ U ".md").
  rewrite (starts_md_app (c :: base) Hc) by discriminate.
  cbn [app]. rewrite IH by exact Hb. reflexivity.
Qed.

(** ** Keys that are not set again *)

Lemma obj_set_lookup_ne key k v data :
  k <> key -> obj_set key v data !! k = data !! k.
Proof.
  intros Hk. unfold obj_set. destruct (str_eqb key (U "__proto__")); [reflexivity|].
  apply lookup_insert_ne. congruence.
Qed.

Lemma block_items_suffix ms :
  exists pre, ms = pre ++ snd (block_items ms).
Proof.
  induction ms as [|m ms [pre IH]]; cbn [block_items]; [exists []; reflexivity|].
  destruct (is_item m); [|exists []; reflexivity].
  destruct (block_items ms) as [arr r]. cbn [snd] in *.
  exists (m :: pre). cbn [app]. congruence.
Qed.

(** The loop leaves a key as it is when no line sets it. *)
Lemma scan_preserves k lines : forall data data',
  (forall line km, In line lines -> keyMatch line = Some km ->
                   group 1 (groups km) <> k) ->
  scan lines data = Ok data' ->
  data' !! k = data !! k.
Proof.
  remember (length lines) as n eqn:Hn. revert lines Hn.
  induction n as [n IH] using lt_wf_ind. intros lines Hn data data' Hkeys.
  destruct lines as [|line more]; [intros [= <-]; reflexivity|].
  rewrite scan_cons. cbn [length] in Hn.
  assert (Hmore : forall l km, In l more -> keyMatch l = Some km ->
                               group 1 (groups km) <> k)
    by (intros l km Hl; apply Hkeys; right; exact Hl).
  destruct (keyMatch line) as [km|] eqn:Ek.
  - assert (Hne : k <> group 1 (groups km)).
    { intros ->. apply (Hkeys line km); [left; reflexivity | exact Ek | reflexivity]. }
    destruct (trim _) as [|c rest].
    + intros H. apply (IH (length (snd (block_items more)))) in H.
      * rewrite H. apply obj_set_lookup_ne, Hne.
      * pose proof (block_items_length more). lia.
      * reflexivity.
      * intros l km' Hl. apply Hmore.
        destruct (block_items_suffix more) as [pre Hpre]. rewrite Hpre.
        apply in_or_app. right. exact Hl.
    + destruct (scalar_of _) as [v|]; [|discriminate].
      intros H. apply (IH (length more)) in H; [|lia|reflexivity|exact Hmore].
      rewrite H. apply obj_set_lookup_ne, Hne.
  - intros H. apply (IH (length more)) in H; [exact H|lia|reflexivity|exact Hmore].
Qed.

(** ** The captures of the delimiter pattern *)

Lemma lazy_run_first p (k : cont) pr w t cs :
  forallb p w = true ->
  (forall w1 w2 pr', w = w1 ++ w2 -> w2 <> [] ->
                     k (MState pr' (w2 ++ t) cs) = None) ->
  lazy_run p k pr (w ++ t) cs = lazy_run p k (last_or pr w) t cs.
Proof.
  revert pr. induction w as [|c w IH]; intros pr Hw Hk; [reflexivity|].
  cbn [forallb] in Hw. apply andb_true_iff in Hw as [Hc Hw].
  pose proof (Hk [] (c :: w) pr eq_refl ltac:(discriminate)) as H0.
  cbn [app] in H0. cbn [app lazy_run]. rewrite H0.
  rewrite Hc, last_or_cons. apply IH; [exact Hw|].
  intros w1 w2 pr' -> Hw2. apply (Hk (c :: w1) w2 pr' eq_refl Hw2).
Qed.

Lemma occurs_app_r p w1 w2 : occurs p w2 = true -> occurs p (w1 ++ w2) = true.
Proof.
  intros H. induction w1 as [|c w1 IH]; [exact H|].
  cbn [app occurs]. rewrite IH. apply orb_true_r.
Qed.

Lemma occurs_starts p s : starts_with p s = true -> occurs p s = true.
Proof. intros H. destruct s; cbn [occurs]; rewrite H; reflexivity. Qed.

(** No suffix of a block that holds no line feed followed by [---] and
    does not end with a carriage return, put before the closing delimiter,
    begins like one. *)
Lemma no_early_close yaml w1 w2 cr tail r :
  occurs (LF :: U "---") yaml = false ->
  ends_with [CR] yaml = false ->
  yaml = w1 ++ w2 -> w2 <> [] ->
  (cr = [] \/ cr = [CR]) ->
  w2 ++ LF :: U "---" ++ tail = cr ++ LF :: U "---" ++ r ->
  False.
Proof.
  intros Hocc Hend Hy Hne Hcr Heq.
  assert (Hstart : forall w0 w, yaml = w0 ++ w ->
                                starts_with (LF :: U "---") w = true -> False).
  { intros w0 w Hw Hs. rewrite Hw, (occurs_app_r _ w0 w) in Hocc; [discriminate|].
    apply occurs_starts, Hs. }
  assert (Hdash : forall w, w ++ LF :: U "---" ++ tail = U "---" ++ r ->
                            starts_with (U "---") w = true).
  { intros w. change (U "---") with [45; 45; 45]. unfold LF.
    destruct w as [|a [|b [|c w]]]; cbn [app]; intros [= ]; subst; reflexivity. }
  destruct Hcr as [-> | ->]; cbn [app] in Heq.
  - destruct w2 as [|a w2]; [congruence|]. cbn [app] in Heq.
    injection Heq as -> Heq. apply Hdash in Heq.
    apply (Hstart w1 (LF :: w2) Hy). cbn [starts_with]. rewrite N.eqb_refl. exact Heq.
  - destruct w2 as [|a w2]; [congruence|]. cbn [app] in Heq.
    injection Heq as -> Heq.
    destruct w2 as [|b w2].
    + unfold ends_with in Hend. rewrite Hy, rev_app_distr in Hend. cbn in Hend.
      discriminate.
    + cbn [app] in Heq. injection Heq as -> Heq. apply Hdash in Heq.
      apply (Hstart (w1 ++ [CR]) (LF :: w2)).
      * rewrite Hy, <- app_assoc. reflexivity.
      * cbn [starts_with]. rewrite N.eqb_refl. exact Heq.
Qed.
Lemma greedy_run_all p (k : cont) pr s cs z :
  forallb p s = true -> k (MState (last_or pr s) [] cs) = Some z ->
  greedy_run p k pr s cs = Some z.
Proof.
  revert pr. induction s as [|c s IH]; intros pr Hs Hk; cbn [greedy_run].
  - exact Hk.
  - cbn [forallb] in Hs. apply andb_true_iff in Hs as [Hc Hs]. rewrite Hc.
    rewrite last_or_cons in Hk. rewrite (IH _ Hs Hk). reflexivity.
Qed.

Lemma FM_REGEX_exact yaml body :
  occurs (LF :: U "---") yaml = false -> ends_with [CR] yaml = false ->
  exists m,
    search false FM_REGEX None (U "---" ++ LF :: yaml ++ LF :: U "---" ++ LF :: body) = Some m
    /\ group 1 (groups m) = yaml /\ group 2 (groups m) = body.
Proof.
  intros Hocc Hend. rewrite search_FM. unfold exec, FM_REGEX. cbn [Cat]. eval_lits.
  unfold LF, CR in *. cbn [app].
  rewrite matcher_Seq. mstep. rewrite matcher_Opt. mstep.
  match goal with |- context [lazy_run is_any ?f _ _ _] => set (k := f) end.
  match goal with |- context [lazy_run is_any k ?a ?b ?c] =>
    assert (E : lazy_run is_any k a b c
                = Some (MState (last_or (Some 10) body) []
                               [(2%nat, body); (1%nat, yaml)]))
  end.
  { rewrite lazy_run_first.
    - cbn [lazy_run]. subst k. cbv beta. unfold capture at 1. cbn [rest prev caps].
      rewrite take_app_sub. rewrite matcher_Seq, matcher_Opt. mstep.
      rewrite matcher_Opt. mstep. rewrite matcher_Opt. mstep.
      rewrite (greedy_run_all is_any _ (Some 10) body [(1%nat, yaml)]
                 (MState (last_or (Some 10) body) [] [(2%nat, body); (1%nat, yaml)]));
        [reflexivity | apply forallb_any |].
      unfold capture. cbn [rest prev caps length]. rewrite Nat.sub_0_r, firstn_all.
      reflexivity.
    - apply forallb_any.
    - intros w1 w2 pr' Hy Hne. subst k. cbv beta. unfold capture. cbn [rest prev caps].
      match goal with |- ?m = None => destruct m eqn:E; [exfalso|reflexivity] end.
      change (Cls (N.eqb 13)) with (Chr 13) in E.
      change (Cls (N.eqb 10)) with (Chr 10) in E.
      change (Seq (Cls (N.eqb 45)) (Seq (Cls (N.eqb 45)) (Seq (Cls (N.eqb 45)) Eps)))
        with (lits [45; 45; 45]) in E.
      rewrite matcher_Seq in E.
      apply matcher_opt_chr in E as (cr & t1 & p1 & Hcr & Et & E).
      rewrite matcher_Seq in E. apply matcher_chr in E as (t2 & -> & E).
      rewrite matcher_Seq in E. apply matcher_lits in E as (t3 & p3 & -> & E).
      apply (no_early_close yaml w1 w2 cr (10 :: body) t3 Hocc Hend Hy Hne Hcr).
      exact Et. }
  rewrite E. eexists. split; [reflexivity|]. cbn. split; reflexivity.
Qed.

(** A document made of an opening [---] line, a block that holds no line
    feed followed by [---] and does not end with a carriage return, a
    closing [---] line and a body: the metadata are read from the block and
    the content is the body. *)
Lemma parseFrontMatter_block yaml body :
  occurs (LF :: U "---") yaml = false -> ends_with [CR] yaml = false ->
  parseFrontMatter (U "---" ++ LF :: yaml ++ LF :: U "---" ++ LF :: body) =
  match scan (split_char LF yaml) ∅ with
  | Ok data => Ok (FrontMatter data body)
  | Throw e => Throw e
  end.
Proof.
  intros Hocc Hend. unfold parseFrontMatter.
  destruct (FM_REGEX_exact yaml body Hocc Hend) as (m & -> & -> & ->).
  reflexivity.
Qed.

(** ** Replacing one character *)

Lemma exec_chr ml c p x s :
  exec ml (Chr c) p (x :: s) = if c =? x then Some (RMatch [x] [] s) else None.
Proof.
  unfold exec, Chr. cbn [matcher rest caps]. destruct (c =? x); [|reflexivity].
  cbn [rest caps length]. replace (S (length s) - length s)%nat with 1%nat by lia.
  reflexivity.
Qed.

Lemma replace_chr ml c r s : forall p,
  replace_go ml (Chr c) (fun _ => r) 0 p s
  = flat_map (fun x => if c =? x then r else [x]) s.
Proof.
  induction s as [|x s IH]; intros p; [reflexivity|].
  cbn [replace_go flat_map]. rewrite exec_chr. destruct (c =? x).
  - cbn [whole length]. rewrite IH. reflexivity.
  - rewrite IH. reflexivity.
Qed.

(** ** escapeHtml, one code unit at a time *)

Lemma flat_map_flat_map {A B C : Type} (f : A -> list B) (g : B -> list C) l :
  flat_map g (flat_map f l) = flat_map (fun x => flat_map g (f x)) l.
Proof.
  induction l as [|x l IH]; [reflexivity|].
  cbn [flat_map]. rewrite flat_map_app, IH. reflexivity.
Qed.

Lemma escapeHtml_flat_map s : escapeHtml s = flat_map escape_char s.
Proof.
  unfold escapeHtml, replace_all. rewrite !replace_chr, !flat_map_flat_map.
  apply flat_map_ext. intros x. unfold escape_char.
  destruct (N.eqb_spec x 38) as [->|H1]; [reflexivity|].
  destruct (N.eqb_spec 38 x) as [E|_]; [congruence|].
  cbn [flat_map app].
  destruct (N.eqb_spec x 60) as [->|H2]; [reflexivity|].
  destruct (N.eqb_spec 60 x) as [E|_]; [congruence|].
  cbn [flat_map app].
  destruct (N.eqb_spec x 62) as [->|H3]; [reflexivity|].
  destruct (N.eqb_spec 62 x) as [E|_]; [congruence|]. reflexivity.
Qed.

Lemma escapeHtml_app a b : escapeHtml (a ++ b) = escapeHtml a ++ escapeHtml b.
Proof. rewrite !escapeHtml_flat_map. apply flat_map_app. Qed.

Lemma escapeHtml_cons c s : escapeHtml (c :: s) = escape_char c ++ escapeHtml s.
Proof. rewrite !escapeHtml_flat_map. reflexivity. Qed.

Lemma escape_char_plain c : is_html_special c = false -> escape_char c = [c].
Proof.
  unfold is_html_special, escape_char. intros H.
  apply orb_false_iff in H as [H H3]. apply orb_false_iff in H as [H1 H2].
  rewrite H1, H2, H3. reflexivity.
Qed.

Lemma escape_char_cases c :
  (c = 38 /\ escape_char c = U "&amp;")
  \/ (c = 60 /\ escape_char c = U "&lt;")
  \/ (c = 62 /\ escape_char c = U "&gt;")
  \/ (is_html_special c = false /\ escape_char c = [c]).
Proof.
  unfold escape_char, is_html_special.
  destruct (N.eqb_spec c 38); [auto|].
  destruct (N.eqb_spec c 60); [auto|].
  destruct (N.eqb_spec c 62); [auto 6|]. auto 6.
Qed.

Lemma escapeHtml_no_angle s :
  forallb (fun c : char => negb ((c =? 60) || (c =? 62))) (escapeHtml s) = true.
Proof.
  induction s as [|c s IH]; [reflexivity|].
  rewrite escapeHtml_cons, forallb_app, IH, andb_true_r.
  destruct (escape_char_cases c) as [[-> ->]|[[-> ->]|[[-> ->]|[H ->]]]];
    try reflexivity.
  cbn [forallb]. rewrite andb_true_r. unfold is_html_special in H.
  apply orb_false_iff in H as [H H3]. apply orb_false_iff in H as [H1 H2].
  rewrite H2, H3. reflexivity.
Qed.

Lemma escapeHtml_plain s :
  forallb (fun c : char => negb (is_html_special c)) s = true -> escapeHtml s = s.
Proof.
  induction s as [|c s IH]; [reflexivity|]. cbn [forallb].
  intros H. apply andb_true_iff in H as [Hc Hs]. apply negb_true_iff in Hc.
  rewrite escapeHtml_cons, escape_char_plain, IH by assumption. reflexivity.
Qed.

Lemma escapeHtml_length s : (length s <= length (escapeHtml s))%nat.
Proof.
  induction s as [|c s IH]; [reflexivity|].
  rewrite escapeHtml_cons, length_app. cbn [length].
  destruct (escape_char_cases c) as [[-> ->]|[[-> ->]|[[-> ->]|[H ->]]]];
    cbn; lia.
Qed.

Lemma escapeHtml_fixed s :
  escapeHtml s = s -> forallb (fun c : char => negb (is_html_special c)) s = true.
Proof.
  induction s as [|c s IH]; [reflexivity|].
  rewrite escapeHtml_cons. intros H. cbn [forallb].
  destruct (escape_char_cases c) as [[-> Hc]|[[-> Hc]|[[-> Hc]|[Hc Hx]]]];
    rewrite ?Hc, ?Hx in H.
  - exfalso. apply (f_equal (@length char)) in H. cbn [app length U] in H.
    pose proof (escapeHtml_length s).
    change (U "&amp;") with [38; 97; 109; 112; 59] in H. cbn in H. lia.
  - exfalso. change (U "&lt;") with [38; 108; 116; 59] in H. discriminate.
  - exfalso. change (U "&gt;") with [38; 103; 116; 59] in H. discriminate.
  - rewrite Hc. cbn [app] in H. injection H as H. rewrite (IH H). reflexivity.
Qed.

Ltac entities H :=
  change (U "&amp;") with [38; 97; 109; 112; 59] in H;
  change (U "&lt;") with [38; 108; 116; 59] in H;
  change (U "&gt;") with [38; 103; 116; 59] in H;
  cbn [app] in H.

Lemma escapeHtml_inj s : forall t, escapeHtml s = escapeHtml t -> s = t.
Proof.
  induction s as [|c s IH]; intros [|d t] H.
  - reflexivity.
  - exfalso. rewrite escapeHtml_cons in H.
    destruct (escape_char_cases d) as [[_ E]|[[_ E]|[[_ E]|[_ E]]]];
      rewrite E in H; discriminate.
  - exfalso. rewrite escapeHtml_cons in H.
    destruct (escape_char_cases c) as [[_ E]|[[_ E]|[[_ E]|[_ E]]]];
      rewrite E in H; discriminate.
  - rewrite !escapeHtml_cons in H.
    destruct (escape_char_cases c) as [[Hc Ec]|[[Hc Ec]|[[Hc Ec]|[Hc Ec]]]];
    destruct (escape_char_cases d) as [[Hd Ed]|[[Hd Ed]|[[Hd Ed]|[Hd Ed]]]];
      rewrite Ec, Ed in H; entities H; subst;
      try discriminate;
      try (injection H as H; f_equal; apply IH, H);
      try (injection H as <- H; vm_compute in Hd; discriminate);
      try (injection H as -> H; vm_compute in Hc; discriminate).
    injection H as -> H. f_equal. apply IH, H.
Qed.

(** ** The delimiter lines, with or without carriage returns *)

Lemma lazy_run_now p (k : cont) pr s cs z :
  k (MState pr s cs) = Some z -> lazy_run p k pr s cs = Some z.
Proof. intros H. destruct s; cbn [lazy_run]; rewrite H; reflexivity. Qed.

Lemma no_early_close_cr yaml w1 w2 cr tail r :
  occurs (LF :: U "---") yaml = false ->
  yaml = w1 ++ w2 -> w2 <> [] ->
  (cr = [] \/ cr = [CR]) ->
  w2 ++ CR :: LF :: U "---" ++ tail = cr ++ LF :: U "---" ++ r ->
  False.
Proof.
  intros Hocc Hy Hne Hcr Heq.
  assert (Hstart : forall w0 w, yaml = w0 ++ w ->
                                starts_with (LF :: U "---") w = true -> False).
  { intros w0 w Hw Hs. rewrite Hw, (occurs_app_r _ w0 w) in Hocc; [discriminate|].
    apply occurs_starts, Hs. }
  assert (Hdash : forall w, w ++ CR :: LF :: U "---" ++ tail = U "---" ++ r ->
                            starts_with (U "---") w = true).
  { intros w. change (U "---") with [45; 45; 45]. unfold LF, CR.
    destruct w as [|a [|b [|c w]]]; cbn [app]; intros [= ]; subst; reflexivity. }
  destruct Hcr as [-> | ->]; cbn [app] in Heq.
  - destruct w2 as [|a w2]; [congruence|]. cbn [app] in Heq.
    injection Heq as -> Heq. apply Hdash in Heq.
    apply (Hstart w1 (LF :: w2) Hy). cbn [starts_with]. rewrite N.eqb_refl. exact Heq.
  - destruct w2 as [|a w2]; [congruence|]. cbn [app] in Heq.
    injection Heq as -> Heq.
    destruct w2 as [|b w2]; [discriminate|].
    cbn [app] in Heq. injection Heq as -> Heq. apply Hdash in Heq.
    apply (Hstart (w1 ++ [CR]) (LF :: w2)).
    + rewrite Hy, <- app_assoc. reflexivity.
    + cbn [starts_with]. rewrite N.eqb_refl. exact Heq.
Qed.

Lemma FM_REGEX_exact_eol cr1 cr2 cr3 yaml body :
  (cr1 = [] \/ cr1 = [CR]) -> (cr2 = [] \/ cr2 = [CR]) -> (cr3 = [] \/ cr3 = [CR]) ->
  occurs (LF :: U "---") yaml = false ->
  (cr2 = [] -> ends_with [CR] yaml = false) ->
  exists m,
    search false FM_REGEX None
      (U "---" ++ cr1 ++ LF :: yaml ++ cr2 ++ LF :: U "---" ++ cr3 ++ LF :: body)
    = Some m
    /\ group 1 (groups m) = yaml /\ group 2 (groups m) = body.
Proof.
  intros H1 H2 H3 Hocc Hend. rewrite search_FM. unfold exec, FM_REGEX. cbn [Cat].
  eval_lits. unfold LF, CR in *.
  assert (Hclose : forall (k : cont) pr cs,
    (forall x, k x = matcher false
       (Cat [Opt (Cls (N.eqb 13)); Cls (N.eqb 10);
             Cls (N.eqb 45); Cls (N.eqb 45); Cls (N.eqb 45);
             Opt (Cls (N.eqb 13)); Opt (Cls (N.eqb 10));
             Grp 2 (Star true (Cls is_any)); Eol])
       Some (capture 1 (MState pr (yaml ++ cr2 ++ 10 :: 45 :: 45 :: 45 :: cr3 ++ 10 :: body) cs) x)) ->
    lazy_run is_any k pr (yaml ++ cr2 ++ 10 :: 45 :: 45 :: 45 :: cr3 ++ 10 :: body) cs
    = Some (MState (last_or (Some 10) body) [] ((2%nat, body) :: (1%nat, yaml) :: cs))).
  { intros k pr cs Hk. rewrite lazy_run_first.
    - apply lazy_run_now. rewrite Hk. unfold capture at 1. cbn [rest prev caps Cat].
      rewrite take_app_sub.
      destruct H2 as [-> | ->], H3 as [-> | ->]; cbn [app];
        repeat (first [rewrite matcher_Seq | rewrite matcher_Opt | progress mstep]);
        rewrite (greedy_run_all is_any _ (Some 10) body ((1%nat, yaml) :: cs)
                   (MState (last_or (Some 10) body) [] ((2%nat, body) :: (1%nat, yaml) :: cs)));
        try reflexivity; try apply forallb_any;
        unfold capture; cbn [rest prev caps length]; rewrite Nat.sub_0_r, firstn_all;
        reflexivity.
    - apply forallb_any.
    - intros w1 w2 pr' Hy Hne. rewrite Hk. unfold capture. cbn [rest prev caps Cat].
      match goal with |- ?m = None => destruct m eqn:E; [exfalso|reflexivity] end.
      change (Cls (N.eqb 13)) with (Chr 13) in E.
      change (Cls (N.eqb 10)) with (Chr 10) in E.
      change (Seq (Cls (N.eqb 45)) (Seq (Cls (N.eqb 45)) (Seq (Cls (N.eqb 45)) ?r)))
        with (Seq (Chr 45) (Seq (Chr 45) (Seq (Chr 45) r))) in E.
      rewrite matcher_Seq in E.
      apply matcher_opt_chr in E as (cr & t1 & p1 & Hcr & Et & E).
      rewrite matcher_Seq in E. apply matcher_chr in E as (t2 & -> & E).
      rewrite matcher_Seq in E. apply matcher_chr in E as (t3 & -> & E).
      rewrite matcher_Seq in E. apply matcher_chr in E as (t4 & -> & E).
      rewrite matcher_Seq in E. apply matcher_chr in E as (t5 & -> & E).
      destruct H2 as [-> | ->]; cbn [app] in Et.
      + apply (no_early_close yaml w1 w2 cr (cr3 ++ 10 :: body) t5 Hocc (Hend eq_refl)
                 Hy Hne Hcr). exact Et.
      + apply (no_early_close_cr yaml w1 w2 cr (cr3 ++ 10 :: body) t5 Hocc
                 Hy Hne Hcr). exact Et. }
  destruct H1 as [-> | ->]; cbn [app];
    repeat (first [rewrite matcher_Seq | rewrite matcher_Opt | progress mstep]);
    rewrite Hclose by (intros x; reflexivity);
    (eexists; split; [reflexivity|]; cbn; split; reflexivity).
Qed.

(** ** When the front-matter parser throws *)

Lemma scalar_of_None rest :
  scalar_of rest = None <->
  starts_with (U "[") rest
  && match JSON_parse (to_double_quotes rest) with
     | Some (JArr _) => false
     | _ => true
     end = true.
Proof.
  unfold scalar_of, to_double_quotes. destruct (starts_with (U "[") rest).
  - cbn [andb]. destruct (JSON_parse _) as [[| | | |items|]|]; split; congruence.
  - cbn [andb]. destruct (str_eqb rest (U "true")); [split; discriminate|].
    destruct (str_eqb rest (U "false")); [split; discriminate|].
    destruct (test false DATE_REGEX rest); split; discriminate.
Qed.

Lemma existsb_suffix {A : Type} (p : A -> bool) pre l :
  existsb p l = true -> existsb p (pre ++ l) = true.
Proof. intros H. rewrite existsb_app, H. apply orb_true_r. Qed.

Lemma scan_throw_malformed lines : forall data e,
  scan lines data = Throw e -> existsb malformed_flow lines = true.
Proof.
  remember (length lines) as n eqn:Hn. revert lines Hn.
  induction n as [n IH] using lt_wf_ind. intros lines Hn data e.
  destruct lines as [|line more]; [discriminate|].
  rewrite scan_cons. cbn [length] in Hn. cbn [existsb].
  unfold malformed_flow at 1.
  destruct (keyMatch line) as [km|] eqn:Ek.
  - cbv zeta. destruct (trim _) as [|c rest] eqn:Et.
    + intros H. apply (IH (length (snd (block_items more)))) in H.
      * destruct (block_items_suffix more) as [pre Hpre].
        rewrite Hpre at 1. rewrite (existsb_suffix _ _ _ H). apply orb_true_r.
      * pose proof (block_items_length more). lia.
      * reflexivity.
    + destruct (scalar_of (c :: rest)) as [v|] eqn:Es.
      * intros H. apply (IH (length more)) in H; [|lia|reflexivity].
        rewrite H. apply orb_true_r.
      * intros _. apply scalar_of_None in Es. rewrite Es. reflexivity.
  - intros H. apply (IH (length more)) in H; [|lia|reflexivity].
    rewrite H. reflexivity.
Qed.

Lemma malformed_scan_throw lines data :
  existsb malformed_flow lines = true -> scan lines data = Throw SyntaxError.
Proof.
  intros H. apply existsb_exists in H as (line & Hin & Hm).
  apply in_split in Hin as (before & after & ->).
  unfold malformed_flow in Hm.
  destruct (keyMatch line) as [km|] eqn:Ek; [|discriminate]. cbv zeta in Hm.
  rewrite (scan_app_key _ _ _ _ _ Ek).
  destruct (scan before data) as [d|e] eqn:Eb.
  - rewrite scan_cons, Ek.
    destruct (trim (group 2 (groups km))) as [|c rest] eqn:Et; [discriminate|].
    apply scalar_of_None in Hm. rewrite Hm. reflexivity.
  - f_equal. eapply scan_throw, Eb.
Qed.

Lemma parseFrontMatter_throw_iff raw :
  parseFrontMatter raw = Throw SyntaxError
  <-> existsb malformed_flow (block_lines raw) = true.
Proof.
  unfold parseFrontMatter, block_lines.
  destruct (search false FM_REGEX None raw) as [m|]; [|split; discriminate].
  split.
  - destruct (scan _ _) as [d|e] eqn:E; [discriminate|]. intros _.
    eapply scan_throw_malformed, E.
  - intros H. rewrite (malformed_scan_throw _ _ H). reflexivity.
Qed.

(** ** The value of a key *)

Lemma sets_key_false key line km :
  sets_key key line = false -> keyMatch line = Some km ->
  group 1 (groups km) <> key.
Proof.
  unfold sets_key. intros H Hk. rewrite Hk in H. unfold str_eqb in H.
  apply bool_decide_eq_false in H. exact H.
Qed.

Lemma not_set_after key lines :
  existsb (sets_key key) lines = false ->
  forall line km, In line lines -> keyMatch line = Some km ->
                  group 1 (groups km) <> key.
Proof.
  intros H line km Hin Hk. apply (sets_key_false key line km); [|exact Hk].
  destruct (sets_key key line) eqn:E; [|reflexivity].
  rewrite <- H. symmetry. apply existsb_exists. exists line. auto.
Qed.

Lemma scan_absent key lines data data' :
  existsb (sets_key key) lines = false ->
  scan lines data = Ok data' -> data' !! key = data !! key.
Proof. intros H. apply scan_preserves, not_set_after, H. Qed.

Lemma existsb_suffix_false {A : Type} (p : A -> bool) pre l :
  existsb p (pre ++ l) = false -> existsb p l = false.
Proof. rewrite existsb_app. intros H. apply orb_false_iff in H as [_ H]. exact H. Qed.

Lemma scan_last_line key before line after data data' :
  sets_key key line = true ->
  existsb (sets_key key) after = false ->
  key <> U "__proto__" ->
  scan (before ++ line :: after) data = Ok data' ->
  data' !! key = line_value line after.
Proof.
  intros Hs Ha Hp. unfold sets_key in Hs. unfold line_value.
  destruct (keyMatch line) as [km|] eqn:Ek; [|discriminate].
  unfold str_eqb in Hs. apply bool_decide_eq_true in Hs.
  rewrite (scan_app_key _ _ _ _ _ Ek).
  destruct (scan before data) as [d|e]; [|discriminate].
  rewrite scan_cons, Ek, Hs.
  destruct (trim (group 2 (groups km))) as [|c rest].
  - intros H.
    assert (Hx : existsb (sets_key key) (snd (block_items after)) = false).
    { destruct (block_items_suffix after) as [pre Hpre].
      rewrite Hpre in Ha. eapply existsb_suffix_false, Ha. }
    rewrite (scan_absent key _ _ _ Hx H).
    rewrite obj_set_lookup by exact Hp. reflexivity.
  - destruct (scalar_of (c :: rest)) as [v|]; [|discriminate].
    intros H. rewrite (scan_absent key _ _ _ Ha H).
    apply obj_set_lookup, Hp.
Qed.

(** ** The key pattern on a line *)

Lemma greedy_run_stop p (k : cont) pr w t cs z :
  forallb p w = true ->
  match t with [] => True | c :: _ => p c = false end ->
  k (MState (last_or pr w) t cs) = Some z ->
  greedy_run p k pr (w ++ t) cs = Some z.
Proof.
  intros Hw Ht E. apply greedy_run_skip; [exact Hw|].
  destruct t as [|c t]; cbn [greedy_run]; [exact E|]. rewrite Ht. exact E.
Qed.

Lemma leading_space v :
  forallb is_space v = true
  \/ exists ws c v', v = ws ++ c :: v'
                     /\ forallb is_space ws = true /\ is_space c = false.
Proof.
  induction v as [|c v IH]; [left; reflexivity|].
  destruct (is_space c) eqn:Ec.
  - destruct IH as [IH | (ws & d & v' & -> & Hws & Hd)].
    + left. cbn [forallb]. rewrite Ec, IH. reflexivity.
    + right. exists (c :: ws), d, v'. cbn [forallb app]. rewrite Ec, Hws. auto.
  - right. exists [], c, v. auto.
Qed.

Lemma trim_start_space ws s :
  forallb is_space ws = true -> trim_start (ws ++ s) = trim_start s.
Proof.
  induction ws as [|c ws IH]; [reflexivity|]. cbn [forallb app trim_start].
  intros H. apply andb_true_iff in H as [-> H]. apply IH, H.
Qed.

Lemma trim_space v : forallb is_space v = true -> trim v = [].
Proof.
  intros H. unfold trim. rewrite <- (app_nil_r v), (trim_start_space v [] H).
  reflexivity.
Qed.

Lemma keyMatch_line key v cr :
  is_key key = true -> forallb is_dot v = true -> (cr = [] \/ cr = [CR]) ->
  exists m, keyMatch (key ++ 58 :: v ++ cr) = Some m
            /\ group 1 (groups m) = key
            /\ trim (group 2 (groups m)) = trim v.
Proof.
  intros Hkey Hv Hcr. rewrite keyMatch_exec. unfold exec, KEY_REGEX. cbn [Cat].
  destruct key as [|k0 ks]; [discriminate|]. cbn [is_key] in Hkey.
  apply andb_true_iff in Hkey as [Hk0 Hks]. cbn [app].
  mstep. rewrite Hk0. mstep.
  assert (E : exists y,
    greedy_run (fun c : char => is_word c || (c =? 45))
      (fun y : mstate =>
         matcher false
           (Seq (Cls (N.eqb 58))
              (Seq (Star true (Cls is_space)) (Grp 2 (Star true (Cls is_dot)))))
           Some
           (capture 1 (MState None (k0 :: ks ++ 58 :: v ++ cr) []) y))
      (Some k0) (ks ++ 58 :: v ++ cr) [] = Some y
    /\ group 1 (caps y) = k0 :: ks /\ trim (group 2 (caps y)) = trim v).
  { assert (Hcr' : match cr with [] => True | c :: _ => is_dot c = false end)
      by (destruct Hcr as [-> | ->]; [exact I | reflexivity]).
    destruct (leading_space v) as [Hsp | (ws & c & v' & -> & Hws & Hc)].
    - eexists. split; [|split].
      + eapply greedy_run_stop; [exact Hks | reflexivity |].
        unfold capture. cbn [rest prev caps].
        change (k0 :: ks ++ 58 :: v ++ cr) with ((k0 :: ks) ++ 58 :: v ++ cr).
        rewrite take_app_sub. mstep.
        eapply greedy_run_all.
        * rewrite forallb_app, Hsp. destruct Hcr as [-> | ->]; reflexivity.
        * mstep. reflexivity.
      + reflexivity.
      + cbn [caps capture rest group Nat.eqb length Nat.sub take].
        rewrite (trim_space v Hsp). reflexivity.
    - rewrite forallb_app in Hv. apply andb_true_iff in Hv as [_ Hv].
      eexists. split; [|split].
      + eapply greedy_run_stop; [exact Hks | reflexivity |].
        unfold capture at 1. cbn [rest prev caps].
        change (k0 :: ks ++ 58 :: (ws ++ c :: v') ++ cr)
          with ((k0 :: ks) ++ 58 :: (ws ++ c :: v') ++ cr).
        rewrite take_app_sub. mstep. rewrite <- app_assoc.
        eapply greedy_run_stop; [exact Hws | cbn [app]; exact Hc |].
        mstep.
        change ((c :: v') ++ cr) with ((c :: v') ++ cr).
        eapply (greedy_run_stop is_dot _ _ (c :: v') cr); [exact Hv | exact Hcr' |].
        reflexivity.
      + reflexivity.
      + unfold capture. cbn [caps rest group Nat.eqb].
        rewrite take_app_sub. unfold trim. rewrite trim_start_space by exact Hws.
        reflexivity. }
  destruct E as (y & -> & H1 & H2). eexists. split; [reflexivity|].
  cbn [groups]. auto.
Qed.

Lemma keyMatch_not_word line :
  match line with c :: _ => is_word c = false | [] => True end ->
  keyMatch line = None.
Proof.
  intros H. destruct (keyMatch line) as [km|] eqn:E; [|reflexivity].
  apply keyMatch_head in E as (c & t & -> & Hc). congruence.
Qed.

Lemma is_item_not_key line : is_item line = true -> keyMatch line = None.
Proof.
  intros H. destruct (keyMatch line) as [km|] eqn:E; [|reflexivity].
  apply keyMatch_not_item in E. congruence.
Qed.

(** ** Block arrays *)

Lemma block_items_run items rest :
  forallb is_item items = true ->
  match rest with [] => True | r :: _ => is_item r = false end ->
  block_items (items ++ rest) = (map item_of items, rest).
Proof.
  intros Hi Hr. induction items as [|m items IH].
  - destruct rest as [|r rest]; [reflexivity|]. cbn [app block_items map].
    rewrite Hr. reflexivity.
  - cbn [forallb] in Hi. apply andb_true_iff in Hi as [Hm Hi].
    cbn [app block_items map]. rewrite Hm, (IH Hi). reflexivity.
Qed.

Lemma scan_block_array line km items rest data :
  keyMatch line = Some km ->
  trim (group 2 (groups km)) = [] ->
  forallb is_item items = true ->
  match rest with [] => True | r :: _ => is_item r = false end ->
  scan (line :: items ++ rest) data
  = scan rest (obj_set (group 1 (groups km)) (VArr (map item_of items)) data).
Proof.
  intros Hk Ht Hi Hr. rewrite scan_cons, Hk, Ht, (block_items_run _ _ Hi Hr).
  reflexivity.
Qed.

Lemma scan_orphan_items items rest data :
  forallb is_item items = true -> scan (items ++ rest) data = scan rest data.
Proof.
  induction items as [|m items IH]; [reflexivity|]. cbn [forallb app].
  intros H. apply andb_true_iff in H as [Hm Hi].
  rewrite scan_cons, (is_item_not_key _ Hm). apply IH, Hi.
Qed.

(** ** Booleans and dates *)

Lemma scalar_of_bool rest b :
  scalar_of rest = Some (VBool b) <-> rest = if b then U "true" else U "false".
Proof.
  unfold scalar_of. destruct (starts_with (U "[") rest) eqn:Eb.
  - split.
    + destruct (JSON_parse _) as [[| | | |items|]|]; discriminate.
    + intros ->. destruct b; discriminate.
  - unfold str_eqb.
    destruct (bool_decide_reflect (rest = U "true")) as [->|Ht].
    { split; [intros [= <-]; reflexivity | destruct b; [reflexivity|discriminate]]. }
    destruct (bool_decide_reflect (rest = U "false")) as [->|Hf].
    { split; [intros [= <-]; reflexivity | destruct b; [discriminate|reflexivity]]. }
    split.
    + destruct (test false DATE_REGEX rest); discriminate.
    + destruct b; congruence.
Qed.

Lemma test_date_shape s : test false DATE_REGEX s = date_shape s.
Proof.
  unfold test, DATE_REGEX. cbn [Cat]. rewrite search_bol. unfold exec.
  cbn [Times]. unfold date_shape.
  do 11 (try (destruct s as [|? s])).
  all: cbn [matcher at_bol at_eol prev rest caps Chr andb].
  all: rewrite ?(N.eqb_sym _ 45).
  all: repeat match goal with
         | |- context [if ?b then _ else _] =>
             lazymatch type of b with bool => idtac end;
             destruct b; cbn [andb]; try reflexivity
         end.
  all: try reflexivity.
Qed.

Lemma scalar_of_date s : date_shape s = true -> scalar_of s = Some (VStr s).
Proof.
  intros H. unfold scalar_of. rewrite test_date_shape, H.
  assert (Hd : match s with c :: _ => is_digit c = true | [] => False end).
  { destruct s as [|c s]; [discriminate|]. unfold date_shape in H.
    do 10 (try (destruct s as [|? s]; try discriminate)).
    repeat (apply andb_true_iff in H as [H ?]).
    unfold is_digit, in_range. apply andb_true_iff. split; assumption. }
  destruct s as [|c s]; [destruct Hd|].
  assert (Hb : starts_with (U "[") (c :: s) = false).
  { change (U "[") with [91]. cbn [starts_with]. rewrite andb_true_r.
    unfold is_digit, in_range in Hd. class_cases. }
  rewrite Hb. unfold str_eqb.
  case_bool_decide as E; [injection E as -> _; discriminate|].
  case_bool_decide as E'; [injection E' as -> _; discriminate|].
  reflexivity.
Qed.

(** ** Flow arrays *)

Lemma to_double_quotes_flat_map rest :
  to_double_quotes rest = flat_map (fun x => if SQ =? x then [DQ] else [x]) rest.
Proof. apply replace_chr. Qed.

Lemma to_double_quotes_app a b :
  to_double_quotes (a ++ b) = to_double_quotes a ++ to_double_quotes b.
Proof. rewrite !to_double_quotes_flat_map. apply flat_map_app. Qed.

Lemma to_double_quotes_idem rest :
  to_double_quotes (to_double_quotes rest) = to_double_quotes rest.
Proof.
  rewrite !to_double_quotes_flat_map, flat_map_flat_map.
  apply flat_map_ext. intros x. destruct (N.eqb_spec SQ x) as [<-|H].
  - reflexivity.
  - cbn [flat_map app]. destruct (N.eqb_spec SQ x); [congruence | reflexivity].
Qed.

Lemma to_double_quotes_bracket rest :
  starts_with (U "[") (to_double_quotes rest) = starts_with (U "[") rest.
Proof.
  rewrite to_double_quotes_flat_map. destruct rest as [|c rest]; [reflexivity|].
  cbn [flat_map]. destruct (N.eqb_spec SQ c) as [<-|H]; reflexivity.
Qed.

Lemma scalar_of_quotes rest :
  starts_with (U "[") rest = true ->
  scalar_of (to_double_quotes rest) = scalar_of rest.
Proof.
  intros H. unfold scalar_of.
  rewrite to_double_quotes_bracket, H.
  change (replace_all false (Chr SQ) (fun _ => [DQ]) ?x) with (to_double_quotes x).
  rewrite to_double_quotes_idem. reflexivity.
Qed.

Lemma to_double_quotes_plain t :
  forallb flow_plain t = true -> to_double_quotes t = t.
Proof.
  rewrite to_double_quotes_flat_map.
  induction t as [|c t IH]; [reflexivity|]. cbn [forallb flat_map].
  intros H. apply andb_true_iff in H as [Hc Ht]. rewrite (IH Ht).
  unfold flow_plain in Hc. destruct (N.eqb_spec SQ c) as [<-|_]; [|reflexivity].
  vm_compute in Hc. discriminate.
Qed.

Lemma to_double_quotes_items q items :
  is_quote q = true ->
  Forall (fun t => forallb flow_plain t = true) items ->
  to_double_quotes (join (U ", ") (map (fun t => q :: t ++ [q]) items))
  = join (U ", ") (map (fun t => DQ :: t ++ [DQ]) items).
Proof.
  intros Hq Hall.
  assert (Hone : forall t, forallb flow_plain t = true ->
                   to_double_quotes (q :: t ++ [q]) = DQ :: t ++ [DQ]).
  { intros t Ht.
    change (q :: t ++ [q]) with ([q] ++ t ++ [q]).
    rewrite !to_double_quotes_app, (to_double_quotes_plain t Ht).
    assert (Eq : to_double_quotes [q] = [DQ]).
    { rewrite to_double_quotes_flat_map. cbn [flat_map app].
      unfold is_quote in Hq. apply orb_true_iff in Hq as [Hq | Hq];
        apply N.eqb_eq in Hq; subst q; reflexivity. }
    rewrite Eq. reflexivity. }
  induction Hall as [|t items Ht Hall IH]; [reflexivity|].
  cbn [map]. destruct items as [|t' items].
  - cbn [map join]. apply Hone, Ht.
  - change (join (U ", ") ((q :: t ++ [q]) :: map (fun t => q :: t ++ [q]) (t' :: items)))
      with ((q :: t ++ [q]) ++ U ", "
            ++ join (U ", ") (map (fun t => q :: t ++ [q]) (t' :: items))).
    rewrite !to_double_quotes_app, IH, (Hone t Ht). reflexivity.
Qed.

Lemma parse_chars_plain t r :
  forallb flow_plain t = true -> parse_chars (t ++ 34 :: r) = Some (t, r).
Proof.
  induction t as [|c t IH]; [reflexivity|]. cbn [forallb app]. intros H.
  apply andb_true_iff in H as [Hc Ht].
  assert (H3 : (c =? 34) = false /\ (c =? 92) = false /\ (c <? 32) = false).
  { unfold flow_plain, DQ, SQ in Hc. repeat (apply andb_true_iff in Hc as [Hc ?]).
    repeat match goal with
      | H : negb _ = true |- _ => apply negb_true_iff in H
      end.
    apply N.leb_le in Hc. repeat split; try assumption.
    apply N.ltb_ge, Hc. }
  destruct H3 as (H34 & H92 & H32).
  cbn [parse_chars]. rewrite H34, H92, H32, (IH Ht). reflexivity.
Qed.

Lemma parse_value_string fuel t r :
  forallb flow_plain t = true ->
  parse_value (S fuel) (34 :: t ++ 34 :: r) = POk (JStr t) r.
Proof.
  intros Ht. cbn. rewrite (parse_chars_plain t r Ht). reflexivity.
Qed.

Lemma parse_elements_S fuel s :
  parse_elements (S fuel) s =
  match parse_value fuel s with
  | POk v r =>
      match skip_ws r with
      | c :: t =>
          if c =? 44 then
            match parse_elements fuel t with
            | POk l r' => POk (v :: l) r'
            | PErr => PErr
            | PFuel => PFuel
            end
          else if c =? 93 then POk [v] t
          else PErr
      | [] => PErr
      end
  | PErr => PErr
  | PFuel => PFuel
  end.
Proof. reflexivity. Qed.

Lemma parse_value_space fuel s : parse_value fuel (32 :: s) = parse_value fuel s.
Proof. destruct fuel; reflexivity. Qed.

Lemma parse_elements_space fuel s :
  parse_elements fuel (32 :: s) = parse_elements fuel s.
Proof.
  destruct fuel as [|fuel]; [reflexivity|].
  rewrite !parse_elements_S, parse_value_space. reflexivity.
Qed.

Set Keyed Unification.
Lemma parse_elements_flow items : forall t fuel r,
  (length items + 2 <= fuel)%nat ->
  Forall (fun t => forallb flow_plain t = true) (t :: items) ->
  parse_elements fuel (join (U ", ") (map quoted (t :: items)) ++ 93 :: r)
  = POk (map JStr (t :: items)) r.
Proof.
  induction items as [|t' items IH]; intros t fuel r Hf Hall;
    apply Forall_cons_iff in Hall as [Ht Hall];
    destruct fuel as [|[|fuel]]; cbn [length] in Hf; try lia;
    rewrite parse_elements_S.
  - cbn [map join]. unfold quoted, DQ. cbn [app]. rewrite <- app_assoc. cbn [app].
    rewrite (parse_value_string fuel t (93 :: r) Ht). reflexivity.
  - change (join (U ", ") (map quoted (t :: t' :: items)))
      with (quoted t ++ U ", " ++ join (U ", ") (map quoted (t' :: items))).
    unfold quoted at 1. unfold DQ at 1 2. cbn [app]. rewrite <- !app_assoc. cbn [app].
    change (U ", ") with [44; 32]. cbn [app].
    rewrite (parse_value_string fuel t _ Ht).
    cbn [skip_ws is_json_ws]. change (is_json_ws 44) with false. cbv iota.
    change (44 =? 44) with true. cbv iota.
    rewrite parse_elements_space, (IH t' (S fuel) r); [reflexivity | lia | exact Hall].
Qed.

Lemma join_quoted_length items :
  (length items <= length (join (U ", ") (map quoted items)))%nat.
Proof.
  induction items as [|t items IH]; [reflexivity|].
  destruct items as [|t' items].
  - cbn [map join length]. unfold quoted. cbn [length]. lia.
  - change (join (U ", ") (map quoted (t :: t' :: items)))
      with (quoted t ++ U ", " ++ join (U ", ") (map quoted (t' :: items))).
    set (J := join (U ", ") (map quoted (t' :: items))) in *.
    rewrite !length_app. change (length (U ", ")) with 2%nat.
    cbn [length] in *. lia.
Qed.

Lemma JSON_parse_flow items :
  Forall (fun t => forallb flow_plain t = true) items ->
  JSON_parse (flow_text DQ items) = Some (JArr (map JStr items)).
Proof.
  intros Hall.
  change (flow_text DQ items) with (91 :: join (U ", ") (map quoted items) ++ [93]).
  unfold JSON_parse.
  pose proof (join_quoted_length items) as Hlen.
  remember (join (U ", ") (map quoted items)) as body eqn:Hb.
  destruct items as [|t items].
  - subst body. reflexivity.
  - match goal with
    | |- context [parse_value (2 * ?L + 2)] => remember L as n eqn:En
    end.
    assert (Hn : (length (t :: items) <= n)%nat).
    { subst n. cbn [length] in *. rewrite length_app. cbn [length]. unfold str, char in *. lia. }
    clear En.
    replace (2 * n + 2)%nat with (S (S (2 * n)))%nat by lia.
    assert (Hq : exists b', body = 34 :: b').
    { subst body. destruct items; cbn; eauto. }
    assert (E : parse_elements (S (2 * n)) (body ++ [93])
                = POk (map JStr (t :: items)) []).
    { subst body. apply parse_elements_flow; [|exact Hall].
      cbn [length] in *. lia. }
    destruct Hq as [b' Hq]. rewrite Hq in E |- *.
    cbn [parse_value skip_ws is_json_ws app].
    change (is_json_ws 91) with false. cbv iota.
    change (91 =? 91) with true. cbv iota.
    change (is_json_ws 34) with false. cbv iota.
    change (34 =? 93) with false. cbv iota.
    cbn [app] in E. rewrite E. reflexivity.
Qed.

Unset Keyed Unification.

Lemma scalar_of_flow q items :
  is_quote q = true ->
  Forall (fun t => forallb flow_plain t = true) items ->
  scalar_of (flow_text q items) = Some (VArr (map JStr items)).
Proof.
  intros Hq Hall. unfold scalar_of.
  change (starts_with (U "[") (flow_text q items)) with true. cbv iota.
  change (replace_all false (Chr SQ) (fun _ => [DQ]) ?x) with (to_double_quotes x).
  assert (E : to_double_quotes (flow_text q items) = flow_text DQ items).
  { unfold flow_text. rewrite !to_double_quotes_app.
    rewrite (to_double_quotes_items q items Hq Hall). reflexivity. }
  rewrite E, (JSON_parse_flow items Hall). reflexivity.
Qed.

(** ** General facts on lists and on the passes *)

Lemma forallb_weaken {A : Type} (p q : A -> bool) s :
  (forall c, p c = true -> q c = true) ->
  forallb p s = true -> forallb q s = true.
Proof.
  intros Hpq. induction s as [|c s IH]; [reflexivity|]. cbn [forallb].
  intros H. apply andb_true_iff in H as [Hc Hs]. rewrite (Hpq c Hc), (IH Hs).
  reflexivity.
Qed.

Lemma occurs_no_head p c s :
  head p = Some c ->
  forallb (fun d : char => negb (d =? c)) s = true -> occurs p s = false.
Proof.
  intros Hp. destruct p as [|c' p]; [discriminate|]. injection Hp as ->.
  induction s as [|d s IH]; [reflexivity|]. cbn [forallb occurs starts_with].
  intros H. apply andb_true_iff in H as [Hd Hs]. rewrite (IH Hs), orb_false_r.
  apply negb_true_iff in Hd. rewrite N.eqb_sym, Hd. reflexivity.
Qed.

Lemma occurs_skip p c w s :
  head p = Some c ->
  forallb (fun d => negb (d =? c)) w = true ->
  occurs p (w ++ s) = occurs p s.
Proof.
  intros Hp Hw. destruct p as [|c' p]; [discriminate|]. injection Hp as ->.
  induction w as [|d w IH]; [reflexivity|]. cbn [forallb] in Hw.
  apply andb_true_iff in Hw as [Hd Hw]. cbn [app occurs starts_with].
  apply negb_true_iff in Hd. rewrite (N.eqb_sym c d), Hd. cbn [andb orb].
  apply IH, Hw.
Qed.

Lemma join_cons2 (sep : str) x y l :
  join sep (x :: y :: l) = x ++ sep ++ join sep (y :: l).
Proof. reflexivity. Qed.

Lemma forallb_join (q : char -> bool) sep ls :
  forallb q sep = true ->
  Forall (fun l => forallb q l = true) ls ->
  forallb q (join sep ls) = true.
Proof.
  intros Hsep Hall. induction Hall as [|l ls Hl Hall IH]; [reflexivity|].
  destruct ls as [|l' ls]; [exact Hl|].
  rewrite join_cons2, !forallb_app.
  apply andb_true_iff; split; [exact Hl|].
  apply andb_true_iff; split; [exact Hsep | exact IH].
Qed.

Lemma last_app_cons {A : Type} (l : list A) x s : last (l ++ x :: s) = last (x :: s).
Proof.
  induction l as [|y l IH]; [reflexivity|]. cbn [app].
  destruct (l ++ x :: s) as [|a l0] eqn:E; [destruct l; discriminate|].
  change (last (y :: a :: l0)) with (last (a :: l0)). exact IH.
Qed.

Lemma trim_id s :
  starts_space s = false -> ends_space s = false -> trim s = s.
Proof.
  intros Hs He. unfold trim. destruct s as [|c s]; [reflexivity|].
  cbn [starts_space] in Hs. cbn [trim_start]. rewrite Hs.
  destruct (exists_last (l := c :: s)) as (s' & d & E); [discriminate|].
  rewrite E in *. unfold ends_space in He. rewrite last_snoc in He.
  apply trim_end_app, He.
Qed.

Lemma ends_space_app a c :
  ends_space (a ++ [c]) = is_space c.
Proof. unfold ends_space. rewrite last_snoc. reflexivity. Qed.

Lemma ends_space_cons_app a c t :
  ends_space (a ++ c :: t) = ends_space (c :: t).
Proof. unfold ends_space. rewrite last_app_cons. reflexivity. Qed.

(** ** Splitting at blank lines *)

Lemma split_go_skip ml r w : forall p cur s,
  split_go ml r (length w) p cur (w ++ s) = split_go ml r 0 (last_or p w) cur s.
Proof.
  induction w as [|c w IH]; intros p cur s; [reflexivity|].
  cbn [length app split_go]. rewrite IH, last_or_cons. reflexivity.
Qed.

Lemma split_go_prev ml r n p p' cur s :
  no_bol r = true -> split_go ml r n p cur s = split_go ml r n p' cur s.
Proof.
  intros Hr. destruct s as [|c s]; [reflexivity|]. cbn [split_go].
  destruct n; [|reflexivity]. rewrite (exec_no_bol ml r p p' _ Hr). reflexivity.
Qed.

Lemma forallb_repeat_LF k : forallb (N.eqb LF) (repeat LF k) = true.
Proof. induction k as [|k IH]; [reflexivity|]. cbn [repeat forallb]. exact IH. Qed.

Lemma exec_blank_lines p k rest :
  match rest with [] => True | c :: _ => (LF =? c) = false end ->
  exec false BLANK_LINES_REGEX p (blank_lines k ++ rest)
  = Some (RMatch (blank_lines k) [] rest).
Proof.
  intros Hr.
  assert (E : matcher false BLANK_LINES_REGEX Some (MState p (blank_lines k ++ rest) [])
              = Some (MState (last_or (Some LF) (repeat LF k)) rest [])).
  { unfold BLANK_LINES_REGEX, blank_lines. cbn [Cat app]. unfold LF at 1 2 3 4.
    mstep. apply greedy_run_stop; [apply forallb_repeat_LF | exact Hr | reflexivity]. }
  apply (exec_rest _ _ _ _ _ _ E). reflexivity.
Qed.

Lemma starts_blank_app c b s :
  occurs [LF; LF] (c :: b) = false ->
  last (c :: b) <> Some LF ->
  starts_with [LF; LF] ((c :: b) ++ s) = false.
Proof.
  intros Ho Hl. cbn [occurs] in Ho. apply orb_false_iff in Ho as [Ho _].
  cbn [app starts_with] in *. destruct (N.eqb_spec LF c) as [<-|]; [|reflexivity].
  destruct b as [|d b]; [exfalso; apply Hl; reflexivity|].
  cbn [app] in *. exact Ho.
Qed.

Lemma split_go_block k rest b : forall p cur,
  occurs [LF; LF] b = false ->
  last b <> Some LF ->
  match rest with [] => True | c :: _ => (LF =? c) = false end ->
  split_go false BLANK_LINES_REGEX 0 p cur (b ++ blank_lines k ++ rest)
  = (cur ++ b) :: split_go false BLANK_LINES_REGEX 0 (Some LF) [] rest.
Proof.
  intros p cur Ho Hl Hr. revert p cur.
  induction b as [|c b IH]; intros p cur.
  - rewrite app_nil_r. cbn [app].
    pose proof (exec_blank_lines p k rest Hr) as E.
    change (blank_lines k ++ rest) with (LF :: (LF :: repeat LF k) ++ rest) in E |- *.
    cbn [split_go]. rewrite E. cbn [whole]. unfold blank_lines. cbn [length].
    rewrite repeat_length.
    pose proof (split_go_skip false BLANK_LINES_REGEX (LF :: repeat LF k)
                  (Some LF) [] rest) as E2.
    cbn [length app] in E2. rewrite repeat_length in E2. cbn [app]. rewrite E2.
    f_equal. apply split_go_prev. reflexivity.
  - pose proof (starts_blank_app c b (blank_lines k ++ rest) Ho Hl) as Hs.
    cbn [app] in Hs |- *. cbn [split_go].
    rewrite (exec_blank_lines_fail p _ Hs).
    assert (Ho' : occurs [LF; LF] b = false).
    { cbn [occurs] in Ho. apply orb_false_iff in Ho as [_ Ho]. exact Ho. }
    assert (Hl' : last b <> Some LF).
    { destruct b as [|d b]; [discriminate|]. exact Hl. }
    rewrite (IH Ho' Hl'), <- app_assoc. reflexivity.
Qed.

Lemma split_go_blocks k b blocks : forall p,
  Forall (fun b => occurs [LF; LF] b = false /\ last b <> Some LF
                   /\ match b with [] => False | c :: _ => (LF =? c) = false end)
         (b :: blocks) ->
  split_go false BLANK_LINES_REGEX 0 p [] (join (blank_lines k) (b :: blocks))
  = b :: blocks.
Proof.
  revert b. induction blocks as [|b' blocks IH]; intros b p Hall;
    apply Forall_cons_iff in Hall as [(Ho & Hl & Hh) Hall].
  - cbn [join]. apply (split_go_none [] b p Ho).
  - change (join (blank_lines k) (b :: b' :: blocks))
      with (b ++ blank_lines k ++ join (blank_lines k) (b' :: blocks)).
    rewrite split_go_block; [|exact Ho|exact Hl|].
    + rewrite (IH b' (Some LF) Hall). reflexivity.
    + pose proof Hall as Hall'. apply Forall_cons_iff in Hall' as [(_ & _ & Hh') _].
      destruct b' as [|c b']; [destruct Hh'|].
      destruct blocks; exact Hh'.
Qed.

Lemma split_re_blocks k b blocks :
  Forall (fun b => occurs [LF; LF] b = false /\ last b <> Some LF
                   /\ match b with [] => False | c :: _ => (LF =? c) = false end)
         (b :: blocks) ->
  split_re false BLANK_LINES_REGEX (join (blank_lines k) (b :: blocks)) = b :: blocks.
Proof.
  intros Hall. pose proof (split_go_blocks k b blocks None Hall) as E.
  unfold split_re. destruct (join (blank_lines k) (b :: blocks)) as [|c s] eqn:Ej.
  - exfalso. apply Forall_cons_iff in Hall as [(_ & _ & Hh) _].
    destruct b as [|c b]; [exact Hh|]. destruct blocks; discriminate.
  - exact E.
Qed.

(** ** Patterns anchored at the start of a line *)

Lemma exec_bol_mid r p s :
  is_line_terminator p = false -> exec true (Seq Bol r) (Some p) s = None.
Proof.
  intros Hp. unfold exec. rewrite matcher_Seq, matcher_Bol. unfold at_bol.
  cbn [prev]. rewrite Hp. reflexivity.
Qed.

Lemma last_or_dot p s c :
  forallb is_dot s = true -> last_or p s = Some c -> s <> [] ->
  is_line_terminator c = false.
Proof.
  intros Hs Hl Hne. unfold last_or in Hl.
  destruct (last s) as [d|] eqn:E.
  - injection Hl as <-. apply last_Some in E as [s' ->].
    rewrite forallb_app in Hs. apply andb_true_iff in Hs as [_ Hd].
    cbn [forallb] in Hd. rewrite andb_true_r in Hd.
    unfold is_dot in Hd. apply negb_true_iff in Hd. exact Hd.
  - apply last_None in E. contradiction.
Qed.

Lemma replace_all_line_whole r f s cs :
  s <> [] -> forallb is_dot s = true ->
  exec true (Seq Bol r) None s = Some (RMatch s cs []) ->
  replace_all true (Seq Bol r) f s = f (RMatch s cs []).
Proof.
  intros Hne Hs E. unfold replace_all.
  pose proof (replace_go_match true (Seq Bol r) f None s [] cs Hne) as H.
  rewrite app_nil_r in H. rewrite (H E).
  destruct (last_or None s) as [c|] eqn:El.
  - cbn [replace_go]. rewrite exec_bol_mid; [apply app_nil_r|].
    eapply last_or_dot; eassumption.
  - exfalso. unfold last_or in El. destruct (last s) eqn:E'; [discriminate|].
    apply last_None in E'. contradiction.
Qed.

Lemma exec_whole ml r p s y :
  matcher ml r Some (MState p s []) = Some y -> rest y = [] ->
  exec ml r p s = Some (RMatch s (caps y) []).
Proof.
  intros E Hy. pose proof (exec_rest ml r p s [] y) as H.
  rewrite app_nil_r in H. apply H; assumption.
Qed.

Lemma matcher_times_run ml c n : forall (k : cont) p s cs,
  matcher ml (Times n (Chr c)) k (MState p (repeat c n ++ s) cs)
  = k (MState (last_or p (repeat c n)) s cs).
Proof.
  induction n as [|n IH]; intros k p s cs; [reflexivity|].
  cbn [Times repeat app]. rewrite matcher_Seq. unfold Chr at 1.
  rewrite matcher_Cls_cons, N.eqb_refl, IH, last_or_cons. reflexivity.
Qed.

Lemma matcher_times_short ml c n : forall m (k : cont) p d s cs,
  (m < n)%nat -> (c =? d) = false ->
  matcher ml (Times n (Chr c)) k (MState p (repeat c m ++ d :: s) cs) = None.
Proof.
  induction n as [|n IH]; intros m k p d s cs Hm Hd; [lia|].
  cbn [Times]. rewrite matcher_Seq. unfold Chr at 1. destruct m as [|m].
  - cbn [repeat app]. rewrite matcher_Cls_cons, Hd. reflexivity.
  - cbn [repeat app]. rewrite matcher_Cls_cons, N.eqb_refl. apply IH; [lia | exact Hd].
Qed.

Lemma first_char_chr ml c : first_char ml (Chr c) c.
Proof.
  intros k pr s cs Hs. destruct s as [|d s]; [reflexivity|].
  unfold Chr. rewrite matcher_Cls_cons.
  destruct (N.eqb_spec c d) as [->|]; [exfalso; apply Hs; reflexivity | reflexivity].
Qed.

Lemma test_block_tag_other s :
  match s with c :: _ => (60 =? c) = false | [] => True end ->
  test false BLOCK_TAG_REGEX s = false.
Proof.
  intros H. unfold test, BLOCK_TAG_REGEX. cbn [Cat]. rewrite search_bol.
  unfold exec. destruct s as [|c s]; mstep; [reflexivity|].
  cbv beta. rewrite H. reflexivity.
Qed.

(** ** Text in which no line begins with markup *)

Lemma replace_go_no_start r f (q : char -> bool) :
  (forall p c s, q c = false -> exec true (Seq Bol r) p (c :: s) = None) ->
  (forall p, exec true (Seq Bol r) p [] = None) ->
  forall s p,
    no_line_starts q (at_start p) s = true ->
    replace_go true (Seq Bol r) f 0 p s = s.
Proof.
  intros Hq Hnil. induction s as [|c s IH]; intros p H.
  - cbn [replace_go]. rewrite Hnil. reflexivity.
  - cbn [no_line_starts] in H. apply andb_true_iff in H as [Hc Hs].
    rewrite replace_go_nomatch.
    + rewrite (IH (Some c) Hs). reflexivity.
    + destruct (at_start p) eqn:Ep.
      * cbn [andb] in Hc. apply negb_true_iff in Hc. apply Hq, Hc.
      * destruct p as [c'|]; [|discriminate]. apply exec_bol_mid, Ep.
Qed.

Lemma no_line_starts_weaken (q q' : char -> bool) s : forall b,
  (forall c, q' c = true -> q c = true) ->
  no_line_starts q b s = true -> no_line_starts q' b s = true.
Proof.
  induction s as [|c s IH]; intros b Hq H; [reflexivity|].
  cbn [no_line_starts] in *. apply andb_true_iff in H as [Hc Hs].
  rewrite (IH _ Hq Hs), andb_true_r.
  destruct b; [|reflexivity]. cbn [andb] in *.
  destruct (q' c) eqn:E; [|reflexivity]. rewrite (Hq c E) in Hc. discriminate.
Qed.

Lemma exec_first_char ml r c p s :
  first_char ml r c -> head s <> Some c -> exec ml r p s = None.
Proof. intros Hr Hs. unfold exec. rewrite Hr by exact Hs. reflexivity. Qed.

Lemma heading_pass_no_start n f s :
  no_line_starts starts_markup true s = true ->
  replace_all true (HEADING_REGEX (S n)) f s = s.
Proof.
  intros H. unfold replace_all.
  apply (replace_go_no_start _ f (fun c : char => c =? 35)).
  - intros p c s' Hc. apply (exec_first_char _ _ 35); [apply first_char_heading|].
    cbn. intros [= ->]. discriminate.
  - intros p. apply (exec_first_char _ _ 35); [apply first_char_heading|]. discriminate.
  - eapply no_line_starts_weaken; [|exact H].
    intros c Hc. unfold starts_markup. cbv beta in Hc. rewrite Hc. reflexivity.
Qed.

Lemma heading_passes_no_start s :
  no_line_starts starts_markup true s = true -> heading_passes s = s.
Proof.
  intros H. unfold heading_passes.
  rewrite (heading_pass_no_start 3 _ s H), (heading_pass_no_start 2 _ s H),
    (heading_pass_no_start 1 _ s H). apply (heading_pass_no_start 0 _ s H).
Qed.

Lemma list_pass_no_start f s :
  no_line_starts starts_markup true s = true ->
  replace_all true LIST_ITEM_REGEX f s = s.
Proof.
  intros H. unfold replace_all.
  apply (replace_go_no_start _ f (fun c : char => (c =? 45) || (c =? 42))).
  - intros p c s' Hc. apply exec_list_item_other. rewrite Hc. reflexivity.
  - apply exec_list_item_nil.
  - eapply no_line_starts_weaken; [|exact H].
    intros c Hc. unfold starts_markup. cbv beta in Hc.
    apply orb_true_iff in Hc as [Hc | Hc]; rewrite Hc;
      [rewrite orb_true_r; reflexivity | apply orb_true_r].
Qed.

Lemma rule_pass_no_start f s :
  no_line_starts starts_markup true s = true ->
  replace_all true RULE_REGEX f s = s.
Proof.
  intros H. unfold replace_all.
  apply (replace_go_no_start _ f (fun c : char => c =? 45)).
  - intros p c s' Hc. apply (exec_first_char _ _ 45); [apply first_char_rule|].
    cbn. intros [= ->]. discriminate.
  - intros p. apply (exec_first_char _ _ 45); [apply first_char_rule|]. discriminate.
  - eapply no_line_starts_weaken; [|exact H].
    intros c Hc. unfold starts_markup. cbv beta in Hc. rewrite Hc.
    rewrite orb_true_r. reflexivity.
Qed.

Lemma line_passes_no_start s :
  no_line_starts starts_markup true s = true -> line_passes s = s.
Proof.
  intros H. unfold line_passes.
  rewrite (list_pass_no_start _ s H). apply (rule_pass_no_start _ s H).
Qed.

(** ** Stages that find nothing to replace *)

Lemma inline_passes_stages md :
  inline_passes md
  = link_pass (line_passes (emphasis_passes (heading_passes (code_passes md)))).
Proof. reflexivity. Qed.

Lemma code_passes_absent s :
  forallb (fun d => negb (d =? 96)) s = true -> code_passes s = s.
Proof.
  intros H. unfold code_passes.
  rewrite (replace_all_absent _ _ _ 96 _ first_char_code_block H).
  apply (replace_all_absent _ _ _ 96 _ first_char_inline_code H).
Qed.

Lemma emphasis_passes_absent s :
  forallb (fun d => negb (d =? 42)) s = true -> emphasis_passes s = s.
Proof.
  intros H. unfold emphasis_passes.
  rewrite (replace_all_absent _ _ _ 42 _ (first_char_emphasis 2) H).
  rewrite (replace_all_absent _ _ _ 42 _ (first_char_emphasis 1) H).
  apply (replace_all_absent _ _ _ 42 _ (first_char_emphasis 0) H).
Qed.

Lemma link_pass_absent s :
  forallb (fun d => negb (d =? 91)) s = true -> link_pass s = s.
Proof. apply (replace_all_absent _ _ _ 91 _ first_char_link). Qed.

Lemma wrap_lists_no_angle s :
  forallb (fun d : char => negb (d =? 60)) s = true -> wrap_lists s = s.
Proof. intros H. apply wrap_lists_no_li, (occurs_no_head _ 60); [reflexivity | exact H]. Qed.

Lemma inline_passes_text s :
  forallb (fun c : char => negb ((c =? 96) || (c =? 42) || (c =? 91))) s = true ->
  no_line_starts starts_markup true s = true ->
  inline_passes s = s.
Proof.
  intros Hs Hl. rewrite inline_passes_stages.
  assert (Hno : forall d, ((d =? 96) || (d =? 42) || (d =? 91)) = true ->
                          forallb (fun c => negb (c =? d)) s = true).
  { intros d Hd. eapply forallb_weaken; [|exact Hs]. intros c Hc. cbv beta in Hc.
    apply negb_true_iff in Hc. apply negb_true_iff.
    destruct (N.eqb_spec c d) as [->|]; [congruence | reflexivity]. }
  rewrite code_passes_absent by (apply Hno; reflexivity).
  rewrite heading_passes_no_start by exact Hl.
  rewrite emphasis_passes_absent by (apply Hno; reflexivity).
  rewrite line_passes_no_start by exact Hl.
  apply link_pass_absent, Hno. reflexivity.
Qed.

(** ** The last two passes on one line *)

Lemma finish_line h :
  h <> [] ->
  forallb (fun d => negb (d =? LF)) h = true ->
  occurs (U "<li>") h = false ->
  starts_space h = false -> ends_space h = false ->
  wrap_paragraphs (wrap_lists h)
  = if test false BLOCK_TAG_REGEX h then h else U "<p>" ++ h ++ U "</p>".
Proof.
  intros Hne Hlf Hli Hs He. rewrite (wrap_lists_no_li h Hli).
  unfold wrap_paragraphs. rewrite split_re_none; [|exact Hne|].
  2:{ apply (occurs_no_head _ LF); [reflexivity | exact Hlf]. }
  cbn [map join]. unfold paragraph. rewrite (trim_id h Hs He).
  destruct h as [|c h]; [contradiction|].
  rewrite (replace_all_absent _ _ _ LF _ (first_char_chr false LF) Hlf).
  reflexivity.
Qed.

(** ** Lines and paragraphs of text *)

Lemma text_char_spec c :
  text_char c = true ->
  is_dot c = true /\ (c =? 96) = false /\ (c =? 42) = false /\ (c =? 91) = false
  /\ (c =? 60) = false /\ (LF =? c) = false.
Proof.
  unfold text_char. intros H. apply andb_true_iff in H as [Hd H].
  apply negb_true_iff in H. repeat (apply orb_false_iff in H as [H ?]).
  repeat split; try assumption.
  unfold is_dot, is_line_terminator, LF in *. apply negb_true_iff in Hd.
  repeat (apply orb_false_iff in Hd as [Hd ?]). rewrite N.eqb_sym. exact Hd.
Qed.

Lemma line_start_spec c :
  line_start c = true ->
  is_space c = false /\ (c =? 35) = false /\ (c =? 45) = false.
Proof.
  unfold line_start. intros H. apply andb_true_iff in H as [Hs H].
  apply negb_true_iff in Hs, H. apply orb_false_iff in H as [H1 H2]. auto.
Qed.

Lemma text_line_spec l :
  text_line l = true ->
  exists c t, l = c :: t /\ forallb text_char l = true /\ line_start c = true
              /\ ends_space l = false.
Proof.
  unfold text_line. destruct l as [|c t]; [discriminate|]. intros H.
  apply andb_true_iff in H as [H He]. apply andb_true_iff in H as [Hp Hs].
  apply negb_true_iff in He. eauto 6.
Qed.

Lemma text_no (d : char) t :
  (d = 96 \/ d = 42 \/ d = 91 \/ d = 60 \/ d = LF) ->
  forallb text_char t = true ->
  forallb (fun c => negb (c =? d)) t = true.
Proof.
  intros Hd. apply forallb_weaken. intros c Hc.
  apply text_char_spec in Hc as (_ & H96 & H42 & H91 & H60 & Hlf).
  destruct Hd as [-> | [-> | [-> | [-> | ->]]]];
    rewrite ?H96, ?H42, ?H91, ?H60; try reflexivity.
  rewrite N.eqb_sym, Hlf. reflexivity.
Qed.

Lemma text_is_dot t : forallb text_char t = true -> forallb is_dot t = true.
Proof.
  apply forallb_weaken. intros c Hc. apply text_char_spec in Hc as (Hd & _). exact Hd.
Qed.

Lemma text_lines_chars (q : char -> bool) ls :
  (forall c, text_char c = true -> q c = true) ->
  forallb text_line ls = true ->
  Forall (fun l => forallb q l = true) ls.
Proof.
  intros Hq H. apply List.Forall_forall. intros l Hl.
  rewrite forallb_forall in H. specialize (H l Hl).
  apply text_line_spec in H as (c & t & _ & Hp & _).
  eapply forallb_weaken; [exact Hq | exact Hp].
Qed.

Lemma join_head l ls :
  text_line l = true ->
  exists c t, join [LF] (l :: ls) = c :: t /\ line_start c = true
              /\ text_char c = true.
Proof.
  intros H. apply text_line_spec in H as (c & t & -> & Hp & Hs & _).
  cbn [forallb] in Hp. apply andb_true_iff in Hp as [Hc _].
  destruct ls as [|l' ls]; [cbn [join] | rewrite join_cons2; cbn [app]]; eauto.
Qed.

Lemma join_last l ls :
  forallb text_line (l :: ls) = true ->
  ends_space (join [LF] (l :: ls)) = false.
Proof.
  revert l. induction ls as [|l' ls IH]; intros l H; cbn [forallb] in H;
    apply andb_true_iff in H as [Hl Hls].
  - apply text_line_spec in Hl as (c & t & _ & _ & _ & He). exact He.
  - rewrite join_cons2. specialize (IH l' Hls). unfold ends_space in *.
    cbn [forallb] in Hls. apply andb_true_iff in Hls as [Hl' _].
    destruct (join_head l' ls Hl') as (c & t & E & _).
    cbn [app]. rewrite last_app_cons, E in *. exact IH.
Qed.

Lemma join_no_blank l ls :
  forallb text_line (l :: ls) = true ->
  occurs [LF; LF] (join [LF] (l :: ls)) = false.
Proof.
  revert l. induction ls as [|l' ls IH]; intros l H; cbn [forallb] in H;
    apply andb_true_iff in H as [Hl Hls];
    apply text_line_spec in Hl as (c0 & t0 & _ & Hp & _).
  - cbn [join]. rewrite <- (app_nil_r l). rewrite occurs_blank_skip; [reflexivity|].
    apply text_no; auto 6.
  - rewrite join_cons2, occurs_blank_skip; [|apply text_no; auto 6].
    specialize (IH l' Hls). cbn [forallb] in Hls.
    apply andb_true_iff in Hls as [Hl' _].
    destruct (join_head l' ls Hl') as (c & t & E & _ & Hc).
    apply text_char_spec in Hc as (_ & _ & _ & _ & _ & Hlf).
    rewrite E in *. cbn [app occurs starts_with] in *.
    rewrite Hlf in IH |- *. cbn [andb orb] in IH |- *.
    rewrite andb_false_r. exact IH.
Qed.

Set Keyed Unification.

Lemma lines_to_blanks l ls :
  forallb text_line (l :: ls) = true ->
  replace_all false (Chr LF) (fun _ => U " ") (join [LF] (l :: ls))
  = join (U " ") (l :: ls).
Proof.
  unfold replace_all. rewrite replace_chr.
  assert (Hline : forall l, text_line l = true ->
            flat_map (fun x => if LF =? x then U " " else [x]) l = l).
  { intros l0 H. apply text_line_spec in H as (c0 & t0 & _ & Hp & _). clear c0 t0.
    induction l0 as [|c l0 IH]; [reflexivity|]. cbn [forallb] in Hp.
    apply andb_true_iff in Hp as [Hc Hp]. cbn [flat_map]. rewrite (IH Hp).
    apply text_char_spec in Hc as (_ & _ & _ & _ & _ & ->). reflexivity. }
  revert l. induction ls as [|l' ls IH]; intros l H; cbn [forallb] in H;
    apply andb_true_iff in H as [Hl Hls].
  - cbn [join]. apply Hline, Hl.
  - rewrite !join_cons2, flat_map_app, (Hline l Hl). cbn [app flat_map].
    rewrite N.eqb_refl, (IH l' Hls). reflexivity.
Qed.

Unset Keyed Unification.

Lemma paragraph_text ls :
  text_paragraph ls = true -> paragraph (join [LF] ls) = p_element ls.
Proof.
  unfold text_paragraph. destruct ls as [|l ls]; [discriminate|]. intros H.
  pose proof H as H0. cbn [forallb] in H0. apply andb_true_iff in H0 as [Hl _].
  destruct (join_head l ls Hl) as (c & t & E & Hs & Hc).
  apply line_start_spec in Hs as (Hsp & _).
  apply text_char_spec in Hc as (_ & _ & _ & _ & H60 & _).
  unfold paragraph, p_element.
  rewrite trim_id; [| rewrite E; exact Hsp | apply join_last, H].
  rewrite test_block_tag_other by (rewrite E, N.eqb_sym; exact H60).
  rewrite (lines_to_blanks l ls H), E. reflexivity.
Qed.

Lemma no_line_starts_mid q l s :
  forallb is_dot l = true ->
  no_line_starts q false (l ++ s) = no_line_starts q false s.
Proof.
  induction l as [|c l IH]; [reflexivity|]. cbn [forallb app no_line_starts].
  intros H. apply andb_true_iff in H as [Hc Hl].
  unfold is_dot in Hc. apply negb_true_iff in Hc. rewrite Hc. apply IH, Hl.
Qed.

Lemma no_line_starts_line b l s :
  text_line l = true ->
  no_line_starts starts_markup b (l ++ s) = no_line_starts starts_markup false s.
Proof.
  intros H. apply text_line_spec in H as (c & t & -> & Hp & Hs & _).
  cbn [forallb] in Hp. apply andb_true_iff in Hp as [Hc Hp].
  apply line_start_spec in Hs as (_ & H35 & H45).
  pose proof (text_char_spec c Hc) as (Hd & _ & H42 & _).
  cbn [app no_line_starts]. unfold starts_markup at 1. rewrite H35, H45, H42.
  rewrite andb_false_r. cbn [negb andb].
  unfold is_dot in Hd. apply negb_true_iff in Hd. rewrite Hd.
  apply no_line_starts_mid, text_is_dot, Hp.
Qed.

Lemma no_line_starts_lines l ls s :
  forallb text_line (l :: ls) = true ->
  no_line_starts starts_markup true (join [LF] (l :: ls) ++ s)
  = no_line_starts starts_markup false s.
Proof.
  revert l. induction ls as [|l' ls IH]; intros l H; cbn [forallb] in H;
    apply andb_true_iff in H as [Hl Hls].
  - cbn [join]. apply no_line_starts_line, Hl.
  - rewrite join_cons2, <- !app_assoc, (no_line_starts_line _ l _ Hl).
    cbn [app no_line_starts]. apply (IH l' Hls).
Qed.

Lemma text_paragraph_chars (q : char -> bool) ls :
  (forall c, text_char c = true -> q c = true) -> q LF = true ->
  text_paragraph ls = true -> forallb q (join [LF] ls) = true.
Proof.
  intros Hq Hlf H. unfold text_paragraph in H. destruct ls as [|l ls]; [discriminate|].
  apply forallb_join; [cbn [forallb]; rewrite Hlf; reflexivity|].
  apply text_lines_chars; assumption.
Qed.

Lemma text_paragraph_block ls :
  text_paragraph ls = true ->
  occurs [LF; LF] (join [LF] ls) = false
  /\ last (join [LF] ls) <> Some LF
  /\ match join [LF] ls with [] => False | c :: _ => (LF =? c) = false end.
Proof.
  unfold text_paragraph. destruct ls as [|l ls]; [discriminate|]. intros H.
  split; [apply join_no_blank, H|]. split.
  - pose proof (join_last l ls H) as He. unfold ends_space in He.
    intros E. rewrite E in He. discriminate.
  - cbn [forallb] in H. apply andb_true_iff in H as [Hl _].
    destruct (join_head l ls Hl) as (c & t & -> & _ & Hc).
    apply text_char_spec in Hc as (_ & _ & _ & _ & _ & Hlf). exact Hlf.
Qed.

(** ** Headings *)

Lemma replace_go_bol_mid r f s : forall p,
  is_line_terminator p = false -> forallb is_dot s = true ->
  replace_go true (Seq Bol r) f 0 (Some p) s = s.
Proof.
  induction s as [|c s IH]; intros p Hp Hs.
  - cbn [replace_go]. rewrite exec_bol_mid by exact Hp. reflexivity.
  - cbn [forallb] in Hs. apply andb_true_iff in Hs as [Hc Hs].
    rewrite replace_go_nomatch by (apply exec_bol_mid, Hp).
    rewrite IH; [reflexivity | | exact Hs].
    unfold is_dot in Hc. apply negb_true_iff in Hc. exact Hc.
Qed.

Lemma replace_all_line_none r f s :
  forallb is_dot s = true ->
  exec true (Seq Bol r) None s = None ->
  replace_all true (Seq Bol r) f s = s.
Proof.
  intros Hs E. unfold replace_all. destruct s as [|c s].
  - cbn [replace_go]. rewrite E. reflexivity.
  - rewrite replace_go_nomatch by exact E.
    cbn [forallb] in Hs. apply andb_true_iff in Hs as [Hc Hs].
    rewrite replace_go_bol_mid; [reflexivity | | exact Hs].
    unfold is_dot in Hc. apply negb_true_iff in Hc. exact Hc.
Qed.

Lemma heading_text_spec t :
  heading_text t = true ->
  exists c t', t = c :: t' /\ is_space c = false /\ forallb text_char t = true.
Proof.
  unfold heading_text. destruct t as [|c t']; [discriminate|]. intros H.
  apply andb_true_iff in H as [Hp Hs]. apply negb_true_iff in Hs. eauto.
Qed.

Lemma exec_heading_more k n t :
  (k < n)%nat -> exec true (HEADING_REGEX k) None (heading_line n t) = None.
Proof.
  intros H. unfold exec, HEADING_REGEX, heading_line. cbn [Cat].
  replace n with (k + S (n - k - 1))%nat by lia.
  rewrite repeat_app, <- app_assoc.
  rewrite matcher_Seq, matcher_Bol. cbn [at_bol prev]. rewrite matcher_Seq.
  rewrite matcher_times_run. cbn [repeat app]. unfold Plus. mstep. reflexivity.
Qed.

Lemma heading_pass_none k f s :
  forallb is_dot s = true ->
  exec true (HEADING_REGEX k) None s = None ->
  replace_all true (HEADING_REGEX k) f s = s.
Proof. exact (replace_all_line_none _ f s). Qed.

Lemma heading_line_chars (q : char -> bool) n t :
  q 35 = true -> q 32 = true -> forallb q t = true ->
  forallb q (heading_line n t) = true.
Proof.
  intros H35 H32 Ht. unfold heading_line. rewrite forallb_app.
  apply andb_true_iff. split.
  - induction n as [|n IH]; [reflexivity|]. cbn [repeat forallb]. rewrite H35. exact IH.
  - cbn [forallb]. rewrite H32. exact Ht.
Qed.

Lemma h_element_chars (q : char -> bool) n t :
  forallb q (U "<h" ++ [48 + N.of_nat n] ++ U ">"
             ++ U "</h" ++ [48 + N.of_nat n] ++ U ">") = true ->
  forallb q t = true ->
  forallb q (h_element n t) = true.
Proof.
  unfold h_element. rewrite !forallb_app, !andb_true_iff. tauto.
Qed.

Lemma heading_line_nonempty n t : heading_line n t <> [].
Proof. unfold heading_line. destruct n; discriminate. Qed.

Lemma no_line_starts_one q c s :
  q c = false -> forallb is_dot (c :: s) = true ->
  no_line_starts q true (c :: s) = true.
Proof.
  intros Hq Hs. cbn [forallb] in Hs. apply andb_true_iff in Hs as [Hc Hs].
  cbn [no_line_starts]. rewrite Hq. cbn [andb negb].
  unfold is_dot in Hc. apply negb_true_iff in Hc. rewrite Hc.
  rewrite <- (app_nil_r s), no_line_starts_mid by exact Hs. reflexivity.
Qed.

Lemma h_element_dot n t :
  (n <= 9)%nat -> forallb text_char t = true -> forallb is_dot (h_element n t) = true.
Proof.
  intros Hn Ht. apply h_element_chars; [|apply text_is_dot, Ht].
  do 10 (destruct n as [|n]; [reflexivity|]). lia.
Qed.

Lemma h_element_no_start n t :
  (n <= 9)%nat -> forallb text_char t = true ->
  no_line_starts starts_markup true (h_element n t) = true.
Proof.
  intros Hn Ht. apply (no_line_starts_one starts_markup 60 _ eq_refl).
  apply (h_element_dot n t Hn Ht).
Qed.

Lemma heading_passes_deep n t :
  (4 < n)%nat -> forallb text_char t = true ->
  heading_passes (heading_line n t) = heading_line n t.
Proof.
  intros Hn Hp. unfold heading_passes.
  assert (Hdot : forallb is_dot (heading_line n t) = true).
  { apply heading_line_chars; [reflexivity | reflexivity | apply text_is_dot, Hp]. }
  rewrite (heading_pass_none 4), (heading_pass_none 3), (heading_pass_none 2),
    (heading_pass_none 1);
    try exact Hdot; try (apply exec_heading_more; lia). reflexivity.
Qed.

Lemma line_passes_line c s :
  forallb is_dot (c :: s) = true ->
  negb ((c =? 45) || (c =? 42)) = true ->
  line_passes (c :: s) = c :: s.
Proof.
  intros Hdot Hc. unfold line_passes.
  assert (E1 : replace_all true LIST_ITEM_REGEX (tagged "li") (c :: s) = c :: s).
  { apply (replace_all_line_none _ _ _ Hdot). apply exec_list_item_other, Hc. }
  rewrite E1. apply (replace_all_line_none _ _ _ Hdot).
  apply (exec_first_char _ _ 45); [apply first_char_rule|].
  cbn. intros [= ->]. discriminate.
Qed.

Lemma markdownToHtml_deep_heading n t :
  (4 < n)%nat -> heading_text t = true -> ends_space t = false ->
  markdownToHtml (heading_line n t) = U "<p>" ++ heading_line n t ++ U "</p>".
Proof.
  intros Hn Ht He. apply heading_text_spec in Ht as (c & t' & -> & _ & Hp).
  assert (Hch : forall d, d <> 35 -> d <> 32 ->
            (d = 96 \/ d = 42 \/ d = 91 \/ d = 60 \/ d = LF) ->
            forallb (fun c => negb (c =? d)) (heading_line n (c :: t')) = true).
  { intros d H35 H32 Hd. apply heading_line_chars.
    - apply negb_true_iff, N.eqb_neq. congruence.
    - apply negb_true_iff, N.eqb_neq. congruence.
    - apply text_no; assumption. }
  assert (Hdot : forallb is_dot (heading_line n (c :: t')) = true).
  { apply heading_line_chars; [reflexivity | reflexivity | apply text_is_dot, Hp]. }
  unfold markdownToHtml. rewrite inline_passes_stages.
  rewrite code_passes_absent by (apply Hch; [discriminate | discriminate | auto]).
  rewrite (heading_passes_deep n _ Hn Hp).
  rewrite emphasis_passes_absent by (apply Hch; [discriminate | discriminate | auto]).
  assert (El : line_passes (heading_line n (c :: t')) = heading_line n (c :: t')).
  { revert Hdot. unfold heading_line. destruct n; [lia|]. cbn [repeat app].
    intros Hdot. apply line_passes_line; [exact Hdot | reflexivity]. }
  rewrite El.
  rewrite link_pass_absent by (apply Hch; [discriminate | discriminate | auto]).
  rewrite finish_line.
  - rewrite test_block_tag_other; [reflexivity|].
    unfold heading_line. destruct n; [lia | reflexivity].
  - apply heading_line_nonempty.
  - apply Hch; [discriminate | discriminate | auto 6].
  - apply (occurs_no_head _ 60); [reflexivity|].
    apply Hch; [discriminate | discriminate | auto 6].
  - unfold heading_line. destruct n; [lia | reflexivity].
  - unfold heading_line.
    change (repeat 35 n ++ 32 :: c :: t') with (repeat 35 n ++ [32] ++ c :: t').
    rewrite app_assoc, ends_space_cons_app. exact He.
Qed.

Set Keyed Unification.

(** ** One construct in a line of text *)

Lemma replace_go_prefix_absent ml r f c w : forall p s,
  first_char ml r c ->
  forallb (fun d => negb (d =? c)) w = true ->
  replace_go ml r f 0 p (w ++ s) = w ++ replace_go ml r f 0 (last_or p w) s.
Proof.
  induction w as [|d w IH]; intros p s Hr Hw; [reflexivity|].
  cbn [forallb] in Hw. apply andb_true_iff in Hw as [Hd Hw]. cbn [app].
  rewrite replace_go_nomatch.
  - rewrite (IH (Some d) s Hr Hw), last_or_cons. reflexivity.
  - apply (exec_first_char _ _ c); [exact Hr|]. cbn. intros [= ->].
    rewrite N.eqb_refl in Hd. discriminate.
Qed.

Lemma replace_all_one ml r f c pre w cs post :
  first_char ml r c ->
  forallb (fun d => negb (d =? c)) pre = true ->
  forallb (fun d => negb (d =? c)) post = true ->
  w <> [] ->
  (forall p, exec ml r p (w ++ post) = Some (RMatch w cs post)) ->
  replace_all ml r f (pre ++ w ++ post) = pre ++ f (RMatch w cs post) ++ post.
Proof.
  intros Hr Hpre Hpost Hw He. unfold replace_all.
  rewrite (replace_go_prefix_absent _ _ _ c pre _ _ Hr Hpre).
  rewrite (replace_go_match _ _ _ _ w post cs Hw (He _)).
  rewrite (replace_absent _ _ _ c _ post Hr Hpost). reflexivity.
Qed.

Lemma test_block_tag_inline x s :
  negb ((x =? 104) || (x =? 117) || (x =? 111) || (x =? 108) || (x =? 112)
        || (x =? 98)) = true ->
  test false BLOCK_TAG_REGEX (60 :: x :: s) = false.
Proof.
  intros Hx. apply negb_true_iff in Hx.
  repeat (apply orb_false_iff in Hx as [Hx ?]).
  unfold test, BLOCK_TAG_REGEX. cbn [Cat]. rewrite search_bol. unfold exec.
  eval_lits. mstep.
  repeat (rewrite matcher_Alt; mstep; cbv beta;
          rewrite ?(N.eqb_sym 104 x), ?(N.eqb_sym 117 x), ?(N.eqb_sym 111 x),
            ?(N.eqb_sym 108 x), ?(N.eqb_sym 112 x), ?(N.eqb_sym 98 x)).
  repeat match goal with
    | H : (x =? _) = false |- _ => rewrite H
    end.
  reflexivity.
Qed.

Lemma text_before_spec pre :
  text_before pre = true ->
  forallb text_char pre = true
  /\ match pre with [] => True | c :: _ => line_start c = true end.
Proof.
  unfold text_before. intros H. apply andb_true_iff in H as [Hp Hs].
  split; [exact Hp|]. destruct pre; [exact I | exact Hs].
Qed.

Lemma text_after_spec post :
  text_after post = true ->
  forallb text_char post = true /\ ends_space post = false.
Proof.
  unfold text_after. intros H. apply andb_true_iff in H as [Hp Hs].
  apply negb_true_iff in Hs. auto.
Qed.

Lemma finish_inline pre x e post :
  text_before pre = true -> text_after post = true ->
  negb ((x =? 104) || (x =? 117) || (x =? 111) || (x =? 108) || (x =? 112)
        || (x =? 98)) = true ->
  ends_space (60 :: x :: e) = false ->
  forallb (fun d => negb (d =? LF)) (60 :: x :: e) = true ->
  occurs (U "<li>") (60 :: x :: e ++ post) = false ->
  wrap_paragraphs (wrap_lists (pre ++ 60 :: x :: e ++ post))
  = U "<p>" ++ pre ++ 60 :: x :: e ++ post ++ U "</p>".
Proof.
  intros Hpre Hpost Hx He Hlf Hli.
  apply text_before_spec in Hpre as [Hpre Hs].
  apply text_after_spec in Hpost as [Hpost Hes].
  rewrite finish_line.
  - assert (E : test false BLOCK_TAG_REGEX (pre ++ 60 :: x :: e ++ post) = false).
    { destruct pre as [|c pre]; [apply test_block_tag_inline, Hx|].
      apply test_block_tag_other. cbn [app forallb] in *.
      apply andb_true_iff in Hpre as [Hc _].
      apply text_char_spec in Hc as (_ & _ & _ & _ & H60 & _).
      rewrite N.eqb_sym. exact H60. }
    rewrite E. rewrite <- app_assoc. cbn [app]. rewrite <- app_assoc. reflexivity.
  - destruct pre; discriminate.
  - rewrite forallb_app. apply andb_true_iff. split; [apply text_no; auto 6|].
    change (60 :: x :: e ++ post) with ((60 :: x :: e) ++ post).
    rewrite forallb_app. apply andb_true_iff. split; [exact Hlf|].
    apply text_no; auto 6.
  - rewrite (occurs_skip _ 60 pre); [exact Hli | reflexivity | apply text_no; auto 6].
  - destruct pre as [|c pre]; [reflexivity|]. cbn [app starts_space].
    apply line_start_spec in Hs as (Hs & _). exact Hs.
  - destruct post as [|c post].
    + rewrite app_nil_r, ends_space_cons_app. exact He.
    + change (pre ++ 60 :: x :: e ++ c :: post)
        with (pre ++ (60 :: x :: e) ++ c :: post).
      rewrite app_assoc, ends_space_cons_app. exact Hes.
Qed.

Lemma heading_passes_line c s :
  forallb is_dot (c :: s) = true -> (c =? 35) = false ->
  heading_passes (c :: s) = c :: s.
Proof.
  intros Hdot Hc. unfold heading_passes.
  assert (E : forall n f, replace_all true (HEADING_REGEX (S n)) f (c :: s) = c :: s).
  { intros n f. apply (heading_pass_none _ _ _ Hdot).
    apply (exec_first_char _ _ 35); [apply first_char_heading|].
    cbn. intros [= ->]. discriminate. }
  rewrite !E. reflexivity.
Qed.

(** ** Emphasis *)

Lemma matcher_times_short_nil ml c n : forall m (k : cont) p cs,
  (m < n)%nat ->
  matcher ml (Times n (Chr c)) k (MState p (repeat c m) cs) = None.
Proof.
  induction n as [|n IH]; intros m k p cs Hm; [lia|].
  cbn [Times]. rewrite matcher_Seq. unfold Chr at 1. destruct m as [|m].
  - cbn [repeat]. apply matcher_Cls_nil.
  - cbn [repeat]. rewrite matcher_Cls_cons, N.eqb_refl. apply IH. lia.
Qed.

Lemma span_text_spec t :
  span_text t = true -> exists c t', t = c :: t' /\ forallb text_char t = true.
Proof. unfold span_text. destruct t as [|c t']; [discriminate|]. eauto. Qed.

Lemma exec_emphasis_short k m s p :
  (m < k)%nat ->
  match s with [] => True | d :: _ => (42 =? d) = false end ->
  exec false (EMPHASIS_REGEX k) p (stars m ++ s) = None.
Proof.
  intros Hm Hs. unfold exec, EMPHASIS_REGEX, stars. cbn [Cat]. rewrite matcher_Seq.
  destruct s as [|d s].
  - rewrite app_nil_r, matcher_times_short_nil by exact Hm. reflexivity.
  - rewrite matcher_times_short by assumption. reflexivity.
Qed.

Lemma exec_emphasis_match n t post p :
  (1 <= n)%nat -> span_text t = true ->
  exec false (EMPHASIS_REGEX n) p ((stars n ++ t ++ stars n) ++ post)
  = Some (RMatch (stars n ++ t ++ stars n) [(1%nat, t)] post).
Proof.
  intros Hn Ht. apply span_text_spec in Ht as (c & t' & -> & Hp).
  pose proof (text_is_dot _ Hp) as Hdot. cbn [forallb] in Hp, Hdot.
  apply andb_true_iff in Hp as [Hc Hp]. apply andb_true_iff in Hdot as [Hcd Hdot].
  assert (E : exists pr,
    matcher false (EMPHASIS_REGEX n) Some
      (MState p ((stars n ++ (c :: t') ++ stars n) ++ post) [])
    = Some (MState pr post [(1%nat, c :: t')])).
  { eexists. unfold EMPHASIS_REGEX, stars. cbn [Cat].
    rewrite <- !app_assoc. rewrite matcher_Seq, matcher_times_run.
    rewrite matcher_Seq, matcher_Grp. unfold Plus. rewrite matcher_Seq.
    cbn [app]. rewrite matcher_Cls_cons, Hcd, matcher_star_lazy.
    rewrite lazy_run_first; [|exact Hdot|].
    - apply lazy_run_now. unfold capture. cbn [rest prev caps].
      change (c :: t' ++ repeat 42 n ++ post) with ((c :: t') ++ repeat 42 n ++ post).
      rewrite take_app_sub, matcher_times_run. reflexivity.
    - intros w1 w2 pr' Hw Hne. destruct w2 as [|d w2]; [contradiction|].
      assert (Hd : (42 =? d) = false).
      { subst t'. rewrite forallb_app in Hp. apply andb_true_iff in Hp as [_ Hp].
        cbn [forallb] in Hp. apply andb_true_iff in Hp as [Hd _].
        apply text_char_spec in Hd as (_ & _ & H42 & _). rewrite N.eqb_sym. exact H42. }
      cbn [app]. apply (matcher_times_short false 42 n 0); [lia | exact Hd]. }
  destruct E as [pr E]. apply (exec_rest _ _ _ _ _ _ E). reflexivity.
Qed.

Lemma replace_go_stars k f m : forall p s,
  (m < k)%nat ->
  match s with [] => True | d :: _ => (42 =? d) = false end ->
  replace_go false (EMPHASIS_REGEX k) f 0 p (stars m ++ s)
  = stars m ++ replace_go false (EMPHASIS_REGEX k) f 0 (last_or p (stars m)) s.
Proof.
  induction m as [|m IH]; intros p s Hm Hs; [reflexivity|].
  pose proof (exec_emphasis_short k (S m) s p Hm Hs) as E.
  unfold stars in *. cbn [repeat app] in *.
  rewrite (replace_go_nomatch _ _ _ _ _ _ E), IH, last_or_cons by (lia || exact Hs).
  reflexivity.
Qed.

Lemma stars_chars (q : char -> bool) n : q 42 = true -> forallb q (stars n) = true.
Proof.
  intros H. unfold stars. induction n as [|n IH]; [reflexivity|].
  cbn [repeat forallb]. rewrite H. exact IH.
Qed.

Lemma text_head_not (d : char) s :
  (d = 96 \/ d = 42 \/ d = 91 \/ d = 60 \/ d = LF) ->
  forallb text_char s = true ->
  match s with [] => True | c :: _ => (d =? c) = false end.
Proof.
  intros Hd Hs. destruct s as [|c s]; [exact I|].
  pose proof (text_no d _ Hd Hs) as H. cbn [forallb] in H.
  apply andb_true_iff in H as [H _]. apply negb_true_iff in H.
  rewrite N.eqb_sym. exact H.
Qed.

Lemma emphasis_pass_over k f n pre t post :
  (n < S k)%nat ->
  forallb text_char pre = true -> span_text t = true ->
  forallb text_char post = true ->
  replace_all false (EMPHASIS_REGEX (S k)) f (pre ++ (stars n ++ t ++ stars n) ++ post)
  = pre ++ (stars n ++ t ++ stars n) ++ post.
Proof.
  intros Hn Hpre Ht Hpost. apply span_text_spec in Ht as (c & t' & -> & Ht).
  unfold replace_all. rewrite <- !app_assoc.
  pose proof (first_char_emphasis k) as Hr.
  rewrite (replace_go_prefix_absent _ _ _ 42 pre _ _ Hr) by (apply text_no; auto).
  rewrite replace_go_stars; [|exact Hn|apply (text_head_not 42 (c :: t')); auto].
  rewrite (replace_go_prefix_absent _ _ _ 42 (c :: t') _ _ Hr) by (apply text_no; auto).
  rewrite replace_go_stars; [|exact Hn|apply (text_head_not 42 post); auto].
  rewrite (replace_absent _ _ _ 42 _ post Hr) by (apply text_no; auto).
  reflexivity.
Qed.

Lemma emphasis_pass_at f n pre t post :
  (1 <= n)%nat ->
  forallb text_char pre = true -> span_text t = true ->
  forallb text_char post = true ->
  replace_all false (EMPHASIS_REGEX n) f (pre ++ (stars n ++ t ++ stars n) ++ post)
  = pre ++ f (RMatch (stars n ++ t ++ stars n) [(1%nat, t)] post) ++ post.
Proof.
  intros Hn Hpre Ht Hpost. destruct n as [|n]; [lia|].
  apply (replace_all_one _ _ _ 42).
  - apply first_char_emphasis.
  - apply text_no; auto.
  - apply text_no; auto.
  - discriminate.
  - intros p. apply exec_emphasis_match; [lia | exact Ht].
Qed.

Lemma em_element_chars (q : char -> bool) n t :
  forallb q (U "<strong><em></em></strong>") = true ->
  forallb q t = true -> forallb q (em_element n t) = true.
Proof.
  intros Hq Ht.
  assert (H : forall a b, forallb q a = true -> forallb q b = true ->
                          forallb q (a ++ t ++ b) = true).
  { intros a b Ha Hb. rewrite !forallb_app, Ha, Ht, Hb. reflexivity. }
  change (U "<strong><em></em></strong>")
    with [60; 115; 116; 114; 111; 110; 103; 62; 60; 101; 109; 62;
          60; 47; 101; 109; 62; 60; 47; 115; 116; 114; 111; 110; 103; 62] in Hq.
  cbn [forallb] in Hq. repeat (apply andb_true_iff in Hq as [? Hq]).
  unfold em_element. destruct n as [|[|[|n]]]; apply H; cbn [U map list_ascii_of_string];
    cbn; repeat (apply andb_true_iff; split); try assumption; reflexivity.
Qed.

Lemma emphasis_passes_line n pre t post :
  (1 <= n <= 3)%nat ->
  forallb text_char pre = true -> span_text t = true ->
  forallb text_char post = true ->
  emphasis_passes (pre ++ (stars n ++ t ++ stars n) ++ post)
  = pre ++ em_element n t ++ post.
Proof.
  intros Hn Hpre Ht Hpost. unfold emphasis_passes.
  pose proof (span_text_spec t Ht) as (c & t' & _ & Htc).
  assert (Hno : forall m, forallb (fun d => negb (d =? 42))
                            (pre ++ em_element m t ++ post) = true).
  { intros m. rewrite !forallb_app.
    rewrite (text_no 42 pre), (text_no 42 post), andb_true_r by auto. cbn [andb].
    apply em_element_chars; [reflexivity | apply text_no; auto]. }
  destruct n as [|[|[|[|n]]]]; try lia.
  - rewrite (emphasis_pass_over 2), (emphasis_pass_over 1) by (assumption || lia).
    rewrite emphasis_pass_at by (assumption || lia). reflexivity.
  - rewrite (emphasis_pass_over 2) by (assumption || lia).
    rewrite emphasis_pass_at by (assumption || lia).
    change (tagged "strong" _) with (em_element 2 t).
    apply (replace_all_absent _ _ _ 42 _ (first_char_emphasis 0)), Hno.
  - rewrite emphasis_pass_at by (assumption || lia). cbn [group groups Nat.eqb].
    change (U "<strong><em>" ++ t ++ U "</em></strong>") with (em_element 3 t).
    rewrite (replace_all_absent _ _ _ 42 _ (first_char_emphasis 1)) by apply Hno.
    apply (replace_all_absent _ _ _ 42 _ (first_char_emphasis 0)), Hno.
Qed.

Ltac lits_in_goal :=
  repeat match goal with
    | |- context [U ?x] =>
        let v := eval vm_compute in (U x) in change (U x) with v
    end.

Ltac eqb_in_goal :=
  repeat match goal with
    | |- context [N.eqb (Npos ?a) (Npos ?b)] =>
        let v := eval vm_compute in (N.eqb (Npos a) (Npos b)) in
        change (N.eqb (Npos a) (Npos b)) with v
    end.

Lemma occurs_li_text s :
  forallb text_char s = true -> occurs (U "<li>") s = false.
Proof. intros H. apply (occurs_no_head _ 60); [reflexivity | apply text_no; auto 6]. Qed.

Lemma em_element_no_li n t post :
  forallb text_char t = true -> forallb text_char post = true ->
  occurs (U "<li>") (em_element n t ++ post) = false.
Proof.
  intros Ht Hpost. pose proof (occurs_li_text post Hpost) as Hp.
  pose proof (text_no 60 t ltac:(auto 6) Ht) as Ht60.
  unfold em_element. destruct n as [|[|[|n]]]; rewrite <- !app_assoc;
    revert Hp; lits_in_goal; intros Hp; cbn [app occurs starts_with];
    eqb_in_goal; cbn [andb orb];
    rewrite (occurs_skip [60; 108; 105; 62] 60 t _ eq_refl Ht60);
    cbn [app occurs starts_with]; eqb_in_goal; cbn [andb orb]; exact Hp.
Qed.

Lemma markdownToHtml_emphasis n pre t post :
  (1 <= n <= 3)%nat ->
  text_before pre = true -> span_text t = true -> text_after post = true ->
  markdownToHtml (pre ++ (stars n ++ t ++ stars n) ++ post)
  = U "<p>" ++ pre ++ em_element n t ++ post ++ U "</p>".
Proof.
  intros Hn Hpre Ht Hpost.
  pose proof (text_before_spec pre Hpre) as [Hp Hs].
  pose proof (text_after_spec post Hpost) as [Hq _].
  pose proof (span_text_spec t Ht) as (c & t' & Et & Htc).
  unfold markdownToHtml. rewrite inline_passes_stages.
  assert (Hch : forall (q : char -> bool),
            (forall d, text_char d = true -> q d = true) -> q 42 = true ->
            forallb q (pre ++ (stars n ++ t ++ stars n) ++ post) = true).
  { intros q Hq1 Hq2. rewrite !forallb_app.
    rewrite (forallb_weaken _ _ pre Hq1 Hp), (forallb_weaken _ _ t Hq1 Htc),
      (forallb_weaken _ _ post Hq1 Hq), (stars_chars q n Hq2). reflexivity. }
  rewrite code_passes_absent.
  2:{ apply Hch; [|reflexivity]. intros d Hd.
      apply text_char_spec in Hd as (_ & -> & _). reflexivity. }
  assert (Eh : heading_passes (pre ++ (stars n ++ t ++ stars n) ++ post)
               = pre ++ (stars n ++ t ++ stars n) ++ post).
  { assert (Hdot : forallb is_dot (pre ++ (stars n ++ t ++ stars n) ++ post) = true).
    { apply Hch; [|reflexivity]. intros d Hd.
      apply text_char_spec in Hd as (Hd & _). exact Hd. }
    revert Hdot. destruct pre as [|p0 pre].
    - destruct n as [|n]; [lia|]. unfold stars. cbn [repeat app]. intros Hdot.
      apply heading_passes_line; [exact Hdot | reflexivity].
    - cbn [app]. intros Hdot. apply heading_passes_line; [exact Hdot|].
      apply line_start_spec in Hs as (_ & H35 & _). exact H35. }
  rewrite Eh, (emphasis_passes_line n pre t post Hn Hp Ht Hq).
  assert (Hch' : forall (q : char -> bool),
            (forall d, text_char d = true -> q d = true) ->
            forallb q (U "<strong><em></em></strong>") = true ->
            forallb q (pre ++ em_element n t ++ post) = true).
  { intros q Hq1 Hq2. rewrite !forallb_app.
    rewrite (forallb_weaken _ _ pre Hq1 Hp), (forallb_weaken _ _ post Hq1 Hq).
    rewrite em_element_chars; [reflexivity | exact Hq2 |].
    apply (forallb_weaken _ _ t Hq1 Htc). }
  assert (Ex : exists x e, em_element n t = 60 :: x :: e
                 /\ negb ((x =? 104) || (x =? 117) || (x =? 111) || (x =? 108)
                          || (x =? 112) || (x =? 98)) = true).
  { destruct n as [|[|[|n]]]; unfold em_element; lits_in_goal; cbn [app];
      eexists _, _; (split; [reflexivity | reflexivity]). }
  destruct Ex as (x & e & Ee & Hx).
  assert (El : line_passes (pre ++ em_element n t ++ post)
               = pre ++ em_element n t ++ post).
  { assert (Hdot : forallb is_dot (pre ++ em_element n t ++ post) = true).
    { apply Hch'; [|reflexivity]. intros d Hd.
      apply text_char_spec in Hd as (Hd & _). exact Hd. }
    revert Hdot. destruct pre as [|p0 pre].
    - rewrite Ee. cbn [app]. intros Hdot.
      apply line_passes_line; [exact Hdot | reflexivity].
    - cbn [app]. intros Hdot. apply line_passes_line; [exact Hdot|].
      apply line_start_spec in Hs as (_ & _ & H45).
      cbn [forallb] in Hp. apply andb_true_iff in Hp as [Hp0 _].
      apply text_char_spec in Hp0 as (_ & _ & H42 & _). rewrite H45, H42. reflexivity. }
  rewrite El, link_pass_absent.
  2:{ apply Hch'; [|reflexivity]. intros d Hd.
      apply text_char_spec in Hd as (_ & _ & _ & -> & _). reflexivity. }
  assert (He : ends_space (em_element n t) = false).
  { destruct n as [|[|[|n]]]; unfold em_element.
    - change (U "</em></strong>") with (U "</em></strong" ++ [62]).
      rewrite !app_assoc. apply ends_space_app.
    - change (U "</em>") with (U "</em" ++ [62]).
      rewrite !app_assoc. apply ends_space_app.
    - change (U "</strong>") with (U "</strong" ++ [62]).
      rewrite !app_assoc. apply ends_space_app.
    - change (U "</em></strong>") with (U "</em></strong" ++ [62]).
      rewrite !app_assoc. apply ends_space_app. }
  pose proof (em_element_no_li n t post Htc Hq) as Hli.
  assert (Hlf : forallb (fun d => negb (d =? LF)) (em_element n t) = true).
  { apply em_element_chars; [reflexivity | apply text_no; auto 6]. }
  rewrite Ee in *.
  apply (finish_inline pre x e post Hpre Hpost Hx He Hlf Hli).
Qed.

(** ** Links *)

Lemma link_part_spec close t :
  link_part close t = true ->
  exists c t', t = c :: t' /\ forallb text_char t = true
               /\ forallb (fun d : char => negb (d =? close)) t = true.
Proof.
  unfold link_part. destruct t as [|c t']; [discriminate|]. intros H.
  exists c, t'. split; [reflexivity|]. split.
  - eapply forallb_weaken; [|exact H]. intros d Hd. cbv beta in Hd.
    apply andb_true_iff in Hd as [Hd _]. exact Hd.
  - eapply forallb_weaken; [|exact H]. intros d Hd. cbv beta in Hd.
    apply andb_true_iff in Hd as [_ Hd]. exact Hd.
Qed.

Lemma exec_link t u post p :
  link_part 93 t = true -> link_part 41 u = true ->
  exec false LINK_REGEX p (link_text t u ++ post)
  = Some (RMatch (link_text t u) [(2%nat, u); (1%nat, t)] post).
Proof.
  intros Ht Hu.
  apply link_part_spec in Ht as (c & t' & -> & _ & Ht).
  apply link_part_spec in Hu as (d & u' & -> & _ & Hu).
  cbn [forallb] in Ht, Hu. apply andb_true_iff in Ht as [Hc Ht].
  apply andb_true_iff in Hu as [Hd Hu].
  assert (E : exists pr,
    matcher false LINK_REGEX Some (MState p (link_text (c :: t') (d :: u') ++ post) [])
    = Some (MState pr post [(2%nat, d :: u'); (1%nat, c :: t')])).
  { eexists. unfold LINK_REGEX, link_text. cbn [Cat]. lits_in_goal.
    rewrite <- !app_assoc. cbn [app]. mstep. cbv beta. rewrite Hc.
    eapply greedy_run_stop; [exact Ht | reflexivity |].
    unfold capture at 1. cbn [rest prev caps].
    change (c :: t' ++ 93 :: 40 :: d :: u' ++ 41 :: post)
      with ((c :: t') ++ 93 :: 40 :: d :: u' ++ 41 :: post).
    rewrite take_app_sub. mstep. cbv beta. rewrite Hd.
    eapply greedy_run_stop; [exact Hu | reflexivity |].
    unfold capture. cbn [rest prev caps].
    change (d :: u' ++ 41 :: post) with ((d :: u') ++ 41 :: post).
    rewrite take_app_sub. mstep. reflexivity. }
  destruct E as [pr E]. apply (exec_rest _ _ _ _ _ _ E). reflexivity.
Qed.

Lemma link_pass_line pre t u post :
  forallb text_char pre = true ->
  link_part 93 t = true -> link_part 41 u = true ->
  forallb text_char post = true ->
  link_pass (pre ++ link_text t u ++ post) = pre ++ a_element t u ++ post.
Proof.
  intros Hpre Ht Hu Hpost. unfold link_pass.
  rewrite (replace_all_one _ _ _ 91 pre (link_text t u) [(2%nat, u); (1%nat, t)] post).
  - reflexivity.
  - apply first_char_link.
  - apply text_no; auto.
  - apply text_no; auto.
  - discriminate.
  - intros p. apply exec_link; assumption.
Qed.

Lemma heading_passes_inline pre w post :
  text_before pre = true ->
  forallb is_dot (pre ++ w ++ post) = true ->
  match w with c :: _ => (c =? 35) = false | [] => False end ->
  heading_passes (pre ++ w ++ post) = pre ++ w ++ post.
Proof.
  intros Hpre Hdot Hw. apply text_before_spec in Hpre as [_ Hs].
  revert Hdot. destruct pre as [|p0 pre].
  - destruct w as [|c w]; [destruct Hw|]. cbn [app]. intros Hdot.
    apply heading_passes_line; assumption.
  - cbn [app]. intros Hdot. apply heading_passes_line; [exact Hdot|].
    apply line_start_spec in Hs as (_ & H35 & _). exact H35.
Qed.

Lemma line_passes_inline pre w post :
  text_before pre = true ->
  forallb is_dot (pre ++ w ++ post) = true ->
  match w with
  | c :: _ => negb ((c =? 45) || (c =? 42)) = true
  | [] => False
  end ->
  line_passes (pre ++ w ++ post) = pre ++ w ++ post.
Proof.
  intros Hpre Hdot Hw. apply text_before_spec in Hpre as [Hp Hs].
  revert Hdot. destruct pre as [|p0 pre].
  - destruct w as [|c w]; [destruct Hw|]. cbn [app]. intros Hdot.
    apply line_passes_line; assumption.
  - cbn [app]. intros Hdot. apply line_passes_line; [exact Hdot|].
    apply line_start_spec in Hs as (_ & _ & H45).
    cbn [forallb] in Hp. apply andb_true_iff in Hp as [Hp0 _].
    apply text_char_spec in Hp0 as (_ & _ & H42 & _). rewrite H45, H42. reflexivity.
Qed.

Lemma frame_chars (q : char -> bool) pre w post :
  (forall d, text_char d = true -> q d = true) ->
  forallb text_char pre = true -> forallb text_char post = true ->
  forallb q w = true ->
  forallb q (pre ++ w ++ post) = true.
Proof.
  intros Hq Hpre Hpost Hw. rewrite !forallb_app.
  rewrite (forallb_weaken _ _ pre Hq Hpre), (forallb_weaken _ _ post Hq Hpost), Hw.
  reflexivity.
Qed.

Lemma link_text_chars (q : char -> bool) t u :
  forallb q (U "[]()") = true -> forallb q t = true -> forallb q u = true ->
  forallb q (link_text t u) = true.
Proof.
  intros Hq Ht Hu. change (U "[]()") with [91; 93; 40; 41] in Hq.
  cbn [forallb] in Hq. repeat (apply andb_true_iff in Hq as [? Hq]).
  unfold link_text. lits_in_goal. rewrite !forallb_app. cbn [forallb].
  rewrite Ht, Hu. repeat (apply andb_true_iff; split); try assumption; reflexivity.
Qed.

Lemma a_element_chars (q : char -> bool) t u :
  forallb q (U "<a href=></a>") = true -> q DQ = true ->
  forallb q t = true -> forallb q u = true ->
  forallb q (a_element t u) = true.
Proof.
  intros Hq Hdq Ht Hu.
  change (U "<a href=></a>")
    with [60; 97; 32; 104; 114; 101; 102; 61; 62; 60; 47; 97; 62] in Hq.
  cbn [forallb] in Hq. repeat (apply andb_true_iff in Hq as [? Hq]).
  unfold a_element, quoted. lits_in_goal. rewrite !forallb_app. cbn [forallb].
  rewrite !forallb_app. cbn [forallb]. rewrite Ht, Hu, Hdq.
  repeat (apply andb_true_iff; split); try assumption; reflexivity.
Qed.

Lemma a_element_no_li t u post :
  forallb text_char t = true -> forallb text_char u = true ->
  forallb text_char post = true ->
  occurs (U "<li>") (a_element t u ++ post) = false.
Proof.
  intros Ht Hu Hpost. pose proof (occurs_li_text post Hpost) as Hp.
  pose proof (text_no 60 t ltac:(auto 6) Ht) as Ht60.
  pose proof (text_no 60 u ltac:(auto 6) Hu) as Hu60.
  unfold a_element, quoted, DQ. rewrite <- !app_assoc. cbn [app].
  rewrite <- !app_assoc.
  revert Hp; lits_in_goal; intros Hp; cbn [app occurs starts_with].
  eqb_in_goal. cbn [andb orb].
  rewrite (occurs_skip [60; 108; 105; 62] 60 u _ eq_refl Hu60).
  cbn [app occurs starts_with]. eqb_in_goal. cbn [andb orb].
  rewrite (occurs_skip [60; 108; 105; 62] 60 t _ eq_refl Ht60).
  cbn [app occurs starts_with]. eqb_in_goal. cbn [andb orb]. exact Hp.
Qed.

Lemma markdownToHtml_link pre t u post :
  text_before pre = true ->
  link_part 93 t = true -> link_part 41 u = true ->
  text_after post = true ->
  markdownToHtml (pre ++ link_text t u ++ post)
  = U "<p>" ++ pre ++ a_element t u ++ post ++ U "</p>".
Proof.
  intros Hpre Ht Hu Hpost.
  pose proof (text_before_spec pre Hpre) as [Hp _].
  pose proof (text_after_spec post Hpost) as [Hq _].
  pose proof (link_part_spec 93 t Ht) as (c & t' & _ & Htc & _).
  pose proof (link_part_spec 41 u Hu) as (d & u' & _ & Huc & _).
  assert (Hch : forall (q : char -> bool),
            (forall d, text_char d = true -> q d = true) ->
            forallb q (U "[]()") = true ->
            forallb q (pre ++ link_text t u ++ post) = true).
  { intros q Hq1 Hq2. apply frame_chars; try assumption.
    apply link_text_chars; [exact Hq2 | |]; eapply forallb_weaken; eassumption. }
  assert (Hch' : forall (q : char -> bool),
            (forall d, text_char d = true -> q d = true) ->
            forallb q (U "<a href=></a>") = true -> q DQ = true ->
            forallb q (pre ++ a_element t u ++ post) = true).
  { intros q Hq1 Hq2 Hq3. apply frame_chars; try assumption.
    apply a_element_chars; [exact Hq2 | exact Hq3 | |];
      eapply forallb_weaken; eassumption. }
  unfold markdownToHtml. rewrite inline_passes_stages.
  rewrite code_passes_absent.
  2:{ apply Hch; [|reflexivity]. intros x Hx.
      apply text_char_spec in Hx as (_ & -> & _). reflexivity. }
  rewrite heading_passes_inline; [|exact Hpre| |reflexivity].
  2:{ apply Hch; [|reflexivity]. intros x Hx.
      apply text_char_spec in Hx as (Hx & _). exact Hx. }
  rewrite emphasis_passes_absent.
  2:{ apply Hch; [|reflexivity]. intros x Hx.
      apply text_char_spec in Hx as (_ & _ & -> & _). reflexivity. }
  rewrite line_passes_inline; [|exact Hpre| |reflexivity].
  2:{ apply Hch; [|reflexivity]. intros x Hx.
      apply text_char_spec in Hx as (Hx & _). exact Hx. }
  rewrite (link_pass_line pre t u post Hp Ht Hu Hq).
  assert (Ee : exists e, a_element t u = 60 :: 97 :: e).
  { unfold a_element. lits_in_goal. cbn [app]. eauto. }
  destruct Ee as [e Ee].
  assert (He : ends_space (a_element t u) = false).
  { unfold a_element. change (U "</a>") with (U "</a" ++ [62]).
    rewrite !app_assoc. apply ends_space_app. }
  pose proof (a_element_no_li t u post Htc Huc Hq) as Hli.
  assert (Hlf : forallb (fun d => negb (d =? LF)) (a_element t u) = true).
  { apply a_element_chars; [reflexivity | reflexivity | |]; apply text_no; auto 6. }
  rewrite Ee in *.
  apply (finish_inline pre 97 e post Hpre Hpost eq_refl He Hlf Hli).
Qed.

(** ** Inline code *)

Lemma code_text_spec c :
  code_text c = true -> exists d c', c = d :: c' /\ forallb code_char c = true.
Proof. unfold code_text. destruct c as [|d c']; [discriminate|]. eauto. Qed.

Lemma code_char_spec d :
  code_char d = true ->
  is_dot d = true /\ (d =? 96) = false /\ (d =? 42) = false /\ (d =? 91) = false
  /\ (LF =? d) = false.
Proof.
  unfold code_char. intros H. apply andb_true_iff in H as [Hd H].
  apply negb_true_iff in H. repeat (apply orb_false_iff in H as [H ?]).
  repeat split; try assumption.
  unfold is_dot, is_line_terminator, LF in *. apply negb_true_iff in Hd.
  repeat (apply orb_false_iff in Hd as [Hd ?]). rewrite N.eqb_sym. exact Hd.
Qed.

Lemma code_no (x : char) c :
  (x = 96 \/ x = 42 \/ x = 91 \/ x = LF) ->
  forallb code_char c = true ->
  forallb (fun d => negb (d =? x)) c = true.
Proof.
  intros Hx. apply forallb_weaken. intros d Hd.
  apply code_char_spec in Hd as (_ & H96 & H42 & H91 & Hlf).
  destruct Hx as [-> | [-> | [-> | ->]]]; rewrite ?H96, ?H42, ?H91; try reflexivity.
  rewrite N.eqb_sym, Hlf. reflexivity.
Qed.

Lemma exec_inline_code c post p :
  code_text c = true ->
  exec false INLINE_CODE_REGEX p (code_span c ++ post)
  = Some (RMatch (code_span c) [(1%nat, c)] post).
Proof.
  intros Hc. apply code_text_spec in Hc as (d & c' & -> & Hc).
  pose proof (code_no 96 _ ltac:(auto) Hc) as H96. cbn [forallb] in H96.
  apply andb_true_iff in H96 as [Hd H96].
  assert (E : exists pr,
    matcher false INLINE_CODE_REGEX Some (MState p (code_span (d :: c') ++ post) [])
    = Some (MState pr post [(1%nat, d :: c')])).
  { eexists. unfold INLINE_CODE_REGEX, code_span. cbn [Cat].
    cbn [app]. rewrite <- app_assoc. cbn [app]. mstep. cbv beta. rewrite Hd.
    eapply greedy_run_stop; [exact H96 | reflexivity |].
    unfold capture. cbn [rest prev caps].
    change (d :: c' ++ 96 :: post) with ((d :: c') ++ 96 :: post).
    rewrite take_app_sub. mstep. reflexivity. }
  destruct E as [pr E]. apply (exec_rest _ _ _ _ _ _ E). reflexivity.
Qed.

Lemma exec_code_block_single p s :
  match s with [] => True | d :: _ => (96 =? d) = false end ->
  exec false CODE_BLOCK_REGEX p (96 :: s) = None.
Proof.
  intros Hs. unfold exec, CODE_BLOCK_REGEX. cbn [Cat]. eval_lits. mstep.
  destruct s as [|d s]; mstep; [reflexivity|]. cbv beta. rewrite Hs. reflexivity.
Qed.

Lemma code_block_pass_span f pre c post :
  forallb text_char pre = true -> code_text c = true ->
  forallb text_char post = true ->
  replace_all false CODE_BLOCK_REGEX f (pre ++ code_span c ++ post)
  = pre ++ code_span c ++ post.
Proof.
  intros Hpre Hc Hpost. apply code_text_spec in Hc as (d & c' & -> & Hc).
  pose proof (code_no 96 _ ltac:(auto) Hc) as H96.
  pose proof first_char_code_block as Hr.
  unfold replace_all, code_span. cbn [app]. rewrite <- app_assoc. cbn [app].
  rewrite (replace_go_prefix_absent _ _ _ 96 pre _ _ Hr) by (apply text_no; auto).
  rewrite replace_go_nomatch.
  2:{ apply exec_code_block_single. cbn [forallb] in H96.
      apply andb_true_iff in H96 as [Hd _]. apply negb_true_iff in Hd.
      rewrite N.eqb_sym. exact Hd. }
  change (d :: c' ++ 96 :: post) with ((d :: c') ++ 96 :: post).
  rewrite (replace_go_prefix_absent _ _ _ 96 (d :: c') _ _ Hr H96).
  rewrite replace_go_nomatch
    by (apply exec_code_block_single, (text_head_not 96 post); auto).
  rewrite (replace_absent _ _ _ 96 _ post Hr) by (apply text_no; auto).
  reflexivity.
Qed.

Lemma code_passes_span pre c post :
  forallb text_char pre = true -> code_text c = true ->
  forallb text_char post = true ->
  code_passes (pre ++ code_span c ++ post) = pre ++ code_element c ++ post.
Proof.
  intros Hpre Hc Hpost. unfold code_passes.
  rewrite (code_block_pass_span _ pre c post Hpre Hc Hpost).
  rewrite (replace_all_one _ _ _ 96 pre (code_span c) [(1%nat, c)] post).
  - reflexivity.
  - apply first_char_inline_code.
  - apply text_no; auto.
  - apply text_no; auto.
  - discriminate.
  - intros p. apply exec_inline_code, Hc.
Qed.

Lemma escapeHtml_chars (q : char -> bool) c :
  (forall d, code_char d = true -> is_html_special d = false -> q d = true) ->
  forallb q (U "&amplt;g") = true ->
  forallb code_char c = true ->
  forallb q (escapeHtml c) = true.
Proof.
  intros Hq He Hc.
  change (U "&amplt;g") with [38; 97; 109; 112; 108; 116; 59; 103] in He.
  cbn [forallb] in He. repeat (apply andb_true_iff in He as [? He]).
  induction c as [|d c IH]; [reflexivity|]. cbn [forallb] in Hc.
  apply andb_true_iff in Hc as [Hd Hc].
  rewrite escapeHtml_cons, forallb_app, (IH Hc), andb_true_r.
  destruct (escape_char_cases d) as [[_ E]|[[_ E]|[[_ E]|[Hs E]]]]; rewrite E.
  - change (U "&amp;") with [38; 97; 109; 112; 59]. cbn [forallb].
    repeat (apply andb_true_iff; split); try assumption; reflexivity.
  - change (U "&lt;") with [38; 108; 116; 59]. cbn [forallb].
    repeat (apply andb_true_iff; split); try assumption; reflexivity.
  - change (U "&gt;") with [38; 103; 116; 59]. cbn [forallb].
    repeat (apply andb_true_iff; split); try assumption; reflexivity.
  - cbn [forallb]. rewrite (Hq d Hd Hs). reflexivity.
Qed.

Lemma code_element_chars (q : char -> bool) c :
  (forall d, code_char d = true -> is_html_special d = false -> q d = true) ->
  forallb q (U "&amplt;g") = true ->
  forallb q (U "<code></code>") = true ->
  forallb code_char c = true ->
  forallb q (code_element c) = true.
Proof.
  intros Hq He Ht Hc.
  change (U "<code></code>")
    with [60; 99; 111; 100; 101; 62; 60; 47; 99; 111; 100; 101; 62] in Ht.
  cbn [forallb] in Ht. repeat (apply andb_true_iff in Ht as [? Ht]).
  unfold code_element. lits_in_goal. rewrite !forallb_app.
  rewrite (escapeHtml_chars q c Hq He Hc). cbn [forallb].
  repeat (apply andb_true_iff; split); try assumption; reflexivity.
Qed.

Lemma code_element_no_li c post :
  forallb text_char post = true ->
  occurs (U "<li>") (code_element c ++ post) = false.
Proof.
  intros Hpost. pose proof (occurs_li_text post Hpost) as Hp.
  assert (H60 : forallb (fun d => negb (d =? 60)) (escapeHtml c) = true).
  { eapply forallb_weaken; [|apply escapeHtml_no_angle]. intros d Hd. cbv beta in Hd.
    apply negb_true_iff in Hd. apply orb_false_iff in Hd as [-> _]. reflexivity. }
  unfold code_element. rewrite <- !app_assoc.
  revert Hp; lits_in_goal; intros Hp; cbn [app occurs starts_with].
  eqb_in_goal. cbn [andb orb].
  rewrite (occurs_skip [60; 108; 105; 62] 60 _ _ eq_refl H60).
  cbn [app occurs starts_with]. eqb_in_goal. cbn [andb orb]. exact Hp.
Qed.

Lemma markdownToHtml_code pre c post :
  text_before pre = true -> code_text c = true -> text_after post = true ->
  markdownToHtml (pre ++ code_span c ++ post)
  = U "<p>" ++ pre ++ code_element c ++ post ++ U "</p>".
Proof.
  intros Hpre Hc Hpost.
  pose proof (text_before_spec pre Hpre) as [Hp _].
  pose proof (text_after_spec post Hpost) as [Hq _].
  pose proof (code_text_spec c Hc) as (d & c' & _ & Hcc).
  assert (Hch : forall (q : char -> bool),
            (forall d, text_char d = true -> q d = true) ->
            (forall d, code_char d = true -> is_html_special d = false -> q d = true) ->
            forallb q (U "&amplt;g") = true ->
            forallb q (U "<code></code>") = true ->
            forallb q (pre ++ code_element c ++ post) = true).
  { intros q Hq1 Hq2 Hq3 Hq4. apply frame_chars; try assumption.
    apply code_element_chars; assumption. }
  unfold markdownToHtml. rewrite inline_passes_stages.
  rewrite (code_passes_span pre c post Hp Hc Hq).
  assert (Hdot : forallb is_dot (pre ++ code_element c ++ post) = true).
  { apply Hch; try reflexivity.
    - intros x Hx. apply text_char_spec in Hx as (Hx & _). exact Hx.
    - intros x Hx _. apply code_char_spec in Hx as (Hx & _). exact Hx. }
  rewrite heading_passes_inline; [|exact Hpre|exact Hdot|reflexivity].
  rewrite emphasis_passes_absent.
  2:{ apply Hch; try reflexivity.
      - intros x Hx. apply text_char_spec in Hx as (_ & _ & -> & _). reflexivity.
      - intros x Hx _. apply code_char_spec in Hx as (_ & _ & -> & _). reflexivity. }
  rewrite line_passes_inline; [|exact Hpre|exact Hdot|reflexivity].
  rewrite link_pass_absent.
  2:{ apply Hch; try reflexivity.
      - intros x Hx. apply text_char_spec in Hx as (_ & _ & _ & -> & _). reflexivity.
      - intros x Hx _. apply code_char_spec in Hx as (_ & _ & _ & -> & _). reflexivity. }
  assert (Ee : exists e, code_element c = 60 :: 99 :: e).
  { unfold code_element. lits_in_goal. cbn [app]. eauto. }
  destruct Ee as [e Ee].
  assert (He : ends_space (code_element c) = false).
  { unfold code_element. change (U "</code>") with (U "</code" ++ [62]).
    rewrite !app_assoc. apply ends_space_app. }
  pose proof (code_element_no_li c post Hq) as Hli.
  assert (Hlf : forallb (fun d => negb (d =? LF)) (code_element c) = true).
  { apply code_element_chars; try reflexivity; [|exact Hcc].
    intros x Hx _. apply code_char_spec in Hx as (_ & _ & _ & _ & Hlf).
    rewrite N.eqb_sym, Hlf. reflexivity. }
  rewrite Ee in *.
  apply (finish_inline pre 99 e post Hpre Hpost eq_refl He Hlf Hli).
Qed.

(** ** Fenced code blocks *)

Lemma block_code_spec c :
  block_code c = true ->
  forallb (fun d : char => negb ((d =? 96) || (d =? 42) || (d =? 91))) c = true
  /\ no_line_starts starts_markup true c = true
  /\ occurs [LF; LF] c = false
  /\ starts_space c = false /\ ends_space c = false.
Proof.
  unfold block_code. rewrite !andb_true_iff, !negb_true_iff. tauto.
Qed.

Lemma trim_end_id s : ends_space s = false -> trim_end s = s.
Proof.
  intros He. destruct s as [|x0 s0 _] using rev_ind; [reflexivity|].
  rewrite ends_space_app in He. apply trim_end_app, He.
Qed.

Lemma trim_code c :
  starts_space c = false -> ends_space c = false -> trim (c ++ [LF]) = c.
Proof.
  intros Hs He. unfold trim.
  assert (E : trim_start (c ++ [LF]) = match c with [] => [] | _ :: _ => c ++ [LF] end).
  { destruct c as [|d c]; [reflexivity|]. cbn [app trim_start].
    cbn [starts_space] in Hs. rewrite Hs. reflexivity. }
  rewrite E. destruct c as [|d c]; [reflexivity|].
  unfold trim_end. rewrite rev_app_distr. cbn [rev app trim_start].
  change (is_space LF) with true. cbv iota.
  apply (trim_end_id _ He).
Qed.

Lemma exec_code_block lang c p :
  forallb is_word lang = true ->
  forallb (fun d : char => negb (d =? 96)) c = true ->
  exec false CODE_BLOCK_REGEX p (code_fence lang c)
  = Some (RMatch (code_fence lang c) [(2%nat, c ++ [LF]); (1%nat, lang)] []).
Proof.
  intros Hlang Hc.
  assert (E : exists pr,
    matcher false CODE_BLOCK_REGEX Some (MState p (code_fence lang c) [])
    = Some (MState pr [] [(2%nat, c ++ [LF]); (1%nat, lang)])).
  { eexists. unfold CODE_BLOCK_REGEX, code_fence. cbn [Cat]. eval_lits.
    unfold LF. cbn [app]. mstep.
    eapply greedy_run_stop; [exact Hlang | reflexivity |].
    unfold capture at 1. cbn [rest prev caps].
    rewrite take_app_sub. mstep.
    change (c ++ 10 :: [96; 96; 96]) with (c ++ [10] ++ [96; 96; 96]).
    rewrite app_assoc.
    rewrite lazy_run_first.
    - apply lazy_run_now. unfold capture. cbn [rest prev caps].
      rewrite take_app_sub. mstep. reflexivity.
    - apply forallb_forall. intros x _. apply is_any_true.
    - intros w1 w2 pr' Hw Hne. unfold capture. cbn [rest prev caps].
      destruct w2 as [|d w2]; [contradiction|].
      assert (Hd : (96 =? d) = false).
      { assert (Hall : forallb (fun d : char => negb (d =? 96)) (c ++ [10]) = true).
        { rewrite forallb_app, Hc. reflexivity. }
        rewrite Hw, forallb_app in Hall. apply andb_true_iff in Hall as [_ Hall].
        cbn [forallb] in Hall. apply andb_true_iff in Hall as [Hall _].
        apply negb_true_iff in Hall. rewrite N.eqb_sym. exact Hall. }
      cbn [app]. mstep. cbv beta. rewrite Hd. reflexivity. }
  destruct E as [pr E]. apply exec_whole with (1 := E). reflexivity.
Qed.

Lemma code_block_pass lang c :
  forallb is_word lang = true ->
  forallb (fun d : char => negb (d =? 96)) c = true ->
  starts_space c = false -> ends_space c = false ->
  replace_all false CODE_BLOCK_REGEX code_block (code_fence lang c)
  = pre_element lang c.
Proof.
  intros Hlang Hc Hs He.
  pose proof (replace_all_one false CODE_BLOCK_REGEX code_block 96 []
                (code_fence lang c) [(2%nat, c ++ [LF]); (1%nat, lang)] []
                first_char_code_block eq_refl eq_refl) as H.
  rewrite app_nil_r in H. cbn [app] in H. rewrite H.
  - rewrite app_nil_r. unfold code_block, pre_element, language_class.
    cbn [groups group Nat.eqb]. rewrite (trim_code c Hs He). reflexivity.
  - unfold code_fence. discriminate.
  - intros p. apply exec_code_block; assumption.
Qed.

Lemma escapeHtml_forallb (q : char -> bool) c :
  forallb q (U "&amplt;g") = true ->
  forallb q c = true -> forallb q (escapeHtml c) = true.
Proof.
  intros He Hc.
  change (U "&amplt;g") with [38; 97; 109; 112; 108; 116; 59; 103] in He.
  cbn [forallb] in He. repeat (apply andb_true_iff in He as [? He]).
  induction c as [|d c IH]; [reflexivity|]. cbn [forallb] in Hc.
  apply andb_true_iff in Hc as [Hd Hc].
  rewrite escapeHtml_cons, forallb_app, (IH Hc), andb_true_r.
  destruct (escape_char_cases d) as [[_ E]|[[_ E]|[[_ E]|[Hs E]]]]; rewrite E.
  - change (U "&amp;") with [38; 97; 109; 112; 59]. cbn [forallb].
    repeat (apply andb_true_iff; split); try assumption; reflexivity.
  - change (U "&lt;") with [38; 108; 116; 59]. cbn [forallb].
    repeat (apply andb_true_iff; split); try assumption; reflexivity.
  - change (U "&gt;") with [38; 103; 116; 59]. cbn [forallb].
    repeat (apply andb_true_iff; split); try assumption; reflexivity.
  - cbn [forallb]. rewrite Hd. reflexivity.
Qed.

Lemma language_class_chars (q : char -> bool) lang :
  forallb q (U " class=language-") = true -> q DQ = true ->
  forallb q lang = true -> forallb q (language_class lang) = true.
Proof.
  intros Ht Hq Hl. unfold language_class. destruct lang as [|d l]; [reflexivity|].
  unfold quoted. lits_in_goal.
  change (U " class=language-") with (U " class=" ++ U "language-") in Ht.
  revert Ht. lits_in_goal. intros Ht.
  rewrite forallb_app in Ht. apply andb_true_iff in Ht as [Ht1 Ht2].
  rewrite forallb_app, Ht1. cbn [forallb andb]. rewrite Hq.
  rewrite !forallb_app, Ht2, Hl. cbn [forallb]. rewrite Hq. reflexivity.
Qed.

Lemma pre_element_chars (q : char -> bool) lang c :
  forallb q (U "<pre><code class=language-></code></pre>&amplt;g") = true ->
  q DQ = true -> forallb q lang = true -> forallb q c = true ->
  forallb q (pre_element lang c) = true.
Proof.
  intros Ht Hq Hl Hc.
  change (U "<pre><code class=language-></code></pre>&amplt;g")
    with (U "<pre><code" ++ U " class=language-" ++ U ">" ++ U "</code></pre>"
          ++ U "&amplt;g") in Ht.
  rewrite !forallb_app, !andb_true_iff in Ht.
  destruct Ht as (H1 & H2 & H3 & H4 & H5).
  unfold pre_element. rewrite !forallb_app, H1, H3, H4.
  rewrite (language_class_chars q lang H2 Hq Hl).
  rewrite (escapeHtml_forallb q c H5 Hc). reflexivity.
Qed.

Lemma word_chars (q : char -> bool) lang :
  (forall d, is_word d = true -> q d = true) ->
  forallb is_word lang = true -> forallb q lang = true.
Proof. apply forallb_weaken. Qed.

Lemma is_word_not (x : char) d :
  (x = 96 \/ x = 42 \/ x = 91 \/ x = 60 \/ x = LF) ->
  is_word d = true -> negb (d =? x) = true.
Proof.
  intros Hx Hd. unfold is_word, is_digit, in_range, LF in *.
  destruct Hx as [-> | [-> | [-> | [-> | ->]]]]; class_cases.
Qed.

Lemma no_line_starts_flag q s :
  no_line_starts q true s = true -> no_line_starts q false s = true.
Proof.
  destruct s as [|c s]; [reflexivity|]. cbn [no_line_starts andb].
  intros H. apply andb_true_iff in H as [_ H]. exact H.
Qed.

Lemma no_line_starts_escape sfx c : forall b,
  no_line_starts starts_markup true sfx = true ->
  no_line_starts starts_markup b c = true ->
  no_line_starts starts_markup b (escapeHtml c ++ sfx) = true.
Proof.
  induction c as [|d c IH]; intros b Hsfx Hc.
  - cbn [app]. change (escapeHtml []) with (@nil char). cbn [app].
    destruct b; [exact Hsfx | apply no_line_starts_flag, Hsfx].
  - cbn [no_line_starts] in Hc. apply andb_true_iff in Hc as [Hb Hc].
    rewrite escapeHtml_cons, <- app_assoc.
    destruct (escape_char_cases d) as [[Hd E]|[[Hd E]|[[Hd E]|[Hs E]]]]; rewrite E.
    + subst d. change (is_line_terminator 38) with false in Hc.
      change (U "&amp;") with [38; 97; 109; 112; 59].
      cbn [app no_line_starts]. eval_class. rewrite !andb_false_r. cbn [negb andb].
      apply IH; assumption.
    + subst d. change (is_line_terminator 60) with false in Hc.
      change (U "&lt;") with [38; 108; 116; 59].
      cbn [app no_line_starts]. eval_class. rewrite !andb_false_r. cbn [negb andb].
      apply IH; assumption.
    + subst d. change (is_line_terminator 62) with false in Hc.
      change (U "&gt;") with [38; 103; 116; 59].
      cbn [app no_line_starts]. eval_class. rewrite !andb_false_r. cbn [negb andb].
      apply IH; assumption.
    + cbn [app no_line_starts]. rewrite Hb. cbn [andb]. apply IH; assumption.
Qed.

Lemma pre_element_no_start lang c :
  forallb is_word lang = true ->
  no_line_starts starts_markup true c = true ->
  no_line_starts starts_markup true (pre_element lang c) = true.
Proof.
  intros Hlang Hc. unfold pre_element.
  change (U "<pre><code") with (60 :: U "pre><code"). cbn [app no_line_starts].
  eval_class. cbn [andb negb].
  rewrite !app_assoc, <- app_assoc.
  rewrite no_line_starts_mid.
  - apply no_line_starts_escape; [reflexivity | apply no_line_starts_flag, Hc].
  - rewrite !forallb_app. change (forallb is_dot (U "pre><code")) with true.
    change (forallb is_dot (U ">")) with true. rewrite andb_true_r. cbn [andb].
    apply language_class_chars; [reflexivity | reflexivity |].
    apply (word_chars is_dot lang); [|exact Hlang].
    intros d Hd. unfold is_dot, is_line_terminator.
    unfold is_word, is_digit, in_range in Hd. class_cases.
Qed.

Lemma escape_no_blank sfx c :
  head sfx <> Some LF -> occurs [LF; LF] sfx = false ->
  occurs [LF; LF] c = false ->
  occurs [LF; LF] (escapeHtml c ++ sfx) = false
  /\ (head c <> Some LF -> head (escapeHtml c ++ sfx) <> Some LF).
Proof.
  intros Hh Hsfx. induction c as [|d c IH]; intros Hc.
  - change (escapeHtml []) with (@nil char). cbn [app]. auto.
  - cbn [occurs] in Hc. apply orb_false_iff in Hc as [Hst Hc].
    destruct (IH Hc) as [IH1 IH2].
    rewrite escapeHtml_cons, <- app_assoc.
    destruct (escape_char_cases d) as [[Hd E]|[[Hd E]|[[Hd E]|[Hs E]]]]; rewrite E.
    + split; [|discriminate].
      rewrite (occurs_skip [LF; LF] LF (U "&amp;") _ eq_refl eq_refl). exact IH1.
    + split; [|discriminate].
      rewrite (occurs_skip [LF; LF] LF (U "&lt;") _ eq_refl eq_refl). exact IH1.
    + split; [|discriminate].
      rewrite (occurs_skip [LF; LF] LF (U "&gt;") _ eq_refl eq_refl). exact IH1.
    + cbn [app head]. split; [|intros H; exact H].
      cbn [occurs]. rewrite IH1, orb_false_r.
      cbn [starts_with] in Hst |- *.
      destruct (LF =? d) eqn:Ed; [|reflexivity]. cbn [andb] in Hst |- *.
      assert (Hc0 : head c <> Some LF).
      { destruct c as [|d' c']; [discriminate|]. cbn [head]. intros [= ->].
        cbn [starts_with] in Hst. rewrite N.eqb_refl in Hst. discriminate. }
      specialize (IH2 Hc0).
      destruct (escapeHtml c ++ sfx) as [|x r]; [reflexivity|].
      cbn [starts_with]. rewrite andb_true_r.
      destruct (N.eqb_spec LF x) as [Ex|]; [|reflexivity].
      exfalso. apply IH2. rewrite <- Ex. reflexivity.
Qed.

Lemma pre_element_no_blank lang c :
  forallb is_word lang = true ->
  occurs [LF; LF] c = false ->
  occurs [LF; LF] (pre_element lang c) = false.
Proof.
  intros Hlang Hc. unfold pre_element. rewrite !app_assoc, <- app_assoc.
  rewrite (occurs_skip [LF; LF] LF _ _ eq_refl).
  - apply escape_no_blank; [discriminate | reflexivity | exact Hc].
  - rewrite !forallb_app.
    rewrite language_class_chars; [reflexivity | reflexivity | reflexivity |].
    apply (word_chars _ lang); [|exact Hlang].
    intros d Hd. apply (is_word_not LF); auto 6.
Qed.

Lemma pre_element_no_li lang c :
  forallb is_word lang = true ->
  occurs (U "<li>") (pre_element lang c) = false.
Proof.
  intros Hlang.
  assert (H60 : forallb (fun d => negb (d =? 60))
                  (language_class lang ++ U ">" ++ escapeHtml c) = true).
  { rewrite !forallb_app.
    rewrite language_class_chars; [| reflexivity | reflexivity |].
    - cbn [andb]. change (forallb _ (U ">")) with true. cbn [andb].
      eapply forallb_weaken; [|apply escapeHtml_no_angle]. intros d Hd. cbv beta in Hd.
      apply negb_true_iff in Hd. apply orb_false_iff in Hd as [-> _]. reflexivity.
    - apply (word_chars _ lang); [|exact Hlang].
      intros d Hd. apply (is_word_not 60); auto 6. }
  unfold pre_element.
  replace (language_class lang ++ U ">" ++ escapeHtml c ++ U "</code></pre>")
    with ((language_class lang ++ U ">" ++ escapeHtml c) ++ U "</code></pre>")
    by (rewrite <- !app_assoc; reflexivity).
  revert H60. generalize (language_class lang ++ U ">" ++ escapeHtml c).
  intros w H60. lits_in_goal. cbn [app occurs starts_with].
  eqb_in_goal. cbn [andb orb].
  rewrite (occurs_skip [60; 108; 105; 62] 60 _ _ eq_refl H60).
  cbn [app occurs starts_with]. eqb_in_goal. cbn [andb orb]. reflexivity.
Qed.

Lemma paragraph_pre lang c : paragraph (pre_element lang c) = pre_element lang c.
Proof.
  unfold paragraph.
  assert (Htrim : trim (pre_element lang c) = pre_element lang c).
  { apply trim_id; [reflexivity|]. unfold pre_element.
    rewrite !app_assoc. apply ends_space_cons_app. }
  rewrite Htrim.
  assert (Htest : test false BLOCK_TAG_REGEX (pre_element lang c) = true).
  { unfold pre_element, test. lits_in_goal. cbn [app search].
    unfold exec, BLOCK_TAG_REGEX. cbn [Cat]. eval_lits. mstep.
    repeat (rewrite matcher_Alt; mstep). reflexivity. }
  rewrite Htest. unfold pre_element. lits_in_goal. reflexivity.
Qed.

Lemma markdownToHtml_code_block lang c :
  forallb is_word lang = true -> block_code c = true ->
  markdownToHtml (code_fence lang c) = pre_element lang c.
Proof.
  intros Hlang Hc. apply block_code_spec in Hc as (Hch & Hst & Hbl & Hs & He).
  assert (Hno : forall x : char, x = 96 \/ x = 42 \/ x = 91 ->
            forallb (fun d => negb (d =? x)) (pre_element lang c) = true).
  { intros x Hx. apply pre_element_chars.
    - destruct Hx as [-> | [-> | ->]]; reflexivity.
    - destruct Hx as [-> | [-> | ->]]; reflexivity.
    - apply (word_chars _ lang); [|exact Hlang].
      intros d Hd. apply (is_word_not x); tauto.
    - eapply forallb_weaken; [|exact Hch]. intros d Hd. cbv beta in Hd.
      apply negb_true_iff in Hd. repeat (apply orb_false_iff in Hd as [Hd ?]).
      destruct Hx as [-> | [-> | ->]]; apply negb_true_iff; assumption. }
  unfold markdownToHtml. rewrite inline_passes_stages. unfold code_passes.
  rewrite code_block_pass; [|exact Hlang| |exact Hs|exact He].
  2:{ eapply forallb_weaken; [|exact Hch]. intros d Hd. cbv beta in Hd.
      apply negb_true_iff in Hd. repeat (apply orb_false_iff in Hd as [Hd ?]).
      apply negb_true_iff; assumption. }
  rewrite (replace_all_absent _ _ _ 96 _ first_char_inline_code) by auto.
  rewrite heading_passes_no_start by (apply pre_element_no_start; assumption).
  rewrite emphasis_passes_absent by auto.
  rewrite line_passes_no_start by (apply pre_element_no_start; assumption).
  rewrite link_pass_absent by auto.
  rewrite wrap_lists_no_li by (apply pre_element_no_li; assumption).
  unfold wrap_paragraphs. rewrite split_re_none.
  - cbn [map join]. apply paragraph_pre.
  - unfold pre_element. discriminate.
  - apply pre_element_no_blank; assumption.
Qed.

(** ** Rules *)

Lemma hyphens_chars (q : char -> bool) n : q 45 = true -> forallb q (hyphens n) = true.
Proof.
  intros Hq. unfold hyphens. induction n as [|n IH]; [reflexivity|].
  cbn [repeat forallb]. rewrite Hq, IH. reflexivity.
Qed.

Lemma exec_list_item_hyphens n : exec true LIST_ITEM_REGEX None (hyphens n) = None.
Proof.
  unfold hyphens. destruct n as [|n]; [apply exec_list_item_nil|].
  unfold exec, LIST_ITEM_REGEX, Plus. cbn [Cat repeat]. mstep.
  destruct n as [|n]; cbn [repeat]; mstep; reflexivity.
Qed.

Lemma exec_rule_hyphens n :
  exec true RULE_REGEX None (hyphens n)
  = if (n =? 3)%nat then Some (RMatch (hyphens 3) [] []) else None.
Proof.
  unfold hyphens. do 4 (destruct n as [|n]; [vm_compute; reflexivity|]).
  cbn [Nat.eqb]. unfold exec, RULE_REGEX. cbn [Cat repeat]. eval_lits. mstep.
  reflexivity.
Qed.

Lemma list_pass_none f s :
  forallb is_dot s = true ->
  exec true LIST_ITEM_REGEX None s = None ->
  replace_all true LIST_ITEM_REGEX f s = s.
Proof. exact (replace_all_line_none _ f s). Qed.

Lemma rule_pass_none f s :
  forallb is_dot s = true ->
  exec true RULE_REGEX None s = None ->
  replace_all true RULE_REGEX f s = s.
Proof. exact (replace_all_line_none _ f s). Qed.

Lemma rule_pass_whole f s cs :
  s <> [] -> forallb is_dot s = true ->
  exec true RULE_REGEX None s = Some (RMatch s cs []) ->
  replace_all true RULE_REGEX f s = f (RMatch s cs []).
Proof. exact (replace_all_line_whole _ f s cs). Qed.

Lemma line_passes_hyphens n :
  line_passes (hyphens n) = if (n =? 3)%nat then U "<hr>" else hyphens n.
Proof.
  unfold line_passes.
  rewrite list_pass_none;
    [| apply hyphens_chars; reflexivity | apply exec_list_item_hyphens].
  destruct (n =? 3)%nat eqn:En.
  - apply Nat.eqb_eq in En. subst n.
    rewrite (rule_pass_whole _ (hyphens 3) []); [reflexivity | discriminate | reflexivity |].
    apply (exec_rule_hyphens 3).
  - apply rule_pass_none; [apply hyphens_chars; reflexivity|].
    rewrite exec_rule_hyphens, En. reflexivity.
Qed.

Lemma markdownToHtml_hyphens n :
  (1 <= n)%nat ->
  markdownToHtml (hyphens n)
  = if (n =? 3)%nat then U "<hr>" else U "<p>" ++ hyphens n ++ U "</p>".
Proof.
  intros Hn.
  assert (Hch : forall d : char, d <> 45 ->
            forallb (fun c => negb (c =? d)) (hyphens n) = true).
  { intros d Hd. apply hyphens_chars. apply negb_true_iff, N.eqb_neq. congruence. }
  unfold markdownToHtml. rewrite inline_passes_stages.
  rewrite code_passes_absent by (apply Hch; discriminate).
  assert (Eh : heading_passes (hyphens n) = hyphens n).
  { pose proof (hyphens_chars is_dot n eq_refl) as Hdot. revert Hdot.
    unfold hyphens. destruct n; [lia|]. cbn [repeat]. intros Hdot.
    apply heading_passes_line; [exact Hdot | reflexivity]. }
  rewrite Eh. rewrite emphasis_passes_absent by (apply Hch; discriminate).
  rewrite line_passes_hyphens. destruct (n =? 3)%nat.
  - vm_compute. reflexivity.
  - rewrite link_pass_absent by (apply Hch; discriminate).
    rewrite finish_line.
    + rewrite test_block_tag_other; [reflexivity|].
      unfold hyphens. destruct n; [lia | reflexivity].
    + unfold hyphens. destruct n; [lia | discriminate].
    + apply Hch. discriminate.
    + apply (occurs_no_head _ 60); [reflexivity|]. apply Hch. discriminate.
    + unfold hyphens. destruct n; [lia | reflexivity].
    + unfold hyphens. destruct n; [lia|].
      replace (repeat 45 (S n)) with (repeat 45 n ++ [45]) by (rewrite <- repeat_cons; reflexivity).
      apply ends_space_app.
Qed.

(** ** HTML in the text *)

Lemma markdownToHtml_html pre body post :
  text_before pre = true -> tag_body body = true -> text_after post = true ->
  markdownToHtml (pre ++ html_tag body ++ post)
  = U "<p>" ++ pre ++ html_tag body ++ post ++ U "</p>".
Proof.
  intros Hpre Hb Hpost.
  pose proof (text_before_spec pre Hpre) as [Hp _].
  pose proof (text_after_spec post Hpost) as [Hq _].
  destruct body as [|x e]; [discriminate|]. cbn [tag_body] in Hb.
  apply andb_true_iff in Hb as [Hb Hx].
  assert (Hch : forall (q : char -> bool),
            (forall d, text_char d = true -> q d = true) ->
            q 60 = true -> q 62 = true ->
            forallb q (pre ++ html_tag (x :: e) ++ post) = true).
  { intros q Hq1 Hq2 Hq3. apply frame_chars; try assumption.
    unfold html_tag. change (60 :: (x :: e) ++ [62]) with ([60] ++ (x :: e) ++ [62]).
    rewrite !forallb_app. rewrite (forallb_weaken _ q (x :: e) Hq1 Hb).
    cbn [forallb]. rewrite Hq2, Hq3. reflexivity. }
  unfold markdownToHtml. rewrite inline_passes_stages.
  rewrite code_passes_absent.
  2:{ apply Hch; [|reflexivity|reflexivity]. intros d Hd.
      apply text_char_spec in Hd as (_ & -> & _). reflexivity. }
  rewrite heading_passes_inline; [|exact Hpre| |reflexivity].
  2:{ apply Hch; [|reflexivity|reflexivity]. intros d Hd.
      apply text_char_spec in Hd as (Hd & _). exact Hd. }
  rewrite emphasis_passes_absent.
  2:{ apply Hch; [|reflexivity|reflexivity]. intros d Hd.
      apply text_char_spec in Hd as (_ & _ & -> & _). reflexivity. }
  rewrite line_passes_inline; [|exact Hpre| |reflexivity].
  2:{ apply Hch; [|reflexivity|reflexivity]. intros d Hd.
      apply text_char_spec in Hd as (Hd & _). exact Hd. }
  rewrite link_pass_absent.
  2:{ apply Hch; [|reflexivity|reflexivity]. intros d Hd.
      apply text_char_spec in Hd as (_ & _ & _ & -> & _). reflexivity. }
  unfold html_tag. cbn [app].
  apply (finish_inline pre x (e ++ [62]) post Hpre Hpost Hx).
  - change (60 :: x :: e ++ [62]) with ((60 :: x :: e) ++ [62]).
    apply ends_space_app.
  - cbn [forallb]. cbn [forallb] in Hb. apply andb_true_iff in Hb as [Hxc He].
    apply text_char_spec in Hxc as (_ & _ & _ & _ & _ & Hlf).
    rewrite (N.eqb_sym x LF), Hlf, forallb_app. cbn [forallb negb andb].
    rewrite andb_true_r. apply text_no; auto 6.
  - match goal with
    | |- occurs ?p (?c :: ?s) = false =>
        change (starts_with p (c :: s) || occurs p s = false)
    end.
    apply orb_false_iff. split.
    + change (U "<li>") with [60; 108; 105; 62]. cbn [starts_with].
      apply negb_true_iff in Hx. repeat (apply orb_false_iff in Hx as [Hx ?]).
      rewrite (N.eqb_sym 108 x).
      match goal with H : (x =? 108) = false |- _ => rewrite H end.
      reflexivity.
    + apply (occurs_no_head _ 60); [reflexivity|].
      change (x :: (e ++ [62]) ++ post) with ((x :: e ++ [62]) ++ post).
      rewrite forallb_app. apply andb_true_iff. split; [|apply text_no; auto 6].
      change (x :: e ++ [62]) with ((x :: e) ++ [62]).
      rewrite forallb_app. apply andb_true_iff.
      split; [apply text_no; auto 6 | reflexivity].
Qed.

(** ** Documents of headings and paragraphs *)

Lemma replace_go_inert r f (q : char -> bool) tail :
  (forall p c s, q c = false -> exec true (Seq Bol r) p (c :: s) = None) ->
  forall s p,
    no_line_starts q (at_start p) s = true ->
    replace_go true (Seq Bol r) f 0 p (s ++ tail)
    = s ++ replace_go true (Seq Bol r) f 0 (last_or p s) tail.
Proof.
  intros Hq. induction s as [|c s IH]; intros p H; [reflexivity|].
  cbn [no_line_starts] in H. apply andb_true_iff in H as [Hc Hs].
  cbn [app]. rewrite replace_go_nomatch.
  - rewrite (IH (Some c) Hs), last_or_cons. reflexivity.
  - destruct (at_start p) eqn:Ep.
    + cbn [andb] in Hc. apply negb_true_iff in Hc. apply Hq, Hc.
    + destruct p as [c'|]; [|discriminate]. apply exec_bol_mid, Ep.
Qed.

Lemma heading_go_inert k f s p tail :
  no_line_starts starts_markup (at_start p) s = true ->
  replace_go true (HEADING_REGEX (S k)) f 0 p (s ++ tail)
  = s ++ replace_go true (HEADING_REGEX (S k)) f 0 (last_or p s) tail.
Proof.
  intros H. apply (replace_go_inert _ f (fun c : char => c =? 35)).
  - intros p' c s' Hc. apply (exec_first_char _ _ 35); [apply first_char_heading|].
    cbn. intros [= ->]. discriminate.
  - eapply no_line_starts_weaken; [|exact H].
    intros c Hc. unfold starts_markup. cbv beta in Hc. rewrite Hc. reflexivity.
Qed.

Lemma line_end_spec tail :
  line_end tail = true -> tail = [] \/ exists rest, tail = LF :: rest.
Proof.
  destruct tail as [|c rest]; [auto|]. cbn [line_end]. intros H.
  apply N.eqb_eq in H. subst c. eauto.
Qed.

Lemma exec_heading_match_at n t p tail :
  at_start p = true -> heading_text t = true -> line_end tail = true ->
  exec true (HEADING_REGEX n) p (heading_line n t ++ tail)
  = Some (RMatch (heading_line n t) [(1%nat, t)] tail).
Proof.
  intros Hst Ht Htail. apply heading_text_spec in Ht as (c & t' & -> & Hc & Hp).
  apply text_is_dot in Hp. cbn [forallb] in Hp. apply andb_true_iff in Hp as [Hd Hp].
  assert (Hbol : at_bol true (MState p (heading_line n (c :: t') ++ tail) []) = true).
  { unfold at_bol. cbn [prev]. destruct p as [x|]; [exact Hst | reflexivity]. }
  assert (E : exists pr,
    matcher true (HEADING_REGEX n) Some
      (MState p (heading_line n (c :: t') ++ tail) [])
    = Some (MState pr tail [(1%nat, c :: t')])).
  { eexists. unfold HEADING_REGEX. cbn [Cat].
    rewrite matcher_Seq, matcher_Bol, Hbol. unfold heading_line.
    rewrite <- app_assoc. rewrite matcher_Seq.
    rewrite matcher_times_run. unfold Plus. cbn [app]. mstep. cbv beta. rewrite Hc, Hd.
    eapply greedy_run_stop; [exact Hp | |].
    - apply line_end_spec in Htail as [-> | [rest ->]]; [exact I | reflexivity].
    - mstep. unfold capture. cbn [rest prev caps].
      change (c :: t' ++ tail) with ((c :: t') ++ tail). rewrite take_app_sub.
      apply line_end_spec in Htail as [-> | [rest' ->]]; reflexivity. }
  destruct E as [pr E]. apply (exec_rest _ _ _ _ _ _ E). reflexivity.
Qed.

Lemma exec_heading_fewer_at k n t p tail :
  (n < k)%nat -> exec true (HEADING_REGEX k) p (heading_line n t ++ tail) = None.
Proof.
  intros H. unfold exec, HEADING_REGEX, heading_line. cbn [Cat].
  rewrite <- app_assoc. cbn [app].
  rewrite matcher_Seq, matcher_Bol. destruct (at_bol _ _); [|reflexivity].
  rewrite matcher_Seq.
  rewrite matcher_times_short; [reflexivity | exact H | reflexivity].
Qed.

Lemma heading_go_match k f t p tail :
  at_start p = true -> heading_text t = true -> line_end tail = true ->
  replace_go true (HEADING_REGEX k) f 0 p (heading_line k t ++ tail)
  = f (RMatch (heading_line k t) [(1%nat, t)] tail)
    ++ replace_go true (HEADING_REGEX k) f 0 (last_or p (heading_line k t)) tail.
Proof.
  intros Hp Ht Htail. apply replace_go_match; [apply heading_line_nonempty|].
  apply exec_heading_match_at; assumption.
Qed.

Lemma no_line_starts_dots q s :
  forallb is_dot s = true -> no_line_starts q false s = true.
Proof.
  intros H. rewrite <- (app_nil_r s), no_line_starts_mid by exact H. reflexivity.
Qed.

Lemma heading_go_fewer k f n t p tail :
  (1 <= n < S k)%nat -> forallb text_char t = true ->
  replace_go true (HEADING_REGEX (S k)) f 0 p (heading_line n t ++ tail)
  = heading_line n t
    ++ replace_go true (HEADING_REGEX (S k)) f 0 (last_or p (heading_line n t)) tail.
Proof.
  intros Hn Ht.
  pose proof (exec_heading_fewer_at (S k) n t p tail ltac:(lia)) as E.
  assert (Hdot : forallb is_dot (heading_line n t) = true).
  { apply heading_line_chars; [reflexivity | reflexivity | apply text_is_dot, Ht]. }
  revert E Hdot. unfold heading_line. destruct n as [|n]; [lia|].
  cbn [repeat app forallb]. intros E Hdot. apply andb_true_iff in Hdot as [_ Hdot].
  rewrite <- app_assoc in E. cbn [app] in E.
  rewrite <- app_assoc. cbn [app].
  rewrite (replace_go_nomatch _ _ _ _ _ _ E).
  pose proof (heading_go_inert k f (repeat 35 n ++ 32 :: t) (Some 35) tail) as H.
  rewrite <- app_assoc in H. cbn [app] in H. rewrite H.
  - rewrite last_or_cons. reflexivity.
  - apply no_line_starts_dots, Hdot.
Qed.

Lemma last_or_dots p s :
  s <> [] -> forallb is_dot s = true ->
  exists c, last_or p s = Some c /\ is_line_terminator c = false.
Proof.
  intros Hne Hs. destruct (last_or p s) as [c|] eqn:E.
  - exists c. split; [reflexivity|]. eapply last_or_dot; eassumption.
  - exfalso. unfold last_or in E. destruct (last s) eqn:E'; [discriminate|].
    apply last_None in E'. contradiction.
Qed.

Lemma last_or_no_space p s :
  s <> [] -> ends_space s = false ->
  exists c, last_or p s = Some c /\ is_line_terminator c = false.
Proof.
  intros Hne He. unfold last_or, ends_space in *.
  destruct (last s) as [c|] eqn:E.
  - exists c. split; [reflexivity|].
    unfold is_space, is_line_terminator in *. class_cases.
  - apply last_None in E. contradiction.
Qed.

Lemma last_or_feeds p m : last_or p (line_feeds m) = Some LF.
Proof.
  unfold line_feeds. rewrite last_or_cons.
  induction m as [|m IH]; [reflexivity|]. cbn [repeat]. rewrite last_or_cons. exact IH.
Qed.

Lemma no_line_starts_feeds m s :
  no_line_starts starts_markup false (line_feeds m ++ s)
  = no_line_starts starts_markup true s.
Proof.
  unfold line_feeds. cbn [app no_line_starts].
  change (is_line_terminator LF) with true. cbn [andb negb].
  induction m as [|m IH]; [reflexivity|].
  cbn [repeat app no_line_starts]. change (is_line_terminator LF) with true.
  change (starts_markup LF) with false. cbn [andb negb]. exact IH.
Qed.

Lemma heading_go_feeds k f c m rest :
  is_line_terminator c = false ->
  replace_go true (HEADING_REGEX (S k)) f 0 (Some c) (line_feeds m ++ rest)
  = line_feeds m ++ replace_go true (HEADING_REGEX (S k)) f 0 (Some LF) rest.
Proof.
  intros Hc. rewrite heading_go_inert.
  - rewrite last_or_feeds. reflexivity.
  - cbn [at_start]. rewrite Hc. rewrite <- (app_nil_r (line_feeds m)).
    rewrite no_line_starts_feeds. reflexivity.
Qed.

Lemma block_ok_heading n t :
  block_ok (Heading n t) = true ->
  (1 <= n <= 4)%nat /\ heading_text t = true /\ forallb text_char t = true.
Proof.
  cbn [block_ok]. intros H. apply andb_true_iff in H as [H Ht].
  apply andb_true_iff in H as [H1 H4].
  apply Nat.leb_le in H1, H4.
  pose proof (heading_text_spec t Ht) as (c & t' & _ & _ & Hp). auto.
Qed.

Lemma stage_step k f b p tail :
  (forall t tl, f (RMatch (heading_line (S k) t) [(1%nat, t)] tl) = h_element (S k) t) ->
  at_start p = true -> block_ok b = true -> line_end tail = true ->
  exists c,
    is_line_terminator c = false
    /\ replace_go true (HEADING_REGEX (S k)) f 0 p (stage (S k) b ++ tail)
       = stage k b ++ replace_go true (HEADING_REGEX (S k)) f 0 (Some c) tail.
Proof.
  intros Hf Hp Hb Htail. destruct b as [n t | ls].
  - apply block_ok_heading in Hb as (Hn & Ht & Htc). cbn [stage].
    destruct (lt_eq_lt_dec n (S k)) as [[Hlt | Heq] | Hgt].
    + assert (E1 : (S k <? n)%nat = false) by (apply Nat.ltb_ge; lia).
      assert (E2 : (k <? n)%nat = false) by (apply Nat.ltb_ge; lia).
      rewrite E1, E2.
      destruct (last_or_dots p (heading_line n t)) as (c & Hc & Hlt').
      { apply heading_line_nonempty. }
      { apply heading_line_chars; [reflexivity | reflexivity | apply text_is_dot, Htc]. }
      exists c. split; [exact Hlt'|].
      rewrite heading_go_fewer by (try lia; exact Htc). rewrite Hc. reflexivity.
    + subst n.
      assert (E1 : (S k <? S k)%nat = false) by (apply Nat.ltb_irrefl).
      assert (E2 : (k <? S k)%nat = true) by (apply Nat.ltb_lt; lia).
      rewrite E1, E2.
      destruct (last_or_dots p (heading_line (S k) t)) as (c & Hc & Hlt').
      { apply heading_line_nonempty. }
      { apply heading_line_chars; [reflexivity | reflexivity | apply text_is_dot, Htc]. }
      exists c. split; [exact Hlt'|].
      rewrite heading_go_match by assumption. rewrite Hf, Hc. reflexivity.
    + assert (E1 : (S k <? n)%nat = true) by (apply Nat.ltb_lt; lia).
      assert (E2 : (k <? n)%nat = true) by (apply Nat.ltb_lt; lia).
      rewrite E1, E2.
      destruct (last_or_dots p (h_element n t)) as (c & Hc & Hlt').
      { unfold h_element. discriminate. }
      { apply h_element_dot; [lia | exact Htc]. }
      exists c. split; [exact Hlt'|].
      rewrite heading_go_inert.
      * rewrite Hc. reflexivity.
      * rewrite Hp. apply h_element_no_start; [lia | exact Htc].
  - cbn [block_ok] in Hb. cbn [stage].
    pose proof Hb as Hb'. unfold text_paragraph in Hb'.
    destruct ls as [|l ls]; [discriminate|].
    destruct (last_or_no_space p (join [LF] (l :: ls))) as (c & Hc & Hlt).
    { destruct (join_head l ls) as (x & r & -> & _).
      - cbn [forallb] in Hb'. apply andb_true_iff in Hb' as [Hl _]. exact Hl.
      - discriminate. }
    { apply join_last, Hb'. }
    exists c. split; [exact Hlt|].
    rewrite heading_go_inert.
    + rewrite Hc. reflexivity.
    + rewrite Hp. rewrite <- (app_nil_r (join [LF] (l :: ls))).
      rewrite (no_line_starts_lines l ls [] Hb'). reflexivity.
Qed.

Lemma heading_go_nil k f p : replace_go true (HEADING_REGEX (S k)) f 0 p [] = [].
Proof.
  cbn [replace_go].
  rewrite (exec_first_char _ _ 35); [reflexivity | apply first_char_heading | discriminate].
Qed.

Lemma heading_pass_document k f m bs : forall b p,
  (forall t tl, f (RMatch (heading_line (S k) t) [(1%nat, t)] tl) = h_element (S k) t) ->
  at_start p = true -> forallb block_ok (b :: bs) = true ->
  replace_go true (HEADING_REGEX (S k)) f 0 p
    (join (line_feeds m) (map (stage (S k)) (b :: bs)))
  = join (line_feeds m) (map (stage k) (b :: bs)).
Proof.
  induction bs as [|b' bs IH]; intros b p Hf Hp Hb;
    cbn [forallb] in Hb; apply andb_true_iff in Hb as [Hb Hbs].
  - cbn [map join].
    destruct (stage_step k f b p [] Hf Hp Hb eq_refl) as (c & _ & E).
    rewrite app_nil_r in E. rewrite E, heading_go_nil. apply app_nil_r.
  - cbn [map]. rewrite !join_cons2.
    destruct (stage_step k f b p
                (line_feeds m ++ join (line_feeds m) (stage (S k) b' :: map (stage (S k)) bs))
                Hf Hp Hb eq_refl) as (c & Hc & E).
    rewrite E. f_equal. rewrite (heading_go_feeds k f c m _ Hc). f_equal.
    apply (IH b' (Some LF) Hf eq_refl Hbs).
Qed.

Lemma heading_passes_blocks m b bs :
  forallb block_ok (b :: bs) = true ->
  heading_passes (join (line_feeds m) (map block_text (b :: bs)))
  = join (line_feeds m) (map (stage 0) (b :: bs)).
Proof.
  intros Hb. unfold heading_passes, replace_all.
  assert (E : map block_text (b :: bs) = map (stage 4) (b :: bs)).
  { apply map_ext_in. intros x Hx. rewrite forallb_forall in Hb.
    specialize (Hb x Hx). destruct x as [n t | ls]; [|reflexivity].
    apply block_ok_heading in Hb as (Hn & _). cbn [block_text stage].
    assert (E4 : (4 <? n)%nat = false) by (apply Nat.ltb_ge; lia).
    rewrite E4. reflexivity. }
  rewrite E.
  rewrite (heading_pass_document 3 _ m bs b None) by (auto; reflexivity).
  rewrite (heading_pass_document 2 _ m bs b None) by (auto; reflexivity).
  rewrite (heading_pass_document 1 _ m bs b None) by (auto; reflexivity).
  apply (heading_pass_document 0 _ m bs b None); auto; reflexivity.
Qed.

Lemma starts_with_sep p c a rest :
  forallb (fun d : char => negb (d =? c)) p = true ->
  starts_with p (a ++ c :: rest) = starts_with p a.
Proof.
  revert a. induction p as [|x p IH]; intros a Hp; [destruct a; reflexivity|].
  cbn [forallb] in Hp. apply andb_true_iff in Hp as [Hx Hp].
  destruct a as [|y a]; cbn [app starts_with].
  - apply negb_true_iff in Hx. rewrite Hx. reflexivity.
  - rewrite (IH a Hp). reflexivity.
Qed.

Lemma occurs_sep p c a rest :
  p <> [] -> forallb (fun d : char => negb (d =? c)) p = true ->
  occurs p (a ++ c :: rest) = occurs p a || occurs p rest.
Proof.
  intros Hne Hp. induction a as [|y a IH].
  - destruct p as [|x p]; [contradiction|]. cbn [app occurs starts_with].
    cbn [forallb] in Hp. apply andb_true_iff in Hp as [Hx _].
    apply negb_true_iff in Hx. rewrite Hx. reflexivity.
  - change ((y :: a) ++ c :: rest) with (y :: (a ++ c :: rest)).
    change (occurs p (y :: a ++ c :: rest))
      with (starts_with p (y :: a ++ c :: rest) || occurs p (a ++ c :: rest)).
    change (occurs p (y :: a)) with (starts_with p (y :: a) || occurs p a).
    rewrite IH. change (y :: a ++ c :: rest) with ((y :: a) ++ c :: rest).
    rewrite (starts_with_sep p c (y :: a) rest Hp). apply orb_assoc.
Qed.

Lemma h_element_no_li n t :
  (1 <= n <= 4)%nat -> forallb text_char t = true ->
  occurs (U "<li>") (h_element n t) = false.
Proof.
  intros Hn Hp. unfold h_element. change (U "<li>") with [60; 108; 105; 62].
  change (U "<h") with [60; 104]. change (U ">") with [62].
  change (U "</h") with [60; 47; 104].
  assert (E1 : (60 =? 48 + N.of_nat n) = false).
  { destruct n as [|[|[|[|[|n]]]]]; try lia; reflexivity. }
  cbn [app occurs starts_with].
  change (60 =? 60) with true. change (108 =? 104) with false.
  change (60 =? 104) with false. change (60 =? 62) with false.
  rewrite E1. cbn [andb orb].
  rewrite (occurs_skip _ 60 t); [|reflexivity|apply text_no; [auto 6|exact Hp]].
  cbn [app occurs starts_with]. rewrite E1. reflexivity.
Qed.

Lemma h_element_no (x : char) n t :
  (x = 96 \/ x = 42 \/ x = 91 \/ x = LF) ->
  (1 <= n <= 4)%nat -> forallb text_char t = true ->
  forallb (fun d => negb (d =? x)) (h_element n t) = true.
Proof.
  intros Hx Hn Ht. apply h_element_chars.
  - destruct n as [|[|[|[|[|n]]]]]; try lia;
      destruct Hx as [-> | [-> | [-> | ->]]]; reflexivity.
  - apply text_no; [|exact Ht]. destruct Hx as [-> | [-> | [-> | ->]]]; auto 6.
Qed.

Lemma stage0_no (x : char) b :
  (x = 96 \/ x = 42 \/ x = 91) -> block_ok b = true ->
  forallb (fun d => negb (d =? x)) (stage 0 b) = true.
Proof.
  intros Hx Hb. destruct b as [n t | ls].
  - apply block_ok_heading in Hb as (Hn & _ & Ht). cbn [stage].
    assert (E : (0 <? n)%nat = true) by (apply Nat.ltb_lt; lia). rewrite E.
    apply h_element_no; [tauto | exact Hn | exact Ht].
  - cbn [block_ok stage] in *. apply text_paragraph_chars; [| |exact Hb].
    + intros c Hc. apply text_char_spec in Hc as (_ & H96 & H42 & H91 & _).
      destruct Hx as [-> | [-> | ->]]; rewrite ?H96, ?H42, ?H91; reflexivity.
    + destruct Hx as [-> | [-> | ->]]; reflexivity.
Qed.

Lemma block_text_no_backtick b :
  block_ok b = true -> forallb (fun d => negb (d =? 96)) (block_text b) = true.
Proof.
  intros Hb. destruct b as [n t | ls].
  - apply block_ok_heading in Hb as (_ & _ & Ht). cbn [block_text].
    apply heading_line_chars; [reflexivity | reflexivity | apply text_no; auto].
  - cbn [block_ok block_text] in *. apply text_paragraph_chars; [|reflexivity|exact Hb].
    intros c Hc. apply text_char_spec in Hc as (_ & -> & _). reflexivity.
Qed.

Lemma line_feeds_chars (q : char -> bool) m : q LF = true -> forallb q (line_feeds m) = true.
Proof.
  intros Hq. unfold line_feeds. cbn [forallb]. rewrite Hq. cbn [andb].
  induction m as [|m IH]; [reflexivity|]. cbn [repeat forallb]. rewrite Hq. exact IH.
Qed.

Lemma blocks_chars (q : char -> bool) (g : block -> str) m bs :
  q LF = true ->
  (forall b, block_ok b = true -> forallb q (g b) = true) ->
  forallb block_ok bs = true ->
  forallb q (join (line_feeds m) (map g bs)) = true.
Proof.
  intros Hlf Hg Hb. apply forallb_join; [apply line_feeds_chars, Hlf|].
  apply List.Forall_forall. intros s Hs. apply in_map_iff in Hs as (b & <- & Hin).
  rewrite forallb_forall in Hb. apply Hg, Hb, Hin.
Qed.

Lemma stage0_no_start b s :
  block_ok b = true ->
  no_line_starts starts_markup true (stage 0 b ++ s)
  = no_line_starts starts_markup false s.
Proof.
  intros Hb. destruct b as [n t | ls].
  - apply block_ok_heading in Hb as (Hn & _ & Ht). cbn [stage].
    assert (E : (0 <? n)%nat = true) by (apply Nat.ltb_lt; lia). rewrite E.
    pose proof (h_element_dot n t ltac:(lia) Ht) as Hdot.
    assert (Eh : exists R, h_element n t = 60 :: R).
    { unfold h_element. change (U "<h") with [60; 104]. cbn [app]. eauto. }
    destruct Eh as [R Eh]. rewrite Eh in *.
    cbn [forallb] in Hdot. apply andb_true_iff in Hdot as [_ Hdot].
    change ((60 :: R) ++ s) with (60 :: (R ++ s)).
    change (no_line_starts starts_markup true (60 :: R ++ s))
      with (negb (true && starts_markup 60)
            && no_line_starts starts_markup (is_line_terminator 60) (R ++ s)).
    change (starts_markup 60) with false.
    change (is_line_terminator 60) with false. cbn [andb negb].
    apply no_line_starts_mid, Hdot.
  - cbn [block_ok stage] in *. unfold text_paragraph in Hb.
    destruct ls as [|l ls]; [discriminate|]. apply no_line_starts_lines, Hb.
Qed.

Lemma stage0_blocks_no_start m bs : forall b,
  forallb block_ok (b :: bs) = true ->
  no_line_starts starts_markup true (join (line_feeds m) (map (stage 0) (b :: bs)))
  = true.
Proof.
  induction bs as [|b' bs IH]; intros b Hb;
    cbn [forallb] in Hb; apply andb_true_iff in Hb as [Hb Hbs].
  - cbn [map join]. rewrite <- (app_nil_r (stage 0 b)).
    rewrite (stage0_no_start b [] Hb). reflexivity.
  - cbn [map]. rewrite join_cons2.
    rewrite (stage0_no_start b _ Hb), no_line_starts_feeds.
    apply (IH b' Hbs).
Qed.

Lemma stage0_no_li b :
  block_ok b = true -> occurs (U "<li>") (stage 0 b) = false.
Proof.
  intros Hb. destruct b as [n t | ls].
  - apply block_ok_heading in Hb as (Hn & _ & Ht). cbn [stage].
    assert (E : (0 <? n)%nat = true) by (apply Nat.ltb_lt; lia). rewrite E.
    apply h_element_no_li; assumption.
  - cbn [block_ok stage] in *. apply (occurs_no_head _ 60); [reflexivity|].
    apply text_paragraph_chars; [|reflexivity|exact Hb].
    intros c Hc. apply text_char_spec in Hc as (_ & _ & _ & _ & -> & _). reflexivity.
Qed.

Lemma stage0_blocks_no_li m bs : forall b,
  forallb block_ok (b :: bs) = true ->
  occurs (U "<li>") (join (line_feeds m) (map (stage 0) (b :: bs))) = false.
Proof.
  induction bs as [|b' bs IH]; intros b Hb;
    cbn [forallb] in Hb; apply andb_true_iff in Hb as [Hb Hbs].
  - cbn [map join]. apply stage0_no_li, Hb.
  - cbn [map]. rewrite join_cons2. unfold line_feeds at 1. cbn [app].
    rewrite (occurs_sep (U "<li>") LF); [|discriminate|reflexivity].
    rewrite (stage0_no_li b Hb). cbn [orb].
    rewrite (occurs_skip (U "<li>") 60 (repeat LF m)); [apply (IH b' Hbs)|reflexivity|].
    clear. induction m as [|m IH]; [reflexivity|]. cbn [repeat forallb].
    change (negb (LF =? 60)) with true. exact IH.
Qed.

Lemma stage0_block b :
  block_ok b = true ->
  occurs [LF; LF] (stage 0 b) = false
  /\ last (stage 0 b) <> Some LF
  /\ match stage 0 b with [] => False | c :: _ => (LF =? c) = false end.
Proof.
  intros Hb. destruct b as [n t | ls].
  - apply block_ok_heading in Hb as (Hn & _ & Ht). cbn [stage].
    assert (E : (0 <? n)%nat = true) by (apply Nat.ltb_lt; lia). rewrite E.
    split; [|split].
    + apply (occurs_no_head _ LF); [reflexivity|]. apply h_element_no; auto.
    + unfold h_element. change (U ">") with [62]. rewrite !app_assoc.
      rewrite last_snoc. discriminate.
    + reflexivity.
  - cbn [block_ok stage] in *. apply text_paragraph_block, Hb.
Qed.

Lemma paragraph_stage0 b :
  block_ok b = true -> paragraph (stage 0 b) = block_html b.
Proof.
  intros Hb. destruct b as [n t | ls].
  - apply block_ok_heading in Hb as (Hn & _ & Ht). cbn [stage block_html].
    assert (E : (0 <? n)%nat = true) by (apply Nat.ltb_lt; lia). rewrite E.
    unfold paragraph. rewrite trim_id.
    + assert (Et : test false BLOCK_TAG_REGEX (h_element n t) = true).
      { destruct n as [|[|[|[|[|n]]]]]; try lia; vm_compute; reflexivity. }
      rewrite Et. unfold h_element. reflexivity.
    + reflexivity.
    + unfold h_element. rewrite !app_assoc. apply ends_space_app.
  - cbn [block_ok stage block_html] in *. apply paragraph_text, Hb.
Qed.

Lemma markdownToHtml_document j b bs :
  forallb block_ok (b :: bs) = true ->
  markdownToHtml (document j (b :: bs)) = join [LF] (map block_html (b :: bs)).
Proof.
  intros Hb. unfold markdownToHtml, document.
  change (blank_lines j) with (line_feeds (S j)).
  rewrite inline_passes_stages.
  rewrite code_passes_absent.
  2:{ apply blocks_chars; [reflexivity | | exact Hb]. apply block_text_no_backtick. }
  rewrite (heading_passes_blocks (S j) b bs Hb).
  rewrite emphasis_passes_absent.
  2:{ apply blocks_chars; [reflexivity | | exact Hb]. intros x. apply stage0_no. auto. }
  rewrite line_passes_no_start by (apply stage0_blocks_no_start, Hb).
  rewrite link_pass_absent.
  2:{ apply blocks_chars; [reflexivity | | exact Hb]. intros x. apply stage0_no. auto. }
  rewrite wrap_lists_no_li by (apply stage0_blocks_no_li, Hb).
  change (line_feeds (S j)) with (blank_lines j).
  unfold wrap_paragraphs. cbn [map]. rewrite split_re_blocks.
  - f_equal.
    change (map paragraph (map (stage 0) (b :: bs)) = map block_html (b :: bs)).
    rewrite List.map_map. apply map_ext_in. intros x Hx.
    rewrite forallb_forall in Hb. apply paragraph_stage0, Hb, Hx.
  - change (stage 0 b :: map (stage 0) bs) with (map (stage 0) (b :: bs)).
    apply List.Forall_forall. intros s Hs. apply in_map_iff in Hs as (x & <- & Hx).
    rewrite forallb_forall in Hb. apply stage0_block, Hb, Hx.
Qed.

(** ** Blocks without an empty line between them *)

Lemma join_app (sep : str) a b :
  a <> [] -> b <> [] -> join sep (a ++ b) = join sep a ++ sep ++ join sep b.
Proof.
  intros Ha Hb. induction a as [|x a IH]; [contradiction|].
  destruct a as [|y a].
  - destruct b as [|z b]; [contradiction|]. cbn [app]. rewrite join_cons2. reflexivity.
  - change ((x :: y :: a) ++ b) with (x :: y :: (a ++ b)).
    rewrite !join_cons2. change (y :: a ++ b) with ((y :: a) ++ b).
    rewrite IH by discriminate. rewrite <- !app_assoc. reflexivity.
Qed.

Lemma join_concat (sep : str) ls : forall l,
  Forall (fun x => x <> []) (l :: ls) ->
  join sep (map (join sep) (l :: ls)) = join sep (concat (l :: ls)).
Proof.
  induction ls as [|l' ls IH]; intros l H.
  - cbn [map concat join]. rewrite app_nil_r. reflexivity.
  - apply Forall_cons_iff in H as [Hl H]. cbn [map]. rewrite join_cons2.
    change (join sep (join sep l' :: map (join sep) ls))
      with (join sep (map (join sep) (l' :: ls))).
    rewrite (IH l' H).
    change (concat (l :: l' :: ls)) with (l ++ concat (l' :: ls)).
    rewrite join_app; [reflexivity | exact Hl |].
    apply Forall_cons_iff in H as [Hl' _]. cbn [concat].
    destruct l'; [contradiction | discriminate].
Qed.

Lemma solid_spec l :
  solid l = true ->
  exists c t, l = c :: t /\ forallb (fun d : char => negb (d =? LF)) l = true
              /\ is_space c = false /\ ends_space l = false.
Proof.
  unfold solid. destruct l as [|c t]; [discriminate|]. intros H.
  apply andb_true_iff in H as [H He]. apply andb_true_iff in H as [Hlf Hs].
  apply negb_true_iff in Hs, He. eauto 6.
Qed.

Lemma text_line_solid l : text_line l = true -> solid l = true.
Proof.
  intros H. apply text_line_spec in H as (c & t & -> & Hp & Hs & He).
  apply line_start_spec in Hs as (Hs & _). unfold solid.
  rewrite (text_no LF _ ltac:(auto 6) Hp), He. cbn [starts_space]. rewrite Hs. reflexivity.
Qed.

Lemma h_element_solid n t :
  (1 <= n <= 4)%nat -> forallb text_char t = true -> solid (h_element n t) = true.
Proof.
  intros Hn Ht. pose proof (h_element_no LF n t ltac:(auto) Hn Ht) as Hlf.
  assert (He : ends_space (h_element n t) = false).
  { unfold h_element. rewrite !app_assoc. apply ends_space_app. }
  revert Hlf He. unfold h_element. change (U "<h") with [60; 104]. cbn [app].
  intros Hlf He. unfold solid. rewrite Hlf, He. reflexivity.
Qed.

Lemma stage0_lines b :
  block_ok b = true ->
  stage 0 b = join [LF] (html_lines b)
  /\ html_lines b <> [] /\ forallb solid (html_lines b) = true.
Proof.
  intros Hb. destruct b as [n t | ls].
  - apply block_ok_heading in Hb as (Hn & _ & Ht). cbn [stage html_lines].
    assert (E : (0 <? n)%nat = true) by (apply Nat.ltb_lt; lia). rewrite E.
    split; [reflexivity|]. split; [discriminate|]. cbn [forallb].
    rewrite (h_element_solid n t Hn Ht). reflexivity.
  - cbn [block_ok stage html_lines] in *. split; [reflexivity|].
    unfold text_paragraph in Hb. destruct ls as [|l ls]; [discriminate|].
    split; [discriminate|]. eapply forallb_weaken; [|exact Hb]. apply text_line_solid.
Qed.

Lemma solid_join_head l ls :
  solid l = true -> exists c t, join [LF] (l :: ls) = c :: t /\ is_space c = false.
Proof.
  intros H. apply solid_spec in H as (c & t & -> & _ & Hs & _).
  destruct ls as [|l' ls]; [cbn [join] | rewrite join_cons2; cbn [app]]; eauto.
Qed.

Lemma solid_join_last ls : forall l,
  forallb solid (l :: ls) = true -> ends_space (join [LF] (l :: ls)) = false.
Proof.
  induction ls as [|l' ls IH]; intros l H; cbn [forallb] in H;
    apply andb_true_iff in H as [Hl Hls].
  - apply solid_spec in Hl as (c & t & _ & _ & _ & He). exact He.
  - rewrite join_cons2. specialize (IH l' Hls). unfold ends_space in *.
    cbn [forallb] in Hls. apply andb_true_iff in Hls as [Hl' _].
    destruct (solid_join_head l' ls Hl') as (c & t & E & _).
    cbn [app]. rewrite last_app_cons, E in *. exact IH.
Qed.

Lemma solid_join_no_blank ls : forall l,
  forallb solid (l :: ls) = true -> occurs [LF; LF] (join [LF] (l :: ls)) = false.
Proof.
  induction ls as [|l' ls IH]; intros l H; cbn [forallb] in H;
    apply andb_true_iff in H as [Hl Hls];
    apply solid_spec in Hl as (c0 & t0 & _ & Hp & _).
  - cbn [join]. rewrite <- (app_nil_r l). rewrite occurs_blank_skip; [reflexivity|].
    exact Hp.
  - rewrite join_cons2, occurs_blank_skip; [|exact Hp].
    specialize (IH l' Hls). cbn [forallb] in Hls.
    apply andb_true_iff in Hls as [Hl' _].
    destruct (solid_join_head l' ls Hl') as (c & t & E & Hc).
    assert (Hlf : (LF =? c) = false).
    { destruct (N.eqb_spec LF c) as [Ec|]; [|reflexivity].
      rewrite <- Ec in Hc. discriminate. }
    rewrite E in *. cbn [app occurs starts_with] in *.
    rewrite Hlf in IH |- *. cbn [andb orb] in IH |- *.
    rewrite andb_false_r. exact IH.
Qed.

Lemma solid_to_blanks ls : forall l,
  forallb solid (l :: ls) = true ->
  replace_all false (Chr LF) (fun _ => U " ") (join [LF] (l :: ls))
  = join (U " ") (l :: ls).
Proof.
  unfold replace_all. intros l. rewrite replace_chr. revert l.
  assert (Hline : forall l, solid l = true ->
            flat_map (fun x => if LF =? x then U " " else [x]) l = l).
  { intros l0 H. apply solid_spec in H as (c0 & t0 & _ & Hp & _). clear c0 t0.
    induction l0 as [|c l0 IH]; [reflexivity|]. cbn [forallb] in Hp.
    apply andb_true_iff in Hp as [Hc Hp]. cbn [flat_map]. rewrite (IH Hp).
    apply negb_true_iff in Hc. rewrite N.eqb_sym, Hc. reflexivity. }
  induction ls as [|l' ls IH]; intros l H; cbn [forallb] in H;
    apply andb_true_iff in H as [Hl Hls].
  - cbn [join]. apply Hline, Hl.
  - rewrite !join_cons2, flat_map_app, (Hline l Hl). cbn [app flat_map].
    rewrite N.eqb_refl, (IH l' Hls). reflexivity.
Qed.

Lemma paragraph_solid l ls :
  forallb solid (l :: ls) = true ->
  paragraph (join [LF] (l :: ls))
  = if test false BLOCK_TAG_REGEX (join [LF] (l :: ls)) then join [LF] (l :: ls)
    else U "<p>" ++ join (U " ") (l :: ls) ++ U "</p>".
Proof.
  intros H. pose proof H as H0. cbn [forallb] in H0.
  apply andb_true_iff in H0 as [Hl _].
  destruct (solid_join_head l ls Hl) as (c & t & E & Hc).
  unfold paragraph.
  rewrite trim_id; [| rewrite E; exact Hc | apply solid_join_last, H].
  rewrite (solid_to_blanks ls l H). rewrite E. reflexivity.
Qed.

Lemma blocks_lines bs : forall b,
  forallb block_ok (b :: bs) = true ->
  join [LF] (map (stage 0) (b :: bs)) = join [LF] (concat (map html_lines (b :: bs)))
  /\ forallb solid (concat (map html_lines (b :: bs))) = true.
Proof.
  intros b Hb. split.
  - assert (E : map (stage 0) (b :: bs) = map (join [LF]) (map html_lines (b :: bs))).
    { rewrite List.map_map. apply map_ext_in. intros x Hx.
      rewrite forallb_forall in Hb. apply stage0_lines, Hb, Hx. }
    rewrite E. cbn [map]. apply join_concat.
    change (html_lines b :: map html_lines bs) with (map html_lines (b :: bs)).
    apply List.Forall_forall. intros ls Hls. apply in_map_iff in Hls as (x & <- & Hx).
    rewrite forallb_forall in Hb. apply stage0_lines, Hb, Hx.
  - apply forallb_forall. intros l Hl. apply in_concat in Hl as (ls & Hls & Hl).
    apply in_map_iff in Hls as (x & <- & Hx).
    rewrite forallb_forall in Hb. destruct (stage0_lines x (Hb x Hx)) as (_ & _ & Hs).
    rewrite forallb_forall in Hs. apply Hs, Hl.
Qed.

Lemma markdownToHtml_run_on b bs :
  forallb block_ok (b :: bs) = true ->
  markdownToHtml (join [LF] (map block_text (b :: bs)))
  = match b with
    | Heading _ _ => join [LF] (concat (map html_lines (b :: bs)))
    | Paragraph _ =>
        U "<p>" ++ join (U " ") (concat (map html_lines (b :: bs))) ++ U "</p>"
    end.
Proof.
  intros Hb. unfold markdownToHtml.
  change [LF] with (line_feeds 0). rewrite inline_passes_stages.
  rewrite code_passes_absent.
  2:{ apply blocks_chars; [reflexivity | | exact Hb]. apply block_text_no_backtick. }
  rewrite (heading_passes_blocks 0 b bs Hb).
  rewrite emphasis_passes_absent.
  2:{ apply blocks_chars; [reflexivity | | exact Hb]. intros x. apply stage0_no. auto. }
  rewrite line_passes_no_start by (apply stage0_blocks_no_start, Hb).
  rewrite link_pass_absent.
  2:{ apply blocks_chars; [reflexivity | | exact Hb]. intros x. apply stage0_no. auto. }
  rewrite wrap_lists_no_li by (apply stage0_blocks_no_li, Hb).
  change (line_feeds 0) with [LF].
  destruct (blocks_lines bs b Hb) as [E Hs]. rewrite E.
  pose proof Hb as Hb0. cbn [forallb] in Hb0. apply andb_true_iff in Hb0 as [Hb0 _].
  destruct (stage0_lines b Hb0) as (_ & Hne & _).
  destruct (concat (map html_lines (b :: bs))) as [|l ls] eqn:El.
  { exfalso. cbn [map concat] in El. apply app_eq_nil in El as [El _]. contradiction. }
  unfold wrap_paragraphs. rewrite split_re_none.
  - cbn [map join]. rewrite (paragraph_solid l ls Hs).
    assert (Et : test false BLOCK_TAG_REGEX (join [LF] (l :: ls))
                 = match b with Heading _ _ => true | Paragraph _ => false end).
    { rewrite <- E. cbn [map]. destruct b as [n t | ps].
      - apply block_ok_heading in Hb0 as (Hn & _ & _). cbn [stage].
        assert (E0 : (0 <? n)%nat = true) by (apply Nat.ltb_lt; lia). rewrite E0.
        destruct bs as [|b' bs'].
        + cbn [map join]. destruct n as [|[|[|[|[|n]]]]]; try lia; vm_compute; reflexivity.
        + cbn [map]. rewrite join_cons2.
          destruct n as [|[|[|[|[|n]]]]]; try lia; vm_compute; reflexivity.
      - cbn [block_ok stage] in *. unfold text_paragraph in Hb0.
        destruct ps as [|p ps]; [discriminate|]. cbn [forallb] in Hb0.
        apply andb_true_iff in Hb0 as [Hp _].
        destruct (join_head p ps Hp) as (c & t & Ep & _ & Hc).
        apply text_char_spec in Hc as (_ & _ & _ & _ & H60 & _).
        apply test_block_tag_other.
        destruct bs as [|b' bs'].
        + change (join [LF] (map (stage 0) [Paragraph (p :: ps)]))
            with (join [LF] (p :: ps)).
          rewrite Ep. cbn [map join]. rewrite N.eqb_sym. exact H60.
        + cbn [map]. rewrite join_cons2. cbn [stage]. rewrite Ep. cbn [app].
          cbv iota. rewrite N.eqb_sym. exact H60. }
    rewrite Et. destruct b; reflexivity.
  - destruct (solid_join_head l ls) as (c & t & -> & _); [|discriminate].
    cbn [forallb] in Hs. apply andb_true_iff in Hs as [Hl _]. exact Hl.
  - apply solid_join_no_blank, Hs.
Qed.

(** ** Windows line ends *)

Lemma text_or_empty_chars (q : char -> bool) ls :
  (forall c, text_char c = true -> q c = true) ->
  forallb text_or_empty ls = true ->
  Forall (fun l => forallb q l = true) ls.
Proof.
  intros Hq H. apply List.Forall_forall. intros l Hl.
  rewrite forallb_forall in H. specialize (H l Hl).
  destruct l as [|c t]; [reflexivity|]. cbn [text_or_empty] in H.
  apply text_line_spec in H as (c' & t' & _ & Hp & _).
  eapply forallb_weaken; [exact Hq | exact Hp].
Qed.

Lemma crlf_chars (q : char -> bool) ls :
  (forall c, text_char c = true -> q c = true) -> q CR = true -> q LF = true ->
  forallb text_or_empty ls = true ->
  forallb q (join [CR; LF] ls) = true.
Proof.
  intros Hq Hcr Hlf H. apply forallb_join.
  - cbn [forallb]. rewrite Hcr, Hlf. reflexivity.
  - apply text_or_empty_chars; assumption.
Qed.

Lemma crlf_no_start ls :
  forallb text_or_empty ls = true ->
  no_line_starts starts_markup true (join [CR; LF] ls) = true.
Proof.
  induction ls as [|l ls IH]; [reflexivity|]. intros H. cbn [forallb] in H.
  apply andb_true_iff in H as [Hl Hls]. specialize (IH Hls).
  destruct ls as [|l' ls].
  - cbn [join]. destruct l as [|c t]; [reflexivity|]. cbn [text_or_empty] in Hl.
    rewrite <- (app_nil_r (c :: t)). rewrite (no_line_starts_line true _ [] Hl).
    reflexivity.
  - rewrite join_cons2.
    assert (E : no_line_starts starts_markup true (l ++ [CR; LF] ++ join [CR; LF] (l' :: ls))
                = no_line_starts starts_markup true (join [CR; LF] (l' :: ls))).
    { destruct l as [|c t].
      - cbn [app no_line_starts]. change (starts_markup CR) with false.
        change (is_line_terminator CR) with true. change (starts_markup LF) with false.
        change (is_line_terminator LF) with true. reflexivity.
      - cbn [text_or_empty] in Hl. rewrite (no_line_starts_line true _ _ Hl).
        cbn [app no_line_starts].
        change (is_line_terminator CR) with true. change (starts_markup LF) with false.
        change (is_line_terminator LF) with true. reflexivity. }
    rewrite E. exact IH.
Qed.

Lemma text_or_empty_no_lf l :
  text_or_empty l = true -> forallb (fun d => negb (d =? LF)) l = true.
Proof.
  destruct l as [|c t]; [reflexivity|]. cbn [text_or_empty]. intros H.
  apply text_line_spec in H as (c' & t' & _ & Hp & _). apply text_no; auto 6.
Qed.

Lemma crlf_no_blank ls :
  forallb text_or_empty ls = true ->
  occurs [LF; LF] (join [CR; LF] ls) = false
  /\ head (join [CR; LF] ls) <> Some LF.
Proof.
  induction ls as [|l ls IH]; [split; [reflexivity | discriminate]|].
  intros H. cbn [forallb] in H. apply andb_true_iff in H as [Hl Hls].
  destruct (IH Hls) as [IH1 IH2]. pose proof (text_or_empty_no_lf l Hl) as Hlf.
  destruct ls as [|l' ls].
  - cbn [join]. split.
    + apply (occurs_no_head _ LF); [reflexivity | exact Hlf].
    + destruct l as [|c t]; [discriminate|]. cbn [forallb head] in *.
      apply andb_true_iff in Hlf as [Hc _]. apply negb_true_iff, N.eqb_neq in Hc.
      congruence.
  - rewrite join_cons2. split.
    + rewrite occurs_blank_skip by exact Hlf.
      cbn [app occurs starts_with]. change (LF =? CR) with false.
      rewrite N.eqb_refl. cbn [andb orb]. rewrite IH1, orb_false_r.
      destruct (join [CR; LF] (l' :: ls)) as [|x r]; [reflexivity|].
      cbn [starts_with]. rewrite andb_true_r.
      destruct (N.eqb_spec LF x) as [Ex|]; [|reflexivity].
      exfalso. apply IH2. rewrite <- Ex. reflexivity.
    + destruct l as [|c t]; [discriminate|]. cbn [forallb app head] in *.
      apply andb_true_iff in Hlf as [Hc _]. apply negb_true_iff, N.eqb_neq in Hc.
      congruence.
Qed.

Lemma crlf_to_blanks ls :
  forallb text_or_empty ls = true ->
  replace_all false (Chr LF) (fun _ => U " ") (join [CR; LF] ls)
  = join [CR; 32] ls.
Proof.
  unfold replace_all. rewrite replace_chr.
  assert (Hline : forall l, text_or_empty l = true ->
            flat_map (fun x => if LF =? x then U " " else [x]) l = l).
  { intros l0 H. apply text_or_empty_no_lf in H.
    induction l0 as [|c l0 IH]; [reflexivity|]. cbn [forallb] in H.
    apply andb_true_iff in H as [Hc Hp]. cbn [flat_map]. rewrite (IH Hp).
    apply negb_true_iff in Hc. rewrite N.eqb_sym, Hc. reflexivity. }
  induction ls as [|l ls IH]; [reflexivity|]. intros H. cbn [forallb] in H.
  apply andb_true_iff in H as [Hl Hls]. specialize (IH Hls).
  destruct ls as [|l' ls].
  - cbn [join]. apply Hline, Hl.
  - rewrite !join_cons2, flat_map_app, (Hline l Hl). cbn [app flat_map].
    change (LF =? CR) with false. rewrite N.eqb_refl. cbn [app].
    rewrite IH. reflexivity.
Qed.

Lemma crlf_lines_spec ls :
  crlf_lines ls = true ->
  forallb text_or_empty ls = true
  /\ (exists c t, join [CR; LF] ls = c :: t /\ line_start c = true
                  /\ text_char c = true)
  /\ ends_space (join [CR; LF] ls) = false.
Proof.
  unfold crlf_lines. intros H. apply andb_true_iff in H as [H Hlast].
  apply andb_true_iff in H as [Hall Hfirst]. split; [exact Hall|]. split.
  - destruct ls as [|l ls]; [discriminate|].
    apply text_line_spec in Hfirst as (c & t & -> & Hp & Hs & _).
    cbn [forallb] in Hp. apply andb_true_iff in Hp as [Hc _].
    destruct ls as [|l' ls]; [cbn [join] | rewrite join_cons2; cbn [app]]; eauto.
  - destruct (last ls) as [l|] eqn:El; [|discriminate].
    apply last_Some in El as [init ->].
    apply text_line_spec in Hlast as (c & t & -> & _ & _ & He).
    destruct init as [|i init]; [exact He|].
    rewrite join_app by discriminate. cbn [join].
    change ([CR; LF] ++ c :: t) with ([CR; LF] ++ c :: t).
    rewrite app_assoc, ends_space_cons_app. exact He.
Qed.

Lemma markdownToHtml_crlf ls :
  crlf_lines ls = true ->
  markdownToHtml (join [CR; LF] ls) = U "<p>" ++ join [CR; 32] ls ++ U "</p>".
Proof.
  intros H. apply crlf_lines_spec in H as (Hall & (c & t & E & Hs & Hc) & He).
  unfold markdownToHtml.
  rewrite inline_passes_text.
  2:{ apply crlf_chars; [|reflexivity|reflexivity|exact Hall].
      intros x Hx. apply text_char_spec in Hx as (_ & -> & -> & -> & _). reflexivity. }
  2:{ apply crlf_no_start, Hall. }
  rewrite wrap_lists_no_angle.
  2:{ apply crlf_chars; [|reflexivity|reflexivity|exact Hall].
      intros x Hx. apply text_char_spec in Hx as (_ & _ & _ & _ & -> & _). reflexivity. }
  unfold wrap_paragraphs. rewrite split_re_none.
  - cbn [map join]. unfold paragraph.
    apply line_start_spec in Hs as (Hsp & _).
    apply text_char_spec in Hc as (_ & _ & _ & _ & H60 & _).
    rewrite trim_id; [| rewrite E; exact Hsp | exact He].
    rewrite test_block_tag_other by (rewrite E, N.eqb_sym; exact H60).
    rewrite (crlf_to_blanks ls Hall), E. reflexivity.
  - rewrite E. discriminate.
  - apply crlf_no_blank, Hall.
Qed.

(** ** The run as a whole *)

Unset Keyed Unification.




Lemma md_files_perm l1 l2 :
  Permutation l1 l2 -> Permutation (md_files l1) (md_files l2).
Proof.
  unfold md_files. induction 1 as [|x l1 l2 _ IH|x y l|l1 l2 l3 _ IH1 _ IH2];
    cbn [List.filter].
  - constructor.
  - destruct (ends_with _ _); [constructor|]; exact IH.
  - destruct (ends_with _ (fst x)), (ends_with _ (fst y));
      try reflexivity. apply perm_swap.
  - etransitivity; eassumption.
Qed.

Lemma map_files_perm l1 l2 :
  Permutation l1 l2 ->
  forall ps1, map_files l1 = Ok ps1 ->
  exists ps2, map_files l2 = Ok ps2 /\ Permutation ps1 ps2.
Proof.
  induction 1 as [|x l1 l2 _ IH|x y l|l1 l2 l3 _ IH1 _ IH2]; intros ps1;
    cbn [map_files].
  - intros [= <-]. exists []. split; [reflexivity | constructor].
  - destruct (process_file x) as [p|]; [|discriminate].
    destruct (map_files l1) as [qs|]; [|discriminate]. intros [= <-].
    destruct (IH qs eq_refl) as (qs2 & -> & Hp).
    exists (p :: qs2). split; [reflexivity | constructor; exact Hp].
  - destruct (process_file y) as [q|]; [|discriminate].
    destruct (process_file x) as [p|]; [|discriminate].
    destruct (map_files l) as [qs|]; [|discriminate]. intros [= <-].
    exists (p :: q :: qs). split; [reflexivity | apply perm_swap].
  - intros H1. destruct (IH1 ps1 H1) as (ps2 & H2 & Hp12).
    destruct (IH2 ps2 H2) as (ps3 & H3 & Hp23).
    exists ps3. split; [exact H3 | etransitivity; eassumption].
Qed.

Lemma filter_Boolean_perm ps1 ps2 :
  Permutation ps1 ps2 -> Permutation (filter_Boolean ps1) (filter_Boolean ps2).
Proof.
  unfold filter_Boolean.
  induction 1 as [|x l1 l2 _ IH|x y l|l1 l2 l3 _ IH1 _ IH2]; cbn [omap].
  - constructor.
  - destruct x as [p|]; cbn; [constructor|]; exact IH.
  - destruct x as [p|], y as [q|]; cbn; try reflexivity. apply perm_swap.
  - etransitivity; eassumption.
Qed.

Lemma sorted_perm_eq {A : Type} (R : A -> A -> Prop) l1 : forall l2,
  StronglySorted R l1 -> StronglySorted R l2 -> Permutation l1 l2 ->
  (forall x y, In x l1 -> In y l1 -> R x y -> R y x -> x = y) ->
  l1 = l2.
Proof.
  induction l1 as [|x l1 IH]; intros l2 H1 H2 Hp Hanti.
  - apply Permutation_nil in Hp. congruence.
  - destruct l2 as [|y l2].
    { apply Permutation_sym, Permutation_nil in Hp. discriminate. }
    apply StronglySorted_inv in H1 as [H1 Hx].
    apply StronglySorted_inv in H2 as [H2 Hy].
    rewrite List.Forall_forall in Hx, Hy.
    assert (Hxy : x = y).
    { assert (Hin_y : In y (x :: l1)).
      { apply (Permutation_in y (Permutation_sym Hp)). left. reflexivity. }
      assert (Hin_x : In x (y :: l2)).
      { apply (Permutation_in x Hp). left. reflexivity. }
      destruct Hin_y as [E | Hin_y]; [exact E|].
      destruct Hin_x as [E | Hin_x]; [symmetry; exact E|].
      apply Hanti; [left; reflexivity | right; exact Hin_y | auto | auto]. }
    subst y. f_equal. apply IH; [exact H1 | exact H2 | |].
    + eapply Permutation_cons_inv, Hp.
    + intros a b Ha Hb. apply Hanti; right; assumption.
Qed.

Lemma NoDup_map_In {A B : Type} (f : A -> B) l x y :
  List.NoDup (map f l) -> In x l -> In y l -> f x = f y -> x = y.
Proof.
  induction l as [|a l IH]; [intros _ []|]. cbn [map].
  intros Hnd Hx Hy E. apply NoDup_cons_iff in Hnd as [Ha Hnd].
  destruct Hx as [-> | Hx], Hy as [-> | Hy].
  - reflexivity.
  - exfalso. apply Ha. rewrite E. apply in_map, Hy.
  - exfalso. apply Ha. rewrite <- E. apply in_map, Hx.
  - apply IH; assumption.
Qed.

Lemma date_desc_antisym out x y :
  Forall has_string_date out -> List.NoDup (map date out) ->
  In x out -> In y out -> date_desc x y -> date_desc y x -> x = y.
Proof.
  intros Hs Hnd Hx Hy H1 H2. rewrite List.Forall_forall in Hs.
  apply (NoDup_map_In date out x y Hnd Hx Hy).
  destruct (Hs x Hx) as [a Ha], (Hs y Hy) as [b Hb].
  unfold date_desc, date_text in H1, H2. rewrite Ha, Hb in *.
  f_equal. symmetry. apply str_ltb_total; assumption.
Qed.

Lemma generateJson_perm lt_mixed entries entries' out :
  Permutation entries entries' ->
  generateJson lt_mixed (Some entries) = Ok out ->
  Forall has_string_date out -> List.NoDup (map date out) ->
  generateJson lt_mixed (Some entries') = Ok out.
Proof.
  intros Hp Hg Hs Hnd. unfold generateJson in *.
  fold (md_files entries) in Hg. fold (md_files entries').
  destruct (map_files (md_files entries)) as [ps|] eqn:E; [|discriminate].
  injection Hg as <-.
  destruct (map_files_perm _ _ (md_files_perm _ _ Hp) ps E) as (ps' & -> & Hps).
  f_equal. symmetry.
  assert (Hperm : Permutation (Array_sort (by_date lt_mixed) (filter_Boolean ps))
                              (Array_sort (by_date lt_mixed) (filter_Boolean ps'))).
  { rewrite !Array_sort_perm. apply filter_Boolean_perm, Hps. }
  assert (Hsort : forall l, Forall has_string_date l ->
            StronglySorted date_desc (Array_sort (by_date lt_mixed) l)).
  { intros l Hl.
    apply (Array_sort_sorted (by_date lt_mixed) has_string_date date_desc);
      [apply by_date_before | apply by_date_after | apply date_desc_trans | exact Hl]. }
  apply (sorted_perm_eq date_desc).
  - apply Hsort. rewrite <- (Array_sort_perm (by_date lt_mixed) (filter_Boolean ps)).
    exact Hs.
  - apply Hsort. rewrite <- (Array_sort_perm (by_date lt_mixed) (filter_Boolean ps')).
    rewrite <- Hperm. exact Hs.
  - exact Hperm.
  - intros x y. apply date_desc_antisym; assumption.
Qed.

(** ** The key [__proto__] *)

Lemma obj_set_proto key v data :
  obj_set key v data !! U "__proto__" = data !! U "__proto__".
Proof.
  unfold obj_set, str_eqb. case_bool_decide as Hk; [reflexivity|].
  apply lookup_insert_ne. exact Hk.
Qed.

Lemma scan_proto lines : forall data data',
  scan lines data = Ok data' -> data' !! U "__proto__" = data !! U "__proto__".
Proof.
  remember (length lines) as n eqn:Hn. revert lines Hn.
  induction n as [n IH] using lt_wf_ind. intros lines Hn data data'.
  destruct lines as [|line more]; [intros [= <-]; reflexivity|].
  rewrite scan_cons. cbn [length] in Hn.
  destruct (keyMatch line) as [km|] eqn:Ek.
  - destruct (trim _) as [|c rest].
    + intros H. apply (IH (length (snd (block_items more)))) in H.
      * rewrite H. apply obj_set_proto.
      * pose proof (block_items_length more). lia.
      * reflexivity.
    + destruct (scalar_of _) as [v|]; [|discriminate].
      intros H. apply (IH (length more)) in H; [|lia|reflexivity].
      rewrite H. apply obj_set_proto.
  - intros H. apply (IH (length more)) in H; [exact H|lia|reflexivity].
Qed.

Lemma parseFrontMatter_proto raw fm :
  parseFrontMatter raw = Ok fm -> fm_data fm !! U "__proto__" = None.
Proof.
  unfold parseFrontMatter. destruct (search false FM_REGEX None raw) as [m|].
  - destruct (scan _ _) as [d|e] eqn:E; [|discriminate].
    intros [= <-]. cbn [fm_data]. rewrite (scan_proto _ _ _ E). apply lookup_empty.
  - intros [= <-]. apply lookup_empty.
Qed.

(** ** Item lines *)

Lemma is_blank_spec s :
  is_blank s = true ->
  exists c t, s = c :: t /\ is_space c = true /\ forallb is_space t = true.
Proof.
  destruct s as [|c t]; [discriminate|]. cbn [is_blank forallb]. intros H.
  apply andb_true_iff in H as [Hc Ht]. eauto.
Qed.

Lemma exec_item_at indent gap s :
  is_blank indent = true -> is_blank gap = true -> starts_space s = false ->
  exec false ITEM_REGEX None (indent ++ 45 :: gap ++ s)
  = Some (RMatch (indent ++ 45 :: gap) [] s).
Proof.
  intros Hi Hg Hs.
  apply is_blank_spec in Hi as (i & indent' & -> & Hi & Hi').
  apply is_blank_spec in Hg as (g & gap' & -> & Hg & Hg').
  assert (E : exists pr,
    matcher false ITEM_REGEX Some
      (MState None (((i :: indent') ++ 45 :: g :: gap') ++ s) [])
    = Some (MState pr s [])).
  { eexists. unfold ITEM_REGEX, Plus. cbn [Cat]. rewrite <- app_assoc. cbn [app].
    mstep. cbv beta. rewrite Hi.
    eapply greedy_run_stop; [exact Hi' | reflexivity |].
    mstep. cbv beta. rewrite Hg.
    eapply greedy_run_stop; [exact Hg' | |].
    - destruct s as [|c t]; [exact I | exact Hs].
    - mstep. reflexivity. }
  destruct E as [pr E].
  pose proof (exec_rest false ITEM_REGEX None ((i :: indent') ++ 45 :: g :: gap') s _ E
                eq_refl) as H.
  rewrite <- app_assoc in H. exact H.
Qed.

Lemma item_line_is_item indent gap s :
  is_blank indent = true -> is_blank gap = true -> starts_space s = false ->
  is_item (indent ++ 45 :: gap ++ s) = true
  /\ item_of (indent ++ 45 :: gap ++ s) = JStr (unquote s).
Proof.
  intros Hi Hg Hs. pose proof (exec_item_at indent gap s Hi Hg Hs) as E. split.
  - rewrite is_item_exec, E. reflexivity.
  - unfold item_of, replace_first.
    assert (Er : replace_first_go false ITEM_REGEX (fun _ => []) None
                   (indent ++ 45 :: gap ++ s) = s).
    { destruct (indent ++ 45 :: gap ++ s) eqn:El;
        cbn [replace_first_go]; rewrite E; reflexivity. }
    rewrite Er, strip_quotes_unquote. reflexivity.
Qed.

Lemma item_ok_spec it :
  item_ok it = true ->
  forallb flow_plain (snd it) = true /\ forallb is_dot (snd it) = true
  /\ starts_space (written (fst it) (snd it)) = false
  /\ unquote (written (fst it) (snd it)) = snd it.
Proof.
  destruct it as [q t]. unfold item_ok. cbn [fst snd]. intros H.
  apply andb_true_iff in H as [Hc Hq].
  assert (Hp : forallb flow_plain t = true).
  { eapply forallb_weaken; [|exact Hc]. intros c H. cbv beta in H.
    apply andb_true_iff in H as [H _]. exact H. }
  assert (Hd : forallb is_dot t = true).
  { eapply forallb_weaken; [|exact Hc]. intros c H. cbv beta in H.
    apply andb_true_iff in H as [_ H]. exact H. }
  split; [exact Hp|]. split; [exact Hd|].
  destruct q as [q|]; cbn [written].
  - split.
    + revert Hq. unfold starts_space, is_quote, is_space, in_range, DQ, SQ.
      intros Hq. class_cases.
    + apply unquote_both; exact Hq.
  - apply negb_true_iff in Hq. split; [exact Hq|].
    apply unquote_plain.
    + destruct t as [|c t]; [reflexivity|]. cbn [forallb starts_quoted] in *.
      apply andb_true_iff in Hp as [Hc' _]. revert Hc'.
      unfold flow_plain, is_quote. intros Hc'.
      repeat (apply andb_true_iff in Hc' as [Hc' ?]).
      repeat match goal with H : negb _ = true |- _ => apply negb_true_iff in H end.
      apply orb_false_iff. split; assumption.
    + unfold ends_quoted. destruct (last t) as [c|] eqn:El; [|reflexivity].
      apply last_Some in El as [t' ->]. rewrite forallb_app in Hp.
      apply andb_true_iff in Hp as [_ Hp]. cbn [forallb] in Hp.
      apply andb_true_iff in Hp as [Hc' _]. revert Hc'.
      unfold flow_plain, is_quote. intros Hc'.
      repeat (apply andb_true_iff in Hc' as [Hc' ?]).
      repeat match goal with H : negb _ = true |- _ => apply negb_true_iff in H end.
      apply orb_false_iff. split; assumption.
Qed.

Lemma item_lines_items indent gap items :
  is_blank indent = true -> is_blank gap = true ->
  forallb item_ok items = true ->
  forallb is_item (map (item_line indent gap) items) = true
  /\ map item_of (map (item_line indent gap) items) = map JStr (map snd items).
Proof.
  intros Hi Hg. induction items as [|it items IH]; [split; reflexivity|].
  cbn [forallb map]. intros H. apply andb_true_iff in H as [Hit H].
  destruct (IH H) as [IH1 IH2].
  destruct (item_ok_spec it Hit) as (_ & _ & Hs & Hu).
  destruct (item_line_is_item indent gap _ Hi Hg Hs) as [H1 H2].
  unfold item_line at 1 3. rewrite H1, H2, Hu, IH1, IH2. split; reflexivity.
Qed.

(** ** An array written in the two ways *)

Lemma flow_text_dots q items :
  is_quote q = true ->
  Forall (fun t => forallb is_dot t = true) items ->
  forallb is_dot (flow_text q items) = true.
Proof.
  intros Hq Hall. unfold flow_text. rewrite !forallb_app.
  change (forallb is_dot (U "[")) with true. change (forallb is_dot (U "]")) with true.
  rewrite andb_true_r. cbn [andb]. apply forallb_join; [reflexivity|].
  apply List.Forall_forall. intros l Hl. apply in_map_iff in Hl as (t & <- & Ht).
  rewrite List.Forall_forall in Hall. specialize (Hall t Ht).
  cbn [forallb]. rewrite forallb_app, Hall. cbn [forallb].
  assert (Hd : is_dot q = true).
  { revert Hq. unfold is_quote, is_dot, is_line_terminator, DQ, SQ. intros Hq.
    class_cases. }
  rewrite Hd. reflexivity.
Qed.

Lemma trim_flow_text q items : trim (32 :: flow_text q items) = flow_text q items.
Proof.
  unfold trim. cbn [trim_start]. change (is_space 32) with true. cbv iota.
  unfold flow_text. change (U "[") with [91]. cbn [app trim_start].
  change (is_space 91) with false. cbv iota.
  apply (trim_end_app
           (91 :: join (U ", ") (map (fun t : str => q :: t ++ [q]) items)) 93).
  reflexivity.
Qed.

Lemma scan_two_ways key indent gap q items rest data :
  is_key key = true -> is_blank indent = true -> is_blank gap = true ->
  is_quote q = true -> forallb item_ok items = true ->
  match rest with [] => True | r :: _ => is_item r = false end ->
  scan ((key ++ U ":") :: map (item_line indent gap) items ++ rest) data
  = scan rest (obj_set key (VArr (map JStr (map snd items))) data)
  /\ scan ((key ++ U ": " ++ flow_text q (map snd items)) :: rest) data
     = scan rest (obj_set key (VArr (map JStr (map snd items))) data).
Proof.
  intros Hkey Hi Hg Hq Hok Hrest.
  destruct (item_lines_items indent gap items Hi Hg Hok) as [Hitems Hof].
  assert (Hp : Forall (fun t => forallb flow_plain t = true) (map snd items)).
  { apply List.Forall_forall. intros t Ht. apply in_map_iff in Ht as (it & <- & Hit).
    rewrite forallb_forall in Hok. apply item_ok_spec, Hok, Hit. }
  assert (Hd : Forall (fun t => forallb is_dot t = true) (map snd items)).
  { apply List.Forall_forall. intros t Ht. apply in_map_iff in Ht as (it & <- & Hit).
    rewrite forallb_forall in Hok. apply item_ok_spec, Hok, Hit. }
  split.
  - destruct (keyMatch_line key [] [] Hkey eq_refl (or_introl eq_refl))
      as (m & Hm & H1 & H2).
    pose proof (scan_block_array (key ++ U ":") m (map (item_line indent gap) items)
                  rest data Hm H2 Hitems Hrest) as E.
    rewrite H1, Hof in E. exact E.
  - destruct (keyMatch_line key (32 :: flow_text q (map snd items)) [] Hkey)
      as (m & Hm & H1 & H2).
    { cbn [forallb]. change (is_dot 32) with true. apply flow_text_dots; assumption. }
    { left. reflexivity. }
    rewrite app_nil_r in Hm. rewrite trim_flow_text in H2.
    pose proof (scan_cons (key ++ U ": " ++ flow_text q (map snd items)) rest data)
      as E.
    assert (Ef : exists c r, flow_text q (map snd items) = c :: r).
    { unfold flow_text. change (U "[") with [91]. cbn [app]. eauto. }
    destruct Ef as (c & r & Ef).
    pose proof (scalar_of_flow q (map snd items) Hq Hp) as Es.
    change (key ++ U ": " ++ flow_text q (map snd items))
      with (key ++ 58 :: 32 :: flow_text q (map snd items)) in E.
    rewrite Hm, H2, H1 in E. rewrite Ef in E, Es. rewrite Es in E.
    rewrite <- Ef in E. exact E.
Qed.

(** ** The last line that sets a key *)




(** ** Drafts, read from the text *)






(** * The claims *)

(** ** C1: the end-to-end example *)

(** C1, as stated, fails: [[x, y]] is not a JSON array literal, JSON.parse
    throws, and no post object is produced for [a.md]. *)
Lemma C1_unquoted_flow_array_throws :
  generateJson lt_unordered (Some [(U "a.md", doc_a)]) = Throw SyntaxError
  /\ process_file (U "a.md", doc_a) <> Ok (Some post_a).
Proof. split; [vm_compute; reflexivity | vm_compute; discriminate]. Qed.

(** C1 (amended): with the items of the flow array written as JSON strings,
    [tags: [QxQ, QyQ]] with Q the double quote, processing [a.md] produces
    exactly the post object of the specification; with the array written
    [[x, y]] JSON.parse throws and nothing is produced.  Both hold whatever
    the comparison of non-strings is. *)
Theorem C1_end_to_end :
  forall lt_mixed,
    generateJson lt_mixed (Some [(U "a.md", doc_a_json)]) = Ok [post_a]
    /\ generateJson lt_mixed (Some [(U "a.md", doc_a)]) = Throw SyntaxError.
Proof. intros lt_mixed. split; vm_compute; reflexivity. Qed.

(** ** C2: a malformed flow array *)

(** C2: when a line of the front-matter block is a [key: value] line whose
    value starts with a bracket and, once its single quotes are replaced by
    double quotes, is not a JSON array literal, the parser throws the
    SyntaxError of JSON.parse; so does the processing of the file, and so
    does the whole run when the file is one of the [.md] files. *)
Theorem C2_malformed_flow_array_throws :
  forall raw m before line after km,
    search false FM_REGEX None raw = Some m ->
    split_char LF (group 1 (groups m)) = before ++ line :: after ->
    keyMatch line = Some km ->
    starts_with (U "[") (trim (group 2 (groups km))) = true ->
    (forall items,
        JSON_parse (replace_all false (Chr SQ) (fun _ => [DQ])
                      (trim (group 2 (groups km)))) <> Some (JArr items)) ->
    parseFrontMatter raw = Throw SyntaxError
    /\ (forall filename, process_file (filename, raw) = Throw SyntaxError)
    /\ (forall lt_mixed entries filename,
           In (filename, raw) entries ->
           ends_with (U ".md") filename = true ->
           generateJson lt_mixed (Some entries) = Throw SyntaxError).
Proof.
  intros raw m before line after km Hm Hsplit Hk Hb Hj.
  assert (Hp : parseFrontMatter raw = Throw SyntaxError).
  { unfold parseFrontMatter. rewrite Hm, Hsplit.
    rewrite (scan_app_key _ _ _ _ _ Hk).
    destruct (scan before ∅) as [d|e] eqn:Eb.
    - rewrite scan_cons, Hk.
      destruct (trim (group 2 (groups km))) as [|c rest] eqn:Et; [discriminate|].
      unfold scalar_of. rewrite Hb.
      destruct (JSON_parse _) as [[| | | |items|]|] eqn:Ej; try reflexivity.
      exfalso. exact (Hj items eq_refl).
    - f_equal. eapply scan_throw, Eb. }
  assert (Hf : forall filename, process_file (filename, raw) = Throw SyntaxError).
  { intros filename. unfold process_file. rewrite Hp. reflexivity. }
  repeat split; auto.
  intros lt_mixed entries filename Hin Hmd. unfold generateJson.
  rewrite (map_files_In_throw _ (filename, raw) SyntaxError); auto.
  apply filter_In. auto.
Qed.

(** The document of the specification, [tags: [unparseable]. *)
Lemma C2_witness :
  parseFrontMatter doc_unparseable = Throw SyntaxError
  /\ (forall filename, process_file (filename, doc_unparseable) = Throw SyntaxError)
  /\ (forall lt_mixed entries filename,
         In (filename, doc_unparseable) entries ->
         ends_with (U ".md") filename = true ->
         generateJson lt_mixed (Some entries) = Throw SyntaxError).
Proof.
  eapply (C2_malformed_flow_array_throws doc_unparseable _ [U "title: t"]
            (U "tags: [unparseable") []).
  - vm_compute. reflexivity.
  - vm_compute. reflexivity.
  - vm_compute. reflexivity.
  - vm_compute. reflexivity.
  - intros items. vm_compute. discriminate.
Defined.

(** ** C3: quoted strings *)

(** C3, as stated, fails: a value with a leading quote only, or with a
    double quote in front and a single quote behind, is not stored as it
    is; the quote characters are removed. *)
Lemma C3_unmatched_quotes_removed :
  parsed_key doc_leading_quote (U "title") = Some (VStr (U "abc"))
  /\ strip_matching_quotes (DQ :: U "abc") = DQ :: U "abc"
  /\ parsed_key doc_mixed_quotes (U "title") = Some (VStr (U "abc"))
  /\ strip_matching_quotes (DQ :: U "abc" ++ [SQ]) = DQ :: U "abc" ++ [SQ].
Proof. repeat split; vm_compute; reflexivity. Qed.

(** C3 (amended): for a [key: value] line whose trimmed value is not empty,
    does not start with a bracket, is neither [true] nor [false] and is not
    a date, the line stores under its key (any key but [__proto__]) the
    value with a quote character at its start removed, if there is one, and
    a quote character at its end removed, if there is one, each whether or
    not the other is there and whichever of the two quote characters it is:
    a value between two quotes loses both, a value with a quote at one end
    only loses that quote, and a value with no quote at either end is stored
    as it is. *)
Theorem C3_string_value :
  forall line km key rest after data,
    keyMatch line = Some km ->
    key = group 1 (groups km) ->
    rest = trim (group 2 (groups km)) ->
    rest <> [] ->
    starts_with (U "[") rest = false ->
    rest <> U "true" -> rest <> U "false" ->
    test false DATE_REGEX rest = false ->
    scan (line :: after) data = scan after (obj_set key (VStr (unquote rest)) data)
    /\ (key <> U "__proto__" ->
        obj_set key (VStr (unquote rest)) data !! key = Some (VStr (unquote rest)))
    /\ (forall q1 q2 mid,
           rest = q1 :: mid ++ [q2] -> is_quote q1 = true -> is_quote q2 = true ->
           unquote rest = mid)
    /\ (forall q mid,
           rest = q :: mid -> is_quote q = true -> ends_quoted mid = false ->
           unquote rest = mid)
    /\ (forall q init,
           rest = init ++ [q] -> starts_quoted init = false -> is_quote q = true ->
           unquote rest = init)
    /\ (starts_quoted rest = false -> ends_quoted rest = false ->
        unquote rest = rest).
Proof.
  intros line km key rest after data Hk -> -> Hne Hb Ht Hf Hd.
  split; [|split; [|split; [|split; [|split]]]].
  - rewrite scan_cons, Hk.
    destruct (trim (group 2 (groups km))) as [|c r] eqn:E; [congruence|].
    rewrite scalar_of_string by assumption. reflexivity.
  - apply obj_set_lookup.
  - intros q1 q2 mid ->. apply unquote_both.
  - intros q mid ->. apply unquote_leading.
  - intros q init ->. apply unquote_trailing.
  - apply unquote_plain.
Qed.

(** The line [title: 'It works'] stores [It works]. *)
Lemma C3_witness :
  scan [U "title: 'It works'"] ∅ = Ok {[ U "title" := VStr (U "It works") ]}.
Proof.
  pose proof (C3_string_value (U "title: 'It works'")
                (RMatch (U "title: 'It works'")
                        [(2%nat, U "'It works'"); (1%nat, U "title")] [])
                (U "title") (U "'It works'") [] ∅) as H.
  destruct H as (Hscan & Hkey & Hboth & _).
  - vm_compute. reflexivity.
  - reflexivity.
  - vm_compute. reflexivity.
  - discriminate.
  - reflexivity.
  - discriminate.
  - discriminate.
  - vm_compute. reflexivity.
  - rewrite Hscan. rewrite (Hboth SQ SQ (U "It works")); reflexivity.
Defined.

(** ** C4: the order of the output *)

(** C4, as stated, fails: on the three posts of the specification the post
    without a date comes last, so it does not sort as the greatest in a
    descending order; the output is descending in the plain order of
    strings, in which the empty date is the least. *)
Lemma C4_missing_date_is_least :
  match generateJson lt_unordered (Some three_posts) with
  | Ok out =>
      map date out = [VStr (U "2024-06-01"); VStr (U "2024-01-01"); VStr []]
      /\ descending_by claimed_date_lt out = false
      /\ descending_by str_ltb out = true
  | Throw _ => False
  end.
Proof. vm_compute. repeat split. Qed.

(** C4 (amended): when the dates of the posts are strings, the output is
    in descending order of date, dates compared as strings; a missing date
    is the empty string, the least of all, so the posts after a post
    without a date have no date either; a string that is not a date sorts
    where the comparison of strings puts it.  For the three posts of the
    specification the order is 2024-06-01, 2024-01-01, then the post without
    a date. *)
Theorem C4_descending_dates :
  (forall lt_mixed dir out,
      generateJson lt_mixed dir = Ok out ->
      Forall has_string_date out ->
      StronglySorted date_desc out
      /\ (forall before p after,
             out = before ++ p :: after -> date p = VStr [] ->
             Forall (fun q => date q = VStr []) after))
  /\ (forall lt_mixed,
         exists out,
           generateJson lt_mixed (Some three_posts) = Ok out
           /\ map date out
              = [VStr (U "2024-06-01"); VStr (U "2024-01-01"); VStr []]).
Proof.
  split.
  - intros lt_mixed dir out Hg Hs.
    assert (Hsorted : StronglySorted date_desc out).
    { unfold generateJson in Hg. destruct dir as [entries|]; [|discriminate].
      destruct (map_files _) as [ps|]; [|discriminate].
      injection Hg as <-.
      apply (Array_sort_sorted (by_date lt_mixed) has_string_date date_desc).
      - apply by_date_before.
      - apply by_date_after.
      - apply date_desc_trans.
      - rewrite <- (Array_sort_perm (by_date lt_mixed) (filter_Boolean ps)).
        exact Hs. }
    split; [exact Hsorted|].
    intros before p after -> Hp.
    apply StronglySorted_app_r, StronglySorted_inv in Hsorted as [_ Hafter].
    apply Forall_app in Hs as [_ Hs]. apply Forall_cons_iff in Hs as [_ Hs].
    rewrite Forall_forall in Hafter, Hs |- *. intros q Hq.
    destruct (Hs q Hq) as [s Hsq]. specialize (Hafter q Hq).
    unfold date_desc, date_text in Hafter. rewrite Hp, Hsq in Hafter.
    rewrite Hsq. f_equal. apply str_ltb_nil_l, Hafter.
  - intros lt_mixed. eexists. split; vm_compute; reflexivity.
Qed.

Lemma C4_witness :
  exists out,
    generateJson lt_unordered (Some three_posts) = Ok out
    /\ StronglySorted date_desc out.
Proof.
  destruct (generateJson lt_unordered (Some three_posts)) as [out|e] eqn:E;
    [|vm_compute in E; discriminate].
  exists out. split; [reflexivity|].
  eapply (proj1 C4_descending_dates lt_unordered (Some three_posts) out E).
  vm_compute in E. injection E as <-.
  repeat constructor; eexists; reflexivity.
Defined.

(** ** C5: documents without a front-matter block *)

(** C5, as stated, fails: no line after the first is [---], yet the
    extractor finds a front-matter block, closed by the first three dashes
    of the line [----]. *)
Lemma C5_closing_line_need_not_be_a_delimiter :
  delimited_block doc_four_dashes = false
  /\ parseFrontMatter doc_four_dashes
     = Ok (FrontMatter {[ U "title" := VStr (U "x") ]} (U "-" ++ LF :: U "body"))
  /\ parseFrontMatter doc_four_dashes <> Ok (FrontMatter ∅ doc_four_dashes).
Proof.
  split; [vm_compute; reflexivity|]. split; [vm_compute; reflexivity|].
  vm_compute. discriminate.
Qed.

(** C5 (amended): a document that does not begin with a delimiter line
    [---] followed, after at least one further line feed, by a line that
    starts with [---] gives empty metadata and the whole input as body; and
    these are the only documents in which the delimiter pattern finds no
    block. *)
Theorem C5_no_block :
  (forall raw,
      has_block raw = false ->
      parseFrontMatter raw = Ok (FrontMatter ∅ raw))
  /\ (forall raw,
         has_block raw = false <-> search false FM_REGEX None raw = None).
Proof.
  assert (H1 : forall raw, has_block raw = false ->
                           search false FM_REGEX None raw = None).
  { intros raw H. destruct (search false FM_REGEX None raw) as [m|] eqn:E;
      [|reflexivity].
    apply FM_REGEX_sound, block_shape_has_block in E. congruence. }
  split.
  - intros raw H. unfold parseFrontMatter. rewrite (H1 raw H). reflexivity.
  - intros raw. split; [apply H1|]. intros H.
    destruct (has_block raw) eqn:E; [|reflexivity].
    apply FM_REGEX_complete in E. congruence.
Qed.

Lemma C5_witness :
  parseFrontMatter (unlines [U "# Hi"; U ""; U "---"; U "text"])
  = Ok (FrontMatter ∅ (unlines [U "# Hi"; U ""; U "---"; U "text"])).
Proof. apply (proj1 C5_no_block). reflexivity. Defined.

(** ** C6: flow arrays and block arrays *)

(** C6 holds of a front matter whose lines end with a bare line feed and
    fails on the code for a file with Windows line ends.  With bare line
    feeds, an array written as a flow array of quoted items and the same
    array written as a block array, the line [key:] followed directly by
    one item line for each item, store the same sequence under the key, and
    the lines after the array are read in the same way: the block array
    ends at the first line that is not an item line.  An item line is white
    space, a hyphen, white space and the item; the item is bare or between
    two quote characters, which are removed, so that a quoted item and the
    same item without quotes give the same element.  The flow array and the
    block arrays of the specification give the sequence of [a] and [b],
    also when another entry follows the block array.  With Windows line
    ends the lines are split at the line feed and an item line, unlike the
    value of a [key: value] line, is never trimmed: the flow array still
    gives [a] and [b], while each item of the block array keeps the
    carriage return that ends its line, and a quoted item its closing quote
    as well. *)
Theorem C6_flow_and_block_arrays :
  (forall key indent gap q items rest data,
      is_key key = true -> is_blank indent = true -> is_blank gap = true ->
      is_quote q = true -> forallb item_ok items = true ->
      match rest with [] => True | r :: _ => is_item r = false end ->
      scan ((key ++ U ":") :: map (item_line indent gap) items ++ rest) data
      = scan rest (obj_set key (VArr (map JStr (map snd items))) data)
      /\ scan ((key ++ U ": " ++ flow_text q (map snd items)) :: rest) data
         = scan rest (obj_set key (VArr (map JStr (map snd items))) data))
  /\ (forall indent gap q1 q2 t,
         is_blank indent = true -> is_blank gap = true ->
         is_quote q1 = true -> is_quote q2 = true ->
         is_item (indent ++ 45 :: gap ++ q1 :: t ++ [q2]) = true
         /\ item_of (indent ++ 45 :: gap ++ q1 :: t ++ [q2]) = JStr t)
  /\ (forall indent gap t,
         is_blank indent = true -> is_blank gap = true ->
         starts_space t = false ->
         starts_quoted t = false -> ends_quoted t = false ->
         is_item (indent ++ 45 :: gap ++ t) = true
         /\ item_of (indent ++ 45 :: gap ++ t) = JStr t)
  /\ parsed_key doc_flow (U "tags") = Some (VArr [JStr (U "a"); JStr (U "b")])
  /\ parsed_key doc_block (U "tags") = Some (VArr [JStr (U "a"); JStr (U "b")])
  /\ parsed_key doc_block_quoted (U "tags")
     = Some (VArr [JStr (U "a"); JStr (U "b")])
  /\ parsed_key doc_block_then_title (U "tags")
     = Some (VArr [JStr (U "a"); JStr (U "b")])
  /\ parsed_key doc_block_then_title (U "title") = Some (VStr (U "Hello"))
  /\ parsed_key doc_flow_crlf (U "tags")
     = Some (VArr [JStr (U "a"); JStr (U "b")])
  /\ parsed_key doc_block_crlf (U "tags")
     = Some (VArr [JStr (U "a" ++ [CR]); JStr (U "b" ++ [CR])])
  /\ parsed_key doc_block_quoted_crlf (U "tags")
     = Some (VArr [JStr (U "a" ++ [DQ; CR]); JStr (U "b" ++ [SQ; CR])])
  /\ parsed_key doc_block_crlf (U "title") = Some (VStr (U "t"))
  /\ parsed_key doc_block_crlf (U "tags") <> parsed_key doc_flow_crlf (U "tags").
Proof.
  split; [exact scan_two_ways|].
  split.
  { intros indent gap q1 q2 t Hi Hg H1 H2.
    destruct (item_line_is_item indent gap (q1 :: t ++ [q2]) Hi Hg) as [Ha Hb].
    - revert H1. unfold starts_space, is_quote, is_space, in_range, DQ, SQ.
      intros H1. class_cases.
    - split; [exact Ha|]. rewrite Hb, unquote_both; auto. }
  split.
  { intros indent gap t Hi Hg Hs Hq He.
    destruct (item_line_is_item indent gap t Hi Hg Hs) as [Ha Hb].
    split; [exact Ha|]. rewrite Hb, unquote_plain; auto. }
  do 9 (split; [vm_compute; reflexivity|]).
  vm_compute. discriminate.
Qed.

(** An array of two items, the first between single quotes and the second
    bare, indented by four blanks, and a title after it. *)
Lemma C6_witness :
  scan [U "tags:"; U "    -  'web'"; U "    -  static sites"; U "title: Hello"] ∅
  = scan [U "tags: ['web', 'static sites']"; U "title: Hello"] ∅
  /\ scan [U "tags:"; U "    -  'web'"; U "    -  static sites"; U "title: Hello"] ∅
     = Ok {[ U "tags" := VArr [JStr (U "web"); JStr (U "static sites")];
             U "title" := VStr (U "Hello") ]}.
Proof.
  destruct (proj1 C6_flow_and_block_arrays (U "tags") (U "    ") (U "  ") SQ
              [(Some SQ, U "web"); (None, U "static sites")] [U "title: Hello"] ∅)
    as [Hblock Hflow]; try reflexivity.
  split.
  - etransitivity; [exact Hblock|]. symmetry. exact Hflow.
  - etransitivity; [exact Hblock|]. vm_compute. reflexivity.
Defined.

(** ** C7: drafts *)




(** ** C8: list items *)

(** C8, as stated, fails: the two lines [- item] of a file with Windows
    line ends render to two lists, each with one element, because the
    pattern of the wrapping pass lets a line feed, and nothing else, stand
    between two items of a run. *)
Lemma C8_crlf_items_in_two_lists :
  markdownToHtml (U "- item" ++ CR :: LF :: U "- item")
  = U "<ul><li>item</li></ul>" ++ CR :: LF :: U "<ul><li>item</li></ul>"
  /\ count_occurrences (U "<ul>")
       (markdownToHtml (U "- item" ++ CR :: LF :: U "- item")) = 2%nat.
Proof. split; vm_compute; reflexivity. Qed.

(** C8 (amended): in the pass that wraps list items, a run of one or more
    lines [<li>...</li>], one bare line feed and no carriage return between
    two of them, that ends at the end of the input or at a line feed not
    followed by another item, is put in exactly one [<ul>...</ul>],
    together with the line feed that ends it, and the text after it is
    treated on its own; a text without items is not changed.  Any number of
    consecutive input lines [- t] of plain items, a bare line feed between
    two of them, renders to a single list that holds one element for each
    line; for the two lines [- item] that is one [<ul>] with two [<li>]. *)
Theorem C8_runs_wrapped_once :
  (forall pre b bs tail,
      occurs (U "<li>") pre = false ->
      forallb is_dot b = true ->
      Forall (fun b' => forallb is_dot b' = true) bs ->
      run_end tail = true ->
      wrap_lists (pre ++ run_text b bs tail)
      = pre ++ U "<ul>" ++ run_text b bs (take 1 tail) ++ U "</ul>"
        ++ wrap_lists (tl tail))
  /\ (forall s, occurs (U "<li>") s = false -> wrap_lists s = s)
  /\ (forall t items,
         Forall (fun t => plain_item t = true) (t :: items) ->
         markdownToHtml (item_lines (t :: items))
         = U "<ul>" ++ li_lines (t :: items) ++ U "</ul>")
  /\ markdownToHtml (unlines [U "- item"; U "- item"])
     = U "<ul><li>item</li>" ++ LF :: U "<li>item</li></ul>"
  /\ count_occurrences (U "<ul>")
       (markdownToHtml (unlines [U "- item"; U "- item"])) = 1%nat.
Proof.
  split; [exact wrap_lists_run|].
  split; [exact wrap_lists_no_li|].
  split; [exact markdownToHtml_items|].
  split; vm_compute; reflexivity.
Qed.

(** A heading, two items, a blank line and a paragraph. *)
Lemma C8_witness :
  wrap_lists (U "<h2>To do</h2>" ++ LF
              :: run_text (U "write") [U "<em>test</em>"] (LF :: LF :: U "Done."))
  = U "<h2>To do</h2>" ++ LF
    :: U "<ul><li>write</li>" ++ LF :: U "<li><em>test</em></li>" ++ LF
    :: U "</ul>" ++ LF :: U "Done.".
Proof.
  pose proof (proj1 C8_runs_wrapped_once (U "<h2>To do</h2>" ++ [LF]) (U "write")
                [U "<em>test</em>"] (LF :: LF :: U "Done.")) as H.
  rewrite <- app_assoc in H. cbn [app] in H. rewrite H.
  - destruct C8_runs_wrapped_once as (_ & Hid & _).
    cbn [tl]. rewrite (Hid (LF :: U "Done.")) by reflexivity. reflexivity.
  - reflexivity.
  - reflexivity.
  - repeat constructor.
  - reflexivity.
Defined.

(** ** C9: the default slug *)

(** C9 holds of the documentation of the code and fails on the code.  When
    the front matter sets no slug, or a falsy one, the slug is the file name
    with its first [.md] removed, the replacement being made with a string
    pattern; that is the file name without its extension when [.md] occurs
    nowhere before the extension, and not in general: for [notes.md.bak.md]
    the slug is [notes.bak.md], not [notes.md.bak]. *)
Theorem C9_first_md_removed :
  (forall stem raw fm,
      parseFrontMatter raw = Ok fm ->
      is_true (fm_data fm !! U "draft") = false ->
      unset (fm_data fm !! U "slug") = true ->
      exists p,
        process_file (stem ++ U ".md", raw) = Ok (Some p)
        /\ slug p = VStr (remove_first (U ".md") (stem ++ U ".md"))
        /\ (occurs (U ".md") stem = false -> slug p = VStr stem))
  /\ (exists p,
         process_file (U "notes.md.bak.md", []) = Ok (Some p)
         /\ slug p = VStr (U "notes.bak.md")
         /\ slug p <> VStr (U "notes.md.bak")).
Proof.
  split.
  - intros stem raw fm Hp Hd Hs. unfold process_file. rewrite Hp, Hd.
    eexists. split; [reflexivity|]. cbn [slug].
    assert (E : or_default (fm_data fm !! U "slug")
                  (VStr (remove_first (U ".md") (stem ++ U ".md")))
                = VStr (remove_first (U ".md") (stem ++ U ".md"))).
    { unfold or_default, unset in *.
      destruct (fm_data fm !! U "slug") as [v|]; [|reflexivity].
      destruct (truthy v); [discriminate | reflexivity]. }
    rewrite E. split; [reflexivity|].
    intros Hstem. rewrite (remove_first_extension stem Hstem). reflexivity.
  - eexists. split; [vm_compute; reflexivity|].
    split; [reflexivity | discriminate].
Qed.

(** A file [first-post.md] whose front matter sets no slug. *)
Lemma C9_witness :
  exists p,
    process_file (U "first-post.md", doc_a_json) = Ok (Some p)
    /\ slug p = VStr (U "first-post").
Proof.
  destruct (parseFrontMatter doc_a_json) as [fm|e] eqn:E;
    [|vm_compute in E; discriminate].
  destruct (proj1 C9_first_md_removed (U "first-post") doc_a_json fm E)
    as (p & Hp & _ & Hs).
  - vm_compute in E. injection E as <-. reflexivity.
  - vm_compute in E. injection E as <-. reflexivity.
  - exists p. split; [exact Hp | apply Hs; reflexivity].
Defined.

(** ** C10: the fields of a post object *)




(** * Further properties of the code *)

(** ** escapeHtml *)

(** X1: [escapeHtml] works one code unit at a time: an ampersand becomes
    [&amp;], a left angle bracket [&lt;], a right angle bracket [&gt;], and
    any other code unit stays as it is.  The ampersands that the second and
    third replacement write are not escaped again, since the ampersands are
    replaced first.  Hence the function distributes over concatenation. *)
Theorem X1_escapeHtml_per_code_unit :
  (forall s, escapeHtml s = flat_map escape_char s)
  /\ escapeHtml (U "&") = U "&amp;"
  /\ escapeHtml (U "<") = U "&lt;"
  /\ escapeHtml (U ">") = U "&gt;"
  /\ (forall a b, escapeHtml (a ++ b) = escapeHtml a ++ escapeHtml b).
Proof.
  split; [exact escapeHtml_flat_map|].
  repeat (split; [reflexivity|]). exact escapeHtml_app.
Qed.

(** X2: the result of [escapeHtml] holds no angle bracket, whatever the
    input, and is at least as long as the input. *)
Theorem X2_escapeHtml_no_angle_bracket :
  forall s,
    forallb (fun c : char => negb ((c =? 60) || (c =? 62))) (escapeHtml s) = true
    /\ (length s <= length (escapeHtml s))%nat.
Proof. intros s. split; [apply escapeHtml_no_angle | apply escapeHtml_length]. Qed.

(** X3: [escapeHtml] loses nothing: two texts have the same escaped form
    only when they are the same text. *)
Theorem X3_escapeHtml_injective :
  forall s t, escapeHtml s = escapeHtml t <-> s = t.
Proof. intros s t. split; [apply escapeHtml_inj | intros ->; reflexivity]. Qed.

(** X4: [escapeHtml] leaves a text as it is exactly when the text holds no
    ampersand and no angle bracket, and escaping twice gives the same as
    escaping once exactly for those texts: on any other text the second
    pass escapes the ampersands written by the first. *)
Theorem X4_escapeHtml_twice :
  forall s,
    (escapeHtml s = s
     <-> forallb (fun c : char => negb (is_html_special c)) s = true)
    /\ (escapeHtml (escapeHtml s) = escapeHtml s
        <-> forallb (fun c : char => negb (is_html_special c)) s = true).
Proof.
  intros s. split; split.
  - apply escapeHtml_fixed.
  - apply escapeHtml_plain.
  - intros H. apply escapeHtml_fixed, escapeHtml_inj, H.
  - intros H. rewrite (escapeHtml_plain s H). apply escapeHtml_plain, H.
Qed.

(** ** parseFrontMatter *)

(** X5: for a document made of the line [---], a block, a line [---]
    and a body, each of the three lines ended by a line feed or by a
    carriage return and a line feed, the lines of the block are the lines
    that are read for metadata and the content is the body, whatever the
    body holds, further lines [---] included.  The block holds no line
    feed followed by [---]; when its last line is ended by a line feed
    alone, it does not end with a carriage return. *)
Theorem X5_front_matter_split :
  forall cr1 cr2 cr3 yaml body,
    (cr1 = [] \/ cr1 = [CR]) -> (cr2 = [] \/ cr2 = [CR]) ->
    (cr3 = [] \/ cr3 = [CR]) ->
    occurs (LF :: U "---") yaml = false ->
    (cr2 = [] -> ends_with [CR] yaml = false) ->
    block_lines
      (U "---" ++ cr1 ++ LF :: yaml ++ cr2 ++ LF :: U "---" ++ cr3 ++ LF :: body)
    = split_char LF yaml
    /\ parseFrontMatter
         (U "---" ++ cr1 ++ LF :: yaml ++ cr2 ++ LF :: U "---" ++ cr3 ++ LF :: body)
       = match scan (split_char LF yaml) ∅ with
         | Ok data => Ok (FrontMatter data body)
         | Throw e => Throw e
         end.
Proof.
  intros cr1 cr2 cr3 yaml body H1 H2 H3 Hocc Hend.
  unfold block_lines, parseFrontMatter.
  destruct (FM_REGEX_exact_eol cr1 cr2 cr3 yaml body H1 H2 H3 Hocc Hend)
    as (m & -> & -> & ->).
  split; reflexivity.
Qed.

(** A file with Windows line ends: a title and a date, then a body with a
    horizontal rule of its own. *)
Lemma X5_witness :
  parseFrontMatter
    (U "---" ++ CR :: LF :: U "title: Hello" ++ CR :: LF :: U "date: 2024-01-01"
     ++ CR :: LF :: U "---" ++ CR :: LF :: U "# Hi" ++ CR :: LF :: U "---"
     ++ CR :: LF :: U "end")
  = Ok (FrontMatter {[ U "title" := VStr (U "Hello");
                       U "date" := VStr (U "2024-01-01") ]}
                    (U "# Hi" ++ CR :: LF :: U "---" ++ CR :: LF :: U "end")).
Proof.
  pose proof (X5_front_matter_split [CR] [CR] [CR]
                (U "title: Hello" ++ CR :: LF :: U "date: 2024-01-01")
                (U "# Hi" ++ CR :: LF :: U "---" ++ CR :: LF :: U "end")) as H.
  destruct H as [_ H];
    [right; reflexivity | right; reflexivity | right; reflexivity
    | reflexivity | discriminate |].
  etransitivity; [exact H|]. vm_compute. reflexivity.
Defined.

(** X6: [parseFrontMatter] throws, a SyntaxError, exactly when some line
    of the block is a [key: value] line whose value starts with a bracket
    and is not, once its single quotes are replaced by double quotes, a JSON
    array; a document without a block never throws. *)
Theorem X6_throws_iff_malformed_flow_array :
  forall raw,
    (parseFrontMatter raw = Throw SyntaxError
     <-> existsb malformed_flow (block_lines raw) = true)
    /\ ((exists e, parseFrontMatter raw = Throw e)
        <-> parseFrontMatter raw = Throw SyntaxError).
Proof.
  intros raw. split; [apply parseFrontMatter_throw_iff|]. split.
  - intros [e H]. rewrite H. f_equal. eapply parseFrontMatter_throw, H.
  - eauto.
Qed.

(** X7: the metadata hold a key only if a line of the block is a
    [key: value] line for it; in particular a file is skipped as a draft
    only if a line of its block sets [draft]. *)
Theorem X7_keys_come_from_lines :
  (forall raw fm key,
      parseFrontMatter raw = Ok fm ->
      existsb (sets_key key) (block_lines raw) = false ->
      fm_data fm !! key = None)
  /\ (forall filename raw,
         process_file (filename, raw) = Ok None ->
         existsb (sets_key (U "draft")) (block_lines raw) = true).
Proof.
  assert (H1 : forall raw fm key,
             parseFrontMatter raw = Ok fm ->
             existsb (sets_key key) (block_lines raw) = false ->
             fm_data fm !! key = None).
  { intros raw fm key. unfold parseFrontMatter, block_lines.
    destruct (search false FM_REGEX None raw) as [m|].
    - destruct (scan _ _) as [d|e] eqn:E; [|discriminate].
      intros [= <-] Hk. cbn [fm_data]. rewrite (scan_absent key _ _ _ Hk E).
      apply lookup_empty.
    - intros [= <-] _. apply lookup_empty. }
  split; [exact H1|].
  intros filename raw. unfold process_file.
  destruct (parseFrontMatter raw) as [fm|e] eqn:E; [|discriminate].
  destruct (existsb (sets_key (U "draft")) (block_lines raw)) eqn:Ex; [reflexivity|].
  rewrite (H1 raw fm (U "draft") E Ex). discriminate.
Qed.

Lemma X7_witness :
  parsed_key doc_a_json (U "draft") = None.
Proof.
  unfold parsed_key.
  destruct (parseFrontMatter doc_a_json) as [fm|e] eqn:E; [|reflexivity].
  apply (proj1 X7_keys_come_from_lines doc_a_json fm (U "draft") E).
  vm_compute. reflexivity.
Defined.

(** X8: the value of a key, any key but [__proto__], is the one given by
    the last line of the block that sets it: the value read from that line,
    or, when the line has no value, the array of the item lines that follow
    it.  Under the key [__proto__] the object gets no property of its own,
    whatever the lines of the block say. *)
Theorem X8_last_line_decides :
  (forall raw fm key before line after,
      parseFrontMatter raw = Ok fm ->
      block_lines raw = before ++ line :: after ->
      sets_key key line = true ->
      existsb (sets_key key) after = false ->
      key <> U "__proto__" ->
      fm_data fm !! key = line_value line after)
  /\ (forall raw fm,
         parseFrontMatter raw = Ok fm -> fm_data fm !! U "__proto__" = None).
Proof.
  split; [|exact parseFrontMatter_proto].
  intros raw fm key before line after. unfold parseFrontMatter, block_lines.
  destruct (search false FM_REGEX None raw) as [m|].
  - destruct (scan _ _) as [d|e] eqn:E; [|discriminate].
    intros [= <-] Hl Hs Ha Hp. cbn [fm_data]. rewrite Hl in E.
    apply (scan_last_line key before line after ∅ d Hs Ha Hp E).
  - intros _ Hl. destruct before; discriminate.
Qed.

(** A block that sets the title twice. *)
Lemma X8_witness :
  parsed_key (unlines [U "---"; U "title: one"; U "date: 2024-01-01";
                       U "title: two"; U "---"; U "text"]) (U "title")
  = Some (VStr (U "two")).
Proof.
  unfold parsed_key.
  destruct (parseFrontMatter _) as [fm|e] eqn:E; [|vm_compute in E; discriminate].
  rewrite (proj1 X8_last_line_decides _ fm (U "title")
             [U "title: one"; U "date: 2024-01-01"] (U "title: two") [] E);
    try reflexivity.
  discriminate.
Defined.

(** X9: a line made of a key (a word character, then word characters and
    hyphens), a colon and a value without line terminators, with or without
    a carriage return at its end, is a [key: value] line for that key whose
    value is the text after the colon, trimmed; a line that does not begin
    with a word character (an empty line, an indented line, a comment) is
    no [key: value] line. *)
Theorem X9_key_lines :
  (forall key v cr,
      is_key key = true ->
      forallb is_dot v = true ->
      (cr = [] \/ cr = [CR]) ->
      exists m,
        keyMatch (key ++ 58 :: v ++ cr) = Some m
        /\ group 1 (groups m) = key
        /\ trim (group 2 (groups m)) = trim v)
  /\ (forall line,
         match line with c :: _ => is_word c = false | [] => True end ->
         keyMatch line = None).
Proof. split; [exact keyMatch_line | exact keyMatch_not_word]. Qed.

(** A line of a file with Windows line ends. *)
Lemma X9_witness :
  exists m,
    keyMatch (U "read-time:   5 min  " ++ [CR]) = Some m
    /\ group 1 (groups m) = U "read-time"
    /\ trim (group 2 (groups m)) = U "5 min".
Proof.
  destruct (proj1 X9_key_lines (U "read-time") (U "   5 min  ") [CR])
    as (m & Hm & H1 & H2); [reflexivity | reflexivity | auto |].
  exists m. split; [exact Hm|]. split; [exact H1|].
  rewrite H2. vm_compute. reflexivity.
Defined.

(** X10: a [key:] line without a value stores the array of the item lines
    that follow it directly, in order, and the loop goes on at the first
    line that is not an item; item lines met anywhere else are passed over,
    so the items that follow an interruption of the array are lost. *)
Theorem X10_block_arrays :
  (forall line km items rest data,
      keyMatch line = Some km ->
      trim (group 2 (groups km)) = [] ->
      forallb is_item items = true ->
      match rest with [] => True | r :: _ => is_item r = false end ->
      scan (line :: items ++ rest) data
      = scan rest (obj_set (group 1 (groups km)) (VArr (map item_of items)) data))
  /\ (forall items rest data,
         forallb is_item items = true ->
         scan (items ++ rest) data = scan rest data).
Proof. split; [exact scan_block_array | exact scan_orphan_items]. Qed.

(** An array interrupted by a comment. *)
Lemma X10_witness :
  scan [U "tags:"; U "  - a"; U "  - b"; U "# more"; U "  - c"] ∅
  = Ok {[ U "tags" := VArr [JStr (U "a"); JStr (U "b")] ]}.
Proof.
  destruct X10_block_arrays as [Harr _].
  rewrite (Harr (U "tags:") (RMatch (U "tags:") [(2%nat, []); (1%nat, U "tags")] [])
             [U "  - a"; U "  - b"] [U "# more"; U "  - c"] ∅);
    reflexivity.
Defined.

(** X11: a value is stored as a boolean exactly when its trimmed text is
    the bare word [true] or [false]; a quoted or capitalised form gives a
    string, which is not a draft or a featured mark. *)
Theorem X11_bare_booleans :
  forall rest b,
    scalar_of rest = Some (VBool b) <-> rest = if b then U "true" else U "false".
Proof. exact scalar_of_bool. Qed.

(** X12: the date pattern accepts exactly the texts of four digits, a
    hyphen, two digits, a hyphen and two digits, whatever month and day
    they name, and such a value is stored as the same text. *)
Theorem X12_dates :
  (forall s, test false DATE_REGEX s = date_shape s)
  /\ (forall s, date_shape s = true -> scalar_of s = Some (VStr s)).
Proof. split; [exact test_date_shape | exact scalar_of_date]. Qed.

Lemma X12_witness : scalar_of (U "2024-13-45") = Some (VStr (U "2024-13-45")).
Proof. apply (proj2 X12_dates). reflexivity. Defined.

(** X13: in a flow array single and double quotes are the same: the value
    read from a text that starts with a bracket is the one read from the
    text with every single quote replaced by a double quote.  The array
    written with its items between quotes of either kind, a comma and a
    blank between two items, is stored as the array of the items. *)
Theorem X13_flow_arrays :
  (forall rest,
      starts_with (U "[") rest = true ->
      scalar_of (to_double_quotes rest) = scalar_of rest)
  /\ (forall q items,
         is_quote q = true ->
         Forall (fun t => forallb flow_plain t = true) items ->
         scalar_of (flow_text q items) = Some (VArr (map JStr items))).
Proof. split; [exact scalar_of_quotes | exact scalar_of_flow]. Qed.

Lemma X13_witness :
  scalar_of (U "['web', 'static sites']")
  = Some (VArr [JStr (U "web"); JStr (U "static sites")]).
Proof.
  apply (proj2 X13_flow_arrays SQ [U "web"; U "static sites"]); [reflexivity|].
  repeat constructor.
Defined.

(** ** markdownToHtml *)

(** X14: a document made of headings of level one to four and of
    paragraphs of running text, two line feeds or more between two blocks,
    renders block by block, one line feed between two elements: a heading
    line becomes the heading element of its level, and nothing is put around
    it; a paragraph becomes one [p] element in which its lines are joined by
    a blank.  Running text holds no backtick, no asterisk, no left bracket
    and no left angle bracket, and none of its lines begins with a number
    sign, a hyphen or white space or ends with white space. *)
Theorem X14_documents :
  forall k b bs,
    forallb block_ok (b :: bs) = true ->
    markdownToHtml (document k (b :: bs)) = join [LF] (map block_html (b :: bs)).
Proof. exact markdownToHtml_document. Qed.

(** A title, a paragraph of two lines, a heading of level two and a
    paragraph; three line feeds before the second heading. *)
Lemma X14_witness :
  markdownToHtml
    (U "# My post" ++ LF :: LF :: U "A well-known fact," ++ LF
     :: U "stated in 2 lines." ++ LF :: LF :: U "## Issue #7" ++ LF :: LF
     :: U "It is fixed.")
  = U "<h1>My post</h1>" ++ LF
    :: U "<p>A well-known fact, stated in 2 lines.</p>" ++ LF
    :: U "<h2>Issue #7</h2>" ++ LF :: U "<p>It is fixed.</p>".
Proof.
  apply (X14_documents 0 (Heading 1 (U "My post"))
           [Paragraph [U "A well-known fact,"; U "stated in 2 lines."];
            Heading 2 (U "Issue #7"); Paragraph [U "It is fixed."]]).
  reflexivity.
Defined.

(** X15: there are four levels of headings.  A line of five number signs
    or more, a blank and a text is no heading: it renders as a paragraph
    that begins with the number signs. *)
Theorem X15_five_number_signs :
  forall n t,
    (4 < n)%nat -> heading_text t = true -> ends_space t = false ->
    markdownToHtml (heading_line n t) = U "<p>" ++ heading_line n t ++ U "</p>".
Proof. exact markdownToHtml_deep_heading. Qed.

Lemma X15_witness :
  markdownToHtml (U "##### Details") = U "<p>##### Details</p>".
Proof.
  apply (X15_five_number_signs 5 (U "Details")); [lia | reflexivity | reflexivity].
Defined.

(** X16: in a line of running text, a text between one, two or three
    asterisks on each side becomes an [em] element, a [strong] element or
    an [em] element in a [strong] element, and the line renders as one
    paragraph. *)
Theorem X16_emphasis :
  forall n pre t post,
    (1 <= n <= 3)%nat ->
    text_before pre = true -> span_text t = true -> text_after post = true ->
    markdownToHtml (pre ++ (stars n ++ t ++ stars n) ++ post)
    = U "<p>" ++ pre ++ em_element n t ++ post ++ U "</p>".
Proof. exact markdownToHtml_emphasis. Qed.

Lemma X16_witness :
  markdownToHtml (U "Some **bold** text.") = U "<p>Some <strong>bold</strong> text.</p>".
Proof.
  apply (X16_emphasis 2 (U "Some ") (U "bold") (U " text.")); try reflexivity. lia.
Defined.

(** X17: in a line of running text, a link [[t](u)] whose text [t] and
    whose target [u] are running text, the one without a right bracket and
    the other without a right parenthesis, becomes an [a] element whose
    [href] is [u] and whose content is [t].  Running text holds no
    backtick, no asterisk, no left bracket and no left angle bracket.  The
    restriction is needed: the passes that run before the link pass rewrite
    a target as they rewrite any text, and the link [[t](a*b*c)] gets the
    [href] [a<em>b</em>c]. *)
Theorem X17_links :
  (forall pre t u post,
      text_before pre = true ->
      link_part 93 t = true -> link_part 41 u = true ->
      text_after post = true ->
      markdownToHtml (pre ++ link_text t u ++ post)
      = U "<p>" ++ pre ++ a_element t u ++ post ++ U "</p>")
  /\ markdownToHtml (U "See [t](a*b*c).")
     = U "<p>See <a href=" ++ quoted (U "a<em>b</em>c") ++ U ">t</a>.</p>".
Proof. split; [exact markdownToHtml_link | vm_compute; reflexivity]. Qed.

Lemma X17_witness :
  markdownToHtml (U "See [the docs](https://example.org/a-b#top) first.")
  = U "<p>See <a href=" ++ quoted (U "https://example.org/a-b#top")
    ++ U ">the docs</a> first.</p>".
Proof.
  apply (proj1 X17_links (U "See ") (U "the docs")
           (U "https://example.org/a-b#top") (U " first.")); reflexivity.
Defined.

(** X18: in a line of running text, code between two backticks that
    holds no backtick, no asterisk, no left bracket and no line terminator
    becomes a [code] element whose content is the code with its ampersands
    and angle brackets escaped.  The restriction is needed: the passes that
    run after the code pass rewrite the content of the element as they
    rewrite any text, and the code [a * b * c] becomes
    [<code>a <em> b </em> c</code>]. *)
Theorem X18_inline_code :
  (forall pre c post,
      text_before pre = true -> code_text c = true -> text_after post = true ->
      markdownToHtml (pre ++ code_span c ++ post)
      = U "<p>" ++ pre ++ code_element c ++ post ++ U "</p>")
  /\ markdownToHtml (U "Use `a * b * c` here.")
     = U "<p>Use <code>a <em> b </em> c</code> here.</p>".
Proof. split; [exact markdownToHtml_code | vm_compute; reflexivity]. Qed.

Lemma X18_witness :
  markdownToHtml (U "Use `a < b && c` here.")
  = U "<p>Use <code>a &lt; b &amp;&amp; c</code> here.</p>".
Proof.
  apply (proj1 X18_inline_code (U "Use ") (U "a < b && c") (U " here."));
    reflexivity.
Defined.

(** X19: a fenced code block, the language on the line of the opening
    fence, becomes one [pre] element that holds one [code] element: the
    class of the [code] element is the language after [language-], and
    there is no class when no language is given; the content is the code
    with its ampersands and angle brackets escaped, its lines kept; no [p]
    element is put around it.  This holds for code without backtick,
    asterisk or left bracket, in which no line is empty or begins with a
    number sign or a hyphen, and which neither begins nor ends with white
    space. *)
Theorem X19_fenced_code_block :
  forall lang c,
    forallb is_word lang = true -> block_code c = true ->
    markdownToHtml (code_fence lang c) = pre_element lang c.
Proof. exact markdownToHtml_code_block. Qed.

Lemma X19_witness :
  markdownToHtml
    (U "```js" ++ LF :: U "if (a < b) {" ++ LF :: U "  return a && b;" ++ LF
     :: U "}" ++ LF :: U "```")
  = U "<pre><code class=" ++ quoted (U "language-js") ++ U ">if (a &lt; b) {"
    ++ LF :: U "  return a &amp;&amp; b;" ++ LF :: U "}</code></pre>".
Proof.
  apply (X19_fenced_code_block (U "js")
           (U "if (a < b) {" ++ LF :: U "  return a && b;" ++ LF :: U "}"));
    reflexivity.
Defined.

(** X20: a text that is one line of hyphens is a rule, [<hr>], exactly
    when the hyphens are three; a line of one, two, four or more hyphens
    is a paragraph. *)
Theorem X20_rule_is_three_hyphens :
  forall n,
    (1 <= n)%nat ->
    markdownToHtml (hyphens n)
    = if (n =? 3)%nat then U "<hr>" else U "<p>" ++ hyphens n ++ U "</p>".
Proof. exact markdownToHtml_hyphens. Qed.

Lemma X20_witness :
  markdownToHtml (U "---") = U "<hr>"
  /\ markdownToHtml (U "----") = U "<p>----</p>".
Proof.
  split.
  - apply (X20_rule_is_three_hyphens 3). lia.
  - apply (X20_rule_is_three_hyphens 4). lia.
Defined.

(** X21: an HTML tag written in a line of running text is copied to the
    output as it is, its angle brackets not escaped, when what stands
    between the angle brackets is running text (no backtick, no asterisk,
    no left bracket, no left angle bracket and no line terminator) that
    does not begin with one of the letters h, u, o, l, p and b.  The
    restriction is needed: the passes rewrite what stands between the
    angle brackets as they rewrite any text, and the tag [<a title=*x*>]
    becomes [<a title=<em>x</em>>]. *)
Theorem X21_html_is_not_escaped :
  (forall pre body post,
      text_before pre = true -> tag_body body = true -> text_after post = true ->
      markdownToHtml (pre ++ html_tag body ++ post)
      = U "<p>" ++ pre ++ html_tag body ++ post ++ U "</p>")
  /\ markdownToHtml (U "An <a title=*x*> tag")
     = U "<p>An <a title=<em>x</em>> tag</p>".
Proof. split; [exact markdownToHtml_html | vm_compute; reflexivity]. Qed.

Lemma X21_witness :
  markdownToHtml (U "Click <img src=x onerror=alert(1)> now")
  = U "<p>Click <img src=x onerror=alert(1)> now</p>".
Proof.
  apply (proj1 X21_html_is_not_escaped (U "Click ")
           (U "img src=x onerror=alert(1)") (U " now")); reflexivity.
Defined.

(** X22: the blocks of a document are told apart by empty lines only.
    When headings and paragraphs follow one another with a single line feed
    between them, the whole is one block.  If it begins with a heading, it
    is left as it is once the headings are replaced: the lines of text
    after the heading are in no [p] element.  If it begins with text, it
    becomes one [p] element that holds all the lines, joined by blanks, the
    heading elements among them. *)
Theorem X22_blocks_need_empty_lines :
  forall b bs,
    forallb block_ok (b :: bs) = true ->
    markdownToHtml (join [LF] (map block_text (b :: bs)))
    = match b with
      | Heading _ _ => join [LF] (concat (map html_lines (b :: bs)))
      | Paragraph _ =>
          U "<p>" ++ join (U " ") (concat (map html_lines (b :: bs))) ++ U "</p>"
      end.
Proof. exact markdownToHtml_run_on. Qed.

Lemma X22_witness :
  markdownToHtml (U "# Title" ++ LF :: U "Some text.")
  = U "<h1>Title</h1>" ++ LF :: U "Some text."
  /\ markdownToHtml (U "Some text." ++ LF :: U "# Title")
     = U "<p>Some text. <h1>Title</h1></p>".
Proof.
  split.
  - apply (X22_blocks_need_empty_lines (Heading 1 (U "Title"))
             [Paragraph [U "Some text."]]). reflexivity.
  - apply (X22_blocks_need_empty_lines (Paragraph [U "Some text."])
             [Heading 1 (U "Title")]). reflexivity.
Defined.

(** X23: a text with Windows line ends is one block, since a carriage
    return stands between any two line feeds: paragraphs of running text
    separated by empty lines are not told apart.  The whole becomes one
    [p] element in which every line feed is replaced by a blank and every
    carriage return is kept. *)
Theorem X23_windows_line_ends :
  forall ls,
    crlf_lines ls = true ->
    markdownToHtml (join [CR; LF] ls) = U "<p>" ++ join [CR; 32] ls ++ U "</p>".
Proof. exact markdownToHtml_crlf. Qed.

(** Two paragraphs, an empty line between them. *)
Lemma X23_witness :
  markdownToHtml (U "First paragraph." ++ CR :: LF :: CR :: LF :: U "Second one.")
  = U "<p>First paragraph." ++ CR :: 32 :: CR :: 32 :: U "Second one.</p>".
Proof.
  apply (X23_windows_line_ends [U "First paragraph."; []; U "Second one."]).
  reflexivity.
Defined.

(** ** generateJson *)


(** X25: the output does not depend on the order in which the directory
    is listed, when the dates of the posts are strings and no two posts
    have the same date: a run on the same entries in another order gives
    the same array. *)
Theorem X25_order_of_the_listing :
  forall lt_mixed entries entries' out,
    Permutation entries entries' ->
    generateJson lt_mixed (Some entries) = Ok out ->
    Forall has_string_date out -> List.NoDup (map date out) ->
    generateJson lt_mixed (Some entries') = Ok out.
Proof. exact generateJson_perm. Qed.

(** The three posts of the specification, listed in reverse. *)
Lemma X25_witness :
  exists out,
    generateJson lt_unordered (Some three_posts) = Ok out
    /\ generateJson lt_unordered (Some (rev three_posts)) = Ok out.
Proof.
  destruct (generateJson lt_unordered (Some three_posts)) as [out|e] eqn:E;
    [|vm_compute in E; discriminate].
  exists out. split; [reflexivity|].
  apply (X25_order_of_the_listing lt_unordered three_posts (rev three_posts) out
           (Permutation_rev three_posts) E);
    vm_compute in E; injection E as <-.
  - repeat constructor; eexists; reflexivity.
  - repeat constructor; cbn; intuition discriminate.
Defined.
